(* ===== verification/_CoqProject ===== *)
-Q . S2P
Prelude.v
Ring.v
Monad.v
Riscv.v
Types.v
Mem.v
Spinlock.v
Kalloc.v
Vm.v
VmSpec.v
Proc.v
ProcSpec.v
UserMem.v
Sleeplock.v
Uart.v
Printf.v
Console.v
ConsoleSpec.v
Virtio.v
Bio.v
BioSpec.v
Cache.v
VirtioSpec.v
Log.v
LogSpec.v
LogOps.v
Txn.v
Fs.v
FsSpec.v
InodeSpec.v
DirSpec.v
PathSpec.v
Pipe.v
PipeSpec.v
File.v
ProcLife.v
FileSpec.v
Exec.v
Sysfile.v
Trap.v
Asm.v
SyscallSpec.v
Initcode.v
User.v
Ulib.v
Grep.v
Utils.v
Files.v
Umalloc.v
Procs.v
Grind.v
Mkfs.v
Sh.v
TestsFs.v
TestsProc.v
KernelRun.v
