(* ===== verification/Prelude.v ===== *)
(** * A verification library for xv6

    The program is the xv6 teaching operating system for RISC-V with its labs: a kernel in C and
    assembly (src/kernel), user programs (src/user) and the program that
    builds a file-system image (src/mkfs).  Every definition below that carries the name of a C function, structure or macro is a
    translation of it; what has no counterpart in the source is specification or proof.

    ** How the code is modelled

    C integers are [Z], and every expression that can wrap is reduced to the width of its type
    ([u8] .. [u64], [i16] .. [i64] of this file).  The kernel is a state-passing monad ([Monad.v]) over one record
    [kstate] ([Types.v]) with a field for each global variable: physical memory is a map of
    bytes, tables are lists, C strings are byte lists.  A computation ends in [Ok], in [Panic] (with the
    message), in [Spin] (waiting for another hart), in [Swtch] (the call of [swtch] in [sched],
    with the rest of the kernel thread as its continuation) or in [NoFuel].  Loops without a structural bound run at most 2^64 times
    ([loop]); [NoFuel] is what is left then, and the total-correctness judgement
    [wp] excludes it, so that every theorem stated with [wp] or with an equation to [Ok] shows that the code returns.  User
    programs are trees of system calls ([User.v]) with the same bound on loops, and [wpu] is their judgement.

    Code that is not in the source, and hardware, is a parameter: link-time symbols ([Symbols]), the disk
    ([DiskDriver], [DiskLaws]), the address macro of page-table entries ([PteFormat], [PteLaws], which the
    format of the RISC-V manual satisfies and the macro of riscv.h does not), the kernel as user programs see it ([World], [Streams],
    [Sbrk]), the address translation of the processor and the C functions that assembly calls ([Asm.v]).
    Each class has an instance, and each theorem with hypotheses a witness.

    ** The files

    - [Prelude], [Ring], [Monad], [UserMem], [Txn], [Cache]: shared by the components: integers and bytes, ring buffers, the
      monad, user memory seen from the kernel, transactions, the block cache as an abstract disk.
    - [Riscv] (riscv.h, memlayout.h, param.h), [Types] (the structures of the headers), [Mem] (string.c).
    - [Spinlock] (spinlock.c): the calls on one hart, and a step relation of interleaved harts for mutual exclusion.
    - [Kalloc] (kalloc.c); [Vm], [VmSpec] (vm.c): page tables in bytes of memory, the Sv39 walk, copies.
    - [Proc], [ProcLife] (proc.c), [ProcSpec] (sleep, wakeup, scheduler), [FileSpec] (file table, wait), [Sleeplock] (sleeplock.c).
    - [Uart], [Printf], [Console], [ConsoleSpec] (uart.c, printf.c, console.c).
    - [Virtio], [VirtioSpec] (virtio_disk.c), [Bio], [BioSpec] (bio.c), [Log], [LogSpec], [LogOps] (log.c).
    - [Fs], [FsSpec], [InodeSpec], [DirSpec], [PathSpec] (fs.c): allocation of blocks, inodes, contents of files,
      directories, path names.
    - [Pipe], [PipeSpec] (pipe.c), [File] (file.c), [Exec] (exec.c), [Sysfile] (syscall.c, sysproc.c, sysfile.c),
      [Trap] (trap.c, plic.c, start.c, main.c).
    - [Asm] (entry.S, swtch.S, trampoline.S, kernelvec.S), [SyscallSpec] (usys.pl, syscall.h, and the path of a system call),
      [Initcode] (initcode.S and the array of proc.c).
    - [User] (user.h), [Ulib] (ulib.c, printf.c), [Umalloc] (umalloc.c), [Grep], [Utils], [Files], [Procs], [Grind], [Sh]
      (the programs), [Mkfs] (mkfs.c).
    - [TestsFs], [TestsProc] (usertests.c): the tests of files, and those of processes and memory with the runner.
    - [KernelRun]: a process on a small booted system, whose calls go through [syscall]; it runs user programs on the kernel.

    ** What the theorems show

    - Crash safety: a crash at any write of [commit] leaves a disk from which recovery installs either all blocks of the transaction
      or none; recovery can itself be interrupted and repeated; [log_write] absorbs repeated writes; the
      reservations of [begin_op] exceed the log.
    - The stack of storage: the interrupt-driven driver implements synchronous reads and writes; the buffer cache is an LRU ring
      with one buffer per block; the bitmap allocator, the inode table and the inodes on disk, [readi] over
      direct and indirect blocks, the cache of inodes, and [namex] against a resolution of paths on the abstract directory tree.
    - Memory: the free list as a stack; [mappages], [walkaddr] against the Sv39 tree; [copyin], [copyout], [copyinstr]
      against byte-by-byte references; user [malloc] and [free].
    - Concurrency and waiting: mutual exclusion under every interleaving; no lost wakeup in [sleep]; pipes and the
      console as queues that block exactly when they must; [wait]; the reference counts of files.
    - The border between user and kernel: [uservec] and [userret] save and restore every register, [swtch] and
      [kernelvec] likewise, the timer interrupt, widths of registers, and a system call from its stub to the handler and back.
    - The whole system: seventeen tests of usertests.c, short ones of one process, pass on the
      kernel, from the table of system calls down to the blocks of the disk, and leave nothing behind.
    - User programs: the shell's parser against a printer, the matcher of grep against the meaning of patterns, [xargs], ping-pong under
      every schedule.
    - Faults: theorems that exhibit the bugs listed among the findings (the PTE macro, the log reservation, writes from
      memory that is not mapped, the allocator, mkfs).

    ** Bounds

    Loops of the source with a constant bound ([for_]) run exactly that often.  [loop] and [pwhile] run up to 2^64 times, more than
    any counter of the program can count.  The recursion of [find], the parser of the shell and the matcher takes its depth, the length
    of the input, as fuel, and the theorems show that it is enough.  The exploration of schedules in [Procs] takes
    its depth as a number and is proved to cover all schedules when it succeeds.

    ** Not modelled

    - ramdisk.c, which does not compile with the rest of the kernel, and kernel.ld.
    - defs.h, date.h and the parts of riscv.h that only wrap one instruction in a C function: declarations.
    - Instruction fetch and the translation of addresses by the hardware are parameters of [Asm]; the interleaving of harts is modelled
      for spin locks, that of kernel threads at [swtch].  Interrupts are modelled at their entry points, not between any
      two instructions of C code.
    - User programs fetch no instructions: where a test of usertests.c unmaps its own code, the fault that follows is not an event.
    - The Makefile and the grading scripts, which are not part of the system. *)

From stdpp Require Import prelude gmap strings list list_numbers.
From Stdlib Require Import ZArith Lia.

#[global] Open Scope Z_scope.

(** ** C integers

    A w-bit unsigned integer is a [Z] in [0, 2^w); every C expression whose
    type can wrap is written with the reduction of its type. *)

Declare Scope cint_scope.
Delimit Scope cint_scope with cint.

Definition u8 (x : Z) : Z := x mod 2 ^ 8.
Definition u16 (x : Z) : Z := x mod 2 ^ 16.
Definition u32 (x : Z) : Z := x mod 2 ^ 32.
Definition u64 (x : Z) : Z := x mod 2 ^ 64.
(** Two's complement reduction to [short], [int] and [long]. *)
Definition i16 (x : Z) : Z := (x + 2 ^ 15) mod 2 ^ 16 - 2 ^ 15.
Definition i32 (x : Z) : Z := (x + 2 ^ 31) mod 2 ^ 32 - 2 ^ 31.
Definition i64 (x : Z) : Z := (x + 2 ^ 63) mod 2 ^ 64 - 2 ^ 63.

(** [~x] on 64 bits. *)
Definition lnot64 (x : Z) : Z := Z.lxor x (2 ^ 64 - 1).

(** C truth values. *)
Definition b2z (b : bool) : Z := if b then 1 else 0.

Notation "x <>? y" := (negb (x =? y)) (at level 70, no associativity) : Z_scope.

Create HintDb cint.
Create HintDb xv6.

Lemma u32_range x : 0 ≤ u32 x < 2 ^ 32.
Proof. apply Z.mod_pos_bound. lia. Qed.

Lemma u64_range x : 0 ≤ u64 x < 2 ^ 64.
Proof. apply Z.mod_pos_bound. lia. Qed.

Lemma u8_range x : 0 ≤ u8 x < 2 ^ 8.
Proof. apply Z.mod_pos_bound. lia. Qed.

Lemma u16_range x : 0 ≤ u16 x < 2 ^ 16.
Proof. apply Z.mod_pos_bound. lia. Qed.

Lemma u8_small x : 0 ≤ x < 2 ^ 8 → u8 x = x.
Proof. apply Z.mod_small. Qed.

Lemma u16_small x : 0 ≤ x < 2 ^ 16 → u16 x = x.
Proof. apply Z.mod_small. Qed.

Lemma u32_small x : 0 ≤ x < 2 ^ 32 → u32 x = x.
Proof. apply Z.mod_small. Qed.

Lemma u64_small x : 0 ≤ x < 2 ^ 64 → u64 x = x.
Proof. apply Z.mod_small. Qed.

Lemma i32_small x : - 2 ^ 31 ≤ x < 2 ^ 31 → i32 x = x.
Proof. intros. unfold i32. rewrite Z.mod_small; lia. Qed.

Lemma i32_range x : - 2 ^ 31 ≤ i32 x < 2 ^ 31.
Proof. unfold i32. pose proof (Z.mod_pos_bound (x + 2 ^ 31) (2 ^ 32)). lia. Qed.

#[export] Hint Rewrite u8_small u16_small u32_small u64_small i32_small using lia : cint.

(** ** Bit-level facts *)

Lemma land_ones_mod x n : 0 ≤ n → Z.land x (2 ^ n - 1) = x mod 2 ^ n.
Proof. intros. rewrite <- Z.land_ones by lia. f_equal. rewrite Z.ones_equiv. lia. Qed.

Lemma testbit_bound x n m : 0 ≤ x < 2 ^ n → n ≤ m → Z.testbit x m = false.
Proof.
  intros Hx Hm. destruct (decide (0 ≤ n)); [|rewrite Z.pow_neg_r in Hx by lia; lia].
  rewrite <- (Z.mod_small x (2 ^ n)) by lia.
  apply Z.mod_pow2_bits_high. lia.
Qed.

(** A disjoint [lor] of a shifted and a small number is an addition. *)
Lemma lor_shiftl_add a b n :
  0 ≤ n → 0 ≤ b < 2 ^ n → Z.lor (Z.shiftl a n) b = a * 2 ^ n + b.
Proof.
  intros Hn Hb. pose proof (Z.add_lor_land (Z.shiftl a n) b) as Hadd.
  rewrite <- Z.shiftl_mul_pow2 by lia.
  enough (Z.land (Z.shiftl a n) b = 0) by lia.
  apply Z.bits_inj'. intros m Hm. rewrite Z.land_spec, Z.bits_0.
  destruct (decide (m < n)).
  - rewrite Z.shiftl_spec_low by lia. done.
  - rewrite (testbit_bound b n m) by lia. apply andb_false_r.
Qed.

(** ** Bytes *)

(** The n little-endian bytes of z, and the number they spell. *)
Fixpoint le_split (n : nat) (z : Z) : list Z :=
  match n with
  | O => []
  | S n' => z mod 256 :: le_split n' (z / 256)
  end.

Fixpoint le_join (l : list Z) : Z :=
  match l with
  | [] => 0
  | b :: l' => b + 256 * le_join l'
  end.

Definition is_byte (b : Z) : Prop := 0 ≤ b < 256.

#[export] Instance is_byte_dec b : Decision (is_byte b).
Proof. unfold is_byte. apply _. Defined.

Lemma length_le_split n z : length (le_split n z) = n.
Proof. revert z. induction n; intros; simpl; auto. Qed.

Lemma le_split_bytes n z : Forall is_byte (le_split n z).
Proof.
  revert z. induction n; intros; simpl; constructor; auto.
  apply Z.mod_pos_bound. lia.
Qed.

Lemma le_join_split n z : le_join (le_split n z) = z mod 2 ^ (8 * Z.of_nat n).
Proof.
  revert z. induction n as [|n IH]; intros z; simpl le_split; simpl le_join.
  - change (8 * Z.of_nat 0) with 0. by rewrite Z.mod_1_r.
  - rewrite IH. replace (8 * Z.of_nat (S n)) with (8 + 8 * Z.of_nat n) by lia.
    rewrite Z.pow_add_r by lia. change (2 ^ 8) with 256.
    rewrite Z.rem_mul_r; [lia|lia|]. apply Z.pow_pos_nonneg; lia.
Qed.

Lemma le_join_split_small n z :
  0 ≤ z < 2 ^ (8 * Z.of_nat n) → le_join (le_split n z) = z.
Proof. intros. rewrite le_join_split. apply Z.mod_small. lia. Qed.

Lemma le_split_join l : Forall is_byte l → le_split (length l) (le_join l) = l.
Proof.
  induction 1 as [|b l Hb Hl IH]; [done|]. unfold is_byte in Hb.
  cbn [length le_join le_split]. rewrite (Z.mul_comm 256).
  rewrite Z.mod_add, Z.mod_small, Z.div_add, Z.div_small by lia.
  by rewrite Z.add_0_l, IH.
Qed.

Lemma le_join_range l :
  Forall is_byte l → 0 ≤ le_join l < 2 ^ (8 * Z.of_nat (length l)).
Proof.
  intros H. pose proof (le_join_split (length l) (le_join l)) as E.
  rewrite le_split_join in E by done. rewrite E.
  apply Z.mod_pos_bound. apply Z.pow_pos_nonneg; lia.
Qed.

(** The bytes of a string literal, without the terminating NUL. *)
Fixpoint bytes_of (s : string) : list Z :=
  match s with
  | EmptyString => []
  | String c s' => Z.of_N (Ascii.N_of_ascii c) :: bytes_of s'
  end.

(** ** Arrays *)

Section arrays.
Context {A : Type}.
Implicit Types l k : list A.

(** [slice off n l]: the n elements from index off. *)
Definition slice (off n : nat) (l : list A) : list A := take n (drop off l).

(** [splice off k l]: l with k written from index off on. *)
Definition splice (off : nat) (k l : list A) : list A :=
  take off l ++ k ++ drop (off + length k) l.

Lemma length_slice off n l :
  (off + n ≤ length l)%nat → length (slice off n l) = n.
Proof. intros. unfold slice. rewrite length_take, length_drop. lia. Qed.

Lemma length_splice off k l :
  (off + length k ≤ length l)%nat → length (splice off k l) = length l.
Proof.
  intros. unfold splice. rewrite !length_app, length_take, length_drop. lia.
Qed.

Lemma slice_splice off k l :
  (off + length k ≤ length l)%nat → slice off (length k) (splice off k l) = k.
Proof.
  intros. unfold slice, splice.
  rewrite drop_app_length' by (rewrite length_take; lia).
  apply take_app_length.
Qed.

Lemma lookup_slice off n l (i : nat) :
  (i < n)%nat → slice off n l !! i = l !! (off + i)%nat.
Proof. intros. unfold slice. by rewrite lookup_take_lt, lookup_drop. Qed.

Lemma lookup_splice off k l (i : nat) :
  (off + length k ≤ length l)%nat →
  splice off k l !! i =
    if decide (off ≤ i < off + length k)%nat then k !! (i - off)%nat else l !! i.
Proof.
  intros. unfold splice. case_decide.
  - rewrite lookup_app_r by (rewrite length_take; lia).
    rewrite length_take, lookup_app_l by lia. f_equal. lia.
  - destruct (decide (i < off)%nat).
    + rewrite lookup_app_l by (rewrite length_take; lia). by apply lookup_take_lt.
    + rewrite lookup_app_r by (rewrite length_take; lia).
      rewrite length_take, lookup_app_r by lia. rewrite lookup_drop. f_equal. lia.
Qed.

Lemma slice_ext off n l l' :
  (∀ j, (off ≤ j < off + n)%nat → l !! j = l' !! j) → slice off n l = slice off n l'.
Proof.
  intros E. apply list_eq. intros j. unfold slice. destruct (decide (j < n)%nat).
  - rewrite !lookup_take_lt, !lookup_drop by done. apply E. lia.
  - by rewrite !lookup_take_ge by lia.
Qed.

(** A slice that does not meet the bytes written. *)
Lemma slice_splice_ne off k n off' l :
  (off + length k ≤ length l)%nat → (off' + n ≤ off ∨ off + length k ≤ off')%nat →
  slice off' n (splice off k l) = slice off' n l.
Proof.
  intros Hl Hd. apply slice_ext. intros j Hj. rewrite lookup_splice by done.
  rewrite decide_False by lia. done.
Qed.
End arrays.

Lemma filter_id {A} (P : A → Prop) `{∀ x, Decision (P x)} (l : list A) :
  (∀ x, x ∈ l → P x) → filter P l = l.
Proof.
  induction l as [|x l IH]; intros Hl; [done|].
  rewrite filter_cons_True by (apply Hl; set_solver). f_equal. apply IH. set_solver.
Qed.

(** Little-endian fields of a byte array. *)
Definition get16 (off : Z) (l : list Z) : Z := le_join (slice (Z.to_nat off) 2 l).
Definition get32 (off : Z) (l : list Z) : Z := le_join (slice (Z.to_nat off) 4 l).
Definition get64 (off : Z) (l : list Z) : Z := le_join (slice (Z.to_nat off) 8 l).
Definition put16 (off v : Z) (l : list Z) : list Z := splice (Z.to_nat off) (le_split 2 v) l.
Definition put32 (off v : Z) (l : list Z) : list Z := splice (Z.to_nat off) (le_split 4 v) l.

Lemma length_put32 off v l :
  0 ≤ off → off + 4 ≤ Z.of_nat (length l) → length (put32 off v l) = length l.
Proof. intros. unfold put32. apply length_splice. rewrite length_le_split. lia. Qed.

Lemma length_put16 off v l :
  0 ≤ off → off + 2 ≤ Z.of_nat (length l) → length (put16 off v l) = length l.
Proof. intros. unfold put16. apply length_splice. rewrite length_le_split. lia. Qed.

Lemma get32_put32 off v l :
  0 ≤ off → off + 4 ≤ Z.of_nat (length l) → get32 off (put32 off v l) = v mod 2 ^ 32.
Proof.
  intros. unfold get32, put32. pose proof (slice_splice (Z.to_nat off) (le_split 4 v) l) as E.
  rewrite length_le_split in E. rewrite E by lia. apply le_join_split.
Qed.

Lemma get32_put32_ne off off' v l :
  0 ≤ off → 0 ≤ off' → off + 4 ≤ Z.of_nat (length l) → off' + 4 ≤ off ∨ off + 4 ≤ off' →
  get32 off' (put32 off v l) = get32 off' l.
Proof.
  intros. unfold get32, put32. f_equal. apply slice_splice_ne; rewrite length_le_split; lia.
Qed.

(** ** Proof automation *)

(** Case analysis on the integer comparisons of the goal or of a hypothesis. *)
Ltac zcase :=
  match goal with
  | |- context [Z.eqb ?a ?b] => destruct (Z.eqb_spec a b)
  | |- context [Z.ltb ?a ?b] => destruct (Z.ltb_spec a b)
  | |- context [Z.leb ?a ?b] => destruct (Z.leb_spec a b)
  | H : context [Z.eqb ?a ?b] |- _ => destruct (Z.eqb_spec a b)
  | H : context [Z.ltb ?a ?b] |- _ => destruct (Z.ltb_spec a b)
  | H : context [Z.leb ?a ?b] |- _ => destruct (Z.leb_spec a b)
  end.

(** Decides the boolean comparisons that linear arithmetic settles. *)
Ltac zdec :=
  repeat match goal with
  | |- context [Z.eqb ?a ?b] =>
      first [ rewrite (proj2 (Z.eqb_eq a b)) by lia
            | rewrite (proj2 (Z.eqb_neq a b)) by lia ]
  | |- context [Z.ltb ?a ?b] =>
      first [ rewrite (proj2 (Z.ltb_lt a b)) by lia
            | rewrite (proj2 (Z.ltb_ge a b)) by lia ]
  | |- context [Z.leb ?a ?b] =>
      first [ rewrite (proj2 (Z.leb_le a b)) by lia
            | rewrite (proj2 (Z.leb_gt a b)) by lia ]
  end; cbn [negb andb orb].

(** Linear arithmetic with quotients and remainders by constants. *)
Ltac mlia := Z.div_mod_to_equations; lia.
