(* ===== verification/Ring.v ===== *)
(** * Circular buffers

    The console, the uart driver and the pipes keep bytes in an array of [N]
    places, in which a byte with running index [i] is at place [i % N].  The
    running indices of the console and of the pipes are [uint]s that wrap at 2^32,
    which [N] divides. *)

From stdpp Require Import prelude list.
From Stdlib Require Import ZArith Lia.
From S2P Require Import Prelude.

Section ring.
Context (N : Z) (Npos : 0 < N).

(** [buf[i % N]] *)
Definition ring_at (buf : list Z) (i : Z) : Z := nth (Z.to_nat (i mod N)) buf 0.

(** The bytes [q] are in the buffer from running index [r] on. *)
Definition ring_holds (buf : list Z) (r : Z) (q : list Z) : Prop :=
  ∀ i x, q !! i = Some x → ring_at buf (r + Z.of_nat i) = x.

Lemma ring_at_mod buf i j : i mod N = j mod N → ring_at buf i = ring_at buf j.
Proof. unfold ring_at. by intros ->. Qed.

Lemma ring_holds_mod buf r r' q : r mod N = r' mod N → ring_holds buf r q ↔ ring_holds buf r' q.
Proof.
  intros E. unfold ring_holds. apply forall_proper; intros i. apply forall_proper; intros x.
  by rewrite (ring_at_mod buf (r + Z.of_nat i) (r' + Z.of_nat i)) by (by rewrite <- Zplus_mod_idemp_l, E, Zplus_mod_idemp_l).
Qed.

Lemma ring_holds_nil buf r : ring_holds buf r [].
Proof. intros i x H. by rewrite lookup_nil in H. Qed.

Lemma ring_holds_app buf r q q' :
  ring_holds buf r (q ++ q') ↔ ring_holds buf r q ∧ ring_holds buf (r + Z.of_nat (length q)) q'.
Proof.
  split.
  - intros H. split; intros i x Hi; [apply H; by apply lookup_app_l_Some|].
    rewrite <- Z.add_assoc, <- Nat2Z.inj_add. apply H. rewrite lookup_app_r by lia.
    by replace (length q + i - length q)%nat with i by lia.
  - intros [H1 H2] i x Hi. apply lookup_app_Some in Hi as [Hi|[Hl Hi]]; [by apply H1|].
    apply H2 in Hi. rewrite <- Hi. f_equal. lia.
Qed.

Lemma ring_pop buf r x q :
  ring_holds buf r (x :: q) → ring_at buf r = x ∧ ring_holds buf (r + 1) q.
Proof.
  intros H. split.
  - rewrite <- (H 0%nat x) by done. f_equal. lia.
  - intros i y Hi. rewrite <- (H (S i) y Hi). f_equal. lia.
Qed.

(** The last byte. *)
Lemma ring_last buf r q x : ring_holds buf r (q ++ [x]) → ring_at buf (r + Z.of_nat (length q)) = x.
Proof. intros H%ring_holds_app. destruct H as [_ H]. by apply (ring_pop _ _ x []). Qed.

Lemma ring_insert_ne buf i j x :
  i mod N ≠ j mod N → ring_at (<[Z.to_nat (j mod N) := x]> buf) i = ring_at buf i.
Proof.
  intros H. unfold ring_at. rewrite !nth_lookup, list_lookup_insert_ne; [done|].
  pose proof (Z.mod_pos_bound i N Npos). pose proof (Z.mod_pos_bound j N Npos). lia.
Qed.

Lemma ring_insert_eq buf i j x :
  Z.of_nat (length buf) = N → i mod N = j mod N → ring_at (<[Z.to_nat (j mod N) := x]> buf) i = x.
Proof.
  intros Hb E. unfold ring_at. rewrite E, nth_lookup. pose proof (Z.mod_pos_bound j N Npos).
  rewrite list_lookup_insert_eq by lia. done.
Qed.

Lemma ring_push buf r q e x :
  Z.of_nat (length buf) = N → Z.of_nat (length q) < N → e mod N = (r + Z.of_nat (length q)) mod N →
  ring_holds buf r q → ring_holds (<[Z.to_nat (e mod N) := x]> buf) r (q ++ [x]).
Proof.
  intros Hb Hq Ee H. apply ring_holds_app. split.
  - intros i y Hi. pose proof (lookup_lt_Some _ _ _ Hi). rewrite ring_insert_ne; [by apply H|].
    rewrite Ee. intros Hm. apply (f_equal (λ z, (z - r) mod N)) in Hm. rewrite !Zminus_mod_idemp_l in Hm.
    replace (r + Z.of_nat i - r) with (Z.of_nat i) in Hm by lia.
    replace (r + Z.of_nat (length q) - r) with (Z.of_nat (length q)) in Hm by lia.
    rewrite !Z.mod_small in Hm by lia. lia.
  - intros [|i] y Hi; [|done]. simpl in Hi. simplify_eq. apply ring_insert_eq; [done|]. rewrite Ee. f_equal. lia.
Qed.

(** Running indices kept modulo 2^32. *)
Lemma u32_mod_ring i : 2 ^ 32 mod N = 0 → u32 i mod N = i mod N.
Proof.
  intros Hd. unfold u32. rewrite (Z.div_mod i (2 ^ 32)) at 2 by lia.
  rewrite <- Z.add_mod_idemp_l by lia. rewrite <- Z.mul_mod_idemp_l, Hd, Z.mul_0_l by lia.
  by rewrite Z.mod_0_l, Z.add_0_l by lia.
Qed.
End ring.

(** [uint] indices that are less than 2^32 apart. *)
Lemma u32_diff r n : 0 ≤ r → 0 ≤ n < 2 ^ 32 → u32 (u32 (r + n) - r) = n.
Proof.
  intros. unfold u32. rewrite Zminus_mod_idemp_l. replace (r + n - r) with n by lia. by apply Z.mod_small.
Qed.

Lemma u32_add_idemp a b : u32 (u32 a + b) = u32 (a + b).
Proof. unfold u32. apply Zplus_mod_idemp_l. Qed.

Lemma u32_sub_idemp a b : u32 (u32 a - b) = u32 (a - b).
Proof. unfold u32. apply Zminus_mod_idemp_l. Qed.

Lemma u32_eq_add r n m : 0 ≤ n < 2 ^ 32 → 0 ≤ m < 2 ^ 32 → (u32 (r + n) =? u32 (r + m)) = (n =? m).
Proof.
  intros Hn Hm. destruct (Z.eqb_spec n m) as [->|Hne]; [by rewrite Z.eqb_refl|].
  apply Z.eqb_neq. intros E. apply Hne. apply (f_equal (λ z, u32 (z - r))) in E. rewrite !u32_sub_idemp in E.
  replace (r + n - r) with n in E by lia. replace (r + m - r) with m in E by lia. by rewrite !u32_small in E by lia.
Qed.
