(* ===== verification/Monad.v ===== *)
(** * Effects of C code: state, panic, context switch, loops

    A C function that runs on a state [S] and returns an [A] is a value of
    [M S A].  A call ends in one of five ways, the constructors of
    [outcome]; [Swtch] is the point where [sched()] gives up the processor,
    with the continuation that runs when the scheduler comes back.

    The file also gives the total-correctness logic of the development:
    [wp c Q s] says that [c], run from [s], returns (no panic, no endless
    wait, no exhausted loop bound) in a state that satisfies [Q]. *)

From stdpp Require Import prelude strings.
From Stdlib Require Import ZArith Lia.
From S2P Require Import Prelude.

Inductive outcome (S A : Type) : Type :=
| Ok (a : A) (s : S)                        (** returned [a] *)
| Panic (msg : string)                      (** [panic(msg)]: the kernel stops *)
| Spin (s : S)                              (** busy-waits for another hart or device *)
| Swtch (s : S) (k : S → outcome S A)       (** [swtch()] to the scheduler *)
| NoFuel.                                   (** a loop ran 2^64 times *)

Arguments Ok {S A} a s.
Arguments Panic {S A} msg.
Arguments Spin {S A} s.
Arguments Swtch {S A} s k.
Arguments NoFuel {S A}.

Definition M (S A : Type) : Type := S → outcome S A.

Section monad.
Context {S : Type}.

Definition ret {A} (a : A) : M S A := λ s, Ok a s.

Fixpoint obind {A B} (o : outcome S A) (f : A → M S B) : outcome S B :=
  match o with
  | Ok a s => f a s
  | Panic msg => Panic msg
  | Spin s => Spin s
  | Swtch s k => Swtch s (λ s', obind (k s') f)
  | NoFuel => NoFuel
  end.

Definition bind {A B} (c : M S A) (f : A → M S B) : M S B := λ s, obind (c s) f.

Definition panic {A} (msg : string) : M S A := λ _, Panic msg.
Definition spin {A} : M S A := λ s, Spin s.
Definition swtch : M S unit := λ s, Swtch s (λ s', Ok () s').
Definition nofuel {A} : M S A := λ _, NoFuel.
Definition gets {A} (f : S → A) : M S A := λ s, Ok (f s) s.
Definition modify (f : S → S) : M S unit := λ s, Ok () (f s).

Definition when (b : bool) (c : M S unit) : M S unit := if b then c else ret ().

(** [for(i = lo; i < lo + n; i++) body]: the body returns [Some r] to leave
    the loop with [r] ([return], [goto], [break]). *)
Fixpoint for_ {R} (n i : nat) (body : nat → M S (option R)) : M S (option R) :=
  match n with
  | O => ret None
  | Datatypes.S n' =>
      bind (body i) (λ r, match r with
                          | Some x => ret (Some x)
                          | None => for_ n' (Datatypes.S i) body
                          end)
  end.

(** A loop whose trip count is not bounded by the shape of the data: the body
    maps the loop variables to new ones ([inl]) or leaves ([inr]).  [ploop]
    runs it at most [p] times, halving [p] so that a large bound costs nothing. *)
Fixpoint ploop {X R} (p : positive) (body : X → M S (X + R)) (x : X) : M S (X + R) :=
  match p with
  | xH => body x
  | xO q =>
      bind (ploop q body x) (λ r, match r with
                                  | inl x' => ploop q body x'
                                  | inr y => ret (inr y)
                                  end)
  | xI q =>
      bind (body x) (λ r, match r with
        | inl x' =>
            bind (ploop q body x') (λ r', match r' with
                                          | inl x'' => ploop q body x''
                                          | inr y => ret (inr y)
                                          end)
        | inr y => ret (inr y)
        end)
  end.

Definition loop_bound : positive := (2 ^ 64)%positive.

Definition loop {X R} (body : X → M S (X + R)) (x : X) : M S R :=
  bind (ploop loop_bound body x) (λ r, match r with
                                       | inl _ => nofuel
                                       | inr y => ret y
                                       end).
End monad.

Declare Scope c_scope.
Delimit Scope c_scope with c.
Notation "'let!' x ':=' c 'in' k" := (bind c (λ x, k))
  (at level 200, x pattern, c at level 100, k at level 200,
   format "'[v' 'let!'  x  ':='  c  'in' '/' k ']'") : c_scope.
Notation "c ';;;' k" := (bind c (λ _ : unit, k))
  (at level 100, right associativity, format "'[v' c  ';;;' '/' k ']'") : c_scope.
#[global] Open Scope c_scope.

(** ** Total correctness *)

Section wp.
Context {S : Type}.

Definition wp {A} (c : M S A) (Q : A → S → Prop) (s : S) : Prop :=
  ∃ a s', c s = Ok a s' ∧ Q a s'.

Lemma wp_ok {A} (c : M S A) Q s a s' : c s = Ok a s' → Q a s' → wp c Q s.
Proof. unfold wp. eauto. Qed.

Lemma wp_eval {A} (c : M S A) Q s a s' : c s = Ok a s' → wp c Q s ↔ Q a s'.
Proof. intros E. unfold wp. split; [intros (?&?&?&?); congruence | eauto]. Qed.

Lemma wp_eq {A} (c : M S A) s a s' : wp c (λ b t, b = a ∧ t = s') s → c s = Ok a s'.
Proof. intros (b & t & E & -> & ->). done. Qed.

Lemma wp_mono {A} (c : M S A) (Q R : A → S → Prop) s :
  wp c Q s → (∀ a s', Q a s' → R a s') → wp c R s.
Proof. intros (a&s'&E&H) HR. exists a, s'. eauto. Qed.

Lemma wp_and {A} (c : M S A) (Q R : A → S → Prop) s :
  wp c Q s → wp c R s → wp c (λ a s', Q a s' ∧ R a s') s.
Proof. intros (a&s'&E&H) (b&t&E'&H'). rewrite E in E'. simplify_eq. exists b, t. done. Qed.

Lemma wp_ret {A} (a : A) Q s : wp (ret a) Q s ↔ Q a s.
Proof. by apply wp_eval. Qed.

Lemma wp_gets {A} (f : S → A) Q s : wp (gets f) Q s ↔ Q (f s) s.
Proof. by apply wp_eval. Qed.

Lemma wp_modify f Q s : wp (modify f) Q s ↔ Q () (f s).
Proof. by apply wp_eval. Qed.

Lemma wp_bind {A B} (c : M S A) (f : A → M S B) Q s :
  wp (bind c f) Q s ↔ wp c (λ a s', wp (f a) Q s') s.
Proof.
  unfold wp, bind. split.
  - intros (b&s'&E&H). destruct (c s) as [a s1|msg|s1|s1 k|] eqn:Ec; try discriminate.
    simpl in E. eauto 8.
  - intros (a&s1&Ec&b&s'&E&H). rewrite Ec. simpl. eauto.
Qed.

Lemma wp_when (b : bool) c Q s :
  wp (when b c) Q s ↔ (if b then wp c Q s else Q () s).
Proof. destruct b; simpl; [done|]. apply wp_ret. Qed.

Lemma wp_panic {A} msg (Q : A → S → Prop) s : wp (panic msg) Q s ↔ False.
Proof. unfold wp, panic. split; [intros (?&?&?&_); discriminate|done]. Qed.

Lemma bind_ok {A B} (c : M S A) (f : A → M S B) s a s' :
  c s = Ok a s' → bind c f s = f a s'.
Proof. intros E. unfold bind. by rewrite E. Qed.

Lemma bind_panic {A B} (c : M S A) (f : A → M S B) s msg :
  c s = Panic msg → bind c f s = Panic msg.
Proof. intros E. unfold bind. by rewrite E. Qed.

Lemma bind_assoc_modify {B C} (h : S → S) (f : unit → M S B) (g : B → M S C) s :
  bind (bind (modify h) f) g s = bind (f ()) g (h s).
Proof. done. Qed.

Lemma bind_assoc_gets {A B C} (h : S → A) (f : A → M S B) (g : B → M S C) s :
  bind (bind (gets h) f) g s = bind (f (h s)) g s.
Proof. done. Qed.

Lemma bind_assoc_noswtch {A B C} (c : M S A) (f : A → M S B) (g : B → M S C) s :
  (∀ s' k, c s ≠ Swtch s' k) →
  bind (bind c f) g s = bind c (λ a, bind (f a) g) s.
Proof.
  intros H. unfold bind at 1 2 3. destruct (c s) as [a s1|?|?|s1 k|]; try done. by destruct (H s1 k).
Qed.

(** The rule for [for_]: an invariant at index [i] that every completed
    iteration moves to [i + 1], and a postcondition for the early exits. *)
Lemma wp_for {R} n lo (body : nat → M S (option R)) (I : nat → S → Prop)
    (Q : option R → S → Prop) s :
  I lo s →
  (∀ i t, (lo ≤ i < lo + n)%nat → I i t →
     wp (body i) (λ r t', match r with
                          | Some x => Q (Some x) t'
                          | None => I (Datatypes.S i) t'
                          end) t) →
  (∀ t, I (lo + n)%nat t → Q None t) →
  wp (for_ n lo body) Q s.
Proof.
  revert lo s. induction n as [|n IH]; intros lo s Hi Hbody Hend; simpl.
  - apply wp_ret, Hend. by rewrite Nat.add_0_r.
  - apply wp_bind. eapply wp_mono; [apply Hbody; [lia|done]|].
    intros [x|] t HQ; [by apply wp_ret|].
    apply IH; [done| |].
    + intros i u Hr Hu. apply Hbody; [lia|done].
    + intros u Hu. apply Hend. by replace (lo + Datatypes.S n)%nat with (Datatypes.S lo + n)%nat by lia.
Qed.

(** Iterations that do nothing. *)
Lemma for_skip {R} k n lo (body : nat → M S (option R)) s :
  (∀ i, (lo ≤ i < lo + k)%nat → body i s = Ok None s) →
  for_ (k + n) lo body s = for_ n (lo + k) body s.
Proof.
  revert lo. induction k as [|k IH]; intros lo H; simpl.
  - by rewrite Nat.add_0_r.
  - rewrite (bind_ok _ _ _ None s) by (apply H; lia). rewrite IH by (intros; apply H; lia).
    f_equal. lia.
Qed.

(** The first iteration that leaves the loop. *)
Lemma for_first {R} i n lo (body : nat → M S (option R)) s r s' :
  (lo ≤ i < lo + n)%nat →
  (∀ j, (lo ≤ j < i)%nat → body j s = Ok None s) → body i s = Ok (Some r) s' →
  for_ n lo body s = Ok (Some r) s'.
Proof.
  intros Hi Hj E. replace n with ((i - lo) + Datatypes.S (n - (i - lo) - 1))%nat by lia.
  rewrite for_skip by (intros; apply Hj; lia). replace (lo + (i - lo))%nat with i by lia.
  simpl. by rewrite (bind_ok _ _ _ _ _ E).
Qed.

Lemma for_none {R} n lo (body : nat → M S (option R)) s :
  (∀ j, (lo ≤ j < lo + n)%nat → body j s = Ok None s) → for_ n lo body s = Ok None s.
Proof. intros H. replace n with (n + 0)%nat by lia. by rewrite for_skip. Qed.

(** The rule for [loop]: an invariant and an integer variant below the bound. *)
Section loops.
Context {X R : Type} (body : X → M S (X + R)).
Context (I : X → S → Prop) (m : X → S → Z) (Q : R → S → Prop).
Hypothesis Hvar : ∀ x s, I x s → 0 ≤ m x s.
Hypothesis Hbody : ∀ x s, I x s →
  wp (body x) (λ r s', match r with
                       | inl x' => I x' s' ∧ m x' s' < m x s
                       | inr y => Q y s'
                       end) s.

Lemma wp_ploop p x s :
  I x s →
  wp (ploop p body x) (λ r s', match r with
                               | inl x' => I x' s' ∧ m x' s' + Z.pos p ≤ m x s
                               | inr y => Q y s'
                               end) s.
Proof.
  revert x s. induction p as [q IH|q IH|]; intros x s Hx; simpl.
  - apply wp_bind. eapply wp_mono; [by apply Hbody|].
    intros [x1|y] s1 H1; [|by apply wp_ret]. destruct H1 as [H1 L1].
    apply wp_bind. eapply wp_mono; [by apply IH|].
    intros [x2|y] s2 H2; [|by apply wp_ret]. destruct H2 as [H2 L2].
    eapply wp_mono; [by apply IH|].
    intros [x3|y] s3 H3; [|done]. destruct H3. split; [done|]. lia.
  - apply wp_bind. eapply wp_mono; [by apply IH|].
    intros [x2|y] s2 H2; [|by apply wp_ret]. destruct H2 as [H2 L2].
    eapply wp_mono; [by apply IH|].
    intros [x3|y] s3 H3; [|done]. destruct H3. split; [done|]. lia.
  - eapply wp_mono; [by apply Hbody|].
    intros [x1|y] s1 H1; [|done]. destruct H1. split; [done|]. lia.
Qed.

Lemma wp_loop x s : I x s → m x s < 2 ^ 64 → wp (loop body x) Q s.
Proof.
  intros Hx Hm. apply wp_bind. eapply wp_mono; [by apply wp_ploop|].
  intros [x1|y] s1 H1; [|by apply wp_ret].
  destruct H1 as [H1 L1]. apply Hvar in H1. change (Z.pos loop_bound) with (2 ^ 64) in L1. lia.
Qed.
End loops.

(** The same with the number of remaining iterations as a ghost variable. *)
Section ghost_loops.
Context {X R : Type} (body : X → M S (X + R)).
Context (I : nat → X → S → Prop) (Q : R → S → Prop).
Hypothesis Hbody : ∀ n x s, I n x s →
  wp (body x) (λ r s', match r with
                       | inl x' => ∃ n', (n' < n)%nat ∧ I n' x' s'
                       | inr y => Q y s'
                       end) s.

Lemma wp_ploop_ghost p n x s :
  I n x s →
  wp (ploop p body x) (λ r s', match r with
                               | inl x' => ∃ n', Z.of_nat n' + Z.pos p ≤ Z.of_nat n ∧ I n' x' s'
                               | inr y => Q y s'
                               end) s.
Proof.
  revert n x s. induction p as [q IH|q IH|]; intros n x s Hx; simpl.
  - apply wp_bind. eapply wp_mono; [by apply (Hbody n)|].
    intros [x1|y] s1 H1; [|by apply wp_ret]. destruct H1 as (n1 & L1 & H1).
    apply wp_bind. eapply wp_mono; [by apply (IH n1)|].
    intros [x2|y] s2 H2; [|by apply wp_ret]. destruct H2 as (n2 & L2 & H2).
    eapply wp_mono; [by apply (IH n2)|].
    intros [x3|y] s3 H3; [|done]. destruct H3 as (n3 & L3 & H3). exists n3. split; [lia|done].
  - apply wp_bind. eapply wp_mono; [by apply (IH n)|].
    intros [x2|y] s2 H2; [|by apply wp_ret]. destruct H2 as (n2 & L2 & H2).
    eapply wp_mono; [by apply (IH n2)|].
    intros [x3|y] s3 H3; [|done]. destruct H3 as (n3 & L3 & H3). exists n3. split; [lia|done].
  - eapply wp_mono; [by apply (Hbody n)|].
    intros [x1|y] s1 H1; [|done]. destruct H1 as (n1 & L1 & H1). exists n1. split; [lia|done].
Qed.

Lemma wp_loop_ghost n x s : I n x s → Z.of_nat n < 2 ^ 64 → wp (loop body x) Q s.
Proof.
  intros Hx Hm. apply wp_bind. eapply wp_mono; [by apply (wp_ploop_ghost _ n)|].
  intros [x1|y] s1 H1; [|by apply wp_ret].
  destruct H1 as (n1 & L1 & _). change (Z.pos loop_bound) with (2 ^ 64) in L1. lia.
Qed.
End ghost_loops.

(** A loop whose body leaves at once. *)
Lemma ploop_inr {X R} (body : X → M S (X + R)) p x s y s' :
  body x s = Ok (inr y) s' → ploop p body x s = Ok (inr y) s'.
Proof.
  intros E. induction p as [q IH|q IH|]; simpl.
  - by rewrite (bind_ok _ _ _ _ _ E).
  - by rewrite (bind_ok _ _ _ _ _ IH).
  - done.
Qed.

Lemma loop_inr {X R} (body : X → M S (X + R)) x s y s' :
  body x s = Ok (inr y) s' → loop body x s = Ok y s'.
Proof.
  intros E. unfold loop. by rewrite (bind_ok _ _ _ _ _ (ploop_inr _ _ _ _ _ _ E)).
Qed.

(** A loop that walks along [xs], without effect, up to [stop]. *)
Lemma loop_path {X R} (body : X → M S (X + R)) xs stop s r s' :
  (∀ la y lb, xs = la ++ y :: lb → body y s = Ok (inl (hd stop lb)) s) →
  body stop s = Ok (inr r) s' → Z.of_nat (length xs) < 2 ^ 64 →
  loop body (hd stop xs) s = Ok r s'.
Proof.
  intros Hstep Hstop Hlen. apply wp_eq.
  apply (wp_loop_ghost body
    (λ n x t, t = s ∧ ∃ la lb, xs = la ++ lb ∧ x = hd stop lb ∧ n = length lb) _) with (n := length xs).
  - intros n x t (-> & la & lb & E & -> & ->). destruct lb as [|y lb]; simpl.
    + by eapply wp_ok.
    + eapply wp_ok; [by apply (Hstep la y lb)|]. exists (length lb). split; [lia|]. split; [done|].
      exists (la ++ [y]), lb. by rewrite <- app_assoc.
  - split; [done|]. by exists [], xs.
  - done.
Qed.

(** A loop that makes [n] iterations and leaves. *)
Lemma loop_chain {X R} (body : X → M S (X + R)) (xs : nat → X) (ss : nat → S) n r s' :
  (∀ i, (i < n)%nat → body (xs i) (ss i) = Ok (inl (xs (Datatypes.S i))) (ss (Datatypes.S i))) →
  body (xs n) (ss n) = Ok (inr r) s' → Z.of_nat n < 2 ^ 64 → loop body (xs 0%nat) (ss 0%nat) = Ok r s'.
Proof.
  intros Hstep Hend Hn. apply wp_eq.
  apply (wp_loop_ghost body (λ k x t, ∃ i, (i + k = n)%nat ∧ x = xs i ∧ t = ss i) _) with (n := n).
  - intros k x t (i & E & -> & ->). destruct k as [|k].
    + replace i with n by lia. by eapply wp_ok.
    + eapply wp_ok; [apply Hstep; lia|]. exists k. split; [lia|]. exists (Datatypes.S i). split; [lia|done].
  - by exists 0%nat.
  - done.
Qed.

Lemma loop_two {X R} (body : X → M S (X + R)) x s x' s1 r s' :
  body x s = Ok (inl x') s1 → body x' s1 = Ok (inr r) s' → loop body x s = Ok r s'.
Proof.
  intros E1 E2.
  apply (loop_chain body (λ i, match i with O => x | _ => x' end) (λ i, match i with O => s | _ => s1 end) 1); [|done|lia].
  intros [|i] Hi; [done|lia].
Qed.

(** A loop whose first iteration gives up the processor. *)
Lemma loop_swtch {X R} (body : X → M S (X + R)) x s s' k :
  body x s = Swtch s' k → ∃ k', loop body x s = Swtch s' k'.
Proof.
  intros E. unfold loop. generalize loop_bound. intros p.
  assert (∃ k', ploop p body x s = Swtch s' k') as [k' E'].
  { induction p as [q IH|q IH|]; simpl.
    - unfold bind. rewrite E. by eexists.
    - destruct IH as [k' IH]. unfold bind. rewrite IH. by eexists.
    - by eexists. }
  unfold bind. rewrite E'. by eexists.
Qed.

Lemma bind_swtch {A B} (c : M S A) (f : A → M S B) s s' k :
  c s = Swtch s' k → bind c f s = Swtch s' (λ t, obind (k t) f).
Proof. intros E. unfold bind. by rewrite E. Qed.

(** A loop whose first iteration gives up the processor and whose second leaves. *)
Lemma ploop_swtch_resume {X R} (body : X → M S (X + R)) p x s s' k :
  body x s = Swtch s' k → ∃ k', ploop p body x s = Swtch s' k' ∧
    ∀ s2 x' s3 r s4, k s2 = Ok (inl x') s3 → body x' s3 = Ok (inr r) s4 →
      k' s2 = if decide (p = 1%positive) then Ok (inl x') s3 else Ok (inr r) s4.
Proof.
  intros E. induction p as [q IH|q IH|]; simpl.
  - eexists. split; [by apply bind_swtch|]. intros s2 x' s3 r s4 E1 E2. cbv beta. rewrite E1. simpl.
    by rewrite (bind_ok _ _ _ _ _ (ploop_inr _ q _ _ _ _ E2)).
  - destruct IH as (k' & Ek & Hk). eexists. split; [by apply bind_swtch|].
    intros s2 x' s3 r s4 E1 E2. cbv beta. rewrite (Hk _ _ _ _ _ E1 E2). case_decide; simpl; [|done].
    by apply ploop_inr.
  - exists k. done.
Qed.

Lemma loop_swtch_resume {X R} (body : X → M S (X + R)) x s s' k :
  body x s = Swtch s' k → ∃ k', loop body x s = Swtch s' k' ∧
    ∀ s2 x' s3 r s4, k s2 = Ok (inl x') s3 → body x' s3 = Ok (inr r) s4 → k' s2 = Ok r s4.
Proof.
  intros E. destruct (ploop_swtch_resume body loop_bound x s s' k E) as (k' & Ek & Hk).
  eexists. split; [by apply bind_swtch|]. intros s2 x' s3 r s4 E1 E2. cbv beta.
  by rewrite (Hk _ _ _ _ _ E1 E2).
Qed.
End wp.

#[export] Hint Rewrite @wp_ret @wp_gets @wp_modify @wp_bind @wp_when @wp_panic : wp.

(** One step of symbolic execution; the goal stays a [wp] or becomes the
    postcondition. *)
Ltac wpstep := first
  [ rewrite wp_bind | rewrite wp_ret | rewrite wp_gets | rewrite wp_modify
  | rewrite wp_when ].
Ltac wpsteps := repeat wpstep.

(** Runs a call whose specification is the given equation or [wp]. *)
Ltac wpapply H := first
  [ eapply wp_ok; [eapply H|] | eapply wp_mono; [eapply H|] ].

(** Runs the leading primitive step of a computation in an equation goal. *)
Ltac run1 :=
  match goal with
  | |- context [bind (gets ?g) ?f ?s] => rewrite (bind_ok (gets g) f s (g s) s eq_refl)
  | |- context [bind (modify ?g) ?f ?s] => rewrite (bind_ok (modify g) f s () (g s) eq_refl)
  | |- context [bind (ret ?a) ?f ?s] => rewrite (bind_ok (ret a) f s a s eq_refl)
  | |- context [bind (bind (gets ?g) ?f) ?k ?s] => rewrite (bind_assoc_gets g f k s)
  | |- context [bind (bind (modify ?g) ?f) ?k ?s] => rewrite (bind_assoc_modify g f k s)
  | |- context [when true ?c] => change (when true c) with c
  | |- context [@when ?S false ?c] => change (@when S false c) with (@ret S unit tt)
  end; cbv beta.
Ltac run := repeat run1.
