(* ===== verification/Riscv.v ===== *)
(** * RISC-V: [kernel/riscv.h], [kernel/memlayout.h], [kernel/param.h]

    The control and status registers of one hart with their read and write
    accessors, the interrupt-enable helpers, the Sv39 page-table macros and
    the memory map.  Registers are 64-bit words, kept as [Z] in [0, 2^64). *)

From stdpp Require Import prelude.
From Stdlib Require Import ZArith Lia.
From S2P Require Import Prelude.

(** ** Registers

    [r_x h] is the C accessor [r_x()] on hart [h]; [w_x v h] is [w_x(v)]. *)

Record hart := mkHart {
  r_mhartid : Z;
  r_mstatus : Z;
  r_mepc : Z;
  r_sstatus : Z;
  r_sip : Z;
  r_sie : Z;
  r_mie : Z;
  r_sepc : Z;
  r_medeleg : Z;
  r_mideleg : Z;
  r_stvec : Z;
  r_mtvec : Z;
  r_satp : Z;
  r_sscratch : Z;
  r_mscratch : Z;
  r_scause : Z;
  r_stval : Z;
  r_mcounteren : Z;
  r_time : Z;
  r_sp : Z;
  r_tp : Z;
  r_ra : Z
}.

Definition w_mhartid (v : Z) (r : hart) : hart :=
    mkHart v (r_mstatus r) (r_mepc r) (r_sstatus r) (r_sip r) (r_sie r) (r_mie r) (r_sepc r)
    (r_medeleg r) (r_mideleg r) (r_stvec r) (r_mtvec r) (r_satp r) (r_sscratch r) (r_mscratch r)
    (r_scause r) (r_stval r) (r_mcounteren r) (r_time r) (r_sp r) (r_tp r) (r_ra r).
Definition w_mstatus (v : Z) (r : hart) : hart :=
    mkHart (r_mhartid r) v (r_mepc r) (r_sstatus r) (r_sip r) (r_sie r) (r_mie r) (r_sepc r)
    (r_medeleg r) (r_mideleg r) (r_stvec r) (r_mtvec r) (r_satp r) (r_sscratch r) (r_mscratch r)
    (r_scause r) (r_stval r) (r_mcounteren r) (r_time r) (r_sp r) (r_tp r) (r_ra r).
Definition w_mepc (v : Z) (r : hart) : hart :=
    mkHart (r_mhartid r) (r_mstatus r) v (r_sstatus r) (r_sip r) (r_sie r) (r_mie r) (r_sepc r)
    (r_medeleg r) (r_mideleg r) (r_stvec r) (r_mtvec r) (r_satp r) (r_sscratch r) (r_mscratch r)
    (r_scause r) (r_stval r) (r_mcounteren r) (r_time r) (r_sp r) (r_tp r) (r_ra r).
Definition w_sstatus (v : Z) (r : hart) : hart :=
    mkHart (r_mhartid r) (r_mstatus r) (r_mepc r) v (r_sip r) (r_sie r) (r_mie r) (r_sepc r)
    (r_medeleg r) (r_mideleg r) (r_stvec r) (r_mtvec r) (r_satp r) (r_sscratch r) (r_mscratch r)
    (r_scause r) (r_stval r) (r_mcounteren r) (r_time r) (r_sp r) (r_tp r) (r_ra r).
Definition w_sip (v : Z) (r : hart) : hart :=
    mkHart (r_mhartid r) (r_mstatus r) (r_mepc r) (r_sstatus r) v (r_sie r) (r_mie r) (r_sepc r)
    (r_medeleg r) (r_mideleg r) (r_stvec r) (r_mtvec r) (r_satp r) (r_sscratch r) (r_mscratch r)
    (r_scause r) (r_stval r) (r_mcounteren r) (r_time r) (r_sp r) (r_tp r) (r_ra r).
Definition w_sie (v : Z) (r : hart) : hart :=
    mkHart (r_mhartid r) (r_mstatus r) (r_mepc r) (r_sstatus r) (r_sip r) v (r_mie r) (r_sepc r)
    (r_medeleg r) (r_mideleg r) (r_stvec r) (r_mtvec r) (r_satp r) (r_sscratch r) (r_mscratch r)
    (r_scause r) (r_stval r) (r_mcounteren r) (r_time r) (r_sp r) (r_tp r) (r_ra r).
Definition w_mie (v : Z) (r : hart) : hart :=
    mkHart (r_mhartid r) (r_mstatus r) (r_mepc r) (r_sstatus r) (r_sip r) (r_sie r) v (r_sepc r)
    (r_medeleg r) (r_mideleg r) (r_stvec r) (r_mtvec r) (r_satp r) (r_sscratch r) (r_mscratch r)
    (r_scause r) (r_stval r) (r_mcounteren r) (r_time r) (r_sp r) (r_tp r) (r_ra r).
Definition w_sepc (v : Z) (r : hart) : hart :=
    mkHart (r_mhartid r) (r_mstatus r) (r_mepc r) (r_sstatus r) (r_sip r) (r_sie r) (r_mie r) v
    (r_medeleg r) (r_mideleg r) (r_stvec r) (r_mtvec r) (r_satp r) (r_sscratch r) (r_mscratch r)
    (r_scause r) (r_stval r) (r_mcounteren r) (r_time r) (r_sp r) (r_tp r) (r_ra r).
Definition w_medeleg (v : Z) (r : hart) : hart :=
    mkHart (r_mhartid r) (r_mstatus r) (r_mepc r) (r_sstatus r) (r_sip r) (r_sie r) (r_mie r)
    (r_sepc r) v (r_mideleg r) (r_stvec r) (r_mtvec r) (r_satp r) (r_sscratch r) (r_mscratch r)
    (r_scause r) (r_stval r) (r_mcounteren r) (r_time r) (r_sp r) (r_tp r) (r_ra r).
Definition w_mideleg (v : Z) (r : hart) : hart :=
    mkHart (r_mhartid r) (r_mstatus r) (r_mepc r) (r_sstatus r) (r_sip r) (r_sie r) (r_mie r)
    (r_sepc r) (r_medeleg r) v (r_stvec r) (r_mtvec r) (r_satp r) (r_sscratch r) (r_mscratch r)
    (r_scause r) (r_stval r) (r_mcounteren r) (r_time r) (r_sp r) (r_tp r) (r_ra r).
Definition w_stvec (v : Z) (r : hart) : hart :=
    mkHart (r_mhartid r) (r_mstatus r) (r_mepc r) (r_sstatus r) (r_sip r) (r_sie r) (r_mie r)
    (r_sepc r) (r_medeleg r) (r_mideleg r) v (r_mtvec r) (r_satp r) (r_sscratch r) (r_mscratch
    r) (r_scause r) (r_stval r) (r_mcounteren r) (r_time r) (r_sp r) (r_tp r) (r_ra r).
Definition w_mtvec (v : Z) (r : hart) : hart :=
    mkHart (r_mhartid r) (r_mstatus r) (r_mepc r) (r_sstatus r) (r_sip r) (r_sie r) (r_mie r)
    (r_sepc r) (r_medeleg r) (r_mideleg r) (r_stvec r) v (r_satp r) (r_sscratch r) (r_mscratch
    r) (r_scause r) (r_stval r) (r_mcounteren r) (r_time r) (r_sp r) (r_tp r) (r_ra r).
Definition w_satp (v : Z) (r : hart) : hart :=
    mkHart (r_mhartid r) (r_mstatus r) (r_mepc r) (r_sstatus r) (r_sip r) (r_sie r) (r_mie r)
    (r_sepc r) (r_medeleg r) (r_mideleg r) (r_stvec r) (r_mtvec r) v (r_sscratch r) (r_mscratch
    r) (r_scause r) (r_stval r) (r_mcounteren r) (r_time r) (r_sp r) (r_tp r) (r_ra r).
Definition w_sscratch (v : Z) (r : hart) : hart :=
    mkHart (r_mhartid r) (r_mstatus r) (r_mepc r) (r_sstatus r) (r_sip r) (r_sie r) (r_mie r)
    (r_sepc r) (r_medeleg r) (r_mideleg r) (r_stvec r) (r_mtvec r) (r_satp r) v (r_mscratch r)
    (r_scause r) (r_stval r) (r_mcounteren r) (r_time r) (r_sp r) (r_tp r) (r_ra r).
Definition w_mscratch (v : Z) (r : hart) : hart :=
    mkHart (r_mhartid r) (r_mstatus r) (r_mepc r) (r_sstatus r) (r_sip r) (r_sie r) (r_mie r)
    (r_sepc r) (r_medeleg r) (r_mideleg r) (r_stvec r) (r_mtvec r) (r_satp r) (r_sscratch r) v
    (r_scause r) (r_stval r) (r_mcounteren r) (r_time r) (r_sp r) (r_tp r) (r_ra r).
Definition w_scause (v : Z) (r : hart) : hart :=
    mkHart (r_mhartid r) (r_mstatus r) (r_mepc r) (r_sstatus r) (r_sip r) (r_sie r) (r_mie r)
    (r_sepc r) (r_medeleg r) (r_mideleg r) (r_stvec r) (r_mtvec r) (r_satp r) (r_sscratch r)
    (r_mscratch r) v (r_stval r) (r_mcounteren r) (r_time r) (r_sp r) (r_tp r) (r_ra r).
Definition w_stval (v : Z) (r : hart) : hart :=
    mkHart (r_mhartid r) (r_mstatus r) (r_mepc r) (r_sstatus r) (r_sip r) (r_sie r) (r_mie r)
    (r_sepc r) (r_medeleg r) (r_mideleg r) (r_stvec r) (r_mtvec r) (r_satp r) (r_sscratch r)
    (r_mscratch r) (r_scause r) v (r_mcounteren r) (r_time r) (r_sp r) (r_tp r) (r_ra r).
Definition w_mcounteren (v : Z) (r : hart) : hart :=
    mkHart (r_mhartid r) (r_mstatus r) (r_mepc r) (r_sstatus r) (r_sip r) (r_sie r) (r_mie r)
    (r_sepc r) (r_medeleg r) (r_mideleg r) (r_stvec r) (r_mtvec r) (r_satp r) (r_sscratch r)
    (r_mscratch r) (r_scause r) (r_stval r) v (r_time r) (r_sp r) (r_tp r) (r_ra r).
Definition w_time (v : Z) (r : hart) : hart :=
    mkHart (r_mhartid r) (r_mstatus r) (r_mepc r) (r_sstatus r) (r_sip r) (r_sie r) (r_mie r)
    (r_sepc r) (r_medeleg r) (r_mideleg r) (r_stvec r) (r_mtvec r) (r_satp r) (r_sscratch r)
    (r_mscratch r) (r_scause r) (r_stval r) (r_mcounteren r) v (r_sp r) (r_tp r) (r_ra r).
Definition w_sp (v : Z) (r : hart) : hart :=
    mkHart (r_mhartid r) (r_mstatus r) (r_mepc r) (r_sstatus r) (r_sip r) (r_sie r) (r_mie r)
    (r_sepc r) (r_medeleg r) (r_mideleg r) (r_stvec r) (r_mtvec r) (r_satp r) (r_sscratch r)
    (r_mscratch r) (r_scause r) (r_stval r) (r_mcounteren r) (r_time r) v (r_tp r) (r_ra r).
Definition w_tp (v : Z) (r : hart) : hart :=
    mkHart (r_mhartid r) (r_mstatus r) (r_mepc r) (r_sstatus r) (r_sip r) (r_sie r) (r_mie r)
    (r_sepc r) (r_medeleg r) (r_mideleg r) (r_stvec r) (r_mtvec r) (r_satp r) (r_sscratch r)
    (r_mscratch r) (r_scause r) (r_stval r) (r_mcounteren r) (r_time r) (r_sp r) v (r_ra r).
Definition w_ra (v : Z) (r : hart) : hart :=
    mkHart (r_mhartid r) (r_mstatus r) (r_mepc r) (r_sstatus r) (r_sip r) (r_sie r) (r_mie r)
    (r_sepc r) (r_medeleg r) (r_mideleg r) (r_stvec r) (r_mtvec r) (r_satp r) (r_sscratch r)
    (r_mscratch r) (r_scause r) (r_stval r) (r_mcounteren r) (r_time r) (r_sp r) (r_tp r) v.

(** ** Status bits *)

Definition MSTATUS_MPP_MASK : Z := Z.shiftl 3 11.
Definition MSTATUS_MPP_M : Z := Z.shiftl 3 11.
Definition MSTATUS_MPP_S : Z := Z.shiftl 1 11.
Definition MSTATUS_MPP_U : Z := Z.shiftl 0 11.
Definition MSTATUS_MIE : Z := Z.shiftl 1 3.
Definition SSTATUS_SPP : Z := Z.shiftl 1 8.
Definition SSTATUS_SPIE : Z := Z.shiftl 1 5.
Definition SSTATUS_UPIE : Z := Z.shiftl 1 4.
Definition SSTATUS_SIE : Z := Z.shiftl 1 1.
Definition SSTATUS_UIE : Z := Z.shiftl 1 0.
Definition SIE_SEIE : Z := Z.shiftl 1 9.
Definition SIE_STIE : Z := Z.shiftl 1 5.
Definition SIE_SSIE : Z := Z.shiftl 1 1.
Definition MIE_MEIE : Z := Z.shiftl 1 11.
Definition MIE_MTIE : Z := Z.shiftl 1 7.
Definition MIE_MSIE : Z := Z.shiftl 1 3.

(** Enable and disable device interrupts, and the test. *)
Definition intr_on (h : hart) : hart := w_sstatus (Z.lor (r_sstatus h) SSTATUS_SIE) h.
Definition intr_off (h : hart) : hart :=
  w_sstatus (Z.land (r_sstatus h) (lnot64 SSTATUS_SIE)) h.
Definition intr_get (h : hart) : bool := Z.land (r_sstatus h) SSTATUS_SIE <>? 0.

(** ** Paging *)

Definition SATP_SV39 : Z := Z.shiftl 8 60.
Definition MAKE_SATP (pagetable : Z) : Z := Z.lor SATP_SV39 (Z.shiftr pagetable 12).

Definition PGSIZE : Z := 4096.
Definition PGSHIFT : Z := 12.
Definition PGROUNDUP (sz : Z) : Z := Z.land (u64 (sz + PGSIZE - 1)) (lnot64 (PGSIZE - 1)).
Definition PGROUNDDOWN (a : Z) : Z := Z.land a (lnot64 (PGSIZE - 1)).

Definition PTE_V : Z := Z.shiftl 1 0.
Definition PTE_R : Z := Z.shiftl 1 1.
Definition PTE_W : Z := Z.shiftl 1 2.
Definition PTE_X : Z := Z.shiftl 1 3.
Definition PTE_U : Z := Z.shiftl 1 4.

Definition PA2PTE (pa : Z) : Z := u64 (Z.shiftl (Z.shiftr (u64 pa) 12) 10).
(** [((pte) << 12 >> 10 << 12)], the shifts on 64-bit words. *)
Definition PTE2PA (pte : Z) : Z :=
  u64 (Z.shiftl (Z.shiftr (u64 (Z.shiftl pte 12)) 10) 12).
Definition PTE_FLAGS (pte : Z) : Z := Z.land pte 0x3FF.

Definition PXMASK : Z := 0x1FF.
Definition PXSHIFT (level : Z) : Z := PGSHIFT + 9 * level.
Definition PX (level va : Z) : Z := Z.land (Z.shiftr (u64 va) (PXSHIFT level)) PXMASK.
Definition MAXVA : Z := Z.shiftl 1 (9 + 9 + 9 + 12 - 1).

(** ** Physical memory layout *)

Definition UART0 : Z := 0x10000000.
Definition UART0_IRQ : Z := 10.
Definition VIRTIO0 : Z := 0x10001000.
Definition VIRTIO0_IRQ : Z := 1.
Definition CLINT : Z := 0x2000000.
Definition CLINT_MTIMECMP (hartid : Z) : Z := CLINT + 0x4000 + 8 * hartid.
Definition CLINT_MTIME : Z := CLINT + 0xBFF8.
Definition PLIC : Z := 0x0c000000.
Definition PLIC_PRIORITY : Z := PLIC + 0x0.
Definition PLIC_PENDING : Z := PLIC + 0x1000.
Definition PLIC_MENABLE (hart : Z) : Z := PLIC + 0x2000 + hart * 0x100.
Definition PLIC_SENABLE (hart : Z) : Z := PLIC + 0x2080 + hart * 0x100.
Definition PLIC_MPRIORITY (hart : Z) : Z := PLIC + 0x200000 + hart * 0x2000.
Definition PLIC_SPRIORITY (hart : Z) : Z := PLIC + 0x201000 + hart * 0x2000.
Definition PLIC_MCLAIM (hart : Z) : Z := PLIC + 0x200004 + hart * 0x2000.
Definition PLIC_SCLAIM (hart : Z) : Z := PLIC + 0x201004 + hart * 0x2000.
Definition KERNBASE : Z := 0x80000000.
Definition PHYSTOP : Z := KERNBASE + 128 * 1024 * 1024.
Definition TRAMPOLINE : Z := MAXVA - PGSIZE.
Definition KSTACK (p : Z) : Z := TRAMPOLINE - (p + 1) * 2 * PGSIZE.
Definition TRAPFRAME : Z := TRAMPOLINE - PGSIZE.

(** ** [kernel/param.h] *)

Definition NPROC : nat := 64.
Definition NCPU : nat := 8.
Definition NOFILE : nat := 16.
Definition NFILE : nat := 100.
Definition NINODE : nat := 50.
Definition NDEV : Z := 10.
Definition ROOTDEV : Z := 1.
Definition MAXARG : nat := 32.
Definition MAXOPBLOCKS : Z := 10.
Definition LOGSIZE : Z := MAXOPBLOCKS * 3.
Definition NBUF : nat := 30.
Definition FSSIZE : Z := 1000.
Definition MAXPATH : Z := 128.

(** Unfolds the numeric constants, so that [lia] sees their values. *)
Ltac consts :=
  unfold KSTACK, TRAPFRAME, TRAMPOLINE, PHYSTOP, LOGSIZE in *;
  change MAXVA with 0x4000000000 in *;
  unfold PGSIZE, PGSHIFT, PXMASK, PXSHIFT, KERNBASE,
    UART0, VIRTIO0, CLINT, PLIC, NDEV, ROOTDEV, MAXOPBLOCKS,
    FSSIZE, MAXPATH, NPROC, NCPU, NOFILE, NFILE, NINODE, MAXARG, NBUF,
    UART0_IRQ, VIRTIO0_IRQ in *.

(** ** Facts about the page macros *)

(** Clearing the low n bits of a word. *)
Lemma land_lnot64_low x n :
  0 ≤ n ≤ 64 → 0 ≤ x < 2 ^ 64 → Z.land x (lnot64 (2 ^ n - 1)) = x - x mod 2 ^ n.
Proof.
  intros Hn Hx.
  enough (Z.land x (lnot64 (2 ^ n - 1)) = Z.ldiff x (2 ^ n - 1)) as ->.
  { replace (2 ^ n - 1) with (Z.ones n) by (rewrite Z.ones_equiv; lia).
    rewrite Z.ldiff_ones_r by lia. rewrite Z.shiftl_mul_pow2, Z.shiftr_div_pow2 by lia.
    pose proof (Z.div_mod x (2 ^ n)). lia. }
  apply Z.bits_inj'. intros m Hm. unfold lnot64.
  rewrite Z.land_spec, Z.ldiff_spec, Z.lxor_spec.
  destruct (decide (m < 64)).
  - replace (2 ^ 64 - 1) with (Z.ones 64) by done.
    rewrite (Z.ones_spec_low 64) by lia. by destruct (Z.testbit x m), (Z.testbit _ m).
  - by rewrite (testbit_bound x 64 m) by lia.
Qed.

Lemma PGROUNDDOWN_eq a : 0 ≤ a < 2 ^ 64 → PGROUNDDOWN a = a - a mod PGSIZE.
Proof. intros. unfold PGROUNDDOWN, PGSIZE. by apply (land_lnot64_low a 12). Qed.

Lemma PGROUNDUP_eq a :
  0 ≤ a < 2 ^ 64 - 4095 → PGROUNDUP a = (a + 4095) - (a + 4095) mod PGSIZE.
Proof.
  intros. unfold PGROUNDUP. replace (a + PGSIZE - 1) with (a + 4095) by (consts; lia).
  rewrite u64_small by lia. by apply PGROUNDDOWN_eq; lia.
Qed.

Lemma PGROUNDDOWN_aligned a : a mod PGSIZE = 0 → 0 ≤ a < 2 ^ 64 → PGROUNDDOWN a = a.
Proof. intros. rewrite PGROUNDDOWN_eq by done. lia. Qed.

Lemma PGROUNDUP_aligned a : a mod PGSIZE = 0 → 0 ≤ a < 2 ^ 64 - 4095 → PGROUNDUP a = a.
Proof.
  intros H Ha. rewrite PGROUNDUP_eq by done. consts.
  rewrite Z.add_mod, H by lia. change ((0 + 4095 mod 4096) mod 4096) with 4095. lia.
Qed.

(** [PGROUNDUP sz] is the least multiple of the page size that is at least [sz]. *)
Lemma PGROUNDUP_spec a :
  0 ≤ a < 2 ^ 64 - 4095 →
  PGROUNDUP a mod PGSIZE = 0 ∧ a ≤ PGROUNDUP a < a + PGSIZE.
Proof.
  intros Ha. rewrite PGROUNDUP_eq by done. consts.
  pose proof (Z.mod_pos_bound (a + 4095) 4096).
  split; [|lia]. rewrite Zminus_mod_idemp_r, Z.sub_diag. done.
Qed.

Lemma PX_range level va : 0 ≤ level → 0 ≤ PX level va < 512.
Proof.
  intros. unfold PX, PXMASK. change 0x1FF with (2 ^ 9 - 1).
  rewrite land_ones_mod by lia. apply Z.mod_pos_bound. lia.
Qed.

Lemma PX_eq level va :
  0 ≤ level → 0 ≤ va < 2 ^ 64 → PX level va = va / 2 ^ (12 + 9 * level) mod 512.
Proof.
  intros. unfold PX, PXMASK, PXSHIFT, PGSHIFT. change 0x1FF with (2 ^ 9 - 1).
  rewrite land_ones_mod, Z.shiftr_div_pow2, u64_small by lia. done.
Qed.

Lemma MAXVA_eq : MAXVA = 2 ^ 38.
Proof. done. Qed.

(** The three indices and the offset recompose a virtual address below MAXVA. *)
Lemma PX_compose va :
  0 ≤ va < MAXVA →
  PX 2 va * 2 ^ 30 + PX 1 va * 2 ^ 21 + PX 0 va * 2 ^ 12 + va mod PGSIZE = va.
Proof.
  rewrite MAXVA_eq. intros. rewrite !PX_eq by lia. unfold PGSIZE.
  change (12 + 9 * 2) with 30. change (12 + 9 * 1) with 21. change (12 + 9 * 0) with 12.
  rewrite (Z.mod_small (va / 2 ^ 30))
    by (split; [apply Z.div_pos; lia|apply Z.div_lt_upper_bound; lia]).
  change (2 ^ 30) with (2 ^ 12 * 512 * 512). change (2 ^ 21) with (2 ^ 12 * 512).
  rewrite <- !Z.div_div by lia. change (2 ^ 12) with 4096.
  pose proof (Z.div_mod va 4096). pose proof (Z.div_mod (va / 4096) 512).
  pose proof (Z.div_mod (va / 4096 / 512) 512). lia.
Qed.

Lemma PX_inj va vb :
  0 ≤ va < MAXVA → 0 ≤ vb < MAXVA →
  PX 2 va = PX 2 vb → PX 1 va = PX 1 vb → PX 0 va = PX 0 vb →
  va - va mod PGSIZE = vb - vb mod PGSIZE.
Proof.
  intros Ha Hb H2 H1 H0. pose proof (PX_compose va Ha). pose proof (PX_compose vb Hb).
  rewrite H2, H1, H0 in *. lia.
Qed.

(** Enabling after disabling restores a status word whose SIE bit was set. *)
Lemma SIE_eq : SSTATUS_SIE = 2.
Proof. done. Qed.

Lemma intr_get_testbit h : intr_get h = Z.testbit (r_sstatus h) 1.
Proof.
  unfold intr_get. rewrite SIE_eq. destruct (Z.testbit (r_sstatus h) 1) eqn:E.
  - destruct (Z.eqb_spec (Z.land (r_sstatus h) 2) 0) as [H|H]; [|done].
    assert (Z.testbit (Z.land (r_sstatus h) 2) 1 = true) as H'
      by (rewrite Z.land_spec, E; done).
    rewrite H in H'. done.
  - destruct (Z.eqb_spec (Z.land (r_sstatus h) 2) 0) as [H|H]; [done|]. destruct H.
    apply Z.bits_inj'. intros n Hn. rewrite Z.land_spec, Z.bits_0.
    destruct (decide (n = 1)) as [->|]; [by rewrite E|].
    destruct (Z.testbit 2 n) eqn:E2; [|by rewrite andb_false_r].
    change 2 with (2 ^ 1) in E2. rewrite Z.pow2_bits_eqb in E2 by lia. lia.
Qed.

Lemma intr_off_get h : intr_get (intr_off h) = false.
Proof.
  rewrite intr_get_testbit. destruct h. unfold intr_off, w_sstatus. cbn [r_sstatus].
  rewrite Z.land_spec. by rewrite andb_comm.
Qed.

Lemma lnot64_SIE_bits n : 0 ≤ n < 64 → Z.testbit (lnot64 SSTATUS_SIE) n = negb (n =? 1).
Proof.
  intros Hn. unfold lnot64. rewrite Z.lxor_spec, SIE_eq.
  replace (2 ^ 64 - 1) with (Z.ones 64) by done. rewrite Z.ones_spec_low by lia.
  change 2 with (2 ^ 1). rewrite Z.pow2_bits_eqb by lia. rewrite Z.eqb_sym. by destruct (n =? 1).
Qed.

Lemma intr_off_id h :
  0 ≤ r_sstatus h < 2 ^ 64 → intr_get h = false → intr_off h = h.
Proof.
  intros Hr Hg. rewrite intr_get_testbit in Hg. destruct h. unfold intr_off, w_sstatus. cbn [r_sstatus] in *.
  f_equal. apply Z.bits_inj'. intros n Hn. rewrite Z.land_spec.
  destruct (decide (n < 64)); [|by rewrite (testbit_bound r_sstatus0 64) by lia].
  rewrite lnot64_SIE_bits by lia. destruct (Z.eqb_spec n 1) as [->|].
  - by rewrite Hg.
  - by rewrite andb_true_r.
Qed.

Lemma intr_off_on h :
  0 ≤ r_sstatus h < 2 ^ 64 → intr_get h = true → intr_on (intr_off h) = h.
Proof.
  intros Hr Hg. rewrite intr_get_testbit in Hg. destruct h.
  unfold intr_on, intr_off, w_sstatus. cbn [r_sstatus] in *.
  f_equal. apply Z.bits_inj'. intros n Hn. rewrite Z.lor_spec, Z.land_spec.
  destruct (decide (n < 64)).
  - rewrite lnot64_SIE_bits by lia. rewrite SIE_eq. change 2 with (2 ^ 1).
    rewrite Z.pow2_bits_eqb by lia. rewrite (Z.eqb_sym 1 n).
    destruct (Z.eqb_spec n 1) as [->|]; [by rewrite Hg|].
    by rewrite andb_true_r, orb_false_r.
  - rewrite (testbit_bound r_sstatus0 64) by lia.
    rewrite (testbit_bound SSTATUS_SIE 2 n); [done| |lia]. rewrite SIE_eq. lia.
Qed.

Lemma intr_off_range h :
  0 ≤ r_sstatus h < 2 ^ 64 → 0 ≤ r_sstatus (intr_off h) < 2 ^ 64.
Proof.
  intros Hr. destruct h. simpl in *. unfold intr_off, w_sstatus. cbn [r_sstatus] in *.
  change (lnot64 SSTATUS_SIE) with (2 ^ 64 - 3).
  split; [apply Z.land_nonneg; lia|].
  rewrite <- (Z.mod_small r_sstatus0 (2 ^ 64)) by lia.
  rewrite <- land_ones_mod, <- Z.land_assoc, (Z.land_comm (2 ^ 64 - 1)), Z.land_assoc by lia.
  rewrite land_ones_mod by lia. apply Z.mod_pos_bound. lia.
Qed.

Lemma intr_on_get h : intr_get (intr_on h) = true.
Proof.
  rewrite intr_get_testbit. destruct h. unfold intr_on, w_sstatus. cbn [r_sstatus].
  rewrite Z.lor_spec. by rewrite orb_true_r.
Qed.

Lemma intr_off_of_on h : intr_off (intr_on h) = intr_off h.
Proof.
  destruct h. unfold intr_on, intr_off, w_sstatus. cbn [r_sstatus]. f_equal.
  rewrite Z.land_lor_distr_l. change (Z.land SSTATUS_SIE (lnot64 SSTATUS_SIE)) with 0.
  apply Z.lor_0_r.
Qed.

Lemma intr_off_of_off h : intr_off (intr_off h) = intr_off h.
Proof.
  destruct h. unfold intr_off, w_sstatus. cbn [r_sstatus]. f_equal. by rewrite <- Z.land_assoc.
Qed.

Lemma intr_on_id h : intr_get h = true → intr_on h = h.
Proof.
  intros Hg. rewrite intr_get_testbit in Hg. destruct h. unfold intr_on, w_sstatus. cbn [r_sstatus] in *.
  f_equal. apply Z.bits_inj'. intros n Hn. rewrite Z.lor_spec. unfold SSTATUS_SIE.
  rewrite Z.shiftl_1_l, Z.pow2_bits_eqb by lia. destruct (Z.eqb_spec 1 n) as [<-|]; [by rewrite Hg|].
  apply orb_false_r.
Qed.

Lemma intr_on_of_on h : intr_on (intr_on h) = intr_on h.
Proof. apply intr_on_id, intr_on_get. Qed.

Lemma intr_on_of_off h : 0 ≤ r_sstatus h < 2 ^ 64 → intr_on (intr_off h) = intr_on h.
Proof.
  intros Hr. destruct (intr_get h) eqn:E.
  - by rewrite intr_off_on, intr_on_id.
  - by rewrite intr_off_id.
Qed.

Lemma intr_on_range h :
  0 ≤ r_sstatus h < 2 ^ 64 → 0 ≤ r_sstatus (intr_on h) < 2 ^ 64.
Proof.
  intros Hr. destruct h. simpl in *. unfold intr_on, w_sstatus. cbn [r_sstatus] in *.
  rewrite <- (Z.mod_small r_sstatus0 (2 ^ 64)) by lia.
  split; [apply Z.lor_nonneg; split; [apply Z.mod_pos_bound; lia|done]|].
  rewrite <- (Z.mod_small SSTATUS_SIE (2 ^ 64)) by (split; [done|reflexivity]).
  rewrite <- !Z.land_ones by lia. rewrite <- Z.land_lor_distr_l, Z.land_ones by lia.
  apply Z.mod_pos_bound. lia.
Qed.
