(* ===== verification/Types.v ===== *)
(** * The kernel's data: the structs of the headers and the kernel state

    One record per C struct ([kernel/spinlock.h], [sleeplock.h], [proc.h],
    [buf.h], [file.h], [fs.h], [stat.h], [virtio.h] and the structs that
    [log.c], [pipe.c], [console.c] and [virtio_disk.c] declare), and [kstate],
    the variables of the whole kernel.

    Pointers into a table ([struct proc *], [struct buf *], ...) are indices
    of that table, [None] being the null pointer.  Pages that [kalloc] hands
    out live in the byte memory [k_mem].  Spinlocks and sleeplocks are kept in
    two maps, keyed by the object they are embedded in, instead of inside the
    structs. *)

From stdpp Require Import prelude gmap strings list.
From Stdlib Require Import ZArith Lia.
From S2P Require Import Prelude.
From S2P Require Import Monad.
From S2P Require Import Riscv.

(** ** Names of locks and wait channels *)

(** The objects with a [struct sleeplock]: buffers and cached inodes. *)
Inductive slid := SBuf (i : nat) | SInode (i : nat).

(** The objects with a [struct spinlock]. *)
Inductive lockid :=
| LKmem | LPid | LProc (i : nat) | LBcache | LLog | LIcache | LFtable
| LPipe (pa : Z) | LCons | LUart | LPr | LTicks | LVdisk | LSleep (l : slid).

(** Addresses that code sleeps on. *)
Inductive chan :=
| ChNull | ChProc (i : nat) | ChSleep (l : slid) | ChLog | ChPipeR (pa : Z)
| ChPipeW (pa : Z) | ChTicks | ChCons | ChUart | ChDesc | ChBuf (i : nat).

#[export] Instance slid_eq_dec : EqDecision slid.
Proof. solve_decision. Defined.
#[export] Instance lockid_eq_dec : EqDecision lockid.
Proof. solve_decision. Defined.
#[export] Instance chan_eq_dec : EqDecision chan.
Proof. solve_decision. Defined.

Definition slid_code (l : slid) : Z * Z :=
  match l with SBuf i => (0, Z.of_nat i) | SInode i => (1, Z.of_nat i) end.
Definition slid_decode (c : Z * Z) : slid :=
  match c with (0, i) => SBuf (Z.to_nat i) | (_, i) => SInode (Z.to_nat i) end.
Definition lockid_code (l : lockid) : Z * Z :=
  match l with
  | LKmem => (0, 0) | LPid => (1, 0) | LProc i => (2, Z.of_nat i) | LBcache => (3, 0)
  | LLog => (4, 0) | LIcache => (5, 0) | LFtable => (6, 0) | LPipe pa => (7, pa)
  | LCons => (8, 0) | LUart => (9, 0) | LPr => (10, 0) | LTicks => (11, 0) | LVdisk => (12, 0)
  | LSleep (SBuf i) => (13, Z.of_nat i) | LSleep (SInode i) => (14, Z.of_nat i)
  end.
Definition lockid_decode (c : Z * Z) : lockid :=
  match c with
  | (0, _) => LKmem | (1, _) => LPid | (2, i) => LProc (Z.to_nat i) | (3, _) => LBcache
  | (4, _) => LLog | (5, _) => LIcache | (6, _) => LFtable | (7, pa) => LPipe pa
  | (8, _) => LCons | (9, _) => LUart | (10, _) => LPr | (11, _) => LTicks | (12, _) => LVdisk
  | (13, i) => LSleep (SBuf (Z.to_nat i)) | (_, i) => LSleep (SInode (Z.to_nat i))
  end.

#[export] Instance slid_countable : Countable slid.
Proof. apply (inj_countable' slid_code slid_decode). intros []; simpl; by rewrite Nat2Z.id. Defined.
#[export] Instance lockid_countable : Countable lockid.
Proof.
  apply (inj_countable' lockid_code lockid_decode).
  intros [| |i| | | | |pa| | | | | |[i|i]]; simpl; rewrite ?Nat2Z.id; done.
Defined.

(** ** Locks and processors *)

Record spinlock := mkSpinlock {
  sl_locked : Z;   (** is the lock held? *)
  sl_name : string;   (** for debugging *)
  sl_cpu : option nat   (** the cpu holding the lock *)
}.

Definition set_sl_locked (v : Z) (r : spinlock) : spinlock :=
    mkSpinlock v (sl_name r) (sl_cpu r).
Definition set_sl_name (v : string) (r : spinlock) : spinlock :=
    mkSpinlock (sl_locked r) v (sl_cpu r).
Definition set_sl_cpu (v : option nat) (r : spinlock) : spinlock :=
    mkSpinlock (sl_locked r) (sl_name r) v.

Record sleeplock := mkSleeplock {
  slk_locked : Z;   (** is the lock held? *)
  slk_name : string;   (** for debugging *)
  slk_pid : Z   (** process holding the lock *)
}.

Definition set_slk_locked (v : Z) (r : sleeplock) : sleeplock :=
    mkSleeplock v (slk_name r) (slk_pid r).
Definition set_slk_name (v : string) (r : sleeplock) : sleeplock :=
    mkSleeplock (slk_locked r) v (slk_pid r).
Definition set_slk_pid (v : Z) (r : sleeplock) : sleeplock :=
    mkSleeplock (slk_locked r) (slk_name r) v.

(** Saved registers for kernel context switches. *)
Record context := mkContext {
  ctx_ra : Z;
  ctx_sp : Z;
  ctx_s : list Z   (** s0 .. s11, the callee-saved registers *)
}.

Definition set_ctx_ra (v : Z) (r : context) : context :=
    mkContext v (ctx_sp r) (ctx_s r).
Definition set_ctx_sp (v : Z) (r : context) : context :=
    mkContext (ctx_ra r) v (ctx_s r).
Definition set_ctx_s (v : list Z) (r : context) : context :=
    mkContext (ctx_ra r) (ctx_sp r) v.

(** Per-CPU state; the scheduler's saved context is the continuation in [Swtch]. *)
Record cpu := mkCpu {
  c_proc : option nat;   (** the process running on this cpu *)
  c_noff : Z;   (** depth of push_off nesting *)
  c_intena : bool   (** were interrupts enabled before push_off? *)
}.

Definition set_c_proc (v : option nat) (r : cpu) : cpu :=
    mkCpu v (c_noff r) (c_intena r).
Definition set_c_noff (v : Z) (r : cpu) : cpu :=
    mkCpu (c_proc r) v (c_intena r).
Definition set_c_intena (v : bool) (r : cpu) : cpu :=
    mkCpu (c_proc r) (c_noff r) v.

(** What acquire and release touch: the hart, the cpu table and the spinlocks. *)
Record cpust := mkCpust {
  cs_hart : hart;   (** the registers of the running hart *)
  cs_cpus : list cpu;   (** cpus[NCPU] *)
  cs_locks : gmap lockid spinlock   (** every spinlock of the kernel *)
}.

Definition set_cs_hart (v : hart) (r : cpust) : cpust :=
    mkCpust v (cs_cpus r) (cs_locks r).
Definition set_cs_cpus (v : list cpu) (r : cpust) : cpust :=
    mkCpust (cs_hart r) v (cs_locks r).
Definition set_cs_locks (v : gmap lockid spinlock) (r : cpust) : cpust :=
    mkCpust (cs_hart r) (cs_cpus r) v.

(** ** Processes *)

Inductive procstate := UNUSED | SLEEPING | RUNNABLE | RUNNING | ZOMBIE.

#[export] Instance procstate_eq_dec : EqDecision procstate.
Proof. solve_decision. Defined.

Record proc := mkProc {
  p_state : procstate;
  p_parent : option nat;   (** parent process *)
  p_chan : chan;   (** if not ChNull, sleeping on chan *)
  p_killed : Z;
  p_xstate : Z;   (** exit status for wait *)
  p_pid : Z;
  p_kstack : Z;   (** virtual address of kernel stack *)
  p_sz : Z;   (** size of process memory *)
  p_pagetable : Z;   (** user page table, 0 if none *)
  p_trapframe : Z;   (** page for trampoline.S, 0 if none *)
  p_context : context;
  p_ofile : list (option nat);   (** open files: indices of ftable *)
  p_cwd : option nat;   (** current directory: index of icache *)
  p_name : list Z   (** 16 bytes *)
}.

Definition set_p_state (v : procstate) (r : proc) : proc :=
    mkProc v (p_parent r) (p_chan r) (p_killed r) (p_xstate r) (p_pid r) (p_kstack r) (p_sz r)
    (p_pagetable r) (p_trapframe r) (p_context r) (p_ofile r) (p_cwd r) (p_name r).
Definition set_p_parent (v : option nat) (r : proc) : proc :=
    mkProc (p_state r) v (p_chan r) (p_killed r) (p_xstate r) (p_pid r) (p_kstack r) (p_sz r)
    (p_pagetable r) (p_trapframe r) (p_context r) (p_ofile r) (p_cwd r) (p_name r).
Definition set_p_chan (v : chan) (r : proc) : proc :=
    mkProc (p_state r) (p_parent r) v (p_killed r) (p_xstate r) (p_pid r) (p_kstack r) (p_sz r)
    (p_pagetable r) (p_trapframe r) (p_context r) (p_ofile r) (p_cwd r) (p_name r).
Definition set_p_killed (v : Z) (r : proc) : proc :=
    mkProc (p_state r) (p_parent r) (p_chan r) v (p_xstate r) (p_pid r) (p_kstack r) (p_sz r)
    (p_pagetable r) (p_trapframe r) (p_context r) (p_ofile r) (p_cwd r) (p_name r).
Definition set_p_xstate (v : Z) (r : proc) : proc :=
    mkProc (p_state r) (p_parent r) (p_chan r) (p_killed r) v (p_pid r) (p_kstack r) (p_sz r)
    (p_pagetable r) (p_trapframe r) (p_context r) (p_ofile r) (p_cwd r) (p_name r).
Definition set_p_pid (v : Z) (r : proc) : proc :=
    mkProc (p_state r) (p_parent r) (p_chan r) (p_killed r) (p_xstate r) v (p_kstack r) (p_sz r)
    (p_pagetable r) (p_trapframe r) (p_context r) (p_ofile r) (p_cwd r) (p_name r).
Definition set_p_kstack (v : Z) (r : proc) : proc :=
    mkProc (p_state r) (p_parent r) (p_chan r) (p_killed r) (p_xstate r) (p_pid r) v (p_sz r)
    (p_pagetable r) (p_trapframe r) (p_context r) (p_ofile r) (p_cwd r) (p_name r).
Definition set_p_sz (v : Z) (r : proc) : proc :=
    mkProc (p_state r) (p_parent r) (p_chan r) (p_killed r) (p_xstate r) (p_pid r) (p_kstack r)
    v (p_pagetable r) (p_trapframe r) (p_context r) (p_ofile r) (p_cwd r) (p_name r).
Definition set_p_pagetable (v : Z) (r : proc) : proc :=
    mkProc (p_state r) (p_parent r) (p_chan r) (p_killed r) (p_xstate r) (p_pid r) (p_kstack r)
    (p_sz r) v (p_trapframe r) (p_context r) (p_ofile r) (p_cwd r) (p_name r).
Definition set_p_trapframe (v : Z) (r : proc) : proc :=
    mkProc (p_state r) (p_parent r) (p_chan r) (p_killed r) (p_xstate r) (p_pid r) (p_kstack r)
    (p_sz r) (p_pagetable r) v (p_context r) (p_ofile r) (p_cwd r) (p_name r).
Definition set_p_context (v : context) (r : proc) : proc :=
    mkProc (p_state r) (p_parent r) (p_chan r) (p_killed r) (p_xstate r) (p_pid r) (p_kstack r)
    (p_sz r) (p_pagetable r) (p_trapframe r) v (p_ofile r) (p_cwd r) (p_name r).
Definition set_p_ofile (v : list (option nat)) (r : proc) : proc :=
    mkProc (p_state r) (p_parent r) (p_chan r) (p_killed r) (p_xstate r) (p_pid r) (p_kstack r)
    (p_sz r) (p_pagetable r) (p_trapframe r) (p_context r) v (p_cwd r) (p_name r).
Definition set_p_cwd (v : option nat) (r : proc) : proc :=
    mkProc (p_state r) (p_parent r) (p_chan r) (p_killed r) (p_xstate r) (p_pid r) (p_kstack r)
    (p_sz r) (p_pagetable r) (p_trapframe r) (p_context r) (p_ofile r) v (p_name r).
Definition set_p_name (v : list Z) (r : proc) : proc :=
    mkProc (p_state r) (p_parent r) (p_chan r) (p_killed r) (p_xstate r) (p_pid r) (p_kstack r)
    (p_sz r) (p_pagetable r) (p_trapframe r) (p_context r) (p_ofile r) (p_cwd r) v.

(** Offsets of [struct trapframe], which lives in its own page. *)
Definition TF_kernel_satp : Z := 0.
Definition TF_kernel_sp : Z := 8.
Definition TF_kernel_trap : Z := 16.
Definition TF_epc : Z := 24.
Definition TF_kernel_hartid : Z := 32.
Definition TF_ra : Z := 40.
Definition TF_sp : Z := 48.
Definition TF_a0 : Z := 112.
Definition TF_a1 : Z := 120.
Definition TF_a2 : Z := 128.
Definition TF_a3 : Z := 136.
Definition TF_a4 : Z := 144.
Definition TF_a5 : Z := 152.
Definition TF_a7 : Z := 168.
Definition TF_SIZE : Z := 288.

(** ** File system *)

Definition ROOTINO : Z := 1.
Definition BSIZE : Z := 1024.
Definition FSMAGIC : Z := 0x10203040.
Definition NDIRECT : Z := 12.
Definition NINDIRECT : Z := BSIZE / 4.
Definition MAXFILE : Z := NDIRECT + NINDIRECT.
Definition DINODE_SIZE : Z := 64.
Definition IPB : Z := BSIZE / DINODE_SIZE.
Definition BPB : Z := BSIZE * 8.
Definition DIRSIZ : Z := 14.
Definition DIRENT_SIZE : Z := 16.
Definition T_DIR : Z := 1.
Definition T_FILE : Z := 2.
Definition T_DEVICE : Z := 3.
Definition O_RDONLY : Z := 0x000.
Definition O_WRONLY : Z := 0x001.
Definition O_RDWR : Z := 0x002.
Definition O_CREATE : Z := 0x200.
Definition O_TRUNC : Z := 0x400.

Record superblock := mkSuperblock {
  sb_magic : Z;
  sb_size : Z;
  sb_nblocks : Z;
  sb_ninodes : Z;
  sb_nlog : Z;
  sb_logstart : Z;
  sb_inodestart : Z;
  sb_bmapstart : Z
}.

Definition IBLOCK (i : Z) (sb : superblock) : Z := u32 (i / IPB + sb_inodestart sb).
Definition BBLOCK (b : Z) (sb : superblock) : Z := u32 (b / BPB + sb_bmapstart sb).

Record dinode := mkDinode {
  di_type : Z;
  di_major : Z;
  di_minor : Z;
  di_nlink : Z;
  di_size : Z;
  di_addrs : list Z   (** NDIRECT + 1 block addresses *)
}.

Record dirent := mkDirent {
  de_inum : Z;
  de_name : list Z   (** DIRSIZ bytes *)
}.

Record buf := mkBuf {
  b_valid : Z;   (** has data been read from disk? *)
  b_disk : Z;   (** does disk own buf? *)
  b_dev : Z;
  b_blockno : Z;
  b_refcnt : Z;
  b_prev : nat;   (** LRU list: index, NBUF is the list head *)
  b_next : nat;
  b_data : list Z   (** BSIZE bytes *)
}.

Definition set_b_valid (v : Z) (r : buf) : buf :=
    mkBuf v (b_disk r) (b_dev r) (b_blockno r) (b_refcnt r) (b_prev r) (b_next r) (b_data r).
Definition set_b_disk (v : Z) (r : buf) : buf :=
    mkBuf (b_valid r) v (b_dev r) (b_blockno r) (b_refcnt r) (b_prev r) (b_next r) (b_data r).
Definition set_b_dev (v : Z) (r : buf) : buf :=
    mkBuf (b_valid r) (b_disk r) v (b_blockno r) (b_refcnt r) (b_prev r) (b_next r) (b_data r).
Definition set_b_blockno (v : Z) (r : buf) : buf :=
    mkBuf (b_valid r) (b_disk r) (b_dev r) v (b_refcnt r) (b_prev r) (b_next r) (b_data r).
Definition set_b_refcnt (v : Z) (r : buf) : buf :=
    mkBuf (b_valid r) (b_disk r) (b_dev r) (b_blockno r) v (b_prev r) (b_next r) (b_data r).
Definition set_b_prev (v : nat) (r : buf) : buf :=
    mkBuf (b_valid r) (b_disk r) (b_dev r) (b_blockno r) (b_refcnt r) v (b_next r) (b_data r).
Definition set_b_next (v : nat) (r : buf) : buf :=
    mkBuf (b_valid r) (b_disk r) (b_dev r) (b_blockno r) (b_refcnt r) (b_prev r) v (b_data r).
Definition set_b_data (v : list Z) (r : buf) : buf :=
    mkBuf (b_valid r) (b_disk r) (b_dev r) (b_blockno r) (b_refcnt r) (b_prev r) (b_next r) v.

(** In-memory copy of an inode. *)
Record inode := mkInode {
  i_dev : Z;
  i_inum : Z;
  i_ref : Z;   (** reference count *)
  i_valid : Z;   (** inode has been read from disk? *)
  i_type : Z;   (** copy of disk inode *)
  i_major : Z;
  i_minor : Z;
  i_nlink : Z;
  i_size : Z;
  i_addrs : list Z
}.

Definition set_i_dev (v : Z) (r : inode) : inode :=
    mkInode v (i_inum r) (i_ref r) (i_valid r) (i_type r) (i_major r) (i_minor r) (i_nlink r)
    (i_size r) (i_addrs r).
Definition set_i_inum (v : Z) (r : inode) : inode :=
    mkInode (i_dev r) v (i_ref r) (i_valid r) (i_type r) (i_major r) (i_minor r) (i_nlink r)
    (i_size r) (i_addrs r).
Definition set_i_ref (v : Z) (r : inode) : inode :=
    mkInode (i_dev r) (i_inum r) v (i_valid r) (i_type r) (i_major r) (i_minor r) (i_nlink r)
    (i_size r) (i_addrs r).
Definition set_i_valid (v : Z) (r : inode) : inode :=
    mkInode (i_dev r) (i_inum r) (i_ref r) v (i_type r) (i_major r) (i_minor r) (i_nlink r)
    (i_size r) (i_addrs r).
Definition set_i_type (v : Z) (r : inode) : inode :=
    mkInode (i_dev r) (i_inum r) (i_ref r) (i_valid r) v (i_major r) (i_minor r) (i_nlink r)
    (i_size r) (i_addrs r).
Definition set_i_major (v : Z) (r : inode) : inode :=
    mkInode (i_dev r) (i_inum r) (i_ref r) (i_valid r) (i_type r) v (i_minor r) (i_nlink r)
    (i_size r) (i_addrs r).
Definition set_i_minor (v : Z) (r : inode) : inode :=
    mkInode (i_dev r) (i_inum r) (i_ref r) (i_valid r) (i_type r) (i_major r) v (i_nlink r)
    (i_size r) (i_addrs r).
Definition set_i_nlink (v : Z) (r : inode) : inode :=
    mkInode (i_dev r) (i_inum r) (i_ref r) (i_valid r) (i_type r) (i_major r) (i_minor r) v
    (i_size r) (i_addrs r).
Definition set_i_size (v : Z) (r : inode) : inode :=
    mkInode (i_dev r) (i_inum r) (i_ref r) (i_valid r) (i_type r) (i_major r) (i_minor r)
    (i_nlink r) v (i_addrs r).
Definition set_i_addrs (v : list Z) (r : inode) : inode :=
    mkInode (i_dev r) (i_inum r) (i_ref r) (i_valid r) (i_type r) (i_major r) (i_minor r)
    (i_nlink r) (i_size r) v.

Inductive ftype := FD_NONE | FD_PIPE | FD_INODE | FD_DEVICE.

#[export] Instance ftype_eq_dec : EqDecision ftype.
Proof. solve_decision. Defined.

Record file := mkFile {
  f_type : ftype;
  f_ref : Z;   (** reference count *)
  f_readable : bool;
  f_writable : bool;
  f_pipe : Z;   (** FD_PIPE: page of the pipe *)
  f_ip : option nat;   (** FD_INODE and FD_DEVICE *)
  f_off : Z;   (** FD_INODE *)
  f_major : Z   (** FD_DEVICE *)
}.

Definition set_f_type (v : ftype) (r : file) : file :=
    mkFile v (f_ref r) (f_readable r) (f_writable r) (f_pipe r) (f_ip r) (f_off r) (f_major r).
Definition set_f_ref (v : Z) (r : file) : file :=
    mkFile (f_type r) v (f_readable r) (f_writable r) (f_pipe r) (f_ip r) (f_off r) (f_major r).
Definition set_f_readable (v : bool) (r : file) : file :=
    mkFile (f_type r) (f_ref r) v (f_writable r) (f_pipe r) (f_ip r) (f_off r) (f_major r).
Definition set_f_writable (v : bool) (r : file) : file :=
    mkFile (f_type r) (f_ref r) (f_readable r) v (f_pipe r) (f_ip r) (f_off r) (f_major r).
Definition set_f_pipe (v : Z) (r : file) : file :=
    mkFile (f_type r) (f_ref r) (f_readable r) (f_writable r) v (f_ip r) (f_off r) (f_major r).
Definition set_f_ip (v : option nat) (r : file) : file :=
    mkFile (f_type r) (f_ref r) (f_readable r) (f_writable r) (f_pipe r) v (f_off r) (f_major
    r).
Definition set_f_off (v : Z) (r : file) : file :=
    mkFile (f_type r) (f_ref r) (f_readable r) (f_writable r) (f_pipe r) (f_ip r) v (f_major r).
Definition set_f_major (v : Z) (r : file) : file :=
    mkFile (f_type r) (f_ref r) (f_readable r) (f_writable r) (f_pipe r) (f_ip r) (f_off r) v.

Record stat := mkStat {
  st_dev : Z;
  st_ino : Z;
  st_type : Z;
  st_nlink : Z;
  st_size : Z
}.

(** [struct log] with its [struct logheader] inlined. *)
Record log := mkLog {
  lg_start : Z;
  lg_size : Z;
  lg_outstanding : Z;   (** how many FS sys calls are executing *)
  lg_committing : bool;   (** in commit(), please wait *)
  lg_dev : Z;
  lh_n : Z;   (** header: number of logged blocks *)
  lh_block : list Z   (** header: LOGSIZE block numbers *)
}.

Definition set_lg_start (v : Z) (r : log) : log :=
    mkLog v (lg_size r) (lg_outstanding r) (lg_committing r) (lg_dev r) (lh_n r) (lh_block r).
Definition set_lg_size (v : Z) (r : log) : log :=
    mkLog (lg_start r) v (lg_outstanding r) (lg_committing r) (lg_dev r) (lh_n r) (lh_block r).
Definition set_lg_outstanding (v : Z) (r : log) : log :=
    mkLog (lg_start r) (lg_size r) v (lg_committing r) (lg_dev r) (lh_n r) (lh_block r).
Definition set_lg_committing (v : bool) (r : log) : log :=
    mkLog (lg_start r) (lg_size r) (lg_outstanding r) v (lg_dev r) (lh_n r) (lh_block r).
Definition set_lg_dev (v : Z) (r : log) : log :=
    mkLog (lg_start r) (lg_size r) (lg_outstanding r) (lg_committing r) v (lh_n r) (lh_block r).
Definition set_lh_n (v : Z) (r : log) : log :=
    mkLog (lg_start r) (lg_size r) (lg_outstanding r) (lg_committing r) (lg_dev r) v (lh_block
    r).
Definition set_lh_block (v : list Z) (r : log) : log :=
    mkLog (lg_start r) (lg_size r) (lg_outstanding r) (lg_committing r) (lg_dev r) (lh_n r) v.

(** ** Pipes, console, uart *)

Definition PIPESIZE : Z := 512.
Definition INPUT_BUF : Z := 128.
Definition UART_TX_BUF_SIZE : Z := 32.

Record pipe := mkPipe {
  pi_data : list Z;   (** PIPESIZE bytes *)
  pi_nread : Z;   (** number of bytes read *)
  pi_nwrite : Z;   (** number of bytes written *)
  pi_readopen : Z;   (** read fd is still open *)
  pi_writeopen : Z   (** write fd is still open *)
}.

Definition set_pi_data (v : list Z) (r : pipe) : pipe :=
    mkPipe v (pi_nread r) (pi_nwrite r) (pi_readopen r) (pi_writeopen r).
Definition set_pi_nread (v : Z) (r : pipe) : pipe :=
    mkPipe (pi_data r) v (pi_nwrite r) (pi_readopen r) (pi_writeopen r).
Definition set_pi_nwrite (v : Z) (r : pipe) : pipe :=
    mkPipe (pi_data r) (pi_nread r) v (pi_readopen r) (pi_writeopen r).
Definition set_pi_readopen (v : Z) (r : pipe) : pipe :=
    mkPipe (pi_data r) (pi_nread r) (pi_nwrite r) v (pi_writeopen r).
Definition set_pi_writeopen (v : Z) (r : pipe) : pipe :=
    mkPipe (pi_data r) (pi_nread r) (pi_nwrite r) (pi_readopen r) v.

Record cons := mkCons {
  co_buf : list Z;   (** INPUT_BUF bytes *)
  co_r : Z;   (** read index *)
  co_w : Z;   (** write index *)
  co_e : Z   (** edit index *)
}.

Definition set_co_buf (v : list Z) (r : cons) : cons :=
    mkCons v (co_r r) (co_w r) (co_e r).
Definition set_co_r (v : Z) (r : cons) : cons :=
    mkCons (co_buf r) v (co_w r) (co_e r).
Definition set_co_w (v : Z) (r : cons) : cons :=
    mkCons (co_buf r) (co_r r) v (co_e r).
Definition set_co_e (v : Z) (r : cons) : cons :=
    mkCons (co_buf r) (co_r r) (co_w r) v.

Record uart := mkUart {
  ua_buf : list Z;   (** uart_tx_buf *)
  ua_w : Z;   (** uart_tx_w *)
  ua_r : Z   (** uart_tx_r *)
}.

Definition set_ua_buf (v : list Z) (r : uart) : uart :=
    mkUart v (ua_w r) (ua_r r).
Definition set_ua_w (v : Z) (r : uart) : uart :=
    mkUart (ua_buf r) v (ua_r r).
Definition set_ua_r (v : Z) (r : uart) : uart :=
    mkUart (ua_buf r) (ua_w r) v.

(** The device functions a [devsw] entry can point to. *)
Inductive devfn := CONSOLEREAD | CONSOLEWRITE.

Definition CONSOLE : Z := 1.

(** ** The virtio disk *)

Definition NUM : nat := 8.
Definition VRING_DESC_F_NEXT : Z := 1.
Definition VRING_DESC_F_WRITE : Z := 2.
Definition VIRTIO_BLK_T_IN : Z := 0.
Definition VIRTIO_BLK_T_OUT : Z := 1.

Record VRingDesc := mkDesc {
  vd_addr : Z;
  vd_len : Z;
  vd_flags : Z;
  vd_next : Z
}.

Definition set_vd_addr (v : Z) (r : VRingDesc) : VRingDesc :=
    mkDesc v (vd_len r) (vd_flags r) (vd_next r).
Definition set_vd_len (v : Z) (r : VRingDesc) : VRingDesc :=
    mkDesc (vd_addr r) v (vd_flags r) (vd_next r).
Definition set_vd_flags (v : Z) (r : VRingDesc) : VRingDesc :=
    mkDesc (vd_addr r) (vd_len r) v (vd_next r).
Definition set_vd_next (v : Z) (r : VRingDesc) : VRingDesc :=
    mkDesc (vd_addr r) (vd_len r) (vd_flags r) v.

(** disk.info[] *)
Record vinfo := mkInfo {
  in_b : option nat;   (** the buffer of the request *)
  in_status : Z
}.

Definition set_in_b (v : option nat) (r : vinfo) : vinfo :=
    mkInfo v (in_status r).
Definition set_in_status (v : Z) (r : vinfo) : vinfo :=
    mkInfo (in_b r) v.

(** [struct disk] *)
Record vdisk := mkVdisk {
  d_desc : list VRingDesc;
  d_avail : list Z;   (** flags, index, ring *)
  d_used_id : Z;   (** used->id *)
  d_used_elems : list Z;   (** used->elems[].id *)
  d_free : list bool;   (** is a descriptor free? *)
  d_used_idx : Z;
  d_info : list vinfo
}.

Definition set_d_desc (v : list VRingDesc) (r : vdisk) : vdisk :=
    mkVdisk v (d_avail r) (d_used_id r) (d_used_elems r) (d_free r) (d_used_idx r) (d_info r).
Definition set_d_avail (v : list Z) (r : vdisk) : vdisk :=
    mkVdisk (d_desc r) v (d_used_id r) (d_used_elems r) (d_free r) (d_used_idx r) (d_info r).
Definition set_d_used_id (v : Z) (r : vdisk) : vdisk :=
    mkVdisk (d_desc r) (d_avail r) v (d_used_elems r) (d_free r) (d_used_idx r) (d_info r).
Definition set_d_used_elems (v : list Z) (r : vdisk) : vdisk :=
    mkVdisk (d_desc r) (d_avail r) (d_used_id r) v (d_free r) (d_used_idx r) (d_info r).
Definition set_d_free (v : list bool) (r : vdisk) : vdisk :=
    mkVdisk (d_desc r) (d_avail r) (d_used_id r) (d_used_elems r) v (d_used_idx r) (d_info r).
Definition set_d_used_idx (v : Z) (r : vdisk) : vdisk :=
    mkVdisk (d_desc r) (d_avail r) (d_used_id r) (d_used_elems r) (d_free r) v (d_info r).
Definition set_d_info (v : list vinfo) (r : vdisk) : vdisk :=
    mkVdisk (d_desc r) (d_avail r) (d_used_id r) (d_used_elems r) (d_free r) (d_used_idx r) v.

(** ** Devices

    Device registers are the kernel's environment: the values successive reads
    of the uart status register return, the characters received, the
    interrupts the PLIC hands out and the values of the read-only registers
    are given; writes to device registers are recorded in order. *)

Record io := mkIo {
  io_regs : gmap Z Z;   (** read-only registers *)
  io_writes : list (Z * Z);   (** trace of register writes *)
  io_lsr : list Z;   (** what reads of LSR will return *)
  io_rhr : list Z;   (** what reads of RHR will return *)
  io_claims : list Z   (** what PLIC claims will return *)
}.

Definition set_io_regs (v : gmap Z Z) (r : io) : io :=
    mkIo v (io_writes r) (io_lsr r) (io_rhr r) (io_claims r).
Definition set_io_writes (v : list (Z * Z)) (r : io) : io :=
    mkIo (io_regs r) v (io_lsr r) (io_rhr r) (io_claims r).
Definition set_io_lsr (v : list Z) (r : io) : io :=
    mkIo (io_regs r) (io_writes r) v (io_rhr r) (io_claims r).
Definition set_io_rhr (v : list Z) (r : io) : io :=
    mkIo (io_regs r) (io_writes r) (io_lsr r) v (io_claims r).
Definition set_io_claims (v : list Z) (r : io) : io :=
    mkIo (io_regs r) (io_writes r) (io_lsr r) (io_rhr r) v.

(** ** The whole kernel *)

Record kstate := mkKstate {
  k_lk : cpust;   (** hart, cpus, spinlocks *)
  k_slocks : gmap slid sleeplock;   (** sleeplocks *)
  k_mem : gmap Z Z;   (** bytes at kernel addresses (direct map) *)
  k_freelist : Z;   (** kmem.freelist *)
  k_kpt : Z;   (** kernel_pagetable *)
  k_procs : list proc;   (** proc[NPROC] *)
  k_initproc : option nat;
  k_nextpid : Z;
  k_first : bool;   (** static first of forkret *)
  k_ticks : Z;
  k_bufs : list buf;   (** bcache.buf[NBUF], then bcache.head *)
  k_log : log;
  k_sb : superblock;
  k_icache : list inode;   (** icache.inode[NINODE] *)
  k_ftable : list file;   (** ftable.file[NFILE] *)
  k_pipes : gmap Z pipe;   (** the pipe in each pipe page *)
  k_cons : cons;
  k_uart : uart;
  k_locking : bool;   (** pr.locking *)
  k_panicked : bool;   (** panicked *)
  k_devsw : list (option devfn * option devfn);   (** devsw[NDEV]: read, write *)
  k_vdisk : vdisk;   (** driver side of the disk *)
  k_disk : gmap Z (list Z);   (** contents of the disk, by block *)
  k_dwrites : list (Z * list Z);   (** trace of block writes *)
  k_io : io;   (** device registers *)
  k_started : bool
}.

Definition set_k_lk (v : cpust) (r : kstate) : kstate :=
    mkKstate v (k_slocks r) (k_mem r) (k_freelist r) (k_kpt r) (k_procs r) (k_initproc r)
    (k_nextpid r) (k_first r) (k_ticks r) (k_bufs r) (k_log r) (k_sb r) (k_icache r) (k_ftable
    r) (k_pipes r) (k_cons r) (k_uart r) (k_locking r) (k_panicked r) (k_devsw r) (k_vdisk r)
    (k_disk r) (k_dwrites r) (k_io r) (k_started r).
Definition set_k_slocks (v : gmap slid sleeplock) (r : kstate) : kstate :=
    mkKstate (k_lk r) v (k_mem r) (k_freelist r) (k_kpt r) (k_procs r) (k_initproc r) (k_nextpid
    r) (k_first r) (k_ticks r) (k_bufs r) (k_log r) (k_sb r) (k_icache r) (k_ftable r) (k_pipes
    r) (k_cons r) (k_uart r) (k_locking r) (k_panicked r) (k_devsw r) (k_vdisk r) (k_disk r)
    (k_dwrites r) (k_io r) (k_started r).
Definition set_k_mem (v : gmap Z Z) (r : kstate) : kstate :=
    mkKstate (k_lk r) (k_slocks r) v (k_freelist r) (k_kpt r) (k_procs r) (k_initproc r)
    (k_nextpid r) (k_first r) (k_ticks r) (k_bufs r) (k_log r) (k_sb r) (k_icache r) (k_ftable
    r) (k_pipes r) (k_cons r) (k_uart r) (k_locking r) (k_panicked r) (k_devsw r) (k_vdisk r)
    (k_disk r) (k_dwrites r) (k_io r) (k_started r).
Definition set_k_freelist (v : Z) (r : kstate) : kstate :=
    mkKstate (k_lk r) (k_slocks r) (k_mem r) v (k_kpt r) (k_procs r) (k_initproc r) (k_nextpid
    r) (k_first r) (k_ticks r) (k_bufs r) (k_log r) (k_sb r) (k_icache r) (k_ftable r) (k_pipes
    r) (k_cons r) (k_uart r) (k_locking r) (k_panicked r) (k_devsw r) (k_vdisk r) (k_disk r)
    (k_dwrites r) (k_io r) (k_started r).
Definition set_k_kpt (v : Z) (r : kstate) : kstate :=
    mkKstate (k_lk r) (k_slocks r) (k_mem r) (k_freelist r) v (k_procs r) (k_initproc r)
    (k_nextpid r) (k_first r) (k_ticks r) (k_bufs r) (k_log r) (k_sb r) (k_icache r) (k_ftable
    r) (k_pipes r) (k_cons r) (k_uart r) (k_locking r) (k_panicked r) (k_devsw r) (k_vdisk r)
    (k_disk r) (k_dwrites r) (k_io r) (k_started r).
Definition set_k_procs (v : list proc) (r : kstate) : kstate :=
    mkKstate (k_lk r) (k_slocks r) (k_mem r) (k_freelist r) (k_kpt r) v (k_initproc r)
    (k_nextpid r) (k_first r) (k_ticks r) (k_bufs r) (k_log r) (k_sb r) (k_icache r) (k_ftable
    r) (k_pipes r) (k_cons r) (k_uart r) (k_locking r) (k_panicked r) (k_devsw r) (k_vdisk r)
    (k_disk r) (k_dwrites r) (k_io r) (k_started r).
Definition set_k_initproc (v : option nat) (r : kstate) : kstate :=
    mkKstate (k_lk r) (k_slocks r) (k_mem r) (k_freelist r) (k_kpt r) (k_procs r) v (k_nextpid
    r) (k_first r) (k_ticks r) (k_bufs r) (k_log r) (k_sb r) (k_icache r) (k_ftable r) (k_pipes
    r) (k_cons r) (k_uart r) (k_locking r) (k_panicked r) (k_devsw r) (k_vdisk r) (k_disk r)
    (k_dwrites r) (k_io r) (k_started r).
Definition set_k_nextpid (v : Z) (r : kstate) : kstate :=
    mkKstate (k_lk r) (k_slocks r) (k_mem r) (k_freelist r) (k_kpt r) (k_procs r) (k_initproc r)
    v (k_first r) (k_ticks r) (k_bufs r) (k_log r) (k_sb r) (k_icache r) (k_ftable r) (k_pipes
    r) (k_cons r) (k_uart r) (k_locking r) (k_panicked r) (k_devsw r) (k_vdisk r) (k_disk r)
    (k_dwrites r) (k_io r) (k_started r).
Definition set_k_first (v : bool) (r : kstate) : kstate :=
    mkKstate (k_lk r) (k_slocks r) (k_mem r) (k_freelist r) (k_kpt r) (k_procs r) (k_initproc r)
    (k_nextpid r) v (k_ticks r) (k_bufs r) (k_log r) (k_sb r) (k_icache r) (k_ftable r) (k_pipes
    r) (k_cons r) (k_uart r) (k_locking r) (k_panicked r) (k_devsw r) (k_vdisk r) (k_disk r)
    (k_dwrites r) (k_io r) (k_started r).
Definition set_k_ticks (v : Z) (r : kstate) : kstate :=
    mkKstate (k_lk r) (k_slocks r) (k_mem r) (k_freelist r) (k_kpt r) (k_procs r) (k_initproc r)
    (k_nextpid r) (k_first r) v (k_bufs r) (k_log r) (k_sb r) (k_icache r) (k_ftable r) (k_pipes
    r) (k_cons r) (k_uart r) (k_locking r) (k_panicked r) (k_devsw r) (k_vdisk r) (k_disk r)
    (k_dwrites r) (k_io r) (k_started r).
Definition set_k_bufs (v : list buf) (r : kstate) : kstate :=
    mkKstate (k_lk r) (k_slocks r) (k_mem r) (k_freelist r) (k_kpt r) (k_procs r) (k_initproc r)
    (k_nextpid r) (k_first r) (k_ticks r) v (k_log r) (k_sb r) (k_icache r) (k_ftable r)
    (k_pipes r) (k_cons r) (k_uart r) (k_locking r) (k_panicked r) (k_devsw r) (k_vdisk r)
    (k_disk r) (k_dwrites r) (k_io r) (k_started r).
Definition set_k_log (v : log) (r : kstate) : kstate :=
    mkKstate (k_lk r) (k_slocks r) (k_mem r) (k_freelist r) (k_kpt r) (k_procs r) (k_initproc r)
    (k_nextpid r) (k_first r) (k_ticks r) (k_bufs r) v (k_sb r) (k_icache r) (k_ftable r)
    (k_pipes r) (k_cons r) (k_uart r) (k_locking r) (k_panicked r) (k_devsw r) (k_vdisk r)
    (k_disk r) (k_dwrites r) (k_io r) (k_started r).
Definition set_k_sb (v : superblock) (r : kstate) : kstate :=
    mkKstate (k_lk r) (k_slocks r) (k_mem r) (k_freelist r) (k_kpt r) (k_procs r) (k_initproc r)
    (k_nextpid r) (k_first r) (k_ticks r) (k_bufs r) (k_log r) v (k_icache r) (k_ftable r)
    (k_pipes r) (k_cons r) (k_uart r) (k_locking r) (k_panicked r) (k_devsw r) (k_vdisk r)
    (k_disk r) (k_dwrites r) (k_io r) (k_started r).
Definition set_k_icache (v : list inode) (r : kstate) : kstate :=
    mkKstate (k_lk r) (k_slocks r) (k_mem r) (k_freelist r) (k_kpt r) (k_procs r) (k_initproc r)
    (k_nextpid r) (k_first r) (k_ticks r) (k_bufs r) (k_log r) (k_sb r) v (k_ftable r) (k_pipes
    r) (k_cons r) (k_uart r) (k_locking r) (k_panicked r) (k_devsw r) (k_vdisk r) (k_disk r)
    (k_dwrites r) (k_io r) (k_started r).
Definition set_k_ftable (v : list file) (r : kstate) : kstate :=
    mkKstate (k_lk r) (k_slocks r) (k_mem r) (k_freelist r) (k_kpt r) (k_procs r) (k_initproc r)
    (k_nextpid r) (k_first r) (k_ticks r) (k_bufs r) (k_log r) (k_sb r) (k_icache r) v (k_pipes
    r) (k_cons r) (k_uart r) (k_locking r) (k_panicked r) (k_devsw r) (k_vdisk r) (k_disk r)
    (k_dwrites r) (k_io r) (k_started r).
Definition set_k_pipes (v : gmap Z pipe) (r : kstate) : kstate :=
    mkKstate (k_lk r) (k_slocks r) (k_mem r) (k_freelist r) (k_kpt r) (k_procs r) (k_initproc r)
    (k_nextpid r) (k_first r) (k_ticks r) (k_bufs r) (k_log r) (k_sb r) (k_icache r) (k_ftable
    r) v (k_cons r) (k_uart r) (k_locking r) (k_panicked r) (k_devsw r) (k_vdisk r) (k_disk r)
    (k_dwrites r) (k_io r) (k_started r).
Definition set_k_cons (v : cons) (r : kstate) : kstate :=
    mkKstate (k_lk r) (k_slocks r) (k_mem r) (k_freelist r) (k_kpt r) (k_procs r) (k_initproc r)
    (k_nextpid r) (k_first r) (k_ticks r) (k_bufs r) (k_log r) (k_sb r) (k_icache r) (k_ftable
    r) (k_pipes r) v (k_uart r) (k_locking r) (k_panicked r) (k_devsw r) (k_vdisk r) (k_disk r)
    (k_dwrites r) (k_io r) (k_started r).
Definition set_k_uart (v : uart) (r : kstate) : kstate :=
    mkKstate (k_lk r) (k_slocks r) (k_mem r) (k_freelist r) (k_kpt r) (k_procs r) (k_initproc r)
    (k_nextpid r) (k_first r) (k_ticks r) (k_bufs r) (k_log r) (k_sb r) (k_icache r) (k_ftable
    r) (k_pipes r) (k_cons r) v (k_locking r) (k_panicked r) (k_devsw r) (k_vdisk r) (k_disk r)
    (k_dwrites r) (k_io r) (k_started r).
Definition set_k_locking (v : bool) (r : kstate) : kstate :=
    mkKstate (k_lk r) (k_slocks r) (k_mem r) (k_freelist r) (k_kpt r) (k_procs r) (k_initproc r)
    (k_nextpid r) (k_first r) (k_ticks r) (k_bufs r) (k_log r) (k_sb r) (k_icache r) (k_ftable
    r) (k_pipes r) (k_cons r) (k_uart r) v (k_panicked r) (k_devsw r) (k_vdisk r) (k_disk r)
    (k_dwrites r) (k_io r) (k_started r).
Definition set_k_panicked (v : bool) (r : kstate) : kstate :=
    mkKstate (k_lk r) (k_slocks r) (k_mem r) (k_freelist r) (k_kpt r) (k_procs r) (k_initproc r)
    (k_nextpid r) (k_first r) (k_ticks r) (k_bufs r) (k_log r) (k_sb r) (k_icache r) (k_ftable
    r) (k_pipes r) (k_cons r) (k_uart r) (k_locking r) v (k_devsw r) (k_vdisk r) (k_disk r)
    (k_dwrites r) (k_io r) (k_started r).
Definition set_k_devsw (v : list (option devfn * option devfn)) (r : kstate) : kstate :=
    mkKstate (k_lk r) (k_slocks r) (k_mem r) (k_freelist r) (k_kpt r) (k_procs r) (k_initproc r)
    (k_nextpid r) (k_first r) (k_ticks r) (k_bufs r) (k_log r) (k_sb r) (k_icache r) (k_ftable
    r) (k_pipes r) (k_cons r) (k_uart r) (k_locking r) (k_panicked r) v (k_vdisk r) (k_disk r)
    (k_dwrites r) (k_io r) (k_started r).
Definition set_k_vdisk (v : vdisk) (r : kstate) : kstate :=
    mkKstate (k_lk r) (k_slocks r) (k_mem r) (k_freelist r) (k_kpt r) (k_procs r) (k_initproc r)
    (k_nextpid r) (k_first r) (k_ticks r) (k_bufs r) (k_log r) (k_sb r) (k_icache r) (k_ftable
    r) (k_pipes r) (k_cons r) (k_uart r) (k_locking r) (k_panicked r) (k_devsw r) v (k_disk r)
    (k_dwrites r) (k_io r) (k_started r).
Definition set_k_disk (v : gmap Z (list Z)) (r : kstate) : kstate :=
    mkKstate (k_lk r) (k_slocks r) (k_mem r) (k_freelist r) (k_kpt r) (k_procs r) (k_initproc r)
    (k_nextpid r) (k_first r) (k_ticks r) (k_bufs r) (k_log r) (k_sb r) (k_icache r) (k_ftable
    r) (k_pipes r) (k_cons r) (k_uart r) (k_locking r) (k_panicked r) (k_devsw r) (k_vdisk r) v
    (k_dwrites r) (k_io r) (k_started r).
Definition set_k_dwrites (v : list (Z * list Z)) (r : kstate) : kstate :=
    mkKstate (k_lk r) (k_slocks r) (k_mem r) (k_freelist r) (k_kpt r) (k_procs r) (k_initproc r)
    (k_nextpid r) (k_first r) (k_ticks r) (k_bufs r) (k_log r) (k_sb r) (k_icache r) (k_ftable
    r) (k_pipes r) (k_cons r) (k_uart r) (k_locking r) (k_panicked r) (k_devsw r) (k_vdisk r)
    (k_disk r) v (k_io r) (k_started r).
Definition set_k_io (v : io) (r : kstate) : kstate :=
    mkKstate (k_lk r) (k_slocks r) (k_mem r) (k_freelist r) (k_kpt r) (k_procs r) (k_initproc r)
    (k_nextpid r) (k_first r) (k_ticks r) (k_bufs r) (k_log r) (k_sb r) (k_icache r) (k_ftable
    r) (k_pipes r) (k_cons r) (k_uart r) (k_locking r) (k_panicked r) (k_devsw r) (k_vdisk r)
    (k_disk r) (k_dwrites r) v (k_started r).
Definition set_k_started (v : bool) (r : kstate) : kstate :=
    mkKstate (k_lk r) (k_slocks r) (k_mem r) (k_freelist r) (k_kpt r) (k_procs r) (k_initproc r)
    (k_nextpid r) (k_first r) (k_ticks r) (k_bufs r) (k_log r) (k_sb r) (k_icache r) (k_ftable
    r) (k_pipes r) (k_cons r) (k_uart r) (k_locking r) (k_panicked r) (k_devsw r) (k_vdisk r)
    (k_disk r) (k_dwrites r) (k_io r) v.

(** ** The initial state: static storage is zero

    [nextpid = 1], [first = 1] and [pr.locking = 0] are the only non-zero
    initialisers the state carries. *)
Definition hart0 : hart := mkHart 0 0 0 0 0 0 0 0 0 0 0 0 0 0 0 0 0 0 0 0 0 0.
Definition cpu0 : cpu := mkCpu None 0 false.
Definition spinlock0 : spinlock := mkSpinlock 0 "" None.
Definition sleeplock0 : sleeplock := mkSleeplock 0 "" 0.
Definition context0 : context := mkContext 0 0 (replicate 12 0).
Definition proc0 : proc :=
  mkProc UNUSED None ChNull 0 0 0 0 0 0 0 context0 (replicate NOFILE None) None (replicate 16 0).
Definition buf0 : buf := mkBuf 0 0 0 0 0 0 0 (replicate 1024 0).
Definition inode0 : inode := mkInode 0 0 0 0 0 0 0 0 0 (replicate 13 0).
Definition file0 : file := mkFile FD_NONE 0 false false 0 None 0 0.
Definition desc0 : VRingDesc := mkDesc 0 0 0 0.
Definition info0 : vinfo := mkInfo None 0.
Definition kstate0 : kstate :=
  mkKstate (mkCpust hart0 (replicate NCPU cpu0) ∅) ∅ ∅ 0 0 (replicate NPROC proc0) None 1 true 0
    (replicate (S NBUF) buf0) (mkLog 0 0 0 false 0 0 (replicate 30 0))
    (mkSuperblock 0 0 0 0 0 0 0 0) (replicate NINODE inode0) (replicate NFILE file0) ∅
    (mkCons (replicate 128 0) 0 0 0) (mkUart (replicate 32 0) 0 0) false false
    (replicate 10 (None, None))
    (mkVdisk (replicate NUM desc0) (replicate 10 0) 0 (replicate NUM 0) (replicate NUM false) 0
       (replicate NUM info0))
    ∅ [] (mkIo ∅ [] [] [] []) false.

Notation K := (M kstate).

(** Record update equations: a projection of an updated record, and an update
    that overwrites an update of the same field.  Each equation is checked once, on
    variables, so that nested updates of a large record stay cheap. *)
Ltac is_state T :=
  lazymatch T with
  | kstate => idtac | cpust => idtac | cpu => idtac | spinlock => idtac | sleeplock => idtac
  | proc => idtac | buf => idtac | inode => idtac | file => idtac | log => idtac
  | pipe => idtac | cons => idtac | uart => idtac | vdisk => idtac | io => idtac
  | hart => idtac | VRingDesc => idtac
  end.
Ltac update_eq p f v s k :=
  let T := type of s in
  is_state T; is_const p; is_const f;
  let A := type of (p s) in
  lazymatch A with outcome _ _ => fail | Prop => fail | T => fail | _ => idtac end;
  let V := type of v in
  first
    [ let E := constr:((λ (x : V) (r : T), eq_refl (p r)) : ∀ x r, p (f x r) = p r) in k E
    | let E := constr:((λ (x : V) (r : T), eq_refl x) : ∀ x r, p (f x r) = x) in k E ].
Ltac update_twice f w v s k :=
  let T := type of s in
  is_state T; is_const f;
  let V := type of v in
  let E := constr:((λ (y x : V) (r : T), eq_refl (f y r)) : ∀ y x r, f y (f x r) = f y r) in k E.
Ltac ksimpl :=
  repeat match goal with
  | |- context [?p (?f ?v ?s)] =>
      update_eq p f v s ltac:(fun E => pattern (p (f v s)); refine (eq_ind_r _ _ (E v s)); cbv beta)
  | |- context [?f ?w (?f ?v ?s)] =>
      update_twice f w v s
        ltac:(fun E => pattern (f w (f v s)); refine (eq_ind_r _ _ (E w v s)); cbv beta)
  end.
Ltac ksimpl_in H := revert H; ksimpl; intros H.

(** Equality of records built by updates. *)
Ltac keq :=
  repeat match goal with s : ?T |- _ => is_state T; destruct s end;
  cbv delta [
    set_k_lk set_k_slocks set_k_mem set_k_freelist set_k_kpt set_k_procs set_k_initproc
    set_k_nextpid set_k_first set_k_ticks set_k_bufs set_k_log set_k_sb set_k_icache
    set_k_ftable set_k_pipes set_k_cons set_k_uart set_k_locking set_k_panicked set_k_devsw
    set_k_vdisk set_k_disk set_k_dwrites set_k_io set_k_started k_lk k_slocks k_mem k_freelist
    k_kpt k_procs k_initproc k_nextpid k_first k_ticks k_bufs k_log k_sb k_icache k_ftable
    k_pipes k_cons k_uart k_locking k_panicked k_devsw k_vdisk k_disk k_dwrites k_io k_started] beta iota; reflexivity.

Lemma Ok_eq {S A} (a : A) (s s' : S) : s = s' → Ok a s = Ok a s'.
Proof. by intros ->. Qed.
Ltac okeq := apply Ok_eq; keq.

(** ** What the linker and the compiler fix

    Addresses of kernel symbols ([kernel.ld], [trampoline.S], [kernelvec.S])
    and of objects on the kernel stack. *)
Class Symbols := {
  end_ : Z;            (** first address after the kernel *)
  etext : Z;           (** end of kernel code *)
  trampoline : Z;      (** the trampoline page *)
  uservec : Z; userret : Z; kernelvec : Z; timervec : Z;
  forkret_addr : Z; usertrap_addr : Z; main_addr : Z;
  stk : Z;             (** a local object on the current kernel stack *)
  disk_pages : Z;      (** [disk.pages] of virtio_disk.c *)
  bdata : nat → Z;     (** the address of [bcache.buf[i].data] *)
  info_status : nat → Z; (** the address of [disk.info[i].status] *)
  mscratch0 : Z        (** [mscratch0] of start.c *)
}.

(** The page-table entry format: which physical page an entry points to. *)
Class PteFormat := pte2pa : Z → Z.

(** The macro of [riscv.h]. *)
Definition riscv_h_pte : PteFormat := PTE2PA.

