(* ===== verification/Mem.v ===== *)
(** * Memory and [kernel/string.c]

    Memory is a finite map from addresses to bytes; an address that was never
    written reads as 0.  The routines of [string.c] that write through a
    pointer work on memory; those that only read take their arguments as byte
    sources (a function from offset to byte), so that they apply both to
    memory and to the character arrays inside structs. *)

From stdpp Require Import prelude gmap strings list list_numbers.
From Stdlib Require Import ZArith Lia.
From S2P Require Import Prelude.

Definition rd (m : gmap Z Z) (a : Z) : Z := default 0 (m !! a).
Definition wr (m : gmap Z Z) (a v : Z) : gmap Z Z := <[a := u8 v]> m.

Fixpoint load_bytes (m : gmap Z Z) (a : Z) (n : nat) : list Z :=
  match n with
  | O => []
  | S n' => rd m a :: load_bytes m (a + 1) n'
  end.

Fixpoint store_bytes (m : gmap Z Z) (a : Z) (l : list Z) : gmap Z Z :=
  match l with
  | [] => m
  | b :: l' => store_bytes (wr m a b) (a + 1) l'
  end.

Definition load32 (m : gmap Z Z) (a : Z) : Z := le_join (load_bytes m a 4).
Definition load64 (m : gmap Z Z) (a : Z) : Z := le_join (load_bytes m a 8).
Definition store32 (m : gmap Z Z) (a v : Z) : gmap Z Z := store_bytes m a (le_split 4 v).
Definition store64 (m : gmap Z Z) (a v : Z) : gmap Z Z := store_bytes m a (le_split 8 v).

(** ** [string.c] *)

(** [for(i = 0; i < n; i++) cdst[i] = c;] *)
Fixpoint memset_loop (k : nat) (m : gmap Z Z) (cdst i c : Z) : gmap Z Z :=
  match k with
  | O => m
  | S k' => memset_loop k' (wr m (cdst + i) c) cdst (i + 1) c
  end.
Definition memset (m : gmap Z Z) (dst c n : Z) : gmap Z Z :=
  memset_loop (Z.to_nat n) m dst 0 c.

(** [while(n-- > 0){ if( *s1 != *s2 ) return *s1 - *s2; s1++, s2++; }] *)
Fixpoint memcmp_loop (k : nat) (s1 s2 : Z → Z) (i : Z) : Z :=
  match k with
  | O => 0
  | S k' => if s1 i <>? s2 i then s1 i - s2 i else memcmp_loop k' s1 s2 (i + 1)
  end.
Definition memcmp (v1 v2 : Z → Z) (n : Z) : Z := memcmp_loop (Z.to_nat n) v1 v2 0.

(** The two loops of [memmove]: downwards and upwards. *)
Fixpoint memmove_down (k : nat) (m : gmap Z Z) (d s : Z) : gmap Z Z :=
  match k with
  | O => m
  | S k' => memmove_down k' (wr m (d - 1) (rd m (s - 1))) (d - 1) (s - 1)
  end.
Fixpoint memmove_up (k : nat) (m : gmap Z Z) (d s : Z) : gmap Z Z :=
  match k with
  | O => m
  | S k' => memmove_up k' (wr m d (rd m s)) (d + 1) (s + 1)
  end.
Definition memmove (m : gmap Z Z) (dst src n : Z) : gmap Z Z :=
  if (src <? dst) && (dst <? src + n)
  then memmove_down (Z.to_nat n) m (dst + n) (src + n)
  else memmove_up (Z.to_nat n) m dst src.
Definition memcpy (m : gmap Z Z) (dst src n : Z) : gmap Z Z := memmove m dst src n.

(** [while(n > 0 && *p && *p == *q) n--, p++, q++; ...] *)
Fixpoint strncmp_loop (n : nat) (p q : Z → Z) (i : Z) : Z :=
  match n with
  | O => 0
  | S n' =>
      if (p i <>? 0) && (p i =? q i) then strncmp_loop n' p q (i + 1)
      else u8 (p i) - u8 (q i)
  end.
Definition strncmp (p q : Z → Z) (n : Z) : Z := strncmp_loop (Z.to_nat n) p q 0.

(** [strncpy]: copy up to and including a NUL, then pad with zeros. *)
Fixpoint strncpy_pad (k i : nat) (s : list Z) : list Z :=
  match k with
  | O => s
  | S k' => strncpy_pad k' (S i) (<[i := 0]> s)
  end.
Fixpoint strncpy_loop (k i : nat) (s : list Z) (t : Z → Z) : list Z :=
  match k with
  | O => s
  | S k' =>
      let c := t (Z.of_nat i) in
      if c =? 0 then strncpy_pad k' (S i) (<[i := c]> s)
      else strncpy_loop k' (S i) (<[i := c]> s) t
  end.
Definition strncpy (s : list Z) (t : Z → Z) (n : Z) : list Z :=
  strncpy_loop (Z.to_nat n) 0 s t.

(** [while(--n > 0 && ( *s++ = *t++ ) != 0) ; *s = 0;] *)
Fixpoint safestrcpy_loop (k i : nat) (s : list Z) (t : Z → Z) : list Z :=
  match k with
  | O => <[i := 0]> s
  | S k' =>
      let c := t (Z.of_nat i) in
      if c =? 0 then <[S i := 0]> (<[i := c]> s)
      else safestrcpy_loop k' (S i) (<[i := c]> s) t
  end.
Definition safestrcpy (s : list Z) (t : Z → Z) (n : Z) : list Z :=
  if n <=? 0 then s else safestrcpy_loop (Z.to_nat (n - 1)) 0 s t.

(** [for(n = 0; s[n]; n++) ;] over at most [fuel] bytes. *)
Fixpoint strlen_loop (fuel : nat) (s : Z → Z) (n : Z) : option Z :=
  match fuel with
  | O => None
  | S f => if s n =? 0 then Some n else strlen_loop f s (n + 1)
  end.

(** Byte sources. *)
Definition at_mem (m : gmap Z Z) (a : Z) : Z → Z := λ i, rd m (a + i).
Definition at_list (l : list Z) : Z → Z := λ i, nth (Z.to_nat i) l 0.

(** [strlen] of a string in memory: some byte is unmapped, hence 0, within
    one more byte than the memory holds. *)
Definition strlen_mem (m : gmap Z Z) (a : Z) : option Z :=
  strlen_loop (S (size m)) (at_mem m a) 0.
(** [strlen] of a character array. *)
Definition strlen_list (l : list Z) : Z :=
  default (Z.of_nat (length l)) (strlen_loop (S (length l)) (at_list l) 0).

(** The C string in an array: the bytes before the first NUL. *)
Fixpoint cstr (l : list Z) : list Z :=
  match l with
  | [] => []
  | c :: l' => if c =? 0 then [] else c :: cstr l'
  end.

(** ** Loads and stores *)

Definition mem_ok (m : gmap Z Z) : Prop := ∀ a b, m !! a = Some b → is_byte b.

Lemma rd_byte m a : mem_ok m → is_byte (rd m a).
Proof.
  intros H. unfold rd. destruct (m !! a) as [b|] eqn:E; simpl; [by eapply H|].
  unfold is_byte. lia.
Qed.

Lemma rd_wr m a v b : rd (wr m a v) b = if decide (a = b) then u8 v else rd m b.
Proof. unfold rd, wr. rewrite lookup_insert. by case_decide. Qed.

Lemma wr_ok m a v : mem_ok m → mem_ok (wr m a v).
Proof.
  intros H b c. unfold wr. rewrite lookup_insert_Some.
  intros [[<- <-]|[? ?]]; [|by eapply H]. apply u8_range.
Qed.

Lemma store_bytes_ok m a l : mem_ok m → mem_ok (store_bytes m a l).
Proof. revert m a. induction l; intros; simpl; auto using wr_ok. Qed.

Lemma rd_store_bytes m a l b :
  rd (store_bytes m a l) b =
    if decide (a ≤ b < a + Z.of_nat (length l))
    then u8 (nth (Z.to_nat (b - a)) l 0) else rd m b.
Proof.
  revert m a. induction l as [|c l IH]; intros m a; simpl.
  - case_decide; [lia|done].
  - rewrite IH, rd_wr. repeat case_decide; try lia; subst.
    + f_equal. replace (Z.to_nat (b - a)) with (S (Z.to_nat (b - (a + 1)))) by lia. done.
    + by rewrite Z.sub_diag.
Qed.

Lemma length_load_bytes m a n : length (load_bytes m a n) = n.
Proof. revert a. induction n; intros; simpl; auto. Qed.

Lemma load_bytes_ok m a n : mem_ok m → Forall is_byte (load_bytes m a n).
Proof. intros H. revert a. induction n; intros; simpl; constructor; auto using rd_byte. Qed.

Lemma lookup_load_bytes m a n i :
  (i < n)%nat → load_bytes m a n !! i = Some (rd m (a + Z.of_nat i)).
Proof.
  revert a i. induction n as [|n IH]; intros a i Hi; [lia|].
  destruct i as [|i]; cbn [load_bytes lookup list_lookup].
  - by rewrite Z.add_0_r.
  - rewrite IH by lia. f_equal. f_equal. lia.
Qed.

Lemma load_bytes_ext m m' a n :
  (∀ b, a ≤ b < a + Z.of_nat n → rd m b = rd m' b) → load_bytes m a n = load_bytes m' a n.
Proof.
  revert a. induction n as [|n IH]; intros a H; simpl; [done|].
  rewrite (H a) by lia. f_equal. apply IH. intros. apply H. lia.
Qed.

Lemma load_store_bytes m a l :
  Forall is_byte l → load_bytes (store_bytes m a l) a (length l) = l.
Proof.
  intros H. apply list_eq. intros i.
  destruct (decide (i < length l)%nat) as [Hi|].
  - rewrite lookup_load_bytes by done. rewrite rd_store_bytes. case_decide; [|lia].
    replace (Z.to_nat (a + Z.of_nat i - a)) with i by lia.
    destruct (lookup_lt_is_Some_2 l i Hi) as [b Hb]. rewrite (nth_lookup_Some _ _ _ _ Hb), Hb.
    rewrite Forall_lookup in H. apply H in Hb. f_equal. by apply u8_small.
  - rewrite !lookup_ge_None_2; [done|lia|rewrite length_load_bytes; lia].
Qed.

Lemma load_store_bytes_ne m a l b n :
  b + Z.of_nat n ≤ a ∨ a + Z.of_nat (length l) ≤ b →
  load_bytes (store_bytes m a l) b n = load_bytes m b n.
Proof.
  intros H. apply load_bytes_ext. intros c Hc. rewrite rd_store_bytes. case_decide; [lia|done].
Qed.

Lemma load64_store64 m a v : 0 ≤ v < 2 ^ 64 → load64 (store64 m a v) a = v.
Proof.
  intros H. unfold load64, store64.
  replace 8%nat with (length (le_split 8 v)) at 2 by apply length_le_split.
  rewrite load_store_bytes by apply le_split_bytes. by apply le_join_split_small.
Qed.

Lemma load64_store64_ne m a v b :
  b + 8 ≤ a ∨ a + 8 ≤ b → load64 (store64 m a v) b = load64 m b.
Proof.
  intros H. unfold load64, store64. f_equal. apply load_store_bytes_ne.
  rewrite length_le_split. lia.
Qed.

Lemma load64_range m a : mem_ok m → 0 ≤ load64 m a < 2 ^ 64.
Proof.
  intros H. pose proof (le_join_range (load_bytes m a 8) (load_bytes_ok m a 8 H)) as R.
  by rewrite length_load_bytes in R.
Qed.

Lemma load64_ext m m' a :
  (∀ b, a ≤ b < a + 8 → rd m b = rd m' b) → load64 m a = load64 m' a.
Proof. intros. unfold load64. f_equal. apply load_bytes_ext. intros. apply H. lia. Qed.

Lemma store64_ok m a v : mem_ok m → mem_ok (store64 m a v).
Proof. apply store_bytes_ok. Qed.

Lemma rd_store64_ne m a v b : ¬ (a ≤ b < a + 8) → rd (store64 m a v) b = rd m b.
Proof.
  intros H. unfold store64. rewrite rd_store_bytes, length_le_split. case_decide; [lia|done].
Qed.

(** ** Correctness of the copy loops *)

Lemma rd_memset_loop k m d i c a :
  rd (memset_loop k m d i c) a =
    if decide (d + i ≤ a < d + i + Z.of_nat k) then u8 c else rd m a.
Proof.
  revert m i. induction k as [|k IH]; intros m i; simpl.
  - case_decide; [lia|done].
  - rewrite IH, rd_wr. repeat case_decide; try lia; done.
Qed.

Lemma rd_memset m d c n a :
  rd (memset m d c n) a = if decide (d ≤ a < d + n) then u8 c else rd m a.
Proof.
  unfold memset. rewrite rd_memset_loop. repeat case_decide; try lia; done.
Qed.

Lemma memset_ok m d c n : mem_ok m → mem_ok (memset m d c n).
Proof.
  unfold memset. generalize (Z.to_nat n) 0. intros k. revert m.
  induction k; intros; simpl; auto using wr_ok.
Qed.

Lemma rd_memmove_up k m d s a :
  mem_ok m → (d ≤ s ∨ s + Z.of_nat k ≤ d) →
  rd (memmove_up k m d s) a =
    if decide (d ≤ a < d + Z.of_nat k) then rd m (s + (a - d)) else rd m a.
Proof.
  revert m d s. induction k as [|k IH]; intros m d s Hm Hds; simpl.
  - case_decide; [lia|done].
  - rewrite IH by (auto using wr_ok; lia). rewrite !rd_wr.
    pose proof (rd_byte m s Hm) as Hb. rewrite u8_small by done.
    repeat case_decide; try lia; try done; f_equal; lia.
Qed.

Lemma rd_memmove_down k m d s a :
  mem_ok m → s < d → 
  rd (memmove_down k m d s) a =
    if decide (d - Z.of_nat k ≤ a < d) then rd m (s + (a - d)) else rd m a.
Proof.
  revert m d s. induction k as [|k IH]; intros m d s Hm Hds; simpl.
  - case_decide; [lia|done].
  - rewrite IH by (auto using wr_ok; lia). rewrite !rd_wr.
    pose proof (rd_byte m (s - 1) Hm) as Hb. rewrite u8_small by done.
    repeat case_decide; try lia; try done; f_equal; lia.
Qed.

(** [memmove] copies the original bytes whatever the overlap, and touches nothing
    else. *)
Lemma rd_memmove m d s n a :
  mem_ok m → 0 ≤ n →
  rd (memmove m d s n) a =
    if decide (d ≤ a < d + n) then rd m (s + (a - d)) else rd m a.
Proof.
  intros Hm Hn. unfold memmove.
  destruct (Z.ltb_spec s d), (Z.ltb_spec d (s + n)); cbn [andb].
  2-4: rewrite rd_memmove_up by (auto; lia); repeat case_decide; try lia; done.
  rewrite rd_memmove_down by (auto; lia).
  repeat case_decide; try lia; f_equal; lia.
Qed.

Lemma memmove_loop_ok k m d s : mem_ok m → mem_ok (memmove_up k m d s) ∧ mem_ok (memmove_down k m d s).
Proof.
  revert m d s. induction k as [|k IH]; intros m d s H; simpl; [done|].
  split; apply IH; by apply wr_ok.
Qed.

Lemma memmove_ok m d s n : mem_ok m → mem_ok (memmove m d s n).
Proof. intros H. unfold memmove. case_match; by apply memmove_loop_ok. Qed.

(** ** C strings *)

Lemma at_list_cons c l i : 0 ≤ i → at_list (c :: l) (i + 1) = at_list l i.
Proof. intros. unfold at_list. by replace (Z.to_nat (i + 1)) with (S (Z.to_nat i)) by lia. Qed.

Lemma at_list_byte l : Forall is_byte l → ∀ j, is_byte (at_list l j).
Proof.
  intros H j. unfold at_list. rewrite Forall_forall in H.
  destruct (nth_in_or_default (Z.to_nat j) l 0) as [Hi|E]; [|rewrite E; unfold is_byte; lia].
  by apply H, list_elem_of_In.
Qed.

Lemma strncmp_loop_zero n p q i :
  (∀ j, is_byte (p j)) → (∀ j, is_byte (q j)) →
  strncmp_loop n p q i = 0 ↔
  ∀ k, i ≤ k < i + Z.of_nat n → (∀ j, i ≤ j < k → p j ≠ 0) → p k = q k.
Proof.
  intros Hp Hq. revert i. induction n as [|n IH]; intros i; simpl; [split; [lia|done]|].
  unfold is_byte in *. pose proof (Hp i). pose proof (Hq i).
  destruct (Z.eqb_spec (p i) (q i)) as [E|E]; [destruct (Z.eqb_spec (p i) 0) as [E0|E0]|].
  - rewrite andb_false_l, E, Z.sub_diag. split; [|done]. intros _ k Hk Hj.
    destruct (decide (k = i)) as [->|]; [done|]. exfalso. apply (Hj i); [lia|done].
  - cbn [negb andb]. rewrite IH. split; intros HH k Hk Hj.
    + destruct (decide (k = i)) as [->|]; [done|]. apply HH; [lia|]. intros j ?. apply Hj. lia.
    + apply HH; [lia|]. intros j ?. destruct (decide (j = i)) as [->|]; [done|]. apply Hj. lia.
  - rewrite andb_false_r, !u8_small by lia. split; [lia|].
    intros HH. exfalso. apply E, HH; [lia|]. intros; lia.
Qed.

(** The loops of [strncpy] and [safestrcpy] write at increasing indices. *)
Lemma strncpy_pad_eq k i s :
  (i + k ≤ length s)%nat → strncpy_pad k i s = take i s ++ replicate k 0 ++ drop (i + k) s.
Proof.
  revert i s. induction k as [|k IH]; intros i s Hl; simpl.
  - by rewrite Nat.add_0_r, take_drop.
  - rewrite IH by (rewrite length_insert; lia).
    rewrite (insert_take_drop s i 0) by lia.
    rewrite take_app_ge by (rewrite length_take; lia).
    rewrite length_take, Nat.min_l by lia. replace (S i - i)%nat with 1%nat by lia. simpl.
    rewrite <- !app_assoc. simpl. do 3 f_equal.
    rewrite drop_app_ge by (rewrite length_take; lia). rewrite length_take, Nat.min_l by lia.
    replace (S (i + k) - i)%nat with (S k) by lia. simpl. rewrite drop_drop. f_equal. lia.
Qed.

Lemma insert_app_split {A} (s : list A) i x :
  (i < length s)%nat → take (S i) (<[i := x]> s) = take i s ++ [x] ∧
  drop (S i) (<[i := x]> s) = drop (S i) s.
Proof.
  intros H. rewrite (insert_take_drop s i x) by done. split.
  - rewrite take_app_ge by (rewrite length_take; lia).
    rewrite length_take, Nat.min_l by lia. by replace (S i - i)%nat with 1%nat by lia.
  - rewrite drop_app_ge by (rewrite length_take; lia).
    rewrite length_take, Nat.min_l by lia. by replace (S i - i)%nat with 1%nat by lia.
Qed.

Lemma cstr_drop l i :
  (nth i l 0 = 0 ∧ cstr (drop i l) = []) ∨
  (nth i l 0 ≠ 0 ∧ cstr (drop i l) = nth i l 0 :: cstr (drop (S i) l)).
Proof.
  revert l. induction i as [|i IH]; intros [|c l]; simpl; auto.
  destruct (Z.eqb_spec c 0); auto.
Qed.

Lemma strncpy_loop_eq k i s l :
  (i + k ≤ length s)%nat →
  let e := take k (cstr (drop i l)) in
  strncpy_loop k i s (at_list l) = take i s ++ e ++ replicate (k - length e) 0 ++ drop (i + k) s.
Proof.
  revert i s. induction k as [|k IH]; intros i s Hl; cbn zeta; cbn [strncpy_loop].
  - rewrite take_0, Nat.add_0_r. cbn [length Nat.sub replicate app]. by rewrite take_drop.
  - unfold at_list at 1 2. rewrite Nat2Z.id.
    destruct (insert_app_split s i (nth i l 0)) as [E1 E2]; [lia|].
    destruct (cstr_drop l i) as [[Ec ->]|[Ec ->]].
    + rewrite Ec in *. cbn [Z.eqb]. rewrite strncpy_pad_eq by (rewrite length_insert; lia).
      rewrite take_nil. cbn [length]. rewrite Nat.sub_0_r.
      change (replicate (S k) 0) with (0 :: replicate k 0).
      rewrite E1, <- app_assoc. cbn [app]. do 3 f_equal.
      replace (i + S k)%nat with (S i + k)%nat by lia. by rewrite <- !drop_drop, E2.
    + rewrite (proj2 (Z.eqb_neq _ _) Ec). unfold at_list at 1. rewrite Nat2Z.id.
      rewrite IH by (rewrite length_insert; lia). cbn [firstn length Nat.sub].
      rewrite E1, <- !app_assoc. cbn [app]. do 4 f_equal.
      replace (i + S k)%nat with (S i + k)%nat by lia. by rewrite <- !drop_drop, E2.
Qed.

Lemma safestrcpy_loop_eq k i s l :
  (i + k < length s)%nat →
  let e := take k (cstr (drop i l)) in
  safestrcpy_loop k i s (at_list l) =
    if decide (length e < k)%nat
    then take i s ++ e ++ [0] ++ <[0%nat := 0]> (drop (i + length e + 1) s)
    else take i s ++ e ++ [0] ++ drop (i + k + 1) s.
Proof.
  revert i s. induction k as [|k IH]; intros i s Hl; cbn zeta; cbn [safestrcpy_loop].
  - rewrite take_0. case_decide; [simpl in *; lia|]. rewrite insert_take_drop by lia.
    rewrite Nat.add_0_r. simpl. by replace (S i) with (i + 1)%nat by lia.
  - unfold at_list at 1 2. rewrite Nat2Z.id.
    destruct (insert_app_split s i (nth i l 0)) as [E1 E2]; [lia|].
    destruct (cstr_drop l i) as [[Ec ->]|[Ec ->]].
    + rewrite Ec in *. cbn [Z.eqb]. rewrite take_nil. case_decide as Hd; [|simpl in Hd; lia].
      rewrite (insert_take_drop _ (S i)) by (rewrite length_insert; lia).
      rewrite E1, <- app_assoc. cbn [app length]. do 3 f_equal.
      rewrite Nat.add_0_r. replace (i + 1)%nat with (S i) by lia.
      destruct (drop (S i) s) as [|x r] eqn:Er.
      { exfalso. assert (length (drop (S i) s) = 0%nat) as H0 by by rewrite Er.
        rewrite length_drop in H0. lia. }
      cbn. f_equal. replace (S (S i)) with (S i + 1)%nat by lia.
      by rewrite <- drop_drop, E2.
    + rewrite (proj2 (Z.eqb_neq _ _) Ec). unfold at_list at 1. rewrite Nat2Z.id.
      rewrite IH by (rewrite length_insert; lia). cbn [firstn length].
      set (e := take k (cstr (drop (S i) l))).
      assert (∀ n, drop (S i + n) (<[i:=nth i l 0]> s) = drop (S i + n) s) as E3.
      { intros n. by rewrite <- !drop_drop, E2. }
      destruct (decide (length e < k)%nat), (decide (S (length e) < S k)%nat); try lia;
        rewrite E1, <- !app_assoc; cbn [app]; do 4 f_equal.
      * replace (i + S (length e) + 1)%nat with (S i + (length e + 1))%nat by lia.
        by rewrite <- E3, Nat.add_assoc.
      * replace (i + S k + 1)%nat with (S i + (k + 1))%nat by lia.
        by rewrite <- E3, Nat.add_assoc.
Qed.

Lemma cstr_app_zero l k : Forall (λ c, c ≠ 0) l → cstr (l ++ 0 :: k) = l.
Proof. induction 1 as [|c l Hc _ IH]; simpl; [done|]. rewrite (proj2 (Z.eqb_neq _ _) Hc). by f_equal. Qed.

Lemma cstr_nonzero l : Forall (λ c, c ≠ 0) (cstr l).
Proof. induction l as [|c l IH]; simpl; [done|]. destruct (Z.eqb_spec c 0); by constructor. Qed.

Lemma cstr_id l : Forall (λ c, c ≠ 0) l → cstr l = l.
Proof. induction 1 as [|c l Hc _ IH]; simpl; [done|]. rewrite (proj2 (Z.eqb_neq _ _) Hc). by f_equal. Qed.

(** ** Properties *)

(** [memmove] is correct for every overlap of source and destination: the
    destination ends up with the [n] bytes the source had before the call, and no
    other byte changes. *)
Theorem memmove_overlap (m : gmap Z Z) (d s n : Z) :
  mem_ok m → 0 ≤ n →
  load_bytes (memmove m d s n) d (Z.to_nat n) = load_bytes m s (Z.to_nat n) ∧
  ∀ a, ¬ (d ≤ a < d + n) → rd (memmove m d s n) a = rd m a.
Proof.
  intros Hm Hn. split.
  - apply list_eq. intros i. destruct (decide (i < Z.to_nat n)%nat) as [Hi|].
    + rewrite !lookup_load_bytes, rd_memmove by done. case_decide; [|lia]. do 2 f_equal. lia.
    + rewrite !lookup_ge_None_2; [done|rewrite length_load_bytes; lia..].
  - intros a Ha. rewrite rd_memmove by done. by case_decide.
Qed.

(** Four bytes moved up by one, over themselves. *)
Lemma memmove_overlap_witness :
  load_bytes (memmove (store_bytes ∅ 0 [1; 2; 3; 4]) 1 0 4) 1 4 = [1; 2; 3; 4].
Proof.
  change 4%nat with (Z.to_nat 4).
  rewrite (proj1 (memmove_overlap (store_bytes ∅ 0 [1; 2; 3; 4]) 1 0 4
    ltac:(apply store_bytes_ok; intros a b; rewrite lookup_empty; done) ltac:(lia))).
  vm_compute. reflexivity.
Defined.

(** [strncmp] answers 0 exactly when the two strings agree up to and including
    the first NUL of the first one, or on all [n] bytes. *)
Theorem strncmp_zero_iff (p q : Z → Z) (n : Z) :
  (∀ j, is_byte (p j)) → (∀ j, is_byte (q j)) →
  strncmp p q n = 0 ↔
  ∀ k, 0 ≤ k < n → (∀ j, 0 ≤ j < k → p j ≠ 0) → p k = q k.
Proof.
  intros Hp Hq. unfold strncmp. rewrite strncmp_loop_zero by done.
  split; intros H k Hk; apply H; lia.
Qed.

(** The names a and ab differ; a, NUL, x and a, NUL, y are the same string. *)
Lemma strncmp_zero_iff_witness :
  strncmp (at_list [97; 0; 120]) (at_list [97; 0; 121]) 14 = 0.
Proof.
  apply (strncmp_zero_iff _ _ 14);
    [apply at_list_byte; repeat constructor; unfold is_byte; lia..|]. intros k Hk Hj.
  destruct (decide (k = 0)) as [->|]; [reflexivity|].
  destruct (decide (k = 1)) as [->|]; [reflexivity|].
  exfalso. apply (Hj 1); [lia|reflexivity].
Defined.

(** The bounded copies: [strncpy(s, t, n)] leaves the string [t], cut to [n]
    bytes and padded with NULs to [n], and does not touch [s] beyond; what
    [safestrcpy] leaves is always NUL-terminated and reads as [t] cut to [n - 1]
    bytes. *)
Theorem bounded_string_copy (s t : list Z) (n : Z) :
  1 ≤ n ≤ Z.of_nat (length s) →
  strncpy s (at_list t) n =
    take (Z.to_nat n) (cstr t ++ replicate (Z.to_nat n) 0) ++ drop (Z.to_nat n) s ∧
  cstr (safestrcpy s (at_list t) n) = take (Z.to_nat (n - 1)) (cstr t) ∧
  length (safestrcpy s (at_list t) n) = length s ∧
  drop (Z.to_nat n) (safestrcpy s (at_list t) n) = drop (Z.to_nat n) s.
Proof.
  intros Hn. split.
  { unfold strncpy. rewrite strncpy_loop_eq by lia. cbn zeta. rewrite take_0, drop_0. cbn [app].
    rewrite take_app, length_take, take_replicate. rewrite <- app_assoc. do 3 f_equal. lia. }
  unfold safestrcpy. destruct (Z.leb_spec n 0); [lia|].
  rewrite safestrcpy_loop_eq by lia. cbn zeta. rewrite take_0, drop_0. cbn [app Nat.add].
  set (e := take (Z.to_nat (n - 1)) (cstr t)).
  assert (Forall (λ c, c ≠ 0) e) as He by apply Forall_take, cstr_nonzero.
  assert (length e ≤ Z.to_nat (n - 1))%nat by (unfold e; rewrite length_take; lia).
  case_decide; (split; [by apply cstr_app_zero|]); split.
  - rewrite length_app. cbn [length]. rewrite length_insert, length_drop. lia.
  - rewrite drop_app_ge by lia. replace (Z.to_nat n - length e)%nat
      with (S (Z.to_nat (n - 1) - length e)) by lia. cbn [drop].
    rewrite drop_insert_lt by lia. rewrite drop_drop. f_equal. lia.
  - rewrite length_app. cbn [length]. rewrite length_drop. lia.
  - rewrite drop_app_ge by lia. replace (Z.to_nat n - length e)%nat
      with (S (Z.to_nat (n - 1) - length e)) by lia. cbn [drop].
    rewrite drop_drop. f_equal. lia.
Qed.

(** The name initcode cut to an array of 5. *)
Lemma bounded_string_copy_witness :
  cstr (safestrcpy (replicate 5 255) (at_list (bytes_of "initcode")) 5) = bytes_of "init".
Proof.
  rewrite (proj1 (proj2 (bounded_string_copy (replicate 5 255) (bytes_of "initcode") 5
    ltac:(vm_compute; split; discriminate)))).
  reflexivity.
Defined.
