(* ===== verification/Spinlock.v ===== *)
(** * Spinlocks: [kernel/spinlock.c], and [cpuid], [mycpu], [myproc] of
    [kernel/proc.c]

    The running hart executes [acquire] and [release] on the kernel state;
    a lock held by another hart makes it spin.  The lemmas describe a balanced
    pair of calls by the function [held] on the processor state.  The section
    [harts] lets any number of harts race for one lock at the granularity of
    its atomic instructions. *)

From stdpp Require Import prelude gmap strings list.
From Stdlib Require Import ZArith Lia.
From S2P Require Import Prelude.
From S2P Require Import Monad.
From S2P Require Import Riscv.
From S2P Require Import Types.

(** ** The running cpu *)

Definition cpu_index (l : cpust) : nat := Z.to_nat (r_tp (cs_hart l)).
Definition the_cpu (l : cpust) : cpu := nth (cpu_index l) (cs_cpus l) cpu0.
Definition upd_cpu (f : cpu → cpu) (l : cpust) : cpust :=
  set_cs_cpus (<[cpu_index l := f (the_cpu l)]> (cs_cpus l)) l.
Definition upd_hart (f : hart → hart) (l : cpust) : cpust := set_cs_hart (f (cs_hart l)) l.
Definition upd_lk (f : cpust → cpust) : K unit := modify (λ s, set_k_lk (f (k_lk s)) s).

Definition cpuid : K nat := gets (λ s, cpu_index (k_lk s)).
Definition mycpu : K nat := cpuid.

(** ** [spinlock.c] *)

Definition get_lock (lk : lockid) (l : cpust) : spinlock := default spinlock0 (cs_locks l !! lk).
Definition put_lock (lk : lockid) (v : spinlock) (l : cpust) : cpust :=
  set_cs_locks (<[lk := v]> (cs_locks l)) l.

Definition initlock (lk : lockid) (name : string) : K unit :=
  upd_lk (put_lock lk (mkSpinlock 0 name None)).

Definition push_off : K unit :=
  let! old := gets (λ s, intr_get (cs_hart (k_lk s))) in
  upd_lk (upd_hart intr_off) ;;;
  let! c := gets (λ s, the_cpu (k_lk s)) in
  when (c_noff c =? 0) (upd_lk (upd_cpu (set_c_intena old))) ;;;
  upd_lk (upd_cpu (λ c, set_c_noff (c_noff c + 1) c)).

Definition pop_off : K unit :=
  let! on := gets (λ s, intr_get (cs_hart (k_lk s))) in
  if on then panic "pop_off - interruptible" else
  let! c := gets (λ s, the_cpu (k_lk s)) in
  if c_noff c <? 1 then panic "pop_off" else
  upd_lk (upd_cpu (λ c, set_c_noff (c_noff c - 1) c)) ;;;
  let! c := gets (λ s, the_cpu (k_lk s)) in
  when ((c_noff c =? 0) && c_intena c) (upd_lk (upd_hart intr_on)).

Definition holding (lk : lockid) : K bool :=
  let! c := mycpu in
  gets (λ s, let l := get_lock lk (k_lk s) in
             (sl_locked l <>? 0) && bool_decide (sl_cpu l = Some c)).

Definition acquire (lk : lockid) : K unit :=
  push_off ;;;
  let! h := holding lk in
  if h then panic "acquire" else
  (* while(__sync_lock_test_and_set(&lk->locked, 1) != 0) ; *)
  let! l := gets (λ s, get_lock lk (k_lk s)) in
  if sl_locked l <>? 0 then spin else
  upd_lk (λ k, put_lock lk (set_sl_locked 1 (get_lock lk k)) k) ;;;
  let! c := mycpu in
  upd_lk (λ k, put_lock lk (set_sl_cpu (Some c) (get_lock lk k)) k).

Definition release (lk : lockid) : K unit :=
  let! h := holding lk in
  if negb h then panic "release" else
  upd_lk (λ k, put_lock lk (set_sl_cpu None (get_lock lk k)) k) ;;;
  upd_lk (λ k, put_lock lk (set_sl_locked 0 (get_lock lk k)) k) ;;;
  pop_off.

(** [myproc]: the process of the running cpu, read with interrupts off. *)
Definition myproc : K (option nat) :=
  push_off ;;;
  let! c := gets (λ s, the_cpu (k_lk s)) in
  let p := c_proc c in
  pop_off ;;;
  ret p.

(** ** Processor states between critical sections

    Interrupts are off exactly while some [push_off] is pending, and
    [intena] records the interrupt state otherwise. *)
Definition cpu_ok (l : cpust) : Prop :=
  (cpu_index l < length (cs_cpus l))%nat ∧
  0 ≤ r_sstatus (cs_hart l) < 2 ^ 64 ∧
  0 ≤ c_noff (the_cpu l) ∧
  (c_noff (the_cpu l) = 0 → c_intena (the_cpu l) = intr_get (cs_hart l)) ∧
  (c_noff (the_cpu l) ≠ 0 → intr_get (cs_hart l) = false).

(** The lock is initialised and free. *)
Definition lock_free (lk : lockid) (l : cpust) : Prop :=
  ∃ name, cs_locks l !! lk = Some (mkSpinlock 0 name None).

(** The processor state after [push_off] and after [acquire]. *)
Definition pushed (l : cpust) : cpust :=
  upd_cpu (λ c, mkCpu (c_proc c) (c_noff c + 1)
                  (if c_noff c =? 0 then intr_get (cs_hart l) else c_intena c))
    (upd_hart intr_off l).
Definition held (lk : lockid) (l : cpust) : cpust :=
  put_lock lk (mkSpinlock 1 (sl_name (get_lock lk l)) (Some (cpu_index l))) (pushed l).

Lemma set_k_lk_id s : set_k_lk (k_lk s) s = s.
Proof. by destruct s. Qed.

Lemma set_k_lk_twice a b s : set_k_lk a (set_k_lk b s) = set_k_lk a s.
Proof. by destruct s. Qed.

Lemma cpu_index_hart f l : (∀ h, r_tp (f h) = r_tp h) → cpu_index (upd_hart f l) = cpu_index l.
Proof. intros H. unfold cpu_index, upd_hart. simpl. by rewrite H. Qed.

Lemma the_cpu_upd f l :
  (cpu_index l < length (cs_cpus l))%nat → the_cpu (upd_cpu f l) = f (the_cpu l).
Proof.
  intros H. unfold the_cpu, upd_cpu, cpu_index in *. simpl.
  by rewrite nth_lookup, list_lookup_insert_eq by lia.
Qed.

Lemma upd_cpu_twice f g l : 
  (cpu_index l < length (cs_cpus l))%nat →
  upd_cpu f (upd_cpu g l) = upd_cpu (λ c, f (g c)) l.
Proof.
  intros H. unfold upd_cpu at 1. rewrite the_cpu_upd by done.
  unfold upd_cpu, cpu_index. simpl. by rewrite list_insert_insert_eq.
Qed.

Lemma upd_cpu_id f l :
  (cpu_index l < length (cs_cpus l))%nat → f (the_cpu l) = the_cpu l → upd_cpu f l = l.
Proof.
  intros H E. unfold upd_cpu. rewrite E. destruct l as [h cs ls]. unfold set_cs_cpus. simpl in *.
  f_equal. apply list_insert_id. unfold the_cpu. simpl.
  destruct (lookup_lt_is_Some_2 cs (cpu_index (mkCpust h cs ls)) H) as [c Hc].
  by rewrite (nth_lookup_Some _ _ _ _ Hc).
Qed.

Lemma cpu_index_off l : cpu_index (upd_hart intr_off l) = cpu_index l.
Proof. done. Qed.

(** ** [push_off] and [pop_off] *)

Lemma push_off_idx s :
  (cpu_index (k_lk s) < length (cs_cpus (k_lk s)))%nat →
  push_off s = Ok () (set_k_lk (pushed (k_lk s)) s).
Proof.
  intros Hi. unfold push_off, upd_lk. run. ksimpl.
  change (the_cpu (upd_hart intr_off (k_lk s))) with (the_cpu (k_lk s)).
  unfold pushed. destruct (Z.eqb_spec (c_noff (the_cpu (k_lk s))) 0) as [E|E]; run;
    unfold modify; ksimpl; rewrite ?set_k_lk_twice; do 2 f_equal.
  - rewrite upd_cpu_twice by done. unfold upd_cpu.
    change (the_cpu (upd_hart intr_off (k_lk s))) with (the_cpu (k_lk s)).
    unfold set_c_noff, set_c_intena. cbn [c_noff c_proc c_intena]. by rewrite E.
  - unfold upd_cpu. change (the_cpu (upd_hart intr_off (k_lk s))) with (the_cpu (k_lk s)).
    by rewrite (proj2 (Z.eqb_neq _ _) E).
Qed.

Lemma push_off_eq s :
  cpu_ok (k_lk s) → push_off s = Ok () (set_k_lk (pushed (k_lk s)) s).
Proof. intros (Hi & _). by apply push_off_idx. Qed.

Lemma the_cpu_pushed l :
  cpu_ok l →
  the_cpu (pushed l) = mkCpu (c_proc (the_cpu l)) (c_noff (the_cpu l) + 1)
    (if c_noff (the_cpu l) =? 0 then intr_get (cs_hart l) else c_intena (the_cpu l)).
Proof. intros (Hi & _). unfold pushed. by rewrite the_cpu_upd. Qed.

Lemma pushed_hart l : cs_hart (pushed l) = intr_off (cs_hart l).
Proof. done. Qed.

Lemma pushed_ok l : cpu_ok l → cpu_ok (pushed l).
Proof.
  intros H. pose proof (the_cpu_pushed l H) as E. destruct H as (Hi & Hs & Hn & H0 & H1).
  refine (conj _ (conj _ (conj _ (conj _ _)))).
  - unfold pushed, upd_cpu. simpl. by rewrite length_insert.
  - by apply intr_off_range.
  - rewrite E. simpl. lia.
  - rewrite E. simpl. lia.
  - intros _. rewrite pushed_hart. apply intr_off_get.
Qed.

(** [pop_off] undoes [push_off]. *)
Lemma pop_off_pushed s l :
  cpu_ok l → k_lk s = pushed l → pop_off s = Ok () (set_k_lk l s).
Proof.
  intros Hok El. pose proof (the_cpu_pushed l Hok) as E.
  destruct Hok as (Hi & Hs & Hn & H0 & H1).
  unfold pop_off, upd_lk. run. rewrite El, pushed_hart, intr_off_get. run.
  rewrite El, E. cbn [c_noff]. zdec. run. ksimpl.
  assert (Hp : (cpu_index (pushed l) < length (cs_cpus (pushed l)))%nat)
    by (unfold pushed, upd_cpu; simpl; by rewrite length_insert).
  rewrite El, the_cpu_upd by done. rewrite E. cbn [c_noff c_intena set_c_noff].
  set (l1 := upd_cpu (λ c, set_c_noff (c_noff c - 1) c) (pushed l)).
  assert (E1 : l1 = upd_cpu (λ c, set_c_intena (if c_noff (the_cpu l) =? 0
                then intr_get (cs_hart l) else c_intena (the_cpu l)) c) (upd_hart intr_off l)).
  { unfold l1, pushed. rewrite upd_cpu_twice by done. unfold upd_cpu.
    f_equal. f_equal. change (the_cpu (upd_hart intr_off l)) with (the_cpu l).
    unfold set_c_noff, set_c_intena. simpl. f_equal. lia. }
  replace (c_noff (the_cpu l) + 1 - 1) with (c_noff (the_cpu l)) by lia.
  destruct (Z.eqb_spec (c_noff (the_cpu l)) 0) as [Ez|Ez].
  - assert (E2 : l1 = upd_hart intr_off l).
    { rewrite E1. apply upd_cpu_id; [done|]. change (the_cpu (upd_hart intr_off l)) with (the_cpu l).
      rewrite <- H0 by done. by destruct (the_cpu l). }
    rewrite E2. destruct (intr_get (cs_hart l)) eqn:Eg; simpl; unfold modify, ret; ksimpl;
      rewrite ?set_k_lk_twice; do 2 f_equal; destruct l as [h cs ls]; simpl in *;
      unfold upd_hart, set_cs_hart; simpl.
    + by rewrite intr_off_on.
    + by rewrite intr_off_id.
  - simpl. unfold ret. do 2 f_equal. rewrite E1.
    rewrite upd_cpu_id; [|done|change (the_cpu (upd_hart intr_off l)) with (the_cpu l);
                               by destruct (the_cpu l)].
    destruct l as [h cs ls]. unfold upd_hart, set_cs_hart. simpl in *. f_equal.
    by apply intr_off_id; auto.
Qed.

Lemma set_locks_ok x l : cpu_ok l → cpu_ok (set_cs_locks x l).
Proof. done. Qed.

Lemma myproc_eq s : cpu_ok (k_lk s) → myproc s = Ok (c_proc (the_cpu (k_lk s))) s.
Proof.
  intros H. unfold myproc. rewrite (bind_ok _ _ _ _ _ (push_off_eq s H)). run. ksimpl.
  rewrite the_cpu_pushed by done.
  rewrite (bind_ok _ _ _ _ _ (pop_off_pushed (set_k_lk (pushed (k_lk s)) s) (k_lk s) H eq_refl)).
  rewrite set_k_lk_twice, set_k_lk_id. done.
Qed.

(** ** [acquire] and [release] *)

Lemma get_lock_free lk l : lock_free lk l → get_lock lk l = mkSpinlock 0 (sl_name (get_lock lk l)) None.
Proof. intros [n E]. unfold get_lock. by rewrite E. Qed.

Lemma get_put_lock lk v l : get_lock lk (put_lock lk v l) = v.
Proof. unfold get_lock, put_lock. simpl. by rewrite lookup_insert_eq. Qed.

Lemma get_put_lock_ne lk lk' v l :
  lk ≠ lk' → get_lock lk (put_lock lk' v l) = get_lock lk l.
Proof. intros. unfold get_lock, put_lock. simpl. by rewrite lookup_insert_ne. Qed.

Lemma put_lock_comm a b v w l :
  a ≠ b → put_lock a v (put_lock b w l) = put_lock b w (put_lock a v l).
Proof.
  intros. unfold put_lock. cbn [cs_locks set_cs_locks]. rewrite (insert_insert_ne _ a b) by done.
  done.
Qed.

Lemma put_put_lock lk v w l : put_lock lk v (put_lock lk w l) = put_lock lk v l.
Proof. unfold put_lock. simpl. by rewrite insert_insert_eq. Qed.

Lemma put_lock_free lk l :
  lock_free lk l → put_lock lk (mkSpinlock 0 (sl_name (get_lock lk l)) None) l = l.
Proof.
  intros [n E]. unfold put_lock, get_lock. rewrite E. simpl. rewrite insert_id by done.
  by destruct l.
Qed.

Lemma put_lock_pushed lk v l : put_lock lk v (pushed l) = pushed (put_lock lk v l).
Proof. done. Qed.

Lemma holding_eq lk s :
  holding lk s = Ok ((sl_locked (get_lock lk (k_lk s)) <>? 0) &&
                     bool_decide (sl_cpu (get_lock lk (k_lk s)) = Some (cpu_index (k_lk s)))) s.
Proof. done. Qed.

Lemma held_ok lk l : cpu_ok l → cpu_ok (held lk l).
Proof. intros H. unfold held, put_lock. by apply set_locks_ok, pushed_ok. Qed.

Lemma held_proc lk l : cpu_ok l → c_proc (the_cpu (held lk l)) = c_proc (the_cpu l).
Proof.
  intros H. change (the_cpu (held lk l)) with (the_cpu (pushed l)). by rewrite the_cpu_pushed.
Qed.

Lemma held_noff lk l : cpu_ok l → c_noff (the_cpu (held lk l)) = c_noff (the_cpu l) + 1.
Proof.
  intros H. change (the_cpu (held lk l)) with (the_cpu (pushed l)). by rewrite the_cpu_pushed.
Qed.

Lemma lock_free_held lk lk' l : lk ≠ lk' → lock_free lk l → lock_free lk (held lk' l).
Proof. intros Hne [n E]. exists n. unfold held, put_lock. simpl. by rewrite lookup_insert_ne. Qed.

Lemma acquire_eq lk s :
  cpu_ok (k_lk s) → lock_free lk (k_lk s) →
  acquire lk s = Ok () (set_k_lk (held lk (k_lk s)) s).
Proof.
  intros Hok Hf. unfold acquire. rewrite (bind_ok _ _ _ _ _ (push_off_eq s Hok)).
  rewrite (bind_ok _ _ _ _ _ (holding_eq _ _)). unfold mycpu, cpuid, upd_lk. ksimpl.
  change (get_lock lk (pushed (k_lk s))) with (get_lock lk (k_lk s)).
  rewrite (get_lock_free lk _ Hf). cbn [sl_locked sl_cpu Z.eqb negb andb].
  run. ksimpl. change (get_lock lk (pushed (k_lk s))) with (get_lock lk (k_lk s)).
  rewrite (get_lock_free lk _ Hf). cbn [sl_locked Z.eqb negb]. run. unfold modify. ksimpl.
  do 2 f_equal. rewrite get_put_lock, put_put_lock.
  change (get_lock lk (pushed (k_lk s))) with (get_lock lk (k_lk s)).
  unfold held. by rewrite (get_lock_free lk _ Hf).
Qed.

Lemma release_eq lk s l :
  cpu_ok l → lock_free lk l → k_lk s = held lk l →
  release lk s = Ok () (set_k_lk l s).
Proof.
  intros Hok Hf El. unfold release, upd_lk.
  assert (Hg : get_lock lk (held lk l) = mkSpinlock 1 (sl_name (get_lock lk l)) (Some (cpu_index l))).
  { unfold held. apply get_put_lock. }
  rewrite (bind_ok _ _ _ _ _ (holding_eq _ _)). rewrite El, Hg.
  cbn [sl_locked sl_cpu]. rewrite bool_decide_eq_true_2 by done. cbn [Z.eqb negb andb].
  run. ksimpl. rewrite El, Hg.
  set (s2 := set_k_lk _ _).
  assert (E2 : k_lk s2 = pushed l).
  { unfold s2. ksimpl. rewrite get_put_lock, put_put_lock. unfold held.
    rewrite put_put_lock, put_lock_pushed. f_equal. by apply put_lock_free. }
  rewrite (pop_off_pushed s2 l) by done. done.
Qed.

(** A second lock taken inside the first may be released in either order. *)
Lemma held_comm a b l : a ≠ b → held a (held b l) = held b (held a l).
Proof.
  intros Hne. unfold held.
  rewrite <- !put_lock_pushed, (put_lock_comm a b) by done.
  by rewrite (get_put_lock_ne a b), (get_put_lock_ne b a) by done.
Qed.

(** Logic rules. *)
Lemma wp_acquire lk Q s :
  cpu_ok (k_lk s) → lock_free lk (k_lk s) →
  wp (acquire lk) Q s ↔ Q () (set_k_lk (held lk (k_lk s)) s).
Proof. intros. apply wp_eval. by apply acquire_eq. Qed.

Lemma wp_release lk Q s l :
  cpu_ok l → lock_free lk l → k_lk s = held lk l →
  wp (release lk) Q s ↔ Q () (set_k_lk l s).
Proof. intros. apply wp_eval. by apply release_eq. Qed.

Lemma wp_myproc Q s : cpu_ok (k_lk s) → wp myproc Q s ↔ Q (c_proc (the_cpu (k_lk s))) s.
Proof. intros. apply wp_eval. by apply myproc_eq. Qed.

(** ** Several harts and one lock

    The same code with other harts running: each atomic access to the lock
    word or to [lk->cpu] is one step of one hart. *)
Module Race.

(** Where a hart is: outside, in the test-and-set loop, past it but before
    [lk->cpu = mycpu()], in the critical section, in [release] after
    [lk->cpu = 0]. *)
Inductive pc := Out | Try | Got | Crit | Rel | Panicked.

#[global] Instance pc_eq_dec : EqDecision pc.
Proof. solve_decision. Defined.

Record sys := mkSys { word : Z; owner : option nat; pcs : list pc }.

Definition holds (h : nat) (s : sys) : bool := (word s <>? 0) && bool_decide (owner s = Some h).
Definition goto (h : nat) (p : pc) (s : sys) : list pc := <[h := p]> (pcs s).

Inductive step : sys → sys → Prop :=
| st_acquire h s :                         (* push_off(); if(holding(lk)) panic *)
    pcs s !! h = Some Out → holds h s = false →
    step s (mkSys (word s) (owner s) (goto h Try s))
| st_acquire_panic h s :
    pcs s !! h = Some Out → holds h s = true →
    step s (mkSys (word s) (owner s) (goto h Panicked s))
| st_spin h s :                            (* __sync_lock_test_and_set returns 1 *)
    pcs s !! h = Some Try → word s ≠ 0 →
    step s (mkSys 1 (owner s) (goto h Try s))
| st_win h s :                             (* __sync_lock_test_and_set returns 0 *)
    pcs s !! h = Some Try → word s = 0 →
    step s (mkSys 1 (owner s) (goto h Got s))
| st_own h s :                             (* lk->cpu = mycpu() *)
    pcs s !! h = Some Got →
    step s (mkSys (word s) (Some h) (goto h Crit s))
| st_release h s :                         (* if(!holding(lk)) panic; lk->cpu = 0 *)
    pcs s !! h = Some Crit → holds h s = true →
    step s (mkSys (word s) None (goto h Rel s))
| st_release_panic h s :
    pcs s !! h = Some Crit → holds h s = false →
    step s (mkSys (word s) (owner s) (goto h Panicked s))
| st_unlock h s :                          (* __sync_lock_release(&lk->locked) *)
    pcs s !! h = Some Rel →
    step s (mkSys 0 (owner s) (goto h Out s)).

(** [initlock] and [n] harts outside. *)
Definition init (n : nat) : sys := mkSys 0 None (replicate n Out).

(** Past the test-and-set and not yet past the unlocking store. *)
Definition inside (p : pc) : bool :=
  match p with Got | Crit | Rel => true | _ => false end.

(** Nobody has panicked, and either the lock is free or one hart has it; the
    owner field is set exactly in the critical section. *)
Definition free (s : sys) : Prop :=
  word s = 0 ∧ owner s = None ∧ ∀ h p, pcs s !! h = Some p → inside p = false.
Definition taken (s : sys) (h : nat) (p : pc) : Prop :=
  word s = 1 ∧ pcs s !! h = Some p ∧ inside p = true ∧
  owner s = (if p is Crit then Some h else None) ∧
  ∀ h' p', pcs s !! h' = Some p' → h' ≠ h → inside p' = false.
Definition inv (s : sys) : Prop :=
  (∀ h, pcs s !! h ≠ Some Panicked) ∧ (free s ∨ ∃ h p, taken s h p).

Lemma inv_init n : inv (init n).
Proof.
  split; [intros h [? _]%lookup_replicate; done|]. left. repeat split.
  by intros h p [-> _]%lookup_replicate.
Qed.

Lemma goto_lookup h p s h' q :
  goto h p s !! h' = Some q → (h' = h ∧ q = p) ∨ (h' ≠ h ∧ pcs s !! h' = Some q).
Proof.
  unfold goto. destruct (decide (h' = h)) as [->|]; [|rewrite list_lookup_insert_ne by done; auto].
  intros H. left. split; [done|]. pose proof (lookup_lt_Some _ _ _ H) as L.
  rewrite length_insert in L. rewrite list_lookup_insert_eq in H by done. congruence.
Qed.

Lemma goto_same h p s q : pcs s !! h = Some q → goto h p s !! h = Some p.
Proof. intros H. unfold goto. apply list_lookup_insert_eq. by eapply lookup_lt_Some. Qed.

Lemma goto_other h p s h' : h' ≠ h → goto h p s !! h' = pcs s !! h'.
Proof. intros. unfold goto. by apply list_lookup_insert_ne. Qed.

(** A hart outside the lock cannot be its owner; one in the critical section is. *)
Lemma holds_crit s h p :
  inv s → pcs s !! h = Some p → holds h s = bool_decide (p = Crit).
Proof.
  intros [_ [(W & O & F)|(h1 & p1 & W & P & In & O & U)]] Hp; unfold holds; rewrite W, O.
  - specialize (F h p Hp). by destruct p.
  - destruct (decide (h = h1)) as [->|Hne].
    + assert (p = p1) as -> by congruence.
      destruct p1; simpl; rewrite ?bool_decide_eq_true_2 by done; done.
    + specialize (U h p Hp Hne). destruct p1; try done; rewrite bool_decide_eq_false_2 by congruence;
        by destruct p.
Qed.

(** A hart's move keeps the invariant: it stays outside, or ... *)
Lemma inv_outside s h p q w :
  inv s → pcs s !! h = Some p → inside p = false → inside q = false → q ≠ Panicked →
  (word s ≠ 0 → w = 1) → (word s = 0 → w = 0) →
  inv (mkSys w (owner s) (goto h q s)).
Proof.
  intros [Hp [(W & O & F)|(h1 & p1 & W & P & In & O & U)]] Hh Hi Hq Hnp Hw1 Hw0.
  - split.
    + intros h2 [[? ?]|[? ?]]%goto_lookup; naive_solver.
    + left. split_and!; simpl; auto. intros h2 p2 [[-> ->]|[? ?]]%goto_lookup; eauto.
  - split.
    + intros h2 [[? ?]|[? ?]]%goto_lookup; naive_solver.
    + assert (h1 ≠ h) by congruence. right. exists h1, p1. split_and!; simpl; auto.
      * apply Hw1. lia.
      * by rewrite goto_other.
      * intros h2 p2 [[-> ->]|[? ?]]%goto_lookup; eauto.
Qed.

(** ... it moves while it is the one inside. *)
Lemma inv_inside s h p q o :
  inv s → pcs s !! h = Some p → (inside p = true ∨ word s = 0) → inside q = true →
  o = (if q is Crit then Some h else None) →
  inv (mkSys 1 o (goto h q s)).
Proof.
  intros [Hp I] Hh Hi Hq Ho. split.
  { intros h2 [[? ?]|[? ?]]%goto_lookup; naive_solver. }
  right. exists h, q. split_and!; simpl; auto.
  - by eapply goto_same.
  - intros h2 p2 [[-> ->]|[Hne H2]]%goto_lookup Hn; [done|].
    destruct I as [(W & O & F)|(h1 & p1 & W & P & In & O & U)]; [by eapply F|].
    destruct Hi as [Hi|]; [|lia]. destruct (decide (h = h1)) as [->|Hx]; [eauto|].
    specialize (U h p Hh Hx). congruence.
Qed.

Lemma inv_step s t : inv s → step s t → inv t.
Proof.
  intros I Hst. destruct Hst as [h s H H0|h s H H0|h s H H0|h s H H0|h s H|h s H H0|h s H H0|h s H];
    try (rewrite (holds_crit s h _ I H) in H0; discriminate).
  - eapply inv_outside; eauto. intros. destruct I as [_ [(W & _)|(?&?&W&_)]]; lia.
  - eapply inv_outside; eauto; lia.
  - eapply inv_inside; eauto. destruct I as [_ [(_ & O & _)|(h1 & p1 & W & _)]]; [done|lia].
  - assert (word s = 1) as ->
      by (destruct I as [_ [(_ & _ & F)|(h1 & p1 & W & _)]]; [by specialize (F h _ H)|done]).
    eapply inv_inside; eauto.
  - assert (word s = 1) as ->
      by (destruct I as [_ [(_ & _ & F)|(h1 & p1 & W & _)]]; [by specialize (F h _ H)|done]).
    eapply inv_inside; eauto.
  - destruct I as [Hp [(_ & _ & F)|(h1 & p1 & W & P & In & O & U)]]; [by specialize (F h _ H)|].
    destruct (decide (h = h1)) as [->|Hne]; [|by specialize (U h _ H Hne)]. simplify_eq.
    split; [intros h2 [[? ?]|[? ?]]%goto_lookup; naive_solver|].
    left. split_and!; simpl; auto. intros h2 p2 [[-> ->]|[? ?]]%goto_lookup; eauto.
Qed.

Lemma inv_reachable n s : rtc step (init n) s → inv s.
Proof.
  intros H. remember (init n) as s0 eqn:E. assert (inv s0) as I by (subst; apply inv_init).
  clear E. induction H; eauto using inv_step.
Qed.
End Race.



(** Nested [push_off]/[pop_off] pairs are invisible: after any number of
    [push_off] calls the same number of [pop_off] calls returns to the exact
    processor state, interrupt-enable bit included, and interrupts stay off in
    between. *)
Theorem push_pop_balanced (n : nat) (s : kstate) :
  cpu_ok (k_lk s) →
  wp (Nat.iter n (λ c, push_off ;;; c) (ret ()))
    (λ _ s1, (n ≠ 0%nat → intr_get (cs_hart (k_lk s1)) = false) ∧
             wp (Nat.iter n (λ c, pop_off ;;; c) (ret ())) (λ _ s2, s2 = s) s1) s.
Proof.
  intros Hok.
  enough (∀ k l, cpu_ok l → ∀ s1, k_lk s1 = Nat.iter k pushed l →
            wp (Nat.iter k (λ c, pop_off ;;; c) (ret ())) (λ _ s2, s2 = set_k_lk l s1) s1) as Hpop.
  { enough (∀ k s0, cpu_ok (k_lk s0) →
      wp (Nat.iter k (λ c, push_off ;;; c) (ret ()))
         (λ _ s1, s1 = set_k_lk (Nat.iter k pushed (k_lk s0)) s0) s0) as Hpush.
    { eapply wp_mono; [by apply Hpush|]. intros [] s1 ->. split.
      - intros Hn. destruct n; [done|]. ksimpl. simpl. apply intr_off_get.
      - eapply wp_mono; [by apply (Hpop n (k_lk s) Hok)|]. intros [] s2 ->.
        by rewrite set_k_lk_twice, set_k_lk_id. }
    induction k as [|k IH]; intros s0 H0; simpl.
    - apply wp_ret. by rewrite set_k_lk_id.
    - apply wp_bind. eapply wp_ok; [by apply push_off_eq|].
      eapply wp_mono; [apply IH; by apply pushed_ok|]. intros [] s1 ->. ksimpl.
      rewrite ?set_k_lk_twice. f_equal. by rewrite <- Nat.iter_succ_r. }
  induction k as [|k IH]; intros l Hl s1 E; simpl.
  - apply wp_ret. simpl in E. by rewrite <- E, set_k_lk_id.
  - apply wp_bind. assert (cpu_ok (Nat.iter k pushed l)) as Hk.
    { clear -Hl. induction k; simpl; auto using pushed_ok. }
    eapply wp_ok; [by eapply pop_off_pushed|].
    eapply wp_mono; [apply (IH l Hl); reflexivity|]. intros [] s2 ->. by rewrite set_k_lk_twice.
Qed.

(** Three nested calls on the boot hart. *)
Lemma push_pop_balanced_witness :
  cpu_ok (k_lk kstate0) ∧
  wp (Nat.iter 3 (λ c, push_off ;;; c) (ret ()))
    (λ _ s1, (3%nat ≠ 0%nat → intr_get (cs_hart (k_lk s1)) = false) ∧
             wp (Nat.iter 3 (λ c, pop_off ;;; c) (ret ())) (λ _ s2, s2 = kstate0) s1) kstate0.
Proof.
  assert (cpu_ok (k_lk kstate0)) as H.
  { refine (conj _ (conj _ (conj _ (conj _ _)))); vm_compute; [lia| | | |]; done. }
  split; [exact H|]. apply (push_pop_balanced 3 kstate0 H).
Defined.

(** Running [acquire] and [release] in an equation goal. *)
Ltac run_acquire Hc Hf :=
  erewrite bind_ok; [|eapply acquire_eq; [exact Hc|exact Hf]]; ksimpl.
Ltac run_release Hc Hf :=
  erewrite bind_ok; [|eapply release_eq; [exact Hc|exact Hf|reflexivity]]; ksimpl.
