(* ===== verification/Kalloc.v ===== *)
(** * The physical page allocator: [kernel/kalloc.c]

    The free list is threaded through the free pages themselves, in memory.
    [freelist m head l] says that the list rooted at [head] is exactly [l];
    the theorems show that [kalloc] and [kfree] are pop and push on it and
    that [freerange] frees every page of its range, once. *)

From stdpp Require Import prelude gmap strings list sorting.
From Stdlib Require Import ZArith Lia.
From S2P Require Import Prelude.
From S2P Require Import Monad.
From S2P Require Import Riscv.
From S2P Require Import Types.
From S2P Require Import Mem.
From S2P Require Import Spinlock.

Definition upd_mem (f : gmap Z Z → gmap Z Z) : K unit :=
  modify (λ s, set_k_mem (f (k_mem s)) s).

Section kalloc.
Context {SY : Symbols}.

Definition kfree (pa : Z) : K unit :=
  if (pa mod PGSIZE <>? 0) || (pa <? end_) || (PHYSTOP <=? pa) then panic "kfree" else
  upd_mem (λ m, memset m pa 1 PGSIZE) ;;;
  acquire LKmem ;;;
  modify (λ s, set_k_mem (store64 (k_mem s) pa (k_freelist s)) s) ;;;   (* r->next = kmem.freelist *)
  modify (set_k_freelist pa) ;;;
  release LKmem.

Definition kalloc : K Z :=
  acquire LKmem ;;;
  let! r := gets k_freelist in
  when (r <>? 0) (modify (λ s, set_k_freelist (load64 (k_mem s) r) s)) ;;;  (* r->next *)
  release LKmem ;;;
  when (r <>? 0) (upd_mem (λ m, memset m r 5 PGSIZE)) ;;;
  ret r.

(** [for(; p + PGSIZE <= (char* )pa_end; p += PGSIZE) kfree(p);] *)
Definition freerange_body (pa_end p : Z) : K (Z + unit) :=
  if p + PGSIZE <=? pa_end
  then kfree p ;;; ret (inl (p + PGSIZE))
  else ret (inr ()).
Definition freerange (pa_start pa_end : Z) : K unit :=
  loop (freerange_body pa_end) (PGROUNDUP pa_start).

Definition kinit : K unit :=
  initlock LKmem "kmem" ;;;
  freerange end_ PHYSTOP.

(** ** The free list *)

Definition page_ok (p : Z) : Prop := p mod PGSIZE = 0 ∧ end_ ≤ p < PHYSTOP.

Fixpoint freelist (m : gmap Z Z) (head : Z) (l : list Z) : Prop :=
  match l with
  | [] => head = 0
  | p :: l' => head = p ∧ freelist m (load64 m p) l'
  end.

(** The allocator owns exactly the pages [l]. *)
Definition kmem_ok (l : list Z) (s : kstate) : Prop :=
  0 < end_ ∧ mem_ok (k_mem s) ∧ freelist (k_mem s) (k_freelist s) l ∧
  Forall page_ok l ∧ NoDup l.

Lemma page_disjoint p q :
  p mod PGSIZE = 0 → q mod PGSIZE = 0 → p ≠ q → p + PGSIZE ≤ q ∨ q + PGSIZE ≤ p.
Proof. unfold PGSIZE. intros. mlia. Qed.

Lemma freelist_ext m m' h l :
  (∀ p b, p ∈ l → p ≤ b < p + 8 → rd m b = rd m' b) →
  freelist m h l → freelist m' h l.
Proof.
  revert h. induction l as [|p l IH]; intros h Hx; simpl; [done|].
  intros [-> H]. split; [done|].
  rewrite <- (load64_ext m m') by (intros; apply (Hx p); [set_solver|lia]).
  apply IH; [|done]. intros. apply (Hx p0); [set_solver|lia].
Qed.

(** A change of memory inside a page that is not on the list keeps the list. *)
Lemma freelist_frame m m' h l q :
  Forall page_ok l → q mod PGSIZE = 0 → q ∉ l →
  (∀ b, ¬ (q ≤ b < q + PGSIZE) → rd m' b = rd m b) →
  freelist m h l → freelist m' h l.
Proof.
  intros Hl Hq Hn Hx. apply freelist_ext. intros p b Hp Hb. symmetry. apply Hx.
  rewrite Forall_forall in Hl. destruct (Hl p Hp) as [Hal _].
  assert (p ≠ q) by (intros ->; done). destruct (page_disjoint p q); auto; consts; lia.
Qed.

Lemma kalloc_empty s :
  cpu_ok (k_lk s) → lock_free LKmem (k_lk s) → k_freelist s = 0 → kalloc s = Ok 0 s.
Proof.
  intros Hc Hf E. unfold kalloc. run_acquire Hc Hf.
  run. ksimpl. rewrite E. cbn [Z.eqb negb]. run.
  run_release Hc Hf.
  rewrite set_k_lk_id. done.
Qed.

Lemma kalloc_eq s :
  cpu_ok (k_lk s) → lock_free LKmem (k_lk s) → k_freelist s ≠ 0 →
  kalloc s = Ok (k_freelist s)
    (set_k_mem (memset (k_mem s) (k_freelist s) 5 PGSIZE)
      (set_k_freelist (load64 (k_mem s) (k_freelist s)) s)).
Proof.
  intros Hc Hf E. unfold kalloc. run_acquire Hc Hf.
  run. ksimpl. rewrite (proj2 (Z.eqb_neq _ _) E). cbn [negb]. run.
  run_release Hc Hf.
  unfold upd_mem. run. done.
Qed.

Lemma kalloc_kmem_ok p l s :
  cpu_ok (k_lk s) → lock_free LKmem (k_lk s) → kmem_ok (p :: l) s →
  wp kalloc (λ r s', r = p ∧ kmem_ok l s' ∧
    s' = set_k_mem (memset (k_mem s) p 5 PGSIZE) (set_k_freelist (load64 (k_mem s) p) s)) s.
Proof.
  intros Hc Hf (He & Hm & [Eh Hl] & Hp & Hnd). apply Forall_cons in Hp as [[Ha Hr] Hp].
  apply NoDup_cons in Hnd as [Hnin Hnd].
  eapply wp_ok; [apply kalloc_eq; auto; consts; lia|]. rewrite Eh. split_and!; auto.
  unfold kmem_ok. ksimpl. split_and!; [done|by apply memset_ok| |done|done].
  eapply freelist_frame; [done|apply Ha|done| |done].
  intros b Hb. rewrite rd_memset. case_decide; [done|]. done.
Qed.

Lemma kfree_eq p s :
  cpu_ok (k_lk s) → lock_free LKmem (k_lk s) → page_ok p →
  kfree p s = Ok () (set_k_mem (store64 (memset (k_mem s) p 1 PGSIZE) p (k_freelist s))
                      (set_k_freelist p s)).
Proof.
  intros Hc Hf [Ha Hr]. unfold kfree. rewrite Ha.
  replace ((0 <>? 0) || (p <? end_) || (PHYSTOP <=? p)) with false.
  2: { symmetry. rewrite !orb_false_iff. split_and!; [done|apply Z.ltb_ge; lia|apply Z.leb_gt; lia]. }
  unfold upd_mem. run.
  run_acquire Hc Hf. run. ksimpl.
  erewrite release_eq; [|exact Hc|exact Hf|ksimpl; reflexivity]. okeq.
Qed.

Lemma kfree_kmem_ok p l s :
  cpu_ok (k_lk s) → lock_free LKmem (k_lk s) → kmem_ok l s → page_ok p → p ∉ l →
  0 ≤ k_freelist s < 2 ^ 64 →
  wp (kfree p) (λ _ s', kmem_ok (p :: l) s' ∧
    s' = set_k_mem (store64 (memset (k_mem s) p 1 PGSIZE) p (k_freelist s)) (set_k_freelist p s)) s.
Proof.
  intros Hc Hf (He & Hm & Hl & Hp & Hnd) Hpo Hnin Hr.
  eapply wp_ok; [by apply kfree_eq|]. split; [|done].
  unfold kmem_ok. ksimpl. split_and!; [done|by apply store64_ok, memset_ok| |by constructor|by constructor].
  simpl. split; [done|]. rewrite load64_store64 by done.
  eapply freelist_frame; [done|apply Hpo|done| |done].
  intros b Hb. rewrite rd_store64_ne by (consts; lia). rewrite rd_memset. by case_decide.
Qed.

(** The head of the list is a valid pointer. *)
Lemma kmem_head_range l s : kmem_ok l s → 0 ≤ k_freelist s < 2 ^ 64.
Proof.
  intros (He & Hm & Hl & Hp & _). destruct l as [|p l]; simpl in Hl; [lia|].
  destruct Hl as [-> _]. apply Forall_cons in Hp as [[_ Hr] _]. consts. lia.
Qed.

(** What the other pages and the rest of the kernel see of an allocator call:
    nothing outside page [p]. *)
Definition only_page (p : Z) (s s' : kstate) : Prop :=
  (∀ b, ¬ (p ≤ b < p + PGSIZE) → rd (k_mem s') b = rd (k_mem s) b) ∧
  s' = set_k_freelist (k_freelist s') (set_k_mem (k_mem s') s).

Lemma kalloc_only p l s :
  cpu_ok (k_lk s) → lock_free LKmem (k_lk s) → kmem_ok (p :: l) s →
  wp kalloc (λ r s', r = p ∧ kmem_ok l s' ∧ only_page p s s' ∧
    ∀ b, p ≤ b < p + PGSIZE → rd (k_mem s') b = 5) s.
Proof.
  intros Hc Hf Hk. eapply wp_mono; [by apply (kalloc_kmem_ok p l)|].
  intros r s' (-> & Hk' & ->). split_and!; [done|done| |].
  - split; [|keq]. intros b Hb. ksimpl. rewrite rd_memset. by case_decide.
  - intros b Hb. ksimpl. rewrite rd_memset. by case_decide.
Qed.

Lemma kfree_only p l s :
  cpu_ok (k_lk s) → lock_free LKmem (k_lk s) → kmem_ok l s → page_ok p → p ∉ l →
  wp (kfree p) (λ _ s', kmem_ok (p :: l) s' ∧ only_page p s s') s.
Proof.
  intros Hc Hf Hk Hp Hn.
  eapply wp_mono; [apply (kfree_kmem_ok p l); eauto using kmem_head_range|].
  intros [] s' [Hk' ->]. split; [done|]. split; [|keq].
  intros b Hb. ksimpl. rewrite rd_store64_ne by (consts; lia). rewrite rd_memset. by case_decide.
Qed.

(** ** [freerange] *)

Definition pages_from (p : Z) (n : nat) : list Z := (λ i, p + Z.of_nat i * PGSIZE) <$> seq 0 n.

Lemma elem_of_pages_from p n q :
  q ∈ pages_from p n ↔ ∃ i : nat, (i < n)%nat ∧ q = p + Z.of_nat i * PGSIZE.
Proof.
  unfold pages_from. rewrite list_elem_of_fmap. split.
  - intros (i & -> & Hi%elem_of_seq). exists i. split; [lia|done].
  - intros (i & Hi & ->). exists i. split; [done|]. apply elem_of_seq. lia.
Qed.

Lemma pages_from_S p n : pages_from p (S n) = pages_from p n ++ [p + Z.of_nat n * PGSIZE].
Proof. unfold pages_from. by rewrite seq_S, fmap_app. Qed.

Lemma freerange_kmem_ok lo hi l s :
  cpu_ok (k_lk s) → lock_free LKmem (k_lk s) → kmem_ok l s →
  PGROUNDUP lo mod PGSIZE = 0 → end_ ≤ PGROUNDUP lo → hi ≤ PHYSTOP →
  (∀ q, q ∈ l → ¬ (PGROUNDUP lo ≤ q < hi)) →
  wp (freerange lo hi) (λ _ s',
     kmem_ok (reverse (pages_from (PGROUNDUP lo) (Z.to_nat ((hi - PGROUNDUP lo) / PGSIZE))) ++ l) s'
     ∧ k_lk s' = k_lk s) s.
Proof.
  intros Hc Hf Hk Ha He Hh Hdis. set (p0 := PGROUNDUP lo) in *.
  set (n := Z.to_nat ((hi - p0) / PGSIZE)).
  unfold freerange. apply (wp_loop (freerange_body hi)
    (λ p t, ∃ i, (i ≤ n)%nat ∧ p = p0 + Z.of_nat i * PGSIZE ∧
       kmem_ok (reverse (pages_from p0 i) ++ l) t ∧ k_lk t = k_lk s)
    (λ p t, Z.of_nat n - (p - p0) / PGSIZE)).
  - intros p t (i & Hi & -> & _). rewrite Z.add_simpl_l, Z.div_mul by (consts; lia). lia.
  - intros p t (i & Hi & -> & Hkt & El). unfold freerange_body.
    destruct (Z.leb_spec (p0 + Z.of_nat i * PGSIZE + PGSIZE) hi) as [Hle|Hgt].
    + assert (Hin : (i < n)%nat) by (unfold n; consts; mlia).
      rewrite wp_bind. eapply wp_mono.
      { apply (kfree_only _ (reverse (pages_from p0 i) ++ l)); rewrite ?El; [done..| |].
        - split; [consts; mlia|consts; lia].
        - rewrite elem_of_app, elem_of_reverse, elem_of_pages_from. intros [(j & Hj & Ej)|Hq].
          + consts. lia.
          + apply (Hdis _ Hq). consts. lia. }
      intros [] t' [Hk' [_ E]]. apply wp_ret. split.
      * exists (S i). split_and!; [lia|lia| |by rewrite E; ksimpl].
        by rewrite pages_from_S, reverse_app, <- app_assoc.
      * consts. mlia.
    + apply wp_ret. assert (i = n) as -> by (unfold n in *; consts; mlia). done.
  - exists 0%nat. unfold pages_from. simpl. split_and!; [lia|lia|done|done].
  - pose proof (proj1 Hk). consts. unfold n. mlia.
Qed.

Lemma kinit_kmem_ok s :
  cpu_ok (k_lk s) → mem_ok (k_mem s) → k_freelist s = 0 → 0 < end_ < PHYSTOP - PGSIZE →
  wp kinit (λ _ s', ∃ l, kmem_ok l s' ∧ ∀ p, p ∈ l ↔ page_ok p) s.
Proof.
  intros Hc Hm Hz He. unfold kinit. rewrite wp_bind. unfold initlock, upd_lk. rewrite wp_modify.
  destruct (PGROUNDUP_spec end_) as [Ha Hr]; [consts; lia|].
  eapply wp_mono.
  { apply (freerange_kmem_ok _ _ []); ksimpl; [done| | |done|lia|lia|set_solver].
    - exists "kmem". unfold put_lock. simpl. by rewrite lookup_insert_eq.
    - unfold kmem_ok. ksimpl. split_and!; [lia|done|done|constructor|constructor]. }
  intros [] s' [Hk _]. rewrite app_nil_r in Hk. eexists. split; [exact Hk|].
  intros p. rewrite elem_of_reverse, elem_of_pages_from. unfold page_ok. split.
  - intros (i & Hi & ->). consts. split; mlia.
  - intros [Hp Hb]. exists (Z.to_nat ((p - PGROUNDUP end_) / PGSIZE)). consts. split; mlia.
Qed.
End kalloc.

(** ** Properties *)

(** C29. [kalloc] and [kfree] are pop and push on a stack of distinct, aligned
    pages of [[end, PHYSTOP)]: [kalloc] returns 0 and changes nothing when the
    stack is empty, otherwise it returns the top page, filled with 5s;
    [kfree] pushes the page it is given; a [kalloc] right after returns that
    page and restores the stack.  Neither touches memory outside the page, or any
    other kernel state. *)
Theorem kalloc_kfree_stack {SY : Symbols} (l : list Z) (p : Z) (s : kstate) :
  cpu_ok (k_lk s) → lock_free LKmem (k_lk s) → kmem_ok l s →
  match l with
  | [] => kalloc s = Ok 0 s
  | q :: l' =>
      wp kalloc (λ r s', r = q ∧ kmem_ok l' s' ∧ only_page q s s' ∧
        ∀ b, q ≤ b < q + PGSIZE → rd (k_mem s') b = 5) s
  end ∧
  (page_ok p → p ∉ l →
    wp (kfree p) (λ _ s1, kmem_ok (p :: l) s1 ∧ only_page p s s1 ∧
      wp kalloc (λ r s2, r = p ∧ kmem_ok l s2 ∧ only_page p s1 s2) s1) s).
Proof.
  intros Hc Hf Hk. split.
  - destruct l as [|q l]; [|by apply kalloc_only].
    apply kalloc_empty; [done|done|]. by destruct Hk as (_ & _ & E & _).
  - intros Hp Hn. eapply wp_mono; [by apply (kfree_only p l)|].
    intros [] s1 [Hk1 Ho]. split_and!; [done|done|].
    assert (k_lk s1 = k_lk s) as E by (destruct Ho as [_ ->]; by ksimpl).
    eapply wp_mono; [apply (kalloc_only p l); by rewrite ?E|]. naive_solver.
Qed.

(** [kfree] refuses every argument that is not a page of the allocator: a
    misaligned address, kernel text or data, or an address past [PHYSTOP]. *)
Theorem kfree_rejects {SY : Symbols} (p : Z) (s : kstate) :
  ¬ page_ok p → kfree p s = Panic "kfree".
Proof.
  intros Hn. unfold kfree.
  destruct (Z.eqb_spec (p mod PGSIZE) 0), (Z.ltb_spec p end_), (Z.leb_spec PHYSTOP p);
    try done. exfalso. apply Hn. split; [done|lia].
Qed.

(** After [kinit] the free list holds every page of [[end, PHYSTOP)] exactly
    once. *)
Theorem kinit_all_pages {SY : Symbols} (s : kstate) :
  cpu_ok (k_lk s) → mem_ok (k_mem s) → k_freelist s = 0 → 0 < end_ < PHYSTOP - PGSIZE →
  wp kinit (λ _ s', ∃ l, kmem_ok l s' ∧ NoDup l ∧ ∀ p, p ∈ l ↔ page_ok p) s.
Proof.
  intros Hc Hm Hz He. eapply wp_mono; [by apply kinit_kmem_ok|].
  intros [] s' (l & Hk & Hl). exists l. split_and!; [done| |done]. apply Hk.
Qed.

(** A kernel image that ends at 0x80026000, booting on hart 0. *)
Definition symbols0 : Symbols := {|
  end_ := 0x80026000; etext := 0x80008000; trampoline := 0x80007000;
  uservec := 0x80007000; userret := 0x80007090; kernelvec := 0x80005000; timervec := 0x80005100;
  forkret_addr := 0x80001b00; usertrap_addr := 0x80002900; main_addr := 0x80000ea0;
  stk := 0x3fffffd000; disk_pages := 0x80020000;
  bdata := λ i, 0x80010000 + 1112 * Z.of_nat i;
  info_status := λ i, 0x80022030 + 16 * Z.of_nat i; mscratch0 := 0x8000b000 |}.

Lemma cpu_ok_0 : cpu_ok (k_lk kstate0).
Proof. refine (conj _ (conj _ (conj _ (conj _ _)))); vm_compute; [lia| | | |]; done. Qed.

Lemma mem_ok_empty : mem_ok ∅.
Proof. intros a b. rewrite lookup_empty. done. Qed.

Lemma kinit_all_pages_witness :
  wp (@kinit symbols0) (λ _ s', ∃ l, @kmem_ok symbols0 l s' ∧ NoDup l ∧
    ∀ p, p ∈ l ↔ @page_ok symbols0 p) kstate0.
Proof.
  apply (@kinit_all_pages symbols0 kstate0 cpu_ok_0 mem_ok_empty eq_refl).
  unfold PHYSTOP, KERNBASE, PGSIZE; simpl; lia.
Defined.

Lemma kfree_rejects_witness : @kfree symbols0 0x80026001 kstate0 = Panic "kfree".
Proof. apply (@kfree_rejects symbols0). intros [H _]. vm_compute in H. discriminate H. Defined.

(** The state with the allocator lock initialised and one page on the list. *)
Definition one_page_state : kstate :=
  set_k_freelist 0x80026000 (set_k_lk (put_lock LKmem (mkSpinlock 0 "kmem" None) (k_lk kstate0)) kstate0).

Lemma kalloc_kfree_stack_witness :
  wp kalloc (λ r s', r = 0x80026000 ∧ @kmem_ok symbols0 [] s') one_page_state ∧
  wp (@kfree symbols0 0x80027000) (λ _ s1, @kmem_ok symbols0 [0x80027000; 0x80026000] s1) one_page_state.
Proof.
  destruct (@kalloc_kfree_stack symbols0 [0x80026000] 0x80027000 one_page_state) as [H1 H2].
  - apply cpu_ok_0.
  - exists "kmem". reflexivity.
  - split; [done|]. split; [apply mem_ok_empty|].
    split; [vm_compute; split; reflexivity|]. split.
    + constructor; [|constructor]. vm_compute. split; [reflexivity|]. split; discriminate + reflexivity.
    + apply NoDup_singleton.
  - split; [eapply wp_mono; [exact H1|]; naive_solver|].
    eapply wp_mono; [apply H2|].
    + vm_compute. split; [reflexivity|]. split; discriminate + reflexivity.
    + intros Hi. apply list_elem_of_singleton in Hi. discriminate Hi.
    + naive_solver.
Defined.
