(* ===== verification/Vm.v ===== *)
(** * Page tables and user memory: [kernel/vm.c]

    Page-table pages live in [k_mem]; a [pte_t *] is the address of an entry and
    0 is the null pointer.  The operations are generic in the page-table entry
    format [pte2pa]; [riscv_h_pte] is the macro [PTE2PA] of [riscv.h] and
    [sv39_pte2pa] the format of the hardware.

    A kernel object that [copyout] reads from is given by its bytes; [copyin]
    and [copyinstr] return the bytes they delivered to the kernel object before
    they returned, with the result code, and the caller writes them. *)

From stdpp Require Import prelude gmap strings list.
From Stdlib Require Import ZArith Lia.
From S2P Require Import Prelude.
From S2P Require Import Monad.
From S2P Require Import Riscv.
From S2P Require Import Types.
From S2P Require Import Mem.
From S2P Require Import Spinlock.
From S2P Require Import Kalloc.

(** [*p] and [*p = v] for a 64-bit word of memory. *)
Definition ld64 (p : Z) : K Z := gets (λ s, load64 (k_mem s) p).
Definition st64 (p v : Z) : K unit := upd_mem (λ m, store64 m p v).

(** [pte & flag] as a truth value. *)
Definition has (pte flag : Z) : bool := Z.land pte flag <>? 0.

Section vm.
Context {SY : Symbols} {PF : PteFormat}.

(** [&pagetable[PX(level, va)]] *)
Definition pte_addr (pagetable level va : Z) : Z := pagetable + 8 * PX level va.

(** One iteration of the loop of [walk]; [None] is [return 0]. *)
Definition walk_step (pagetable level va : Z) (alloc : bool) : K (option Z) :=
  let pte := pte_addr pagetable level va in
  let! e := ld64 pte in
  if has e PTE_V then ret (Some (pte2pa e))
  else if negb alloc then ret None
  else
    let! pagetable := kalloc in
    if pagetable =? 0 then ret None else
    upd_mem (λ m, memset m pagetable 0 PGSIZE) ;;;
    st64 pte (Z.lor (PA2PTE pagetable) PTE_V) ;;;
    ret (Some pagetable).

(** [for(int level = 2; level > 0; level--)] *)
Fixpoint walk_loop (level : nat) (pagetable va : Z) (alloc : bool) : K (option Z) :=
  match level with
  | O => ret (Some pagetable)
  | S l =>
      let! r := walk_step pagetable (Z.of_nat level) va alloc in
      match r with
      | None => ret None
      | Some pagetable => walk_loop l pagetable va alloc
      end
  end.

Definition walk (pagetable va : Z) (alloc : bool) : K Z :=
  if MAXVA <=? va then panic "walk" else
  let! r := walk_loop 2 pagetable va alloc in
  match r with
  | None => ret 0
  | Some pagetable => ret (pte_addr pagetable 0 va)
  end.

Definition walkaddr (pagetable va : Z) : K Z :=
  if MAXVA <=? va then ret 0 else
  let! pte := walk pagetable va false in
  if pte =? 0 then ret 0 else
  let! e := ld64 pte in
  if negb (has e PTE_V) then ret 0 else
  if negb (has e PTE_U) then ret 0 else
  ret (pte2pa e).

(** The body of [for(;;)] in [mappages]; the loop variables are [a] and [pa]. *)
Definition mappages_body (pagetable last perm : Z) (x : Z * Z) : K (Z * Z + Z) :=
  let '(a, pa) := x in
  let! pte := walk pagetable a true in
  if pte =? 0 then ret (inr (-1)) else
  let! e := ld64 pte in
  if has e PTE_V then panic "remap" else
  st64 pte (Z.lor (Z.lor (PA2PTE pa) perm) PTE_V) ;;;
  if a =? last then ret (inr 0)
  else ret (inl (u64 (a + PGSIZE), u64 (pa + PGSIZE))).

Definition mappages (pagetable va size pa perm : Z) : K Z :=
  let a := PGROUNDDOWN va in
  let last := PGROUNDDOWN (u64 (va + size - 1)) in
  loop (mappages_body pagetable last perm) (a, pa).

Definition kvmmap (va pa sz perm : Z) : K unit :=
  let! kernel_pagetable := gets k_kpt in
  let! r := mappages kernel_pagetable va sz pa perm in
  if r <>? 0 then panic "kvmmap" else ret ().

Definition kvminit : K unit :=
  let! p := kalloc in
  modify (set_k_kpt p) ;;;
  upd_mem (λ m, memset m p 0 PGSIZE) ;;;
  kvmmap UART0 UART0 PGSIZE (Z.lor PTE_R PTE_W) ;;;
  kvmmap VIRTIO0 VIRTIO0 PGSIZE (Z.lor PTE_R PTE_W) ;;;
  kvmmap CLINT CLINT 0x10000 (Z.lor PTE_R PTE_W) ;;;
  kvmmap PLIC PLIC 0x400000 (Z.lor PTE_R PTE_W) ;;;
  kvmmap KERNBASE KERNBASE (etext - KERNBASE) (Z.lor PTE_R PTE_X) ;;;
  kvmmap etext etext (PHYSTOP - etext) (Z.lor PTE_R PTE_W) ;;;
  kvmmap TRAMPOLINE trampoline PGSIZE (Z.lor PTE_R PTE_X).

(** [sfence_vma] has no effect on a model without a TLB. *)
Definition kvminithart : K unit :=
  let! kernel_pagetable := gets k_kpt in
  upd_lk (upd_hart (w_satp (MAKE_SATP kernel_pagetable))).

Definition kvmpa (va : Z) : K Z :=
  let off := va mod PGSIZE in
  let! kernel_pagetable := gets k_kpt in
  let! pte := walk kernel_pagetable va false in
  if pte =? 0 then panic "kvmpa" else
  let! e := ld64 pte in
  if negb (has e PTE_V) then panic "kvmpa" else
  ret (u64 (pte2pa e + off)).

(** [for(a = va; a < va + npages*PGSIZE; a += PGSIZE)] *)
Definition uvmunmap_body (pagetable last : Z) (do_free : bool) (a : Z) : K (Z + unit) :=
  if negb (a <? last) then ret (inr ()) else
  let! pte := walk pagetable a false in
  if pte =? 0 then panic "uvmunmap: walk" else
  let! e := ld64 pte in
  if negb (has e PTE_V) then panic "uvmunmap: not mapped" else
  if PTE_FLAGS e =? PTE_V then panic "uvmunmap: not a leaf" else
  when do_free (kfree (pte2pa e)) ;;;
  st64 pte 0 ;;;
  ret (inl (u64 (a + PGSIZE))).

Definition uvmunmap (pagetable va npages : Z) (do_free : bool) : K unit :=
  if va mod PGSIZE <>? 0 then panic "uvmunmap: not aligned" else
  loop (uvmunmap_body pagetable (u64 (va + u64 (npages * PGSIZE))) do_free) va.

Definition uvmcreate : K Z :=
  let! pagetable := kalloc in
  if pagetable =? 0 then ret 0 else
  upd_mem (λ m, memset m pagetable 0 PGSIZE) ;;;
  ret pagetable.

(** [src] is the array of the first [sz] bytes. *)
Definition uvminit (pagetable : Z) (src : list Z) : K unit :=
  let sz := Z.of_nat (length src) in
  if PGSIZE <=? sz then panic "inituvm: more than a page" else
  let! mem := kalloc in
  upd_mem (λ m, memset m mem 0 PGSIZE) ;;;
  let! _ := mappages pagetable 0 PGSIZE mem (Z.lor PTE_W (Z.lor PTE_R (Z.lor PTE_X PTE_U))) in
  upd_mem (λ m, store_bytes m mem src).

(** [npages] is an [int] and is converted back to [uint64] by the call. *)
Definition uvmdealloc (pagetable oldsz newsz : Z) : K Z :=
  if oldsz <=? newsz then ret oldsz else
  when (PGROUNDUP newsz <? PGROUNDUP oldsz)
    (let npages := i32 ((PGROUNDUP oldsz - PGROUNDUP newsz) / PGSIZE) in
     uvmunmap pagetable (PGROUNDUP newsz) (u64 npages) true) ;;;
  ret newsz.

Definition uvmalloc_body (pagetable oldsz newsz : Z) (a : Z) : K (Z + Z) :=
  if negb (a <? newsz) then ret (inr newsz) else
  let! mem := kalloc in
  if mem =? 0 then
    let! _ := uvmdealloc pagetable a oldsz in
    ret (inr 0)
  else
  upd_mem (λ m, memset m mem 0 PGSIZE) ;;;
  let! r := mappages pagetable a PGSIZE mem (Z.lor PTE_W (Z.lor PTE_X (Z.lor PTE_R PTE_U))) in
  if r <>? 0 then
    kfree mem ;;;
    let! _ := uvmdealloc pagetable a oldsz in
    ret (inr 0)
  else ret (inl (u64 (a + PGSIZE))).

Definition uvmalloc (pagetable oldsz newsz : Z) : K Z :=
  if newsz <? oldsz then ret oldsz else
  let oldsz := PGROUNDUP oldsz in
  loop (uvmalloc_body pagetable oldsz newsz) oldsz.

(** [depth] bounds the recursion; a kernel stack is one page and a frame takes at
    least 16 bytes, so the code has room for at most 256 activations. *)
Fixpoint freewalk_at (depth : nat) (pagetable : Z) : K unit :=
  match depth with
  | O => nofuel
  | S d =>
      let! _ := for_ (R := unit) 512 0 (λ i,
        let slot := pagetable + 8 * Z.of_nat i in
        let! pte := ld64 slot in
        if has pte PTE_V && (Z.land pte (Z.lor PTE_R (Z.lor PTE_W PTE_X)) =? 0) then
          freewalk_at d (pte2pa pte) ;;;
          st64 slot 0 ;;;
          ret None
        else if has pte PTE_V then panic "freewalk: leaf"
        else ret None) in
      kfree pagetable
  end.
Definition freewalk : Z → K unit := freewalk_at 256.

Definition uvmfree (pagetable sz : Z) : K unit :=
  when (0 <? sz) (uvmunmap pagetable 0 (PGROUNDUP sz / PGSIZE) true) ;;;
  freewalk pagetable.

(** The error exit of [uvmcopy]. *)
Definition uvmcopy_err (new i : Z) : K (Z + Z) :=
  uvmunmap new 0 (i / PGSIZE) true ;;; ret (inr (-1)).

Definition uvmcopy_body (old new sz : Z) (i : Z) : K (Z + Z) :=
  if negb (i <? sz) then ret (inr 0) else
  let! pte := walk old i false in
  if pte =? 0 then panic "uvmcopy: pte should exist" else
  let! e := ld64 pte in
  if negb (has e PTE_V) then panic "uvmcopy: page not present" else
  let pa := pte2pa e in
  let flags := PTE_FLAGS e in
  let! mem := kalloc in
  if mem =? 0 then uvmcopy_err new i else
  upd_mem (λ m, memmove m mem pa PGSIZE) ;;;
  let! r := mappages new i PGSIZE mem flags in
  if r <>? 0 then kfree mem ;;; uvmcopy_err new i
  else ret (inl (u64 (i + PGSIZE))).

Definition uvmcopy (old new sz : Z) : K Z := loop (uvmcopy_body old new sz) 0.

Definition uvmclear (pagetable va : Z) : K unit :=
  let! pte := walk pagetable va false in
  if pte =? 0 then panic "uvmclear" else
  let! e := ld64 pte in
  st64 pte (Z.land e (lnot64 PTE_U)).

(** [min(PGSIZE - (va - va0), len)] *)
Definition chunk (va va0 len : Z) : Z :=
  let n := PGSIZE - (va - va0) in if len <? n then len else n.

(** The [while(len > 0)] of [copyout]; the loop variables are [dstva] and the
    bytes still to copy. *)
Definition copyout_body (pagetable : Z) (x : Z * list Z) : K (Z * list Z + Z) :=
  let '(dstva, src) := x in
  let len := Z.of_nat (length src) in
  if len =? 0 then ret (inr 0) else
  let va0 := PGROUNDDOWN dstva in
  let! pa0 := walkaddr pagetable va0 in
  if pa0 =? 0 then ret (inr (-1)) else
  let n := chunk dstva va0 len in
  upd_mem (λ m, store_bytes m (pa0 + (dstva - va0)) (take (Z.to_nat n) src)) ;;;
  ret (inl (u64 (va0 + PGSIZE), drop (Z.to_nat n) src)).

Definition copyout (pagetable dstva : Z) (src : list Z) : K Z :=
  loop (copyout_body pagetable) (dstva, src).

(** The loop variables of [copyin]: [srcva], [len] and the bytes delivered. *)
Definition copyin_body (pagetable : Z) (x : Z * Z * list Z) : K (Z * Z * list Z + list Z * Z) :=
  let '(srcva, len, dst) := x in
  if len =? 0 then ret (inr (dst, 0)) else
  let va0 := PGROUNDDOWN srcva in
  let! pa0 := walkaddr pagetable va0 in
  if pa0 =? 0 then ret (inr (dst, -1)) else
  let n := chunk srcva va0 len in
  let! m := gets k_mem in
  ret (inl (u64 (va0 + PGSIZE), len - n,
            dst ++ load_bytes m (pa0 + (srcva - va0)) (Z.to_nat n))).

Definition copyin (pagetable srcva len : Z) : K (list Z * Z) :=
  loop (copyin_body pagetable) (srcva, len, []).

(** [while(n > 0){ if( *p == 0 ) ... }]: the bytes written to [dst], whether the
    NUL was found, and what is left of [max]. *)
Fixpoint copyinstr_chunk (n : nat) (m : gmap Z Z) (p max : Z) : list Z * bool * Z :=
  match n with
  | O => ([], false, max)
  | S n' =>
      if rd m p =? 0 then ([0], true, max)
      else let '(l, got_null, max') := copyinstr_chunk n' m (p + 1) (max - 1) in
           (rd m p :: l, got_null, max')
  end.

Definition copyinstr_body (pagetable : Z) (x : Z * Z * list Z) :
    K (Z * Z * list Z + list Z * Z) :=
  let '(srcva, max, dst) := x in
  if max =? 0 then ret (inr (dst, -1)) else
  let va0 := PGROUNDDOWN srcva in
  let! pa0 := walkaddr pagetable va0 in
  if pa0 =? 0 then ret (inr (dst, -1)) else
  let n := chunk srcva va0 max in
  let! m := gets k_mem in
  let '(l, got_null, max') := copyinstr_chunk (Z.to_nat n) m (pa0 + (srcva - va0)) max in
  if got_null then ret (inr (dst ++ l, 0))
  else ret (inl (u64 (va0 + PGSIZE), max', dst ++ l)).

Definition copyinstr (pagetable srcva max : Z) : K (list Z * Z) :=
  loop (copyinstr_body pagetable) (srcva, max, []).
End vm.
