(* ===== verification/VmSpec.v ===== *)
(** * What [kernel/vm.c] guarantees

    The operations of [Vm.v] are related to a reference: the Sv39 translation of
    the hardware, and the map from virtual pages to entries that a page table
    stands for.  The theorems hold for every entry format that inverts
    [PA2PTE] ([PteLaws]); the hardware's format does, the macro [PTE2PA] of
    [riscv.h] does not. *)

From stdpp Require Import prelude gmap strings list.
From Stdlib Require Import ZArith Lia.
From S2P Require Import Prelude.
From S2P Require Import Monad.
From S2P Require Import Riscv.
From S2P Require Import Types.
From S2P Require Import Mem.
From S2P Require Import Spinlock.
From S2P Require Import Kalloc.
From S2P Require Import Vm.

(** The physical page number of a Sv39 entry is its bits 10 to 53. *)
Definition sv39_pte2pa : PteFormat := λ pte, ((pte / 2 ^ 10) mod 2 ^ 44) * 2 ^ 12.

(** An entry made by [PA2PTE] with flags decodes to its page. *)
Class PteLaws {PF : PteFormat} : Prop := pte2pa_PA2PTE : ∀ pa fl,
  pa mod PGSIZE = 0 → 0 ≤ pa < 2 ^ 56 → 0 ≤ fl < 2 ^ 10 → pte2pa (Z.lor (PA2PTE pa) fl) = pa.

Lemma PA2PTE_lor pa fl :
  0 ≤ pa < 2 ^ 56 → 0 ≤ fl < 2 ^ 10 → Z.lor (PA2PTE pa) fl = (pa / 2 ^ 12) * 2 ^ 10 + fl.
Proof.
  intros Hp Hf. unfold PA2PTE.
  rewrite (u64_small pa) by lia. rewrite Z.shiftr_div_pow2 by lia.
  assert (0 ≤ pa / 2 ^ 12 < 2 ^ 44)
    by (split; [apply Z.div_pos; lia|apply Z.div_lt_upper_bound; lia]).
  rewrite u64_small by (rewrite Z.shiftl_mul_pow2 by lia; lia).
  by apply lor_shiftl_add.
Qed.

Lemma sv39_laws : @PteLaws sv39_pte2pa.
Proof.
  intros pa fl Ha Hp Hf. unfold pte2pa, sv39_pte2pa. rewrite PA2PTE_lor by done.
  unfold PGSIZE in Ha.
  rewrite Z.div_add_l, (Z.div_small fl) by lia. rewrite Z.add_0_r.
  assert (0 ≤ pa / 2 ^ 12 < 2 ^ 44)
    by (split; [apply Z.div_pos; lia|apply Z.div_lt_upper_bound; lia]).
  rewrite Z.mod_small by lia. change (2 ^ 12) with 4096 in *.
  pose proof (Z.div_mod pa 4096). lia.
Qed.

(** ** Flags *)

Lemma has_0 f : has 0 f = false.
Proof. unfold has. by rewrite Z.land_0_l. Qed.

Lemma has_lor_V x : has (Z.lor x PTE_V) PTE_V = true.
Proof.
  unfold has. change PTE_V with (2 ^ 1 - 1). rewrite land_ones_mod by lia.
  rewrite Zmod_odd. rewrite <- Z.bit0_odd, Z.lor_spec. change (2 ^ 1 - 1) with 1.
  change (Z.testbit 1 0) with true. by rewrite orb_true_r.
Qed.

(** Pages of a page table, with their level and index prefix. *)
Notation gmap_pt := (gmap Z (nat * Z)).

(** ** The walk, as a function on memory *)

Section spec.
Context {SY : Symbols} {PF : PteFormat}.

(** The level-0 page that the walk for [va] reaches from the level-[l] page [p]. *)
Fixpoint ptw (l : nat) (m : gmap Z Z) (p va : Z) : option Z :=
  match l with
  | O => Some p
  | S l' =>
      let e := load64 m (pte_addr p (Z.of_nat l) va) in
      if has e PTE_V then ptw l' m (pte2pa e) va else None
  end.

(** The entry of [va], 0 if there is no page for it. *)
Definition ptv (l : nat) (m : gmap Z Z) (p va : Z) : Z :=
  match ptw l m p va with
  | Some p0 => load64 m (pte_addr p0 0 va)
  | None => 0
  end.
Definition pt_slot (m : gmap Z Z) (root va : Z) : option Z :=
  (λ p0, pte_addr p0 0 va) <$> ptw 2 m root va.
(** The page table as a map from addresses to entries. *)
Definition pt_entry (m : gmap Z Z) (root va : Z) : Z := ptv 2 m root va.

Lemma walk_loop_noalloc l p va s :
  walk_loop l p va false s = Ok (ptw l (k_mem s) p va) s.
Proof.
  revert p. induction l as [|l IH]; intros p; [done|].
  cbn [walk_loop ptw]. unfold walk_step, ld64. run. unfold bind at 1.
  change (bind (gets ?g) ?f s) with (f (g s) s). cbv beta.
  set (e := load64 _ _). destruct (has e PTE_V); [|done]. cbn [obind ret]. apply IH.
Qed.

Lemma walk_noalloc root va s :
  va < MAXVA → walk root va false s = Ok (default 0 (pt_slot (k_mem s) root va)) s.
Proof.
  intros H. unfold walk. rewrite (proj2 (Z.leb_gt _ _)) by done.
  rewrite (bind_ok _ _ _ _ _ (walk_loop_noalloc 2 root va s)).
  unfold pt_slot. by destruct (ptw 2 (k_mem s) root va).
Qed.

(** ** Page-table pages

    [G] gives each page of the table its level and the index prefix of the
    addresses it translates; every valid entry of an inner page points to a page
    of the table, with the prefix extended by the index of the entry. *)

Record pt_inv (G : gmap_pt) (m : gmap Z Z) (root : Z) : Prop := {
  pt_root : G !! root = Some (2%nat, 0);
  pt_page : ∀ p l pre, G !! p = Some (l, pre) → page_ok p;
  pt_child : ∀ p l pre i, G !! p = Some (S l, pre) → 0 ≤ i < 512 →
    has (load64 m (p + 8 * i)) PTE_V = true →
    G !! pte2pa (load64 m (p + 8 * i)) = Some (l, pre * 512 + i)
}.

Definition vpn (l : nat) (va : Z) : Z := va / 2 ^ (12 + 9 * (Z.of_nat l + 1)).

Lemma vpn_step l va :
  0 ≤ va < 2 ^ 64 → vpn l va = vpn (S l) va * 512 + PX (Z.of_nat (S l)) va.
Proof.
  intros H. rewrite PX_eq by lia. unfold vpn.
  replace (12 + 9 * (Z.of_nat (S l) + 1)) with ((12 + 9 * (Z.of_nat l + 1)) + 9) by lia.
  replace (12 + 9 * Z.of_nat (S l)) with (12 + 9 * (Z.of_nat l + 1)) by lia.
  assert (0 ≤ 12 + 9 * (Z.of_nat l + 1)) as Hk by lia.
  generalize dependent (12 + 9 * (Z.of_nat l + 1)). intros k Hk.
  rewrite Z.pow_add_r, <- Z.div_div by lia. change (2 ^ 9) with 512.
  pose proof (Z.div_mod (va / 2 ^ k) 512). lia.
Qed.

Lemma vpn_2 va : 0 ≤ va < MAXVA → vpn 2 va = 0.
Proof.
  intros H. unfold vpn. change (12 + 9 * (Z.of_nat 2 + 1)) with 39.
  apply Z.div_small. rewrite MAXVA_eq in H. lia.
Qed.

(** Pages reached by a walk carry the prefix of the address. *)
Lemma ptw_label G m root l p va p0 :
  pt_inv G m root → 0 ≤ va < 2 ^ 64 → G !! p = Some (l, vpn l va) →
  ptw l m p va = Some p0 → G !! p0 = Some (0%nat, vpn 0 va).
Proof.
  intros HG Hva. revert p. induction l as [|l IH]; intros p Hp; simpl; [congruence|].
  case_match eqn:Hv; [|done]. apply IH. unfold pte_addr in *.
  rewrite (pt_child _ _ _ HG p l (vpn (S l) va)) by (auto using PX_range with lia).
  by rewrite (vpn_step l va).
Qed.

Lemma page_pos p : 0 < end_ → page_ok p → 0 < p < 2 ^ 56 ∧ p mod PGSIZE = 0.
Proof. intros He [H1 H2]. consts. lia. Qed.

Lemma slot_in_page p i q j :
  p mod PGSIZE = 0 → q mod PGSIZE = 0 → 0 ≤ i < 512 → 0 ≤ j < 512 →
  p + 8 * i = q + 8 * j → p = q ∧ i = j.
Proof. unfold PGSIZE. intros. mlia. Qed.

(** Different entries do not overlap. *)
Lemma slots_disjoint p i q j :
  p mod PGSIZE = 0 → q mod PGSIZE = 0 → 0 ≤ i < 512 → 0 ≤ j < 512 → (p, i) ≠ (q, j) →
  p + 8 * i + 8 ≤ q + 8 * j ∨ q + 8 * j + 8 ≤ p + 8 * i.
Proof.
  intros Hp Hq Hi Hj Hne. destruct (decide (p = q)) as [->|Hpq].
  - assert (i ≠ j) by congruence. lia.
  - destruct (page_disjoint p q) as [H|H]; auto; consts; lia.
Qed.

(** ** Adding a page to the table *)

Section extend.
Context (G : gmap_pt) (m m' : gmap Z Z) (root : Z).
Context (q i : Z) (l : nat) (pre p : Z).
Hypothesis Hinv : pt_inv G m root.
Hypothesis Hq : G !! q = Some (S l, pre).
Hypothesis Hi : 0 ≤ i < 512.
Hypothesis Hinvalid : has (load64 m (q + 8 * i)) PTE_V = false.
Hypothesis Hfresh : G !! p = None.
Hypothesis Hp : page_ok p.
(** What [walk] does to memory: the new page is zero, the entry points to it. *)
Hypothesis Hzero : ∀ b, p ≤ b < p + PGSIZE → rd m' b = 0.
Hypothesis Hslot : has (load64 m' (q + 8 * i)) PTE_V = true ∧ pte2pa (load64 m' (q + 8 * i)) = p.
Hypothesis Hframe : ∀ b, ¬ (p ≤ b < p + PGSIZE) → ¬ (q + 8 * i ≤ b < q + 8 * i + 8) →
  rd m' b = rd m b.

Lemma extend_zero k : 0 ≤ k < 512 → load64 m' (p + 8 * k) = 0.
Proof.
  intros Hk. rewrite (load64_ext m' ∅); [done|].
  intros b Hb. rewrite Hzero by (consts; lia). unfold rd. by rewrite lookup_empty.
Qed.

Lemma extend_same r lr prer k :
  G !! r = Some (lr, prer) → 0 ≤ k < 512 → (r, k) ≠ (q, i) →
  load64 m' (r + 8 * k) = load64 m (r + 8 * k).
Proof.
  intros Hr Hk Hne. apply load64_ext. intros b Hb.
  destruct (pt_page _ _ _ Hinv _ _ _ Hr) as [Hra _]. destruct (pt_page _ _ _ Hinv _ _ _ Hq) as [Hqa _].
  assert (r ≠ p) as Hrp by congruence.
  apply Hframe.
  - destruct (page_disjoint r p Hra (proj1 Hp) Hrp); consts; lia.
  - destruct (slots_disjoint r k q i); auto; lia.
Qed.

Lemma extend_inv : pt_inv (<[p := (l, pre * 512 + i)]> G) m' root.
Proof.
  destruct Hinv as [Hroot Hpage Hchild]. split.
  - rewrite lookup_insert_ne; [done|]. intros ->. congruence.
  - intros r lr prer. rewrite lookup_insert_Some. intros [[<- _]|[_ H]]; eauto.
  - intros r lr prer k Hr Hk Hv. rewrite lookup_insert_Some in Hr.
    destruct Hr as [[<- E]|[Hne Hr]].
    { rewrite extend_zero, has_0 in Hv by done. done. }
    destruct (decide ((r, k) = (q, i))) as [[= -> ->]|Hrk].
    + rewrite (proj2 Hslot), lookup_insert_eq. simplify_eq. done.
    + erewrite extend_same in * by eauto.
      rewrite lookup_insert_ne; [by eapply Hchild|].
      intros E. pose proof (Hchild r lr prer k Hr Hk Hv) as HH. rewrite <- E in HH. congruence.
Qed.

(** The table still stands for the same map. *)
Lemma extend_ptv n r prer va :
  G !! r = Some (n, prer) → ptv n m' r va = ptv n m r va.
Proof.
  revert r prer. induction n as [|n IH]; intros r prer Hr.
  - unfold ptv. simpl. unfold pte_addr. eapply extend_same; [done|by apply PX_range|].
    intros [= -> _]. congruence.
  - assert (0 ≤ PX (Z.of_nat (S n)) va < 512) as HX by (apply PX_range; lia).
    unfold ptv in *. cbn [ptw].
    change (pte_addr r (Z.of_nat (S n)) va) with (r + 8 * PX (Z.of_nat (S n)) va).
    destruct (decide ((r, PX (Z.of_nat (S n)) va) = (q, i))) as [[= -> E]|Hne].
    + rewrite E, Hinvalid, (proj1 Hslot), (proj2 Hslot). clear IH.
      assert (∀ j, 0 ≤ j → load64 m' (pte_addr p j va) = 0) as Hz.
      { intros j Hj. apply extend_zero, PX_range, Hj. }
      destruct n as [|n]; cbn [ptw]; [by apply Hz|]. rewrite Hz, has_0 by lia. done.
    + rewrite (extend_same r _ _ _ Hr HX Hne).
      destruct (has (load64 m (r + _)) PTE_V) eqn:Hv; [|done].
      eapply IH. eapply (pt_child _ _ _ Hinv); eauto.
Qed.
End extend.

(** ** [walk] with allocation *)

(** The allocator owns [l], the page table [root] the pages [G]. *)
Record vm_ok (G : gmap_pt) (l : list Z) (root : Z) (s : kstate) : Prop := mkvm_ok {
  vm_cpu : cpu_ok (k_lk s);
  vm_lock : lock_free LKmem (k_lk s);
  vm_kmem : kmem_ok l s;
  vm_pt : pt_inv G (k_mem s) root;
  vm_disj : ∀ p, p ∈ l → G !! p = None
}.

(** New pages of the table come from the allocator. *)
Definition grow (G : gmap_pt) (l : list Z) (G' : gmap_pt) (l' : list Z) : Prop :=
  l' `suffix_of` l ∧ ∀ p x, G' !! p = Some x → G !! p = Some x ∨ (p ∈ l ∧ p ∉ l').

Lemma grow_refl G l : grow G l G l.
Proof. split; [done|]. auto. Qed.

Lemma grow_trans G l G1 l1 G2 l2 : grow G l G1 l1 → grow G1 l1 G2 l2 → grow G l G2 l2.
Proof.
  intros [S1 H1] [S2 H2]. split; [by etrans|]. intros p x Hp.
  destruct S1 as [k1 ->], S2 as [k2 ->].
  destruct (H2 p x Hp) as [Hp1|[Hin Hn]]; [destruct (H1 p x Hp1) as [|[Hin Hn]]; [by left|]|];
    right; set_solver.
Qed.

(** Only memory and the free list change, and memory only in pages of [G']. *)
Definition vm_frame (G' : gmap_pt) (s s' : kstate) : Prop :=
  s' = set_k_freelist (k_freelist s') (set_k_mem (k_mem s') s) ∧
  ∀ b, (∀ p x, G' !! p = Some x → ¬ (p ≤ b < p + PGSIZE)) → rd (k_mem s') b = rd (k_mem s) b.

Lemma vm_frame_refl G s : vm_frame G s s.
Proof. split; [keq|done]. Qed.

Lemma vm_frame_trans G1 G2 s1 s2 s3 :
  G1 ⊆ G2 → vm_frame G1 s1 s2 → vm_frame G2 s2 s3 → vm_frame G2 s1 s3.
Proof.
  intros HG [E1 H1] [E2 H2]. split.
  - rewrite E2, E1. keq.
  - intros b Hb. rewrite H2 by done. apply H1. intros p x Hp. apply (Hb p x). by eapply lookup_weaken.
Qed.

Lemma vm_frame_lk G s s' : vm_frame G s s' → k_lk s' = k_lk s.
Proof. intros [-> _]. by ksimpl. Qed.

Context {PL : PteLaws}.

Lemma set_mem_freelist m h s :
  set_k_mem m (set_k_freelist h s) = set_k_freelist h (set_k_mem m s).
Proof. keq. Qed.

(** The state after [walk] has linked the fresh page [p] at entry [i] of [q]. *)
Definition linked (q i p : Z) (s : kstate) : kstate :=
  set_k_mem (store64 (memset (memset (k_mem s) p 5 PGSIZE) p 0 PGSIZE) (q + 8 * i)
               (Z.lor (PA2PTE p) PTE_V))
    (set_k_freelist (load64 (k_mem s) p) s).

Lemma linked_frame q i p s b :
  ¬ (p ≤ b < p + PGSIZE) → ¬ (q + 8 * i ≤ b < q + 8 * i + 8) →
  rd (k_mem (linked q i p s)) b = rd (k_mem s) b.
Proof.
  intros H1 H2. unfold linked. ksimpl. rewrite rd_store64_ne by lia.
  rewrite !rd_memset. by case_decide.
Qed.

Lemma PTE_word pa fl : 0 ≤ pa < 2 ^ 56 → 0 ≤ fl < 2 ^ 10 → 0 ≤ Z.lor (PA2PTE pa) fl < 2 ^ 64.
Proof.
  intros Hp Hf. rewrite PA2PTE_lor by done.
  assert (0 ≤ pa / 2 ^ 12 < 2 ^ 44)
    by (split; [apply Z.div_pos; lia|apply Z.div_lt_upper_bound; lia]). lia.
Qed.

Section linked.
Context (G : gmap_pt) (l : list Z) (root : Z) (n : nat) (q i pre p : Z) (s : kstate).
Hypothesis Hok : vm_ok G (p :: l) root s.
Hypothesis Hq : G !! q = Some (S n, pre).
Hypothesis Hi : 0 ≤ i < 512.
Hypothesis Hinvalid : has (load64 (k_mem s) (q + 8 * i)) PTE_V = false.

Lemma linked_page : page_ok p ∧ 0 < p < 2 ^ 56 ∧ p mod PGSIZE = 0.
Proof.
  destruct (vm_kmem _ _ _ _ Hok) as (He & _ & _ & Hp & _). inversion Hp; subst.
  split; [done|]. by apply page_pos.
Qed.

Lemma linked_fresh : G !! p = None.
Proof. apply (vm_disj _ _ _ _ Hok). set_solver. Qed.

Lemma linked_apart : q + 8 * i + 8 ≤ p ∨ p + PGSIZE ≤ q + 8 * i.
Proof.
  destruct linked_page as (_ & _ & Hpa).
  destruct (pt_page _ _ _ (vm_pt _ _ _ _ Hok) _ _ _ Hq) as [Hqa _].
  assert (q ≠ p) as Hne by (pose proof linked_fresh; congruence).
  destruct (page_disjoint q p Hqa Hpa Hne); consts; lia.
Qed.

Lemma linked_zero b : p ≤ b < p + PGSIZE → rd (k_mem (linked q i p s)) b = 0.
Proof.
  intros Hb. unfold linked. ksimpl. pose proof linked_apart.
  rewrite rd_store64_ne by lia. rewrite rd_memset. by case_decide.
Qed.

Lemma linked_slot :
  load64 (k_mem (linked q i p s)) (q + 8 * i) = Z.lor (PA2PTE p) PTE_V.
Proof.
  destruct linked_page as (_ & Hp & _). unfold linked. ksimpl.
  apply load64_store64, PTE_word; [lia|]. by change PTE_V with 1.
Qed.

Lemma linked_decode :
  has (load64 (k_mem (linked q i p s)) (q + 8 * i)) PTE_V = true ∧
  pte2pa (load64 (k_mem (linked q i p s)) (q + 8 * i)) = p.
Proof.
  destruct linked_page as (_ & Hp & Hpa). rewrite linked_slot. split; [apply has_lor_V|].
  apply pte2pa_PA2PTE; [done|lia|]. by change PTE_V with 1.
Qed.

Lemma linked_vm_ok : vm_ok (<[p := (n, pre * 512 + i)]> G) l root (linked q i p s).
Proof.
  destruct Hok as [Hc Hf Hk Hpt Hd]. pose proof linked_page as (Hp & Hp0 & Hpa).
  destruct Hk as (He & Hm & [Eh Hl] & Hps & Hnd). apply Forall_cons in Hps as [_ Hps].
  apply NoDup_cons in Hnd as [Hnin Hnd]. rewrite Forall_forall in Hps.
  split.
  - unfold linked. by ksimpl.
  - unfold linked. by ksimpl.
  - split; [done|]. split; [unfold linked; ksimpl; by apply store64_ok, memset_ok, memset_ok|].
    split; [|split; [by apply Forall_forall|done]].
    replace (k_freelist (linked q i p s)) with (load64 (k_mem s) p) by (unfold linked; by ksimpl).
    eapply freelist_ext; [|exact Hl]. intros r b Hr Hb. symmetry.
    destruct (Hps r Hr) as [Hra _].
    apply linked_frame.
    + assert (r ≠ p) by congruence.
      destruct (page_disjoint r p); auto; consts; lia.
    + assert (G !! r = None) by (apply Hd; set_solver). assert (q ≠ r) by congruence.
      destruct (pt_page _ _ _ Hpt _ _ _ Hq) as [Hqa _].
      destruct (page_disjoint q r); auto; consts; lia.
  - eapply extend_inv; [exact Hpt|exact Hq|exact Hi|exact linked_fresh|exact Hp
      |exact linked_zero|exact linked_decode|exact (linked_frame q i p s)].
  - intros r Hr. rewrite lookup_insert_ne by congruence. apply Hd. set_solver.
Qed.

Lemma linked_grow : grow G (p :: l) (<[p := (n, pre * 512 + i)]> G) l.
Proof.
  split; [by apply suffix_cons_r|]. intros r x. rewrite lookup_insert_Some.
  intros [[<- _]|[_ H]]; [right|by left]. split; [set_solver|].
  destruct (vm_kmem _ _ _ _ Hok) as (_ & _ & _ & _ & Hnd). by apply NoDup_cons in Hnd as [? _].
Qed.

Lemma linked_vm_frame : vm_frame (<[p := (n, pre * 512 + i)]> G) s (linked q i p s).
Proof.
  destruct Hok as [Hc Hf Hk Hpt Hd]. destruct linked_page as (Hp & _).
  split; [unfold linked; ksimpl; apply set_mem_freelist|]. intros b Hb. apply linked_frame.
  - apply (Hb p (n, pre * 512 + i)). by rewrite lookup_insert_eq.
  - specialize (Hb q (S n, pre)). rewrite lookup_insert_ne in Hb by (pose proof linked_fresh; congruence).
    specialize (Hb Hq). consts. lia.
Qed.

Lemma linked_same r lr prer k :
  G !! r = Some (lr, prer) → 0 ≤ k < 512 → (r, k) ≠ (q, i) →
  load64 (k_mem (linked q i p s)) (r + 8 * k) = load64 (k_mem s) (r + 8 * k).
Proof.
  exact (extend_same G (k_mem s) _ root q i n pre p (vm_pt _ _ _ _ Hok) Hq Hi linked_fresh
    (proj1 linked_page) (linked_frame q i p s) r lr prer k).
Qed.

Lemma linked_entry va : pt_entry (k_mem (linked q i p s)) root va = pt_entry (k_mem s) root va.
Proof.
  exact (extend_ptv G (k_mem s) _ root q i n pre p (vm_pt _ _ _ _ Hok) Hq Hi Hinvalid linked_fresh
    (proj1 linked_page) linked_zero linked_decode (linked_frame q i p s) 2 root 0 va
    (pt_root _ _ _ (vm_pt _ _ _ _ Hok))).
Qed.
End linked.
Lemma walk_step_alloc G l root n q va s :
  vm_ok G l root s → 0 ≤ va < 2 ^ 64 → G !! q = Some (S n, vpn (S n) va) →
  wp (walk_step q (Z.of_nat (S n)) va true) (λ r s', ∃ G' l',
    vm_ok G' l' root s' ∧ G ⊆ G' ∧ grow G l G' l' ∧ vm_frame G' s s' ∧
    (∀ va', pt_entry (k_mem s') root va' = pt_entry (k_mem s) root va') ∧
    (∀ r lr prer k, G !! r = Some (lr, prer) → (S n < lr)%nat → 0 ≤ k < 512 →
       load64 (k_mem s') (r + 8 * k) = load64 (k_mem s) (r + 8 * k)) ∧
    match r with
    | Some p => G' !! p = Some (n, vpn n va) ∧
        let e := load64 (k_mem s') (pte_addr q (Z.of_nat (S n)) va) in
        has e PTE_V = true ∧ pte2pa e = p
    | None => l' = []
    end) s.
Proof.
  intros [Hc Hf Hk Hpt Hd] Hva Hq. assert (0 ≤ PX (Z.of_nat (S n)) va < 512) as HX by (apply PX_range; lia).
  unfold walk_step, ld64. rewrite wp_bind, wp_gets. set (slot := pte_addr _ _ _).
  destruct (has (load64 (k_mem s) slot) PTE_V) eqn:Hv.
  { apply wp_ret. exists G, l. split_and!; auto using vm_frame_refl, grow_refl; [done|].
    rewrite (vpn_step n va Hva). eapply (pt_child _ _ _ Hpt); eauto. }
  cbn [negb]. rewrite wp_bind. destruct l as [|p l].
  { eapply wp_ok; [apply kalloc_empty; [done|done|apply Hk]|]. cbn [Z.eqb]. apply wp_ret.
    exists G, []. split_and!; auto using vm_frame_refl, grow_refl. done. }
  eapply wp_mono; [by apply (kalloc_kmem_ok p l)|]. intros r s1 (-> & _ & E1).
  pose proof (mkvm_ok G (p :: l) root s Hc Hf Hk Hpt Hd) as Hok.
  destruct (linked_page G l root p s Hok) as (Hp & Hp0 & Hpa).
  rewrite (proj2 (Z.eqb_neq p 0)) by lia.
  unfold st64, upd_mem. rewrite wp_bind, wp_modify, wp_bind, wp_modify. ksimpl. apply wp_ret.
  replace (set_k_mem _ s1) with (linked q (PX (Z.of_nat (S n)) va) p s)
    by (rewrite E1; unfold linked, slot, pte_addr; ksimpl; keq).
  eexists _, l. split; [by eapply linked_vm_ok|].
  split; [apply insert_subseteq; by eapply linked_fresh|].
  split; [by eapply linked_grow|]. split; [by eapply linked_vm_frame|].
  split; [intros va'; by eapply linked_entry|].
  split; [|split; [rewrite lookup_insert_eq, (vpn_step n va Hva); done|by eapply linked_decode]].
  intros r lr prer k Hr Hlr Hkk. eapply linked_same; eauto. intros [= -> _].
  rewrite Hr in Hq. simplify_eq. lia.
Qed.

(** What a successful or failed walk with allocation leaves. *)
Definition walk_post (G : gmap_pt) (l : list Z) (root : Z) (s : kstate)
    (Q : gmap_pt → list Z → kstate → Prop) (s' : kstate) : Prop := ∃ G' l',
  vm_ok G' l' root s' ∧ G ⊆ G' ∧ grow G l G' l' ∧ vm_frame G' s s' ∧
  (∀ va', pt_entry (k_mem s') root va' = pt_entry (k_mem s) root va') ∧ Q G' l' s'.

Lemma walk_loop_alloc n q va G l root s :
  vm_ok G l root s → 0 ≤ va < 2 ^ 64 → G !! q = Some (n, vpn n va) →
  wp (walk_loop n q va true) (λ r, walk_post G l root s (λ G' l' s',
    (∀ r lr prer k, G !! r = Some (lr, prer) → (n < lr)%nat → 0 ≤ k < 512 →
       load64 (k_mem s') (r + 8 * k) = load64 (k_mem s) (r + 8 * k)) ∧
    match r with
    | Some p0 => ptw n (k_mem s') q va = Some p0
    | None => l' = []
    end)) s.
Proof.
  intros Hok Hva. revert q G l s Hok. induction n as [|n IH]; intros q G l s Hok Hq.
  { apply wp_ret. exists G, l. split_and!; auto using vm_frame_refl, grow_refl; done. }
  cbn [walk_loop]. rewrite wp_bind. eapply wp_mono; [by apply (walk_step_alloc G l root n q va s)|].
  intros r s1 (G1 & l1 & Hok1 & HG1 & Hl1 & Hf1 & He1 & Hu1 & Hr).
  destruct r as [p|].
  2: { apply wp_ret. exists G1, l1. split_and!; done. }
  destruct Hr as (Hp & Hv & Ep).
  eapply wp_mono; [by apply (IH p G1 l1 s1)|].
  intros r s2 (G2 & l2 & Hok2 & HG2 & Hl2 & Hf2 & He2 & Hu2 & Hr2).
  exists G2, l2. split; [done|]. split; [by etrans|]. split; [by eapply grow_trans|].
  split; [by eapply vm_frame_trans|]. split; [intros; by rewrite He2, He1|]. split.
  - intros r' lr prer k Hr' Hlr Hk. rewrite (Hu2 r' lr prer), (Hu1 r' lr prer); auto with lia.
    by eapply lookup_weaken.
  - destruct r as [p0|]; [|done]. cbn [ptw]. unfold pte_addr in *.
    rewrite (Hu2 q (S n) (vpn (S n) va));
      [|by eapply lookup_weaken|lia|apply PX_range; lia].
    rewrite Hv, Ep. done.
Qed.

(** The walk only looks at the page number. *)
Lemma PX_page j va vb :
  0 ≤ j → 0 ≤ va < MAXVA → 0 ≤ vb < MAXVA → vb / PGSIZE = va / PGSIZE → PX j vb = PX j va.
Proof.
  rewrite MAXVA_eq. intros Hj Ha Hb E. rewrite !PX_eq by lia.
  rewrite Z.pow_add_r, <- !Z.div_div by lia. change (2 ^ 12) with PGSIZE. by rewrite E.
Qed.

Lemma ptw_same_page l m p va vb :
  0 ≤ va < MAXVA → 0 ≤ vb < MAXVA → vb / PGSIZE = va / PGSIZE → ptw l m p vb = ptw l m p va.
Proof.
  intros Ha Hb E. revert p. induction l as [|l IH]; intros p; [done|]. cbn [ptw]. unfold pte_addr.
  rewrite (PX_page _ va vb) by (done || lia). destruct (has _ _); [apply IH|done].
Qed.

(** A slot of the table lies in one of its level-0 pages. *)
Lemma pt_slot_label G m root va slot :
  pt_inv G m root → 0 ≤ va < MAXVA → pt_slot m root va = Some slot →
  ∃ p0, G !! p0 = Some (0%nat, vpn 0 va) ∧ slot = p0 + 8 * PX 0 va.
Proof.
  intros Hpt Hva. unfold pt_slot. destruct (ptw 2 m root va) as [p0|] eqn:E; [|done].
  intros [= <-]. exists p0. split; [|done].
  assert (0 ≤ va < 2 ^ 64) by (rewrite MAXVA_eq in Hva; lia).
  eapply ptw_label; eauto. rewrite vpn_2 by done. apply (pt_root _ _ _ Hpt).
Qed.

Lemma pt_slot_pos G l root s va slot :
  vm_ok G l root s → 0 ≤ va < MAXVA → pt_slot (k_mem s) root va = Some slot → slot ≠ 0.
Proof.
  intros Hok Hva Hs. destruct (pt_slot_label G _ root va slot (vm_pt _ _ _ _ Hok) Hva Hs) as (p0 & Hp0 & ->).
  pose proof (PX_range 0 va). apply (pt_page _ _ _ (vm_pt _ _ _ _ Hok)), page_pos in Hp0; [lia|].
  apply (vm_kmem _ _ _ _ Hok).
Qed.

(** [walk(root, va, 1)]: the entry's address, or 0 with no memory left. *)
Lemma walk_alloc va G l root s :
  vm_ok G l root s → 0 ≤ va < MAXVA →
  wp (walk root va true) (λ r, walk_post G l root s (λ G' l' s',
    (r = 0 ∧ l' = []) ∨ (r ≠ 0 ∧ pt_slot (k_mem s') root va = Some r))) s.
Proof.
  intros Hok Hva. unfold walk. rewrite (proj2 (Z.leb_gt _ _)) by lia.
  assert (0 ≤ va < 2 ^ 64) as Hva' by (rewrite MAXVA_eq in Hva; lia).
  rewrite wp_bind. eapply wp_mono.
  { apply (walk_loop_alloc 2 root va G l root s); [done|done|]. rewrite vpn_2 by done.
    apply (pt_root _ _ _ (vm_pt _ _ _ _ Hok)). }
  intros r s1 (G1 & l1 & Hok1 & HG1 & Hl1 & Hf1 & He1 & _ & Hr).
  destruct r as [p0|]; apply wp_ret; exists G1, l1; split_and!; auto. right.
  assert (pt_slot (k_mem s1) root va = Some (pte_addr p0 0 va)) as Hs by (unfold pt_slot; by rewrite Hr).
  split; [|done]. by eapply (pt_slot_pos G1 l1).
Qed.

(** ** Writing an entry *)

Section leaf.
Context (G : gmap_pt) (m : gmap Z Z) (root va slot v : Z).
Hypothesis Hpt : pt_inv G m root.
Hypothesis Hva : 0 ≤ va < MAXVA.
Hypothesis Hslot : pt_slot m root va = Some slot.
Hypothesis Hv : 0 ≤ v < 2 ^ 64.
Notation m' := (store64 m slot v).

Lemma leaf_same p l pre k :
  G !! p = Some (l, pre) → 0 ≤ k < 512 → p + 8 * k ≠ slot →
  load64 m' (p + 8 * k) = load64 m (p + 8 * k).
Proof.
  intros Hp Hk Hne. destruct (pt_slot_label G m root va slot Hpt Hva Hslot) as (p0 & Hp0 & Es).
  pose proof (PX_range 0 va). apply load64_store64_ne. rewrite Es in *.
  destruct (slots_disjoint p k p0 (PX 0 va)); try lia;
    [eapply (pt_page _ _ _ Hpt); eauto..|]. congruence.
Qed.

Lemma leaf_inner p l pre k :
  G !! p = Some (S l, pre) → 0 ≤ k < 512 → load64 m' (p + 8 * k) = load64 m (p + 8 * k).
Proof.
  intros Hp Hk. eapply leaf_same; eauto. intros E.
  destruct (pt_slot_label G m root va slot Hpt Hva Hslot) as (p0 & Hp0 & Es).
  pose proof (PX_range 0 va). rewrite Es in E.
  apply slot_in_page in E as [-> _]; [congruence| | |done|lia]; eapply (pt_page _ _ _ Hpt); eauto.
Qed.

Lemma leaf_inv : pt_inv G m' root.
Proof.
  destruct Hpt as [Hroot Hpage Hchild]. split; [done..|].
  intros p l pre k Hp Hk. erewrite leaf_inner by eauto. by eapply Hchild.
Qed.

Lemma leaf_ptw l p pre vb : G !! p = Some (l, pre) → ptw l m' p vb = ptw l m p vb.
Proof.
  revert p pre. induction l as [|l IH]; intros p pre Hp; [done|]. cbn [ptw]. unfold pte_addr.
  erewrite leaf_inner by (eauto; apply PX_range; lia).
  destruct (has (load64 m (p + _)) PTE_V) eqn:E; [|done].
  eapply IH. eapply (pt_child _ _ _ Hpt); eauto. apply PX_range; lia.
Qed.

Lemma leaf_slot vb : pt_slot m' root vb = pt_slot m root vb.
Proof. unfold pt_slot. by rewrite (leaf_ptw 2 root 0) by apply (pt_root _ _ _ Hpt). Qed.

(** Two addresses share an entry only if they are in the same page. *)
Lemma slot_inj vb :
  0 ≤ vb < MAXVA → pt_slot m root vb = Some slot → vb / PGSIZE = va / PGSIZE.
Proof.
  intros Hvb Hs.
  destruct (pt_slot_label G m root va slot Hpt Hva Hslot) as (p0 & Hp0 & Es).
  destruct (pt_slot_label G m root vb slot Hpt Hvb Hs) as (p1 & Hp1 & Es1).
  pose proof (PX_range 0 va). pose proof (PX_range 0 vb). rewrite Es in Es1.
  apply slot_in_page in Es1 as [-> E]; [| | |lia|lia]; [|eapply (pt_page _ _ _ Hpt); eauto..].
  assert (vpn 0 va = vpn 0 vb) as Ev by congruence.
  rewrite MAXVA_eq in *. rewrite !PX_eq in E by lia. unfold vpn in Ev.
  change (12 + 9 * (Z.of_nat 0 + 1)) with (12 + 9) in Ev. change (12 + 9 * 0) with 12 in E.
  rewrite !Z.pow_add_r, <- !Z.div_div in Ev by lia.
  change (2 ^ 12) with 4096 in *. change (2 ^ 9) with 512 in *. unfold PGSIZE. mlia.
Qed.

Lemma leaf_entry vb :
  0 ≤ vb < MAXVA →
  pt_entry m' root vb = if decide (vb / PGSIZE = va / PGSIZE) then v else pt_entry m root vb.
Proof.
  intros Hvb. unfold pt_entry, ptv. rewrite (leaf_ptw 2 root 0) by apply (pt_root _ _ _ Hpt).
  case_decide as Hd.
  - rewrite (ptw_same_page 2 m root va vb) by done. unfold pte_addr.
    rewrite (PX_page 0 va vb) by (done || lia).
    pose proof Hslot as Hs. unfold pt_slot in Hs. destruct (ptw 2 m root va) as [p0|]; [|done].
    injection Hs as Es. unfold pte_addr in Es. rewrite Es. by apply load64_store64.
  - destruct (ptw 2 m root vb) as [p1|] eqn:E1; [|done].
    assert (pt_slot m root vb = Some (pte_addr p1 0 vb)) as Hs by (unfold pt_slot; by rewrite E1).
    destruct (pt_slot_label G m root vb _ Hpt Hvb Hs) as (p & Hp & Ep).
    unfold pte_addr in Hs, Ep |- *. pose proof (PX_range 0 vb).
    assert (p = p1) as <- by lia.
    eapply leaf_same; [done|lia|]. intros Eq. rewrite Eq in Hs. by apply Hd, slot_inj.
Qed.
End leaf.

Lemma leaf_vm_ok G l root s va slot v :
  vm_ok G l root s → 0 ≤ va < MAXVA → pt_slot (k_mem s) root va = Some slot →
  vm_ok G l root (set_k_mem (store64 (k_mem s) slot v) s) ∧
  vm_frame G s (set_k_mem (store64 (k_mem s) slot v) s).
Proof.
  intros [Hc Hf Hk Hpt Hd] Hva Hs.
  destruct (pt_slot_label G _ root va slot Hpt Hva Hs) as (p0 & Hp0 & ->).
  pose proof (PX_range 0 va). pose proof (pt_page _ _ _ Hpt _ _ _ Hp0) as [Ha0 _].
  assert (Hfr : ∀ b, ¬ (p0 ≤ b < p0 + PGSIZE) →
    rd (store64 (k_mem s) (p0 + 8 * PX 0 va) v) b = rd (k_mem s) b).
  { intros b Hb. apply rd_store64_ne. consts. lia. }
  split; [split|split].
  - by ksimpl.
  - by ksimpl.
  - destruct Hk as (He & Hm & Hl & Hps & Hnd). unfold kmem_ok. ksimpl.
    split_and!; [done|by apply store64_ok| |done|done].
    eapply freelist_frame; [done|exact Ha0| |exact Hfr|done].
    intros Hin. rewrite Hd in Hp0; done.
  - ksimpl. by eapply leaf_inv.
  - done.
  - ksimpl. keq.
  - intros b Hb. ksimpl. apply Hfr. by eapply Hb.
Qed.

(** The entry [mappages] makes for a page. *)
Definition mk_pte (pa perm : Z) : Z := Z.lor (Z.lor (PA2PTE pa) perm) PTE_V.

Lemma lor_flags perm : 0 ≤ perm < 2 ^ 10 → 0 ≤ Z.lor perm PTE_V < 2 ^ 10.
Proof.
  intros H. split; [apply Z.lor_nonneg; split; [lia|done]|].
  destruct (decide (Z.lor perm PTE_V = 0)) as [->|]; [lia|].
  assert (0 ≤ Z.lor perm PTE_V) by (apply Z.lor_nonneg; split; [lia|done]).
  apply Z.log2_lt_pow2; [lia|]. rewrite Z.log2_lor by (done || lia).
  change (Z.log2 PTE_V) with 0. pose proof (Z.log2_nonneg perm).
  destruct (decide (perm = 0)) as [->|]; [done|].
  assert (Z.log2 perm < 10) by (apply Z.log2_lt_pow2; lia). lia.
Qed.

Lemma mk_pte_word pa perm : 0 ≤ pa < 2 ^ 56 → 0 ≤ perm < 2 ^ 10 → 0 ≤ mk_pte pa perm < 2 ^ 64.
Proof. intros. unfold mk_pte. rewrite <- Z.lor_assoc. apply PTE_word; [done|by apply lor_flags]. Qed.

Lemma mk_pte_decode pa perm :
  pa mod PGSIZE = 0 → 0 ≤ pa < 2 ^ 56 → 0 ≤ perm < 2 ^ 10 →
  has (mk_pte pa perm) PTE_V = true ∧ pte2pa (mk_pte pa perm) = pa.
Proof.
  intros. unfold mk_pte. split; [apply has_lor_V|]. rewrite <- Z.lor_assoc.
  apply pte2pa_PA2PTE; [done..|by apply lor_flags].
Qed.

(** ** [mappages] *)

(** The map of the table after the pages of [[a0, a)] have been given to the
    physical pages from [pa0] on. *)
Definition mapped (m0 m : gmap Z Z) (root a0 a pa0 perm : Z) : Prop := ∀ vb, 0 ≤ vb < MAXVA →
  pt_entry m root vb =
    if decide (a0 ≤ vb < a) then mk_pte (pa0 + (vb - vb mod PGSIZE - a0)) perm
    else pt_entry m0 root vb.

Lemma pt_entry_slot m root va : pt_entry m root va =
  match pt_slot m root va with Some slot => load64 m slot | None => 0 end.
Proof. unfold pt_entry, ptv, pt_slot. by destruct (ptw 2 m root va). Qed.

Section mappages.
Context (G : gmap_pt) (l : list Z) (root : Z) (s : kstate) (a0 pa0 perm : Z) (n : nat).
Hypothesis Hok : vm_ok G l root s.
Hypothesis Ha0 : a0 mod PGSIZE = 0.
Hypothesis Hrange : 0 ≤ a0 ∧ a0 + Z.of_nat n * PGSIZE < MAXVA.
Hypothesis Hpa0 : pa0 mod PGSIZE = 0.
Hypothesis Hpar : 0 ≤ pa0 ∧ pa0 + Z.of_nat n * PGSIZE < 2 ^ 56.
Hypothesis Hperm : 0 ≤ perm < 2 ^ 10.
Hypothesis Hfree : ∀ vb, a0 ≤ vb < a0 + Z.of_nat (S n) * PGSIZE →
  has (pt_entry (k_mem s) root vb) PTE_V = false.
Notation last := (a0 + Z.of_nat n * PGSIZE).

Definition map_inv (i : nat) (t : kstate) : Prop := ∃ G' l',
  vm_ok G' l' root t ∧ G ⊆ G' ∧ grow G l G' l' ∧ vm_frame G' s t ∧
  mapped (k_mem s) (k_mem t) root a0 (a0 + Z.of_nat i * PGSIZE) pa0 perm.

(** One page is mapped, or the allocator is empty and nothing has changed in the map. *)
Lemma mappages_step i t :
  (i ≤ n)%nat → map_inv i t →
  wp (mappages_body root last perm (a0 + Z.of_nat i * PGSIZE, pa0 + Z.of_nat i * PGSIZE))
    (λ r t', match r with
             | inl x => (i < n)%nat ∧ map_inv (S i) t' ∧
                 x = (a0 + Z.of_nat (S i) * PGSIZE, pa0 + Z.of_nat (S i) * PGSIZE)
             | inr r => (r = 0 ∧ i = n ∧ map_inv (S n) t') ∨
                        (r = -1 ∧ k_freelist t' = 0 ∧ map_inv i t')
             end) t.
Proof.
  intros Hi (G1 & l1 & Hok1 & HG1 & Hl1 & Hf1 & Hm1).
  set (a := a0 + Z.of_nat i * PGSIZE). set (pa := pa0 + Z.of_nat i * PGSIZE).
  assert (Ha : 0 ≤ a < MAXVA) by (unfold a; consts; lia).
  assert (Haal : a mod PGSIZE = 0) by (unfold a; consts; mlia).
  assert (Hpa : pa mod PGSIZE = 0 ∧ 0 ≤ pa < 2 ^ 56) by (unfold pa; consts; mlia).
  unfold mappages_body. rewrite wp_bind. eapply wp_mono; [by apply (walk_alloc a G1 l1 root t)|].
  intros r t1 (G2 & l2 & Hok2 & HG2 & Hl2 & Hf2 & He2 & Hr).
  destruct Hr as [[-> ->]|[Hr0 Hs]].
  { cbn [Z.eqb]. apply wp_ret. right. split; [done|]. split; [apply (vm_kmem _ _ _ _ Hok2)|].
    exists G2, []. split_and!; [done|by etrans|by eapply grow_trans|by eapply vm_frame_trans|].
    intros vb Hvb. by rewrite He2, Hm1. }
  rewrite (proj2 (Z.eqb_neq r 0)) by done. unfold ld64, st64, upd_mem.
  rewrite wp_bind, wp_gets. pose proof (He2 a) as Ea. rewrite (pt_entry_slot (k_mem t1)), Hs in Ea.
  rewrite Ea, (Hm1 a Ha). case_decide; [unfold a in *; consts; lia|].
  rewrite Hfree by (unfold a; consts; lia). rewrite wp_bind, wp_modify.
  change (Z.lor (Z.lor (PA2PTE pa) perm) PTE_V) with (mk_pte pa perm).
  destruct (leaf_vm_ok G2 l2 root t1 a r (mk_pte pa perm) Hok2 Ha Hs) as [Hok3 Hf3].
  set (t2 := set_k_mem (store64 _ _ _) t1) in *.
  assert (map_inv (S i) t2) as Hinv.
  { exists G2, l2. split; [done|]. split; [by etrans|]. split; [by eapply grow_trans|].
    split; [apply (vm_frame_trans G2 G2 s t1); [done| |done]; by apply (vm_frame_trans G1 G2 s t)|].
    intros vb Hvb. unfold t2. ksimpl.
    rewrite (leaf_entry G2 (k_mem t1) root a r (mk_pte pa perm) (vm_pt _ _ _ _ Hok2) Ha Hs
      (mk_pte_word pa perm (proj2 Hpa) Hperm) vb Hvb), He2, (Hm1 vb Hvb).
    destruct (decide (vb / PGSIZE = a / PGSIZE)), (decide (a0 ≤ vb < a0 + Z.of_nat (S i) * PGSIZE)),
      (decide (a0 ≤ vb < a0 + Z.of_nat i * PGSIZE)); unfold a, pa in *; try done; try (consts; mlia).
    unfold mk_pte. do 3 f_equal. consts. mlia. }
  destruct (Z.eqb_spec a last) as [E|E]; apply wp_ret.
  - left. assert (i = n) as -> by (unfold a in E; consts; lia). done.
  - assert (i < n)%nat by (unfold a in E; assert (i ≠ n) by congruence; lia).
    split; [done|]. split; [done|]. unfold a, pa in *. rewrite !u64_small by (consts; lia).
    f_equal; consts; lia.
Qed.

Lemma mappages_loop :
  wp (loop (mappages_body root last perm) (a0, pa0))
    (λ r t, (r = 0 ∧ map_inv (S n) t) ∨
            (r = -1 ∧ k_freelist t = 0 ∧ ∃ i, (i ≤ n)%nat ∧ map_inv i t)) s.
Proof.
  apply (wp_loop (mappages_body root last perm)
    (λ x t, ∃ i, (i ≤ n)%nat ∧ map_inv i t ∧
       x = (a0 + Z.of_nat i * PGSIZE, pa0 + Z.of_nat i * PGSIZE))
    (λ x t, Z.of_nat n - (x.1 - a0) / PGSIZE)).
  - intros x t (i & Hi & _ & ->). cbn [fst]. rewrite Z.add_simpl_l, Z.div_mul by (consts; lia). lia.
  - intros x t (i & Hi & Hinv & ->). eapply wp_mono; [by apply mappages_step|].
    intros [x|r] t'.
    + intros (Hlt & Hinv' & ->). split; [exists (S i); split_and!; [lia|done|done]|].
      cbn [fst]. rewrite !Z.add_simpl_l, !Z.div_mul by (consts; lia). lia.
    + intros [(-> & -> & H)|(-> & H & Hinv')]; [auto|]. right. eauto.
  - exists 0%nat. rewrite !Z.mul_0_l, !Z.add_0_r. split_and!; [lia| |done].
    exists G, l. split; [done|]. split; [done|]. split; [apply grow_refl|]. split; [apply vm_frame_refl|].
    intros vb Hvb. rewrite Z.mul_0_l. by case_decide; [lia|].
  - cbn [fst]. rewrite Z.sub_diag. consts. mlia.
Qed.
End mappages.

Lemma mappages_range va size :
  va mod PGSIZE = 0 → 0 ≤ va → 0 < size → va + size ≤ MAXVA →
  PGROUNDDOWN va = va ∧
  PGROUNDDOWN (u64 (va + size - 1)) = va + Z.of_nat (Z.to_nat ((size - 1) / PGSIZE)) * PGSIZE.
Proof.
  intros Ha H0 Hs Hm. split; [apply PGROUNDDOWN_aligned; [done|consts; lia]|].
  rewrite u64_small by (consts; lia). rewrite PGROUNDDOWN_eq by (consts; lia).
  rewrite Z2Nat.id by (consts; mlia). consts. mlia.
Qed.

Lemma mappages_spec G l root s va size pa perm :
  vm_ok G l root s →
  va mod PGSIZE = 0 → 0 ≤ va → 0 < size → va + size ≤ MAXVA →
  pa mod PGSIZE = 0 → 0 ≤ pa → pa + size ≤ 2 ^ 56 → 0 ≤ perm < 2 ^ 10 →
  (∀ vb, va ≤ vb < va + size + PGSIZE → has (pt_entry (k_mem s) root vb) PTE_V = false) →
  wp (mappages root va size pa perm) (λ r s', ∃ i : nat,
    map_inv G l root s va pa perm i s' ∧
    ((r = 0 ∧ Z.of_nat i = (size - 1) / PGSIZE + 1) ∨
     (r = -1 ∧ k_freelist s' = 0 ∧ Z.of_nat i ≤ (size - 1) / PGSIZE))) s.
Proof.
  intros Hok Ha H0 Hs Hm Hpa Hp0 Hpm Hperm Hfree. unfold mappages.
  destruct (mappages_range va size) as [-> ->]; try done.
  assert (0 ≤ (size - 1) / PGSIZE) by (consts; mlia).
  eapply wp_mono; [apply (mappages_loop G l root s va pa perm (Z.to_nat ((size - 1) / PGSIZE)));
    try done; rewrite ?Nat2Z.inj_succ, ?Z2Nat.id by done; try (consts; mlia)|].
  - intros vb Hvb. apply Hfree. consts. mlia.
  - intros r t [[-> Hinv]|(-> & Hfl & i & Hi & Hinv)]; eexists; (split; [exact Hinv|]);
      [left|right]; split_and!; [done|lia|done|done|lia].
Qed.

(** ** [walkaddr] *)

Definition user_page (e : Z) : Z := if has e PTE_V && has e PTE_U then pte2pa e else 0.

Lemma walkaddr_eq G l root s va :
  vm_ok G l root s → 0 ≤ va < MAXVA →
  walkaddr root va s = Ok (user_page (pt_entry (k_mem s) root va)) s.
Proof.
  intros Hok Hva. unfold walkaddr. rewrite (proj2 (Z.leb_gt _ _)) by lia.
  rewrite (bind_ok _ _ _ _ _ (walk_noalloc root va s (proj2 Hva))).
  rewrite pt_entry_slot. destruct (pt_slot (k_mem s) root va) as [slot|] eqn:Hs; simpl.
  - rewrite (proj2 (Z.eqb_neq slot 0)) by by eapply pt_slot_pos.
    unfold ld64. run. unfold user_page. destruct (has _ PTE_V); [|done]. by destruct (has _ PTE_U).
  - unfold user_page. by rewrite has_0.
Qed.

(** ** Copies between user and kernel memory, byte by byte *)

(** The physical address of a user byte. *)
Definition uva (m : gmap Z Z) (root va : Z) : option Z :=
  if (0 <=? va) && (va <? MAXVA) then
    let pa := user_page (pt_entry m root va) in
    if pa =? 0 then None else Some (pa + va mod PGSIZE)
  else None.

Lemma page_base va : 0 ≤ va < 2 ^ 64 →
  PGROUNDDOWN va = va - va mod PGSIZE ∧ 0 ≤ va mod PGSIZE < PGSIZE ∧
  PGROUNDDOWN va mod PGSIZE = 0 ∧ 0 ≤ PGROUNDDOWN va.
Proof.
  intros H. rewrite PGROUNDDOWN_eq by done. consts.
  split; [done|]. split; [apply Z.mod_pos_bound; lia|]. split; mlia.
Qed.

(** The page that [walkaddr] finds for the page base of [va] serves the bytes up
    to the end of the page. *)
Lemma uva_chunk m root va k :
  0 ≤ va < MAXVA → 0 ≤ k < PGSIZE - va mod PGSIZE →
  uva m root (va + k) =
    let pa := user_page (pt_entry m root (PGROUNDDOWN va)) in
    if pa =? 0 then None else Some (pa + (va - PGROUNDDOWN va) + k).
Proof.
  intros Hva Hk. destruct (page_base va) as (E & Hr & _); [rewrite MAXVA_eq in Hva; lia|].
  assert (0 ≤ va + k < MAXVA) as Hvk by (consts; mlia).
  unfold uva. zdec. cbn zeta.
  assert (Hp : (va + k) / PGSIZE = (PGROUNDDOWN va) / PGSIZE) by (rewrite E; consts; mlia).
  assert (Eq : pt_entry m root (va + k) = pt_entry m root (PGROUNDDOWN va)).
  { unfold pt_entry, ptv.
    rewrite (ptw_same_page 2 m root (PGROUNDDOWN va) (va + k)) by (rewrite ?E; consts; (done || mlia)).
    unfold pte_addr. by rewrite (PX_page 0 (PGROUNDDOWN va) (va + k)) by (rewrite ?E; consts; (done || mlia)). }
  rewrite Eq. destruct (user_page _ =? 0); [done|]. f_equal. rewrite E. consts. mlia.
Qed.

Lemma uva_none m root va k : MAXVA ≤ va → 0 ≤ k → uva m root (va + k) = None.
Proof. intros. unfold uva. rewrite (proj2 (Z.ltb_ge (va + k) MAXVA)) by lia. by rewrite andb_false_r. Qed.

(** [walkaddr] on any 64-bit address. *)
Lemma walkaddr_any G l root s va :
  vm_ok G l root s → 0 ≤ va →
  walkaddr root va s = Ok (if va <? MAXVA then user_page (pt_entry (k_mem s) root va) else 0) s.
Proof.
  intros Hok Hva. destruct (Z.ltb_spec va MAXVA); [by eapply walkaddr_eq|].
  unfold walkaddr. by rewrite (proj2 (Z.leb_le _ _)).
Qed.

Fixpoint uwrite (tr : Z → option Z) (m : gmap Z Z) (va : Z) (src : list Z) : gmap Z Z * bool :=
  match src with
  | [] => (m, true)
  | b :: src' =>
      match tr va with
      | None => (m, false)
      | Some pa => uwrite tr (wr m pa b) (va + 1) src'
      end
  end.

Fixpoint uread (tr : Z → option Z) (m : gmap Z Z) (va : Z) (n : nat) : list Z * bool :=
  match n with
  | O => ([], true)
  | S n' =>
      match tr va with
      | None => ([], false)
      | Some pa => let '(l, ok) := uread tr m (va + 1) n' in (rd m pa :: l, ok)
      end
  end.

Lemma uwrite_chunk tr n m va pa src :
  (n ≤ length src)%nat → (∀ k, 0 ≤ k < Z.of_nat n → tr (va + k) = Some (pa + k)) →
  uwrite tr m va src = uwrite tr (store_bytes m pa (take n src)) (va + Z.of_nat n) (drop n src).
Proof.
  revert m va pa src. induction n as [|n IH]; intros m va pa src Hl Htr.
  { by rewrite Z.add_0_r. }
  destruct src as [|b src]; [simpl in Hl; lia|]. cbn [take drop store_bytes].
  cbn [uwrite]. pose proof (Htr 0) as H0. rewrite !Z.add_0_r in H0. rewrite H0 by lia.
  rewrite (IH (wr m pa b) (va + 1) (pa + 1)); [f_equal; lia|simpl in Hl; lia|].
  intros k Hk. rewrite <- !Z.add_assoc. apply Htr. lia.
Qed.

Lemma uread_chunk tr n k m va pa :
  (∀ j, 0 ≤ j < Z.of_nat n → tr (va + j) = Some (pa + j)) →
  uread tr m va (n + k) =
    let '(l, ok) := uread tr m (va + Z.of_nat n) k in (load_bytes m pa n ++ l, ok).
Proof.
  revert va pa. induction n as [|n IH]; intros va pa Htr.
  { rewrite Z.add_0_r. simpl. by destruct (uread _ _ _ _). }
  cbn [Nat.add uread load_bytes]. pose proof (Htr 0) as H0. rewrite !Z.add_0_r in H0. rewrite H0 by lia.
  rewrite (IH (va + 1) (pa + 1)) by (intros j Hj; rewrite <- !Z.add_assoc; apply Htr; lia).
  replace (va + 1 + Z.of_nat n) with (va + Z.of_nat (S n)) by lia. by destruct (uread _ _ _ _).
Qed.

(** A chunk ends at the end of the page or of the buffer. *)
Lemma chunk_spec va len :
  0 ≤ va < 2 ^ 64 → 0 < len →
  let n := chunk va (PGROUNDDOWN va) len in
  0 < n ≤ len ∧ n ≤ PGSIZE - va mod PGSIZE ∧ (n < len → va + n = PGROUNDDOWN va + PGSIZE).
Proof.
  intros Hva Hlen. destruct (page_base va Hva) as (E & Hr & _). unfold chunk. rewrite E.
  destruct (Z.ltb_spec len (PGSIZE - (va - (va - va mod PGSIZE)))); lia.
Qed.

(** The result of one [walkaddr] of a copy loop, as a statement on bytes. *)
Lemma walkaddr_chunk G l root s va n :
  vm_ok G l root s → 0 ≤ va < 2 ^ 64 → 0 < n ≤ PGSIZE - va mod PGSIZE →
  ∃ pa0, walkaddr root (PGROUNDDOWN va) s = Ok pa0 s ∧
    if pa0 =? 0 then uva (k_mem s) root va = None
    else va < MAXVA ∧ pa0 = user_page (pt_entry (k_mem s) root (PGROUNDDOWN va)) ∧
      ∀ k, 0 ≤ k < n → uva (k_mem s) root (va + k) = Some (pa0 + (va - PGROUNDDOWN va) + k).
Proof.
  intros Hok Hva Hn. destruct (page_base va Hva) as (E & Hr & Hal & H0).
  eexists. split; [by eapply walkaddr_any|].
  destruct (Z.ltb_spec (PGROUNDDOWN va) MAXVA) as [Hlt|Hge].
  - assert (va < MAXVA) as Hvm by (rewrite E in Hlt; consts; mlia).
    set (pa := user_page _). pose proof (uva_chunk (k_mem s) root va) as Hc.
    destruct (Z.eqb_spec pa 0) as [Ep|Ep].
    + specialize (Hc 0). rewrite Z.add_0_r in Hc. rewrite Hc by lia. fold pa.
      cbn zeta. by rewrite (proj2 (Z.eqb_eq pa 0)).
    + split; [done|]. split; [done|]. intros k Hk. rewrite Hc by lia. fold pa.
      cbn zeta. by rewrite (proj2 (Z.eqb_neq pa 0)).
  - cbn [Z.eqb]. unfold uva. rewrite (proj2 (Z.ltb_ge va MAXVA)) by (rewrite E in Hge; lia).
    by rewrite andb_false_r.
Qed.

Definition code (ok : bool) : Z := if ok then 0 else -1.

Lemma copyin_eq G l root s srcva len :
  vm_ok G l root s → 0 ≤ srcva < 2 ^ 64 → 0 ≤ len < 2 ^ 64 →
  copyin root srcva len s =
    let '(bs, ok) := uread (uva (k_mem s) root) (k_mem s) srcva (Z.to_nat len) in
    Ok (bs, code ok) s.
Proof.
  intros Hok Hsrc Hlen. set (tr := uva (k_mem s) root).
  destruct (uread tr (k_mem s) srcva (Z.to_nat len)) as [bs ok] eqn:ER. apply wp_eq. unfold copyin.
  apply (wp_loop (copyin_body root)
    (λ x t, let '(va, n, dst) := x in t = s ∧ 0 ≤ va < 2 ^ 64 ∧ 0 ≤ n ≤ len ∧
       ∃ l', uread tr (k_mem s) va (Z.to_nat n) = (l', ok) ∧ bs = dst ++ l')
    (λ x t, x.1.2)).
  - intros [[va n] dst] t (_ & _ & ? & _). simpl. lia.
  - intros [[va n] dst] t (-> & Hva & Hn & l' & Hr & ->). unfold copyin_body.
    destruct (Z.eqb_spec n 0) as [->|Hn0].
    { apply wp_ret. simpl in Hr. injection Hr as <- <-. by rewrite app_nil_r. }
    destruct (chunk_spec va n) as (Hc1 & Hc2 & Hc3); [done|lia|].
    set (c := chunk va (PGROUNDDOWN va) n) in *.
    destruct (walkaddr_chunk G l root s va c) as (pa0 & Hw & Htr); [done|done|lia|].
    rewrite wp_bind. eapply wp_ok; [exact Hw|]. destruct (Z.eqb_spec pa0 0) as [->|Hp0].
    { apply wp_ret. destruct (Z.to_nat n) as [|n'] eqn:En; [lia|]. cbn [uread] in Hr.
      unfold tr in Hr. rewrite Htr in Hr. injection Hr as <- <-. by rewrite app_nil_r. }
    rewrite wp_bind, wp_gets. apply wp_ret. destruct Htr as (Hmax & _ & Htr).
    assert (0 ≤ PGROUNDDOWN va + PGSIZE < 2 ^ 64) as Hnext
      by (destruct (page_base va Hva) as (E & ? & _ & H0); consts; lia).
    rewrite u64_small by done.
    replace (Z.to_nat n) with (Z.to_nat c + Z.to_nat (n - c))%nat in Hr by lia.
    rewrite (uread_chunk tr (Z.to_nat c) _ _ va (pa0 + (va - PGROUNDDOWN va))) in Hr
      by (intros j Hj; apply Htr; lia).
    rewrite Z2Nat.id in Hr by lia. cbn [fst snd].
    split; [|lia]. split; [done|]. split; [done|]. split; [lia|].
    destruct (decide (c < n)) as [Hlt|].
    + rewrite Hc3 in Hr by done. destruct (uread tr (k_mem s) (PGROUNDDOWN va + PGSIZE) (Z.to_nat (n - c))) as [l2 ok2].
      injection Hr as <- <-. exists l2. split; [done|]. by rewrite app_assoc.
    + replace (n - c) with 0 in * by lia. simpl in Hr. injection Hr as <- <-.
      exists []. split; [done|]. by rewrite app_assoc.
  - simpl. split_and!; [done|lia|lia|lia|lia|]. exists bs. done.
  - simpl. lia.
Qed.

(** A change of memory outside the pages of the table leaves the table alone. *)
Lemma pt_frame G m m' root :
  pt_inv G m root →
  (∀ p x b, G !! p = Some x → p ≤ b < p + PGSIZE → rd m' b = rd m b) →
  pt_inv G m' root ∧ ∀ va, pt_entry m' root va = pt_entry m root va.
Proof.
  intros Hpt Hf.
  assert (Hs : ∀ p x i, G !! p = Some x → 0 ≤ i < 512 → load64 m' (p + 8 * i) = load64 m (p + 8 * i)).
  { intros p x i Hp Hi. apply load64_ext. intros b Hb. eapply Hf; [done|]. consts. lia. }
  split.
  - destruct Hpt as [Hroot Hpage Hchild]. split; [done..|].
    intros p n pre i Hp Hi. erewrite Hs by eauto. by eapply Hchild.
  - intros va. unfold pt_entry.
    enough (∀ n p pre, G !! p = Some (n, pre) → ptv n m' p va = ptv n m p va) as H
      by (eapply H, (pt_root _ _ _ Hpt)).
    unfold ptv. induction n as [|n IH]; intros p pre Hp; cbn [ptw]; unfold pte_addr.
    + eapply Hs; [done|by apply PX_range].
    + assert (0 ≤ PX (Z.of_nat (S n)) va < 512) by (apply PX_range; lia).
      erewrite Hs by eauto. destruct (has (load64 m (p + _)) PTE_V) eqn:E; [|done].
      eapply IH. eapply (pt_child _ _ _ Hpt); eauto.
Qed.

(** The user pages of the table are neither table pages nor free pages. *)
Definition user_ok (G : gmap_pt) (l : list Z) (m : gmap Z Z) (root : Z) : Prop :=
  ∀ va, 0 ≤ va < MAXVA → let pa := user_page (pt_entry m root va) in
  pa ≠ 0 → pa mod PGSIZE = 0 ∧ G !! pa = None ∧ pa ∉ l.

Lemma data_write G l root s pa off bs :
  vm_ok G l root s → pa mod PGSIZE = 0 → G !! pa = None → pa ∉ l →
  0 ≤ off → off + Z.of_nat (length bs) ≤ PGSIZE →
  let s' := set_k_mem (store_bytes (k_mem s) (pa + off) bs) s in
  vm_ok G l root s' ∧ ∀ va, pt_entry (k_mem s') root va = pt_entry (k_mem s) root va.
Proof.
  intros [Hc Hf Hk Hpt Hd] Ha HG Hl H0 Hlen s'.
  assert (Hfr : ∀ b, ¬ (pa ≤ b < pa + PGSIZE) → rd (k_mem s') b = rd (k_mem s) b).
  { intros b Hb. unfold s'. ksimpl. rewrite rd_store_bytes. case_decide; [consts; lia|done]. }
  destruct (pt_frame G (k_mem s) (k_mem s') root Hpt) as [Hpt' He].
  { intros p x b Hp Hb. apply Hfr. destruct x as [n pre]. destruct (pt_page _ _ _ Hpt _ _ _ Hp) as [Hpa _].
    assert (p ≠ pa) as Hne by congruence. destruct (page_disjoint p pa Hpa Ha Hne); lia. }
  split; [|done]. split; [unfold s'; by ksimpl..| |done|done].
  destruct Hk as (Hend & Hm & Hfl & Hps & Hnd).
  split; [done|]. split; [unfold s'; ksimpl; by apply store_bytes_ok|]. split; [|done].
  replace (k_freelist s') with (k_freelist s) by (unfold s'; by ksimpl).
  by apply (freelist_frame (k_mem s) (k_mem s') _ l pa).
Qed.

Lemma uva_ext m m' root : (∀ va, pt_entry m' root va = pt_entry m root va) →
  ∀ va, uva m' root va = uva m root va.
Proof. intros H va. unfold uva. by rewrite H. Qed.

Lemma copyout_eq G l root s dstva src :
  vm_ok G l root s → user_ok G l (k_mem s) root → 0 ≤ dstva < 2 ^ 64 →
  Z.of_nat (length src) < 2 ^ 64 →
  copyout root dstva src s =
    let '(m', ok) := uwrite (uva (k_mem s) root) (k_mem s) dstva src in
    Ok (code ok) (set_k_mem m' s).
Proof.
  intros Hok Hu Hdst Hlen. set (tr := uva (k_mem s) root).
  destruct (uwrite tr (k_mem s) dstva src) as [m' ok] eqn:ER. apply wp_eq. unfold copyout.
  apply (wp_loop (copyout_body root)
    (λ x t, let '(va, r) := x in 0 ≤ va < 2 ^ 64 ∧ vm_ok G l root t ∧ t = set_k_mem (k_mem t) s ∧
       (∀ vb, pt_entry (k_mem t) root vb = pt_entry (k_mem s) root vb) ∧
       uwrite tr (k_mem t) va r = (m', ok))
    (λ x t, Z.of_nat (length x.2))).
  - intros [va r] t _. simpl. lia.
  - intros [va r] t (Hva & Hokt & Et & He & Hr). unfold copyout_body.
    destruct (Z.eqb_spec (Z.of_nat (length r)) 0) as [Hz|Hnz].
    { apply wp_ret. destruct r; [|simpl in Hz; lia]. simpl in Hr. injection Hr as <- <-. done. }
    destruct (chunk_spec va (Z.of_nat (length r))) as (Hc1 & Hc2 & Hc3); [done|lia|].
    set (c := chunk va (PGROUNDDOWN va) _) in *.
    destruct (walkaddr_chunk G l root t va c) as (pa0 & Hw & Htr); [done|done|lia|].
    rewrite wp_bind. eapply wp_ok; [exact Hw|]. destruct (Z.eqb_spec pa0 0) as [->|Hp0].
    { apply wp_ret. rewrite (uva_ext _ _ _ He) in Htr. destruct r; [simpl in Hnz; lia|].
      cbn [uwrite] in Hr. unfold tr in Hr. rewrite Htr in Hr. injection Hr as <- <-. done. }
    destruct Htr as (Hmax & Epa & Htr). unfold upd_mem. rewrite wp_bind, wp_modify. apply wp_ret.
    destruct (page_base va Hva) as (E & Hmod & Hal & H0).
    destruct (Hu (PGROUNDDOWN va)) as (Hpal & HpG & Hpl); [consts; lia|by rewrite <- He, <- Epa|].
    rewrite <- He, <- Epa in Hpal, HpG, Hpl.
    assert (0 ≤ PGROUNDDOWN va + PGSIZE < 2 ^ 64) as Hnext by (consts; lia).
    assert (length (take (Z.to_nat c) r) = Z.to_nat c) as Etk by (rewrite length_take; lia).
    destruct (data_write G l root t pa0 (va - PGROUNDDOWN va) (take (Z.to_nat c) r)) as [Hok2 He2];
      [done|done|done|done|lia|lia|].
    cbn [snd]. rewrite length_drop. split; [|lia].
    rewrite u64_small by done. split; [done|]. split; [done|].
    split; [rewrite Et; ksimpl; done|]. split; [intros vb; by rewrite He2|]. ksimpl.
    rewrite (uwrite_chunk tr (Z.to_nat c) _ va (pa0 + (va - PGROUNDDOWN va))) in Hr;
      [|lia|intros k Hk; unfold tr; rewrite <- (uva_ext _ _ _ He); apply Htr; lia].
    rewrite Z2Nat.id in Hr by lia. rewrite <- Hr.
    destruct (decide (c < Z.of_nat (length r))); [by rewrite Hc3|].
    by rewrite (drop_ge r (Z.to_nat c)) by lia.
  - simpl. split_and!; [lia|lia|done|keq|done|done].
  - simpl. lia.
Qed.

(** The state after [copyout] is again a good one, with the same page table. *)
Lemma copyout_keeps G l root s dstva src s' r :
  vm_ok G l root s → user_ok G l (k_mem s) root → 0 ≤ dstva < 2 ^ 64 →
  Z.of_nat (length src) < 2 ^ 64 → copyout root dstva src s = Ok r s' →
  vm_ok G l root s' ∧ ∀ vb, pt_entry (k_mem s') root vb = pt_entry (k_mem s) root vb.
Proof.
  intros Hok Hu Hdst Hlen Hout.
  rewrite (copyout_eq G l root s dstva src Hok Hu Hdst Hlen) in Hout.
  destruct (uwrite _ _ _ _) as [m' ok] eqn:EW. injection Hout as <- <-. clear Hdst Hlen.
  enough (∀ m va, (∀ vb, pt_entry m root vb = pt_entry (k_mem s) root vb) →
    vm_ok G l root (set_k_mem m s) → uwrite (uva (k_mem s) root) m va src = (m', ok) →
    vm_ok G l root (set_k_mem m' s) ∧
    ∀ vb, pt_entry (k_mem (set_k_mem m' s)) root vb = pt_entry (k_mem s) root vb) as H.
  { eapply (H (k_mem s)); [done| |exact EW]. by replace (set_k_mem (k_mem s) s) with s by keq. }
  clear EW. induction src as [|b src IH]; intros m va He Hm; simpl.
  { intros [= <- <-]. split; [done|]. intros vb. by ksimpl. }
  destruct (uva (k_mem s) root va) as [pa|] eqn:Etr.
  2: { intros [= <- <-]. split; [done|]. intros vb. by ksimpl. }
  unfold uva in Etr. destruct ((0 <=? va) && (va <? MAXVA)) eqn:Er; [|done].
  destruct (Z.eqb_spec (user_page (pt_entry (k_mem s) root va)) 0) as [|Hp0]; [done|].
  injection Etr as <-. destruct (Hu va) as (Hal & HG & Hl); [lia|done|].
  pose proof (Z.mod_pos_bound va PGSIZE ltac:(consts; lia)).
  destruct (data_write G l root (set_k_mem m s) (user_page (pt_entry (k_mem s) root va))
    (va mod PGSIZE) [b] Hm Hal HG Hl) as [Hm2 He2]; [lia|simpl; lia|].
  ksimpl_in Hm2. cbn [store_bytes] in Hm2, He2.
  apply IH; [|done]. intros vb. specialize (He2 vb). ksimpl_in He2. by rewrite He2.
Qed.

Lemma uread_ext tr tr' m va n : (∀ vb, tr vb = tr' vb) → uread tr m va n = uread tr' m va n.
Proof. intros H. revert va. induction n; intros va; simpl; [done|]. by rewrite H, IHn. Qed.

Fixpoint ureadstr (tr : Z → option Z) (m : gmap Z Z) (va : Z) (max : nat) : list Z * bool :=
  match max with
  | O => ([], false)
  | S max' =>
      match tr va with
      | None => ([], false)
      | Some pa =>
          if rd m pa =? 0 then ([0], true)
          else let '(l, ok) := ureadstr tr m (va + 1) max' in (rd m pa :: l, ok)
      end
  end.

Lemma ureadstr_chunk tr n m va pa k max :
  (∀ j, 0 ≤ j < Z.of_nat n → tr (va + j) = Some (pa + j)) →
  let '(l, got, max') := copyinstr_chunk n m pa max in
  if got then ureadstr tr m va (n + k) = (l, true)
  else max' = max - Z.of_nat n ∧
    ureadstr tr m va (n + k) =
      let '(l', ok) := ureadstr tr m (va + Z.of_nat n) k in (l ++ l', ok).
Proof.
  revert va pa max. induction n as [|n IH]; intros va pa max Htr.
  { cbn [copyinstr_chunk]. rewrite Z.sub_0_r, Z.add_0_r. split; [done|]. simpl.
    by destruct (ureadstr _ _ _ _). }
  cbn [copyinstr_chunk Nat.add ureadstr]. pose proof (Htr 0) as H0.
  rewrite !Z.add_0_r in H0. rewrite H0 by lia.
  destruct (Z.eqb_spec (rd m pa) 0); [done|].
  specialize (IH (va + 1) (pa + 1) (max - 1)).
  destruct (copyinstr_chunk n m (pa + 1) (max - 1)) as [[l got] max'].
  specialize (IH ltac:(intros j Hj; rewrite <- !Z.add_assoc; apply Htr; lia)).
  destruct got; [by rewrite IH|]. destruct IH as [-> ->]. split; [lia|].
  replace (va + 1 + Z.of_nat n) with (va + Z.of_nat (S n)) by lia. by destruct (ureadstr _ _ _ _).
Qed.

Lemma copyinstr_eq G l root s srcva max :
  vm_ok G l root s → 0 ≤ srcva < 2 ^ 64 → 0 ≤ max < 2 ^ 64 →
  copyinstr root srcva max s =
    let '(bs, ok) := ureadstr (uva (k_mem s) root) (k_mem s) srcva (Z.to_nat max) in
    Ok (bs, code ok) s.
Proof.
  intros Hok Hsrc Hmax. set (tr := uva (k_mem s) root).
  destruct (ureadstr tr (k_mem s) srcva (Z.to_nat max)) as [bs ok] eqn:ER. apply wp_eq. unfold copyinstr.
  apply (wp_loop (copyinstr_body root)
    (λ x t, let '(va, n, dst) := x in t = s ∧ 0 ≤ va < 2 ^ 64 ∧ 0 ≤ n ≤ max ∧
       ∃ l', ureadstr tr (k_mem s) va (Z.to_nat n) = (l', ok) ∧ bs = dst ++ l')
    (λ x t, x.1.2)).
  - intros [[va n] dst] t (_ & _ & ? & _). simpl. lia.
  - intros [[va n] dst] t (-> & Hva & Hn & l' & Hr & ->). unfold copyinstr_body.
    destruct (Z.eqb_spec n 0) as [->|Hn0].
    { apply wp_ret. simpl in Hr. injection Hr as <- <-. by rewrite app_nil_r. }
    destruct (chunk_spec va n) as (Hc1 & Hc2 & Hc3); [done|lia|].
    set (c := chunk va (PGROUNDDOWN va) n) in *.
    destruct (walkaddr_chunk G l root s va c) as (pa0 & Hw & Htr); [done|done|lia|].
    rewrite wp_bind. eapply wp_ok; [exact Hw|]. destruct (Z.eqb_spec pa0 0) as [->|Hp0].
    { apply wp_ret. destruct (Z.to_nat n) as [|n'] eqn:En; [lia|]. cbn [ureadstr] in Hr.
      unfold tr in Hr. rewrite Htr in Hr. injection Hr as <- <-. by rewrite app_nil_r. }
    rewrite wp_bind, wp_gets. destruct Htr as (Hlt & _ & Htr).
    assert (0 ≤ PGROUNDDOWN va + PGSIZE < 2 ^ 64) as Hnext
      by (destruct (page_base va Hva) as (E & ? & _ & H0); consts; lia).
    replace (Z.to_nat n) with (Z.to_nat c + Z.to_nat (n - c))%nat in Hr by lia.
    pose proof (ureadstr_chunk tr (Z.to_nat c) (k_mem s) va (pa0 + (va - PGROUNDDOWN va))
      (Z.to_nat (n - c)) n) as Hch. rewrite Z2Nat.id in Hch by lia.
    destruct (copyinstr_chunk _ _ _ _) as [[lc got] max'].
    specialize (Hch ltac:(intros j Hj; apply Htr; lia)).
    destruct got; apply wp_ret.
    { rewrite Hch in Hr. injection Hr as <- <-. done. }
    destruct Hch as [-> Hch]. rewrite Hch in Hr. rewrite u64_small by done. cbn [fst snd].
    split; [|lia]. split; [done|]. split; [done|]. split; [lia|].
    destruct (decide (c < n)) as [Hcn|].
    + rewrite Hc3 in Hr by done.
      destruct (ureadstr tr (k_mem s) (PGROUNDDOWN va + PGSIZE) (Z.to_nat (n - c))) as [l2 ok2].
      injection Hr as <- <-. exists l2. split; [done|]. by rewrite app_assoc.
    + replace (n - c) with 0 in * by lia. simpl in Hr. injection Hr as <- <-.
      exists []. split; [done|]. by rewrite app_assoc.
  - simpl. split_and!; [done|lia|lia|lia|lia|]. exists bs. done.
  - simpl. lia.
Qed.

(** ** Round trip *)

Lemma uwrite_ok tr m va src m' ok :
  mem_ok m → uwrite tr m va src = (m', ok) → mem_ok m'.
Proof.
  revert m va. induction src as [|b src IH]; intros m va Hm; simpl; [by intros [= <- <-]|].
  destruct (tr va); [|by intros [= <- <-]]. apply IH. by apply wr_ok.
Qed.

(** Bytes that no later write hits keep their value. *)
Lemma uwrite_frame tr m va src m' ok a :
  uwrite tr m va src = (m', ok) →
  (∀ k, 0 ≤ k < Z.of_nat (length src) → tr (va + k) ≠ Some a) → rd m' a = rd m a.
Proof.
  revert m va. induction src as [|b src IH]; intros m va; simpl; [by intros [= <- <-]|].
  destruct (tr va) as [pa|] eqn:E; [|by intros [= <- <-]]. intros H Hn.
  rewrite (IH _ _ H).
  - rewrite rd_wr. case_decide; [|done]. subst. exfalso. apply (Hn 0); [lia|]. by rewrite Z.add_0_r.
  - intros k Hk. rewrite <- Z.add_assoc. apply Hn. lia.
Qed.

Lemma uwrite_uread tr m va src m' :
  Forall is_byte src → uwrite tr m va src = (m', true) →
  (∀ i j, 0 ≤ i < Z.of_nat (length src) → 0 ≤ j < Z.of_nat (length src) →
     tr (va + i) = tr (va + j) → i = j) →
  uread tr m' va (length src) = (src, true).
Proof.
  revert m va. induction src as [|b src IH]; intros m va Hb; simpl; [done|].
  apply Forall_cons in Hb as [Hb Hbs].
  destruct (tr va) as [pa|] eqn:E; [|done]. intros H Hinj.
  rewrite (IH _ _ Hbs H).
  - rewrite (uwrite_frame _ _ _ _ _ _ pa H).
    + rewrite rd_wr. case_decide; [|done]. by rewrite u8_small.
    + intros k Hk Eq. enough (0 = 1 + k) by lia. apply Hinj; [lia|lia|].
      by rewrite Z.add_0_r, E, Z.add_assoc, Eq.
  - intros i j Hi Hj Eq. enough (1 + i = 1 + j) by lia. apply Hinj; [lia|lia|]. by rewrite !Z.add_assoc.
Qed.
End spec.

(** ** The hardware's translation

    The address translation of the privileged architecture for Sv39: a valid
    entry with R or X is a leaf, at any level; W without R is reserved. *)

Definition sv39_vpn (i : nat) (va : Z) : Z := (va / 2 ^ (12 + 9 * Z.of_nat i)) mod 512.

Fixpoint sv39_translate (i : nat) (m : gmap Z Z) (a va : Z) : option (Z * Z) :=
  let pte := load64 m (a + 8 * sv39_vpn i va) in
  if negb (has pte PTE_V) || (negb (has pte PTE_R) && has pte PTE_W) then None
  else if has pte PTE_R || has pte PTE_X then
    let low := 2 ^ (12 + 9 * Z.of_nat i) in
    if sv39_pte2pa pte mod low =? 0 then Some (sv39_pte2pa pte + va mod low, pte) else None
  else match i with
       | O => None
       | S i' => sv39_translate i' m (sv39_pte2pa pte) va
       end.

(** Tables as xv6 makes them: entries of inner pages have no permission bits,
    entries of level 0 are readable. *)
Definition sv39_shape (G : gmap_pt) (m : gmap Z Z) : Prop :=
  ∀ p l pre i, G !! p = Some (l, pre) → 0 ≤ i < 512 →
  let e := load64 m (p + 8 * i) in has e PTE_V = true →
  match l with
  | O => has e PTE_R = true
  | S _ => has e PTE_R = false ∧ has e PTE_W = false ∧ has e PTE_X = false
  end.

Lemma sv39_translate_ptv {SY : Symbols} G m root va l p pre :
  @pt_inv SY sv39_pte2pa G m root → sv39_shape G m → 0 ≤ va < 2 ^ 64 → G !! p = Some (l, pre) →
  let e := @ptv sv39_pte2pa l m p va in
  sv39_translate l m p va =
    if has e PTE_V then Some (sv39_pte2pa e + va mod PGSIZE, e) else None.
Proof.
  intros Hpt Hsh Hva. revert p pre. induction l as [|l IH]; intros p pre Hp; cbn zeta.
  - pose proof (Hsh p _ pre (PX 0 va) Hp) as He0. unfold ptv. cbn [ptw sv39_translate]. unfold pte_addr.
    change (sv39_vpn 0 va) with ((va / 2 ^ (12 + 9 * 0)) mod 512). rewrite <- PX_eq by lia.
    change (Z.of_nat 0) with 0. specialize (He0 ltac:(by apply PX_range)). cbn zeta in He0.
    set (e := load64 m _) in *. destruct (has e PTE_V) eqn:Ev; [|done]. rewrite He0 by done.
    cbn [negb andb orb]. change (2 ^ (12 + 9 * 0)) with PGSIZE.
    rewrite (proj2 (Z.eqb_eq _ _)); [done|]. unfold sv39_pte2pa, PGSIZE. apply Z.mod_mul. lia.
  - pose proof (Hsh p _ pre (PX (Z.of_nat (S l)) va) Hp) as He.
    unfold ptv. cbn [ptw sv39_translate].
    change (pte_addr p (Z.of_nat (S l)) va) with (p + 8 * PX (Z.of_nat (S l)) va).
    change (sv39_vpn (S l) va) with ((va / 2 ^ (12 + 9 * Z.of_nat (S l))) mod 512).
    rewrite <- PX_eq by lia.
    specialize (He ltac:(apply PX_range; lia)). cbn zeta in He.
    destruct (has (load64 m (p + _)) PTE_V) eqn:Ev; [|by rewrite has_0].
    destruct (He eq_refl) as (-> & -> & ->). cbn [negb andb orb].
    refine (IH _ (pre * 512 + PX (Z.of_nat (S l)) va) _).
    eapply (pt_child _ _ _ Hpt); [done|apply PX_range; lia|done].
Qed.

(** ** Properties *)


(** C39. The macro PTE2PA of [riscv.h] does not invert PA2PTE: whatever page [pa] of
    physical memory an entry was made for, and whatever its flags, the macro decodes
    it to [pa * 4096 + flags * 16384], which lies above all physical memory.  So
    [walk] never finds a page-table page again after linking it. *)
Theorem PTE2PA_broken {SY : Symbols} (pa flags : Z) :
  0 < end_ → KERNBASE ≤ end_ → page_ok pa → 0 ≤ flags < 2 ^ 10 →
  PTE2PA (Z.lor (PA2PTE pa) flags) = pa * 4096 + flags * 16384 ∧
  PHYSTOP ≤ PTE2PA (Z.lor (PA2PTE pa) flags) ∧ ¬ page_ok (PTE2PA (Z.lor (PA2PTE pa) flags)).
Proof.
  intros He Hk [Ha Hr] Hf. assert (0 ≤ pa < 2 ^ 33) as Hp by (consts; lia).
  assert (E : PTE2PA (Z.lor (PA2PTE pa) flags) = pa * 4096 + flags * 16384).
  { rewrite PA2PTE_lor by lia. unfold PTE2PA.
    assert (0 ≤ pa / 2 ^ 12 < 2 ^ 21)
      by (split; [apply Z.div_pos; lia|apply Z.div_lt_upper_bound; lia]).
    assert (pa = pa / 2 ^ 12 * 2 ^ 12) as Epa
      by (unfold PGSIZE in Ha; change (2 ^ 12) with 4096; pose proof (Z.div_mod pa 4096); lia).
    rewrite !Z.shiftl_mul_pow2, (Z.shiftr_div_pow2 _ 10) by lia.
    rewrite (u64_small ((pa / 2 ^ 12 * 2 ^ 10 + flags) * 2 ^ 12)) by lia.
    replace ((pa / 2 ^ 12 * 2 ^ 10 + flags) * 2 ^ 12) with ((pa + flags * 4) * 2 ^ 10) by lia.
    rewrite Z.div_mul by lia. rewrite u64_small by lia. lia. }
  rewrite E. split; [done|]. unfold page_ok. consts. lia.
Qed.

(** The trampoline's level-1 table at 0x87fff000. *)
Lemma PTE2PA_broken_witness :
  PTE2PA (Z.lor (PA2PTE 0x87fff000) PTE_V) = 0x87fff000 * 4096 + 16384.
Proof.
  refine (proj1 (@PTE2PA_broken symbols0 0x87fff000 PTE_V _ _ _ _)).
  - reflexivity.
  - vm_compute. discriminate.
  - split; [reflexivity|]. vm_compute. split; [discriminate|reflexivity].
  - vm_compute. split; [discriminate|reflexivity].
Defined.

Lemma land_PA2PTE_low pa f : 0 ≤ f < 2 ^ 10 → Z.land (PA2PTE pa) f = 0.
Proof.
  intros Hf. apply Z.bits_inj'. intros n Hn. rewrite Z.land_spec, Z.bits_0.
  destruct (decide (n < 10)).
  - unfold PA2PTE, u64. rewrite Z.mod_pow2_bits_low, Z.shiftl_spec_low by lia. done.
  - rewrite (testbit_bound f 10 n) by lia. apply andb_false_r.
Qed.

Lemma mk_pte_user {PF : PteFormat} {PL : PteLaws} pa perm :
  pa mod PGSIZE = 0 → 0 ≤ pa < 2 ^ 56 → 0 ≤ perm < 2 ^ 10 →
  user_page (mk_pte pa perm) = if has perm PTE_U then pa else 0.
Proof.
  intros Ha Hp Hf. destruct (mk_pte_decode pa perm Ha Hp Hf) as [Hv Hd].
  unfold user_page. rewrite Hv, Hd. cbn [andb].
  replace (has (mk_pte pa perm) PTE_U) with (has perm PTE_U); [done|].
  unfold has, mk_pte. rewrite !Z.land_lor_distr_l.
  rewrite land_PA2PTE_low by by change PTE_U with 16. change (Z.land PTE_V PTE_U) with 0.
  by rewrite Z.lor_0_r, Z.lor_0_l.
Qed.


(** C5. [copyout], [copyin] and [copyinstr] move whole page fragments, but do
    what the byte-by-byte copy over the user mapping does: they deliver bytes
    up to the end, the first unmapped byte or (for strings) the NUL, and
    return 0 or -1 accordingly. *)
Theorem user_copies_bytewise {SY : Symbols} {PF : PteFormat}
    (G : gmap_pt) (l : list Z) (root va len : Z) (src : list Z) (s : kstate) :
  vm_ok G l root s → user_ok G l (k_mem s) root →
  0 ≤ va < 2 ^ 64 → 0 ≤ len < 2 ^ 64 → Z.of_nat (length src) < 2 ^ 64 →
  let tr := uva (k_mem s) root in
  copyout root va src s =
    (let '(m', ok) := uwrite tr (k_mem s) va src in Ok (code ok) (set_k_mem m' s)) ∧
  copyin root va len s =
    (let '(bs, ok) := uread tr (k_mem s) va (Z.to_nat len) in Ok (bs, code ok) s) ∧
  copyinstr root va len s =
    (let '(bs, ok) := ureadstr tr (k_mem s) va (Z.to_nat len) in Ok (bs, code ok) s).
Proof.
  intros Hok Hu Hva Hlen Hsrc. cbn zeta.
  split; [by apply (copyout_eq G l)|]. split; [by apply (copyin_eq G l)|by apply (copyinstr_eq G l)].
Qed.

(** What [copyout] wrote, [copyin] reads back: if [copyout] returns 0 and no two
    user addresses of the range share a physical byte, [copyin] of the same range
    in the resulting state returns the same bytes and 0. *)
Theorem copyout_copyin_roundtrip {SY : Symbols} {PF : PteFormat}
    (G : gmap_pt) (l : list Z) (root va : Z) (src : list Z) (s s' : kstate) :
  vm_ok G l root s → user_ok G l (k_mem s) root →
  0 ≤ va < 2 ^ 64 → Z.of_nat (length src) < 2 ^ 64 → Forall is_byte src →
  (∀ i j, 0 ≤ i < Z.of_nat (length src) → 0 ≤ j < Z.of_nat (length src) →
     uva (k_mem s) root (va + i) = uva (k_mem s) root (va + j) → i = j) →
  copyout root va src s = Ok 0 s' →
  copyin root va (Z.of_nat (length src)) s' = Ok (src, 0) s'.
Proof.
  intros Hok Hu Hva Hlen Hb Hinj Hout.
  destruct (copyout_keeps G l root s va src s' 0 Hok Hu Hva Hlen Hout) as [Hok' He].
  rewrite (copyout_eq G l root s va src Hok Hu Hva Hlen) in Hout.
  destruct (uwrite _ _ _ _) as [m' ok] eqn:EW. destruct ok; [|done]. injection Hout as <-.
  rewrite (copyin_eq G l root _ va _ Hok' Hva) by lia. rewrite Nat2Z.id. ksimpl.
  rewrite (uread_ext _ (uva (k_mem s) root)) by (apply uva_ext; intros vb; specialize (He vb); by ksimpl_in He).
  by rewrite (uwrite_uread _ _ _ _ _ Hb EW Hinj).
Qed.

(** ** A concrete page table

    Three table pages and the user page [D0], mapped at address 0; no free
    memory. *)
Definition R0 : Z := 0x80030000.
Definition A0 : Z := 0x80031000.
Definition B0 : Z := 0x80032000.
Definition D0 : Z := 0x80033000.
Definition leaf0 : Z := mk_pte D0 (Z.lor PTE_R (Z.lor PTE_W PTE_U)).
Definition mem0 : gmap Z Z :=
  store64 (store64 (store64 ∅ R0 (mk_pte A0 0)) A0 (mk_pte B0 0)) B0 leaf0.
Definition G0 : gmap_pt := <[R0 := (2%nat, 0)]> (<[A0 := (1%nat, 0)]> (<[B0 := (0%nat, 0)]> ∅)).
Definition vm_state0 : kstate :=
  set_k_mem mem0 (set_k_lk (put_lock LKmem (mkSpinlock 0 "kmem" None) (k_lk kstate0)) kstate0).

Lemma load64_empty a : load64 ∅ a = 0.
Proof. reflexivity. Qed.

Lemma load_mem0 p i : p ∈ [R0; A0; B0] → 0 ≤ i < 512 →
  load64 mem0 (p + 8 * i) =
    if i =? 0 then if p =? R0 then mk_pte A0 0 else if p =? A0 then mk_pte B0 0 else leaf0 else 0.
Proof.
  intros Hp Hi. unfold mem0.
  repeat (apply elem_of_cons in Hp as [->|Hp]); [..|by apply not_elem_of_nil in Hp];
    (destruct (Z.eqb_spec i 0) as [->|]; [vm_compute; reflexivity|]);
    unfold R0, A0, B0; rewrite !load64_store64_ne by lia; apply load64_empty.
Qed.

Lemma G0_lookup p x : G0 !! p = Some x →
  (p = R0 ∧ x = (2%nat, 0)) ∨ (p = A0 ∧ x = (1%nat, 0)) ∨ (p = B0 ∧ x = (0%nat, 0)).
Proof.
  unfold G0. rewrite !lookup_insert_Some, lookup_empty. naive_solver.
Qed.

Lemma pt_inv_0 : @pt_inv symbols0 sv39_pte2pa G0 mem0 R0.
Proof.
  split.
  - reflexivity.
  - intros p l pre Hp. apply G0_lookup in Hp as [[-> _]|[[-> _]|[-> _]]];
      (split; [reflexivity|]; vm_compute; split; [discriminate|reflexivity]).
  - intros p l pre i Hp Hi Hv. apply G0_lookup in Hp as [[-> [= -> ->]]|[[-> [= -> ->]]|[-> [=]]]];
      rewrite load_mem0 in Hv |- * by (done || (unfold R0, A0, B0; set_solver));
      (destruct (Z.eqb_spec i 0) as [->|]; [vm_compute; reflexivity|by rewrite has_0 in Hv]).
Qed.

Lemma vm_ok_0 : @vm_ok symbols0 sv39_pte2pa G0 [] R0 vm_state0.
Proof.
  split; [apply cpu_ok_0|exists "kmem"; reflexivity| |apply pt_inv_0|].
  - split; [done|]. split; [|split; [reflexivity|split; constructor]].
    do 3 apply store64_ok. apply mem_ok_empty.
  - intros p Hp. by apply not_elem_of_nil in Hp.
Qed.

Lemma entry_0 va : @pt_entry sv39_pte2pa mem0 R0 va = 0 ∨ @pt_entry sv39_pte2pa mem0 R0 va = leaf0.
Proof.
  unfold pt_entry, ptv. cbn [ptw]. unfold pte_addr.
  rewrite load_mem0 by (set_solver || by apply PX_range).
  change (R0 =? R0) with true. cbv match.
  destruct (PX (Z.of_nat 2) va =? 0); [|rewrite has_0; by left].
  change (has (mk_pte A0 0) PTE_V) with true. change (@pte2pa sv39_pte2pa (mk_pte A0 0)) with A0. cbv match.
  rewrite load_mem0 by (set_solver || by apply PX_range).
  change (A0 =? R0) with false. change (A0 =? A0) with true. cbv match.
  destruct (PX (Z.of_nat 1) va =? 0); [|rewrite has_0; by left].
  change (has (mk_pte B0 0) PTE_V) with true. change (@pte2pa sv39_pte2pa (mk_pte B0 0)) with B0. cbv match.
  rewrite load_mem0 by (set_solver || by apply PX_range).
  change (B0 =? R0) with false. change (B0 =? A0) with false. cbv match.
  destruct (PX 0 va =? 0); [by right|by left].
Qed.

Lemma user_ok_0 : @user_ok sv39_pte2pa G0 [] (k_mem vm_state0) R0.
Proof.
  intros va Hva. cbn zeta. change (k_mem vm_state0) with mem0. destruct (entry_0 va) as [->| ->].
  - intros H. destruct H. reflexivity.
  - intros _. split; [reflexivity|]. split; [reflexivity|]. apply not_elem_of_nil.
Qed.


(** Three bytes across nothing but the user page. *)
Definition vm_state1 : kstate :=
  match @copyout sv39_pte2pa R0 100 [1; 2; 3] vm_state0 with Ok _ s => s | _ => vm_state0 end.

Lemma copyout_copyin_roundtrip_witness :
  @copyin sv39_pte2pa R0 100 3 vm_state1 = Ok ([1; 2; 3], 0) vm_state1.
Proof.
  apply (@copyout_copyin_roundtrip symbols0 sv39_pte2pa G0 [] R0 100 [1; 2; 3] vm_state0 vm_state1
    vm_ok_0 user_ok_0).
  - split; [discriminate|reflexivity].
  - reflexivity.
  - repeat constructor; discriminate.
  - simpl. intros i j Hi Hj.
    assert (i = 0 ∨ i = 1 ∨ i = 2) as Hi' by lia. assert (j = 0 ∨ j = 1 ∨ j = 2) as Hj' by lia.
    destruct Hi' as [->|[->| ->]], Hj' as [->|[->| ->]]; vm_compute; (reflexivity || discriminate).
  - vm_compute. reflexivity.
Defined.

Lemma user_copies_bytewise_witness :
  @copyout sv39_pte2pa R0 4094 [7; 8; 9] vm_state0 =
    Ok (-1) (set_k_mem (wr (wr mem0 (D0 + 4094) 7) (D0 + 4095) 8) vm_state0) ∧
  @copyin sv39_pte2pa R0 4095 2 vm_state0 = Ok ([0], -1) vm_state0 ∧
  @copyinstr sv39_pte2pa R0 5 2 vm_state0 = Ok ([0], 0) vm_state0.
Proof.
  destruct (@user_copies_bytewise symbols0 sv39_pte2pa G0 [] R0 4094 2 [7; 8; 9] vm_state0
    vm_ok_0 user_ok_0) as (H1 & _ & _); [lia|lia|reflexivity|].
  destruct (@user_copies_bytewise symbols0 sv39_pte2pa G0 [] R0 4095 2 [] vm_state0
    vm_ok_0 user_ok_0) as (_ & H2 & _); [lia|lia|reflexivity|].
  destruct (@user_copies_bytewise symbols0 sv39_pte2pa G0 [] R0 5 2 [] vm_state0
    vm_ok_0 user_ok_0) as (_ & _ & H3); [lia|lia|reflexivity|].
  rewrite H1, H2, H3. vm_compute. auto.
Defined.

(** An empty root page and three free pages: mapping one page takes two of them. *)
Definition free0 : list Z := [0x80027000; 0x80028000; 0x80029000].
Definition vm_state2 : kstate :=
  set_k_freelist 0x80027000
    (set_k_mem (store64 (store64 ∅ 0x80027000 0x80028000) 0x80028000 0x80029000) vm_state0).

Lemma vm_ok_2 : @vm_ok symbols0 sv39_pte2pa {[R0 := (2%nat, 0)]} free0 R0 vm_state2.
Proof.
  split; [apply cpu_ok_0|exists "kmem"; reflexivity| | |].
  - split; [done|]. split; [do 2 apply store64_ok; apply mem_ok_empty|].
    split; [vm_compute; auto|]. split.
    + unfold free0. repeat constructor; vm_compute; (reflexivity || discriminate).
    + apply (bool_decide_unpack _). vm_compute. exact I.
  - split.
    + reflexivity.
    + intros p l pre. rewrite lookup_singleton_Some. intros [<- _].
      split; [reflexivity|]; vm_compute; split; [discriminate|reflexivity].
    + intros p l pre i. rewrite lookup_singleton_Some. intros [<- _] Hi.
      unfold R0. change (k_mem vm_state2) with (store64 (store64 ∅ 0x80027000 0x80028000) 0x80028000 0x80029000).
      rewrite !load64_store64_ne by lia. by rewrite load64_empty, has_0.
  - intros p Hp. rewrite lookup_singleton_None. intros <-. revert Hp.
    change (R0 ∉ free0). apply (bool_decide_unpack _). vm_compute. exact I.
Qed.

Lemma entry_2 va : has (@pt_entry sv39_pte2pa (k_mem vm_state2) R0 va) PTE_V = false.
Proof.
  unfold pt_entry, ptv. cbn [ptw]. unfold pte_addr, R0.
  change (k_mem vm_state2) with (store64 (store64 ∅ 0x80027000 0x80028000) 0x80028000 0x80029000).
  pose proof (PX_range 2 va). change (Z.of_nat 2) with 2.
  rewrite (load64_store64_ne _ 0x80028000), (load64_store64_ne _ 0x80027000) by lia.
  by rewrite load64_empty, has_0.
Qed.

