(* ===== verification/Proc.v ===== *)
(** * Processes, sleep and wakeup: the scheduling half of [kernel/proc.c]

    A [struct proc *] is an index of [k_procs].  [sched] ends in [Swtch], with
    the rest of the kernel thread as continuation; [scheduler_pass] is one turn
    of the scheduler's loop over the process table, which resumes such
    continuations.  Creation, exit and reaping of processes are in [ProcLife.v]. *)

From stdpp Require Import prelude gmap strings list.
From Stdlib Require Import ZArith Lia.
From S2P Require Import Prelude.
From S2P Require Import Monad.
From S2P Require Import Riscv.
From S2P Require Import Types.
From S2P Require Import Mem.
From S2P Require Import Spinlock.
From S2P Require Import Kalloc.
From S2P Require Import Vm.

(** A null pointer is not mapped in the kernel page table: an access through it
    traps, and [kerneltrap] panics on the page fault. *)
Definition deref {A} (o : option A) : K A :=
  match o with Some a => ret a | None => panic "kerneltrap" end.

Definition the_proc (i : nat) (s : kstate) : proc := nth i (k_procs s) proc0.
Definition get_proc (i : nat) : K proc := gets (the_proc i).
Definition upd_proc (i : nat) (f : proc → proc) : K unit :=
  modify (λ s, set_k_procs (<[i := f (the_proc i s)]> (k_procs s)) s).

(** [myproc()] where its result is dereferenced. *)
Definition curproc : K nat := let! p := myproc in deref p.

Definition allocpid : K Z :=
  acquire LPid ;;;
  let! pid := gets k_nextpid in
  modify (set_k_nextpid (i32 (pid + 1))) ;;;
  release LPid ;;;
  ret pid.

Definition sched : K unit :=
  let! p := curproc in
  let! h := holding (LProc p) in
  if negb h then panic "sched p->lock" else
  let! noff := gets (λ s, c_noff (the_cpu (k_lk s))) in
  if noff <>? 1 then panic "sched locks" else
  let! pr := get_proc p in
  if decide (p_state pr = RUNNING) then panic "sched running" else
  let! on := gets (λ s, intr_get (cs_hart (k_lk s))) in
  if on then panic "sched interruptible" else
  let! intena := gets (λ s, c_intena (the_cpu (k_lk s))) in
  swtch ;;;
  upd_lk (upd_cpu (set_c_intena intena)).

Definition yield : K unit :=
  let! p := curproc in
  acquire (LProc p) ;;;
  upd_proc p (set_p_state RUNNABLE) ;;;
  sched ;;;
  release (LProc p).

Definition sleep (ch : chan) (lk : lockid) : K unit :=
  let! p := curproc in
  let other := bool_decide (lk ≠ LProc p) in
  when other (acquire (LProc p) ;;; release lk) ;;;
  upd_proc p (set_p_chan ch) ;;;
  upd_proc p (set_p_state SLEEPING) ;;;
  sched ;;;
  upd_proc p (set_p_chan ChNull) ;;;
  when other (release (LProc p) ;;; acquire lk).

Definition is_sleeping (p : proc) : bool := bool_decide (p_state p = SLEEPING).

Definition wakeup (ch : chan) : K unit :=
  let! _ := for_ (R := unit) NPROC 0 (λ i,
    acquire (LProc i) ;;;
    let! p := get_proc i in
    when (is_sleeping p && bool_decide (p_chan p = ch)) (upd_proc i (set_p_state RUNNABLE)) ;;;
    release (LProc i) ;;;
    ret None) in
  ret ().

Definition wakeup1 (i : nat) : K unit :=
  let! h := holding (LProc i) in
  if negb h then panic "wakeup1" else
  let! p := get_proc i in
  when (bool_decide (p_chan p = ChProc i) && is_sleeping p) (upd_proc i (set_p_state RUNNABLE)).

Definition kill_body (pid : Z) (i : nat) : K (option Z) :=
  acquire (LProc i) ;;;
  let! p := get_proc i in
  if p_pid p =? pid then
    upd_proc i (set_p_killed 1) ;;;
    when (is_sleeping p) (upd_proc i (set_p_state RUNNABLE)) ;;;
    release (LProc i) ;;;
    ret (Some 0)
  else
    release (LProc i) ;;;
    ret None.
Definition kill (pid : Z) : K Z :=
  let! r := for_ NPROC 0 (kill_body pid) in
  ret (default (-1) r).

(** ** The scheduler *)

(** A suspended kernel thread is the continuation of its last [swtch]; it is
    found by process id, and a process that has not run yet starts in
    [forkret]. *)
Definition thread := kstate → outcome kstate unit.

(** [swtch(&c->context, &p->context)]: the thread runs until it switches back. *)
Definition resume (start : thread) (pid : Z) (ts : gmap Z thread) : K (gmap Z thread) :=
  λ s, match default start (ts !! pid) s with
       | Ok _ _ => Panic "thread returned"
       | Panic msg => Panic msg
       | Spin s' => Spin s'
       | Swtch s' k => Ok (<[pid := k]> ts) s'
       | NoFuel => NoFuel
       end.

(** The body of the scheduler's [for(p = proc; p < &proc[NPROC]; p++)]. *)
Definition scheduler_slot (start : thread) (i : nat) (x : gmap Z thread * bool) :
    K (gmap Z thread * bool) :=
  let '(ts, found) := x in
  acquire (LProc i) ;;;
  let! p := get_proc i in
  let! x := (if decide (p_state p = RUNNABLE) then
    upd_proc i (set_p_state RUNNING) ;;;
    upd_lk (upd_cpu (set_c_proc (Some i))) ;;;
    let! ts := resume start (p_pid p) ts in
    upd_lk (upd_cpu (set_c_proc None)) ;;;
    ret (ts, true)
  else ret (ts, found)) in
  release (LProc i) ;;;
  ret x.

Fixpoint scheduler_for (start : thread) (n i : nat) (x : gmap Z thread * bool) :
    K (gmap Z thread * bool) :=
  match n with
  | O => ret x
  | S n' => let! x := scheduler_slot start i x in scheduler_for start n' (S i) x
  end.

(** One iteration of [for(;;)]; [wfi] waits for an interrupt and has no effect on
    the state. *)
Definition scheduler_pass (start : thread) (ts : gmap Z thread) : K (gmap Z thread) :=
  upd_lk (upd_hart intr_on) ;;;
  let! x := scheduler_for start NPROC 0 (ts, false) in
  when (negb (snd x)) (upd_lk (upd_hart intr_on)) ;;;
  ret (fst x).

(** [scheduler]: entry, then [turns] iterations of its endless loop. *)
Fixpoint scheduler_turns (start : thread) (turns : nat) (ts : gmap Z thread) : K (gmap Z thread) :=
  match turns with
  | O => ret ts
  | S t => let! ts := scheduler_pass start ts in scheduler_turns start t ts
  end.
Definition scheduler (start : thread) (turns : nat) : K (gmap Z thread) :=
  upd_lk (upd_cpu (set_c_proc None)) ;;;
  scheduler_turns start turns ∅.

(** ** Copies to and from user or kernel memory *)

Section either.
Context {PF : PteFormat}.

(** The bytes of [src] go to user address [dst], or to kernel address [dst]. *)
Definition either_copyout (user_dst : bool) (dst : Z) (src : list Z) : K Z :=
  let! p := myproc in
  if user_dst then
    let! p := deref p in
    let! pr := get_proc p in
    copyout (p_pagetable pr) dst src
  else
    upd_mem (λ m, store_bytes m dst src) ;;;
    ret 0.

(** The bytes delivered to the kernel destination, and the result. *)
Definition either_copyin (user_src : bool) (src len : Z) : K (list Z * Z) :=
  let! p := myproc in
  if user_src then
    let! p := deref p in
    let! pr := get_proc p in
    copyin (p_pagetable pr) src len
  else
    let! m := gets k_mem in
    ret (load_bytes m src (Z.to_nat len), 0).
End either.

Section init.
Context {SY : Symbols} {PF : PteFormat}.

Definition procinit : K unit :=
  initlock LPid "nextpid" ;;;
  let! _ := for_ (R := unit) NPROC 0 (λ i,
    initlock (LProc i) "proc" ;;;
    let! pa := kalloc in
    if pa =? 0 then panic "kalloc" else
    let va := KSTACK (Z.of_nat i) in
    kvmmap va pa PGSIZE (Z.lor PTE_R PTE_W) ;;;
    upd_proc i (set_p_kstack va) ;;;
    ret None) in
  kvminithart.
End init.
