(* ===== verification/ProcSpec.v ===== *)
(** * What sleep, wakeup and the scheduler guarantee

    Specifications of the operations of [Proc.v] on a processor that holds no
    spinlock of the ones they take.  [quiet] is the shape of the kernel between
    critical sections; the files above the process layer use it. *)

From stdpp Require Import prelude gmap strings list.
From Stdlib Require Import ZArith Lia.
From S2P Require Import Prelude.
From S2P Require Import Monad.
From S2P Require Import Riscv.
From S2P Require Import Types.
From S2P Require Import Spinlock.
From S2P Require Import Kalloc.
From S2P Require Import Proc.

(** ** The locks that exist after boot *)

Definition boot_lock (lk : lockid) : Prop :=
  match lk with
  | LProc i => (i < NPROC)%nat
  | LPipe _ => False
  | LSleep (SBuf i) => (i < NBUF)%nat
  | LSleep (SInode i) => (i < NINODE)%nat
  | _ => True
  end.

Definition proc_locks (l : cpust) : Prop := ∀ i, (i < NPROC)%nat → lock_free (LProc i) l.

(** No spinlock is held; process [p] runs on this cpu. *)
Record quiet (p : nat) (s : kstate) : Prop := mkquiet {
  q_cpu : cpu_ok (k_lk s);
  q_cur : c_proc (the_cpu (k_lk s)) = Some p;
  q_noff : c_noff (the_cpu (k_lk s)) = 0;
  q_locks : ∀ lk, boot_lock lk → lock_free lk (k_lk s);
  q_procs : length (k_procs s) = NPROC;
  q_range : (p < NPROC)%nat
}.

Lemma quiet_proc_locks p s : quiet p s → proc_locks (k_lk s).
Proof. intros H i Hi. by apply (q_locks p s H). Qed.

(** [quiet] only looks at the processor and at the size of the process table. *)
Lemma quiet_eq p s s' :
  k_lk s' = k_lk s → length (k_procs s') = length (k_procs s) → quiet p s → quiet p s'.
Proof. intros E1 E2 [H1 H2 H3 H4 H5 H6]. split; rewrite ?E1, ?E2; done. Qed.

Lemma proc_locks_held lk l :
  (∀ i, lk ≠ LProc i) → proc_locks l → proc_locks (held lk l).
Proof. intros Hn H i Hi. apply lock_free_held; [|by apply H]. intros <-. by apply (Hn i). Qed.

Lemma curproc_eq p s :
  cpu_ok (k_lk s) → c_proc (the_cpu (k_lk s)) = Some p → curproc s = Ok p s.
Proof.
  intros Hc Hp. unfold curproc. rewrite (bind_ok _ _ _ _ _ (myproc_eq s Hc)), Hp. done.
Qed.

(** ** [wakeup] *)

Definition wake (ch : chan) (p : proc) : proc :=
  if is_sleeping p && bool_decide (p_chan p = ch) then set_p_state RUNNABLE p else p.

Lemma set_k_procs_id s : set_k_procs (k_procs s) s = s.
Proof. by destruct s. Qed.

Lemma the_proc_lookup i p s : k_procs s !! i = Some p → the_proc i s = p.
Proof. intros H. unfold the_proc. by rewrite (nth_lookup_Some _ _ _ _ H). Qed.

Lemma the_proc_insert i p l s :
  (i < length l)%nat → the_proc i (set_k_procs (<[i := p]> l) s) = p.
Proof. intros H. apply the_proc_lookup. ksimpl. by apply list_lookup_insert_eq. Qed.

Lemma the_proc_insert_ne i j p l s :
  i ≠ j → the_proc i (set_k_procs (<[j := p]> l) s) = nth i l proc0.
Proof.
  intros H. unfold the_proc. ksimpl. by rewrite !nth_lookup, list_lookup_insert_ne.
Qed.

(** The first [n] slots done. *)
Definition wake_upto (ch : chan) (n : nat) (l : list proc) : list proc :=
  (wake ch <$> take n l) ++ drop n l.

Lemma wake_upto_S ch n l p :
  l !! n = Some p →
  <[n := wake ch p]> (wake_upto ch n l) = wake_upto ch (S n) l.
Proof.
  intros H. pose proof (lookup_lt_Some _ _ _ H). unfold wake_upto.
  rewrite (drop_S l p n H), (take_S_r l n p H), fmap_app, <- app_assoc. simpl.
  rewrite insert_app_r_alt by (rewrite length_fmap, length_take; lia).
  rewrite length_fmap, length_take, Nat.min_l, Nat.sub_diag by lia. done.
Qed.

Lemma wake_upto_lookup ch n l : (wake_upto ch n l) !! n = l !! n.
Proof.
  unfold wake_upto. destruct (decide (n ≤ length l)%nat).
  - rewrite lookup_app_r by (rewrite length_fmap, length_take; lia).
    rewrite length_fmap, length_take, Nat.min_l, Nat.sub_diag by lia.
    rewrite lookup_drop. f_equal. lia.
  - rewrite (drop_ge l n), app_nil_r, list_lookup_fmap, take_ge by lia.
    by rewrite (lookup_ge_None_2 l n) by lia.
Qed.

Lemma wakeup_eq ch s :
  cpu_ok (k_lk s) → proc_locks (k_lk s) → length (k_procs s) = NPROC →
  wakeup ch s = Ok () (set_k_procs (wake ch <$> k_procs s) s).
Proof.
  intros Hc Hl Hn. apply wp_eq. unfold wakeup. rewrite wp_bind.
  apply (wp_for NPROC 0 _ (λ i t, t = set_k_procs (wake_upto ch i (k_procs s)) s)).
  - unfold wake_upto. rewrite take_0, drop_0. symmetry. apply set_k_procs_id.
  - intros i t Hi ->. unfold get_proc, upd_proc. rewrite wp_bind, wp_acquire by (ksimpl; auto with lia).
    ksimpl. rewrite wp_bind, wp_gets.
    destruct (lookup_lt_is_Some_2 (k_procs s) i) as [p Hp]; [lia|].
    assert (Hp' : wake_upto ch i (k_procs s) !! i = Some p) by (by rewrite wake_upto_lookup).
    rewrite (the_proc_lookup i p) by (by ksimpl).
    assert (Hf : lock_free (LProc i) (k_lk s)) by (apply Hl; lia).
    rewrite wp_bind, wp_when.
    pose proof (wake_upto_S ch i (k_procs s) p Hp) as Hw. unfold wake at 1 in Hw.
    destruct (is_sleeping p && bool_decide (p_chan p = ch)).
    + rewrite wp_modify, wp_bind, (wp_release _ _ _ (k_lk s)) by (ksimpl; done). ksimpl.
      rewrite wp_ret, (the_proc_lookup i p) by (by ksimpl). rewrite Hw. keq.
    + rewrite wp_bind, (wp_release _ _ _ (k_lk s)) by (ksimpl; done). ksimpl.
      rewrite wp_ret, <- Hw, list_insert_id by done. keq.
  - intros t ->. rewrite wp_ret. split; [done|]. unfold wake_upto.
    rewrite take_ge, drop_ge, app_nil_r by (rewrite Hn; lia). done.
Qed.

(** ** [sched], [sleep], [yield] *)

Lemma held_lock lk l : get_lock lk (held lk l) = mkSpinlock 1 (sl_name (get_lock lk l)) (Some (cpu_index l)).
Proof. unfold held. apply get_put_lock. Qed.

Lemma holding_held lk l s : k_lk s = held lk l → holding lk s = Ok true s.
Proof.
  intros E. rewrite holding_eq, E, held_lock. cbn [sl_locked sl_cpu].
  by rewrite bool_decide_eq_true_2.
Qed.

(** A processor about to leave its only critical section, in process [p]. *)
Definition only_lock (lk : lockid) (p : nat) (l : cpust) (s : kstate) : Prop :=
  cpu_ok l ∧ k_lk s = held lk l ∧ c_noff (the_cpu l) = 0 ∧ c_proc (the_cpu l) = Some p ∧
  lock_free lk l.

Lemma sched_eq p l s :
  only_lock (LProc p) p l s → p_state (the_proc p s) ≠ RUNNING →
  sched s = Swtch s (upd_lk (upd_cpu (set_c_intena (intr_get (cs_hart l))))).
Proof.
  intros (Hc & El & Hn & Hp & Hf) Hs. unfold sched, get_proc.
  erewrite bind_ok; [|apply curproc_eq; rewrite El; [by apply held_ok|by rewrite held_proc]].
  rewrite (bind_ok _ _ _ _ _ (holding_held _ _ _ El)). cbn [negb]. run.
  rewrite El, held_noff, Hn by done. change (0 + 1 <>? 1) with false. cbv iota. run.
  destruct (decide (p_state (the_proc p s) = RUNNING)) as [?|_]; [done|]. run.
  rewrite El. change (cs_hart (held (LProc p) l)) with (intr_off (cs_hart l)).
  rewrite intr_off_get. run. rewrite El.
  change (the_cpu (held (LProc p) l)) with (the_cpu (pushed l)).
  rewrite the_cpu_pushed, Hn by done. cbn [Z.eqb c_intena]. done.
Qed.

(** The processor state that a thread sees when it comes back from [sched] and
    leaves its critical section: the cpu it now runs on, with the interrupt
    state the thread had. *)
Definition restore (i : bool) (l : cpust) : cpust :=
  upd_cpu (set_c_intena i) (upd_hart (if i then intr_on else intr_off) l).

Lemma restore_ok i l :
  cpu_ok l → c_noff (the_cpu l) = 0 →
  cpu_ok (restore i l) ∧ c_noff (the_cpu (restore i l)) = 0 ∧
  c_proc (the_cpu (restore i l)) = c_proc (the_cpu l) ∧
  intr_get (cs_hart (restore i l)) = i.
Proof.
  intros (Hi & Hr & Hn & H0 & H1) Hz.
  assert (E : the_cpu (restore i l) = set_c_intena i (the_cpu l))
    by (unfold restore; rewrite the_cpu_upd by (destruct i; done); by destruct i).
  assert (Eg : intr_get (cs_hart (restore i l)) = i)
    by (destruct i; [apply intr_on_get|apply intr_off_get]).
  split_and!; rewrite ?E; [|done..].
  refine (conj _ (conj _ (conj _ (conj _ _)))); rewrite ?E, ?Eg; cbn [c_noff c_intena set_c_intena].
  - unfold restore, upd_cpu. simpl. rewrite length_insert. by destruct i.
  - destruct i; simpl; [by apply intr_on_range|by apply intr_off_range].
  - done.
  - done.
  - done.
Qed.

Lemma lock_free_restore lk i l : lock_free lk l → lock_free lk (restore i l).
Proof. intros [n E]. by exists n. Qed.

Lemma pushed_restore i l :
  cpu_ok l → c_noff (the_cpu l) = 0 →
  upd_cpu (set_c_intena i) (pushed l) = pushed (restore i l).
Proof.
  intros Hc Hn. assert (Hi : (cpu_index l < length (cs_cpus l))%nat) by apply Hc.
  destruct (restore_ok i l Hc Hn) as (_ & _ & _ & Eg).
  unfold pushed. rewrite Eg, upd_cpu_twice by done. unfold restore.
  assert (El : upd_hart intr_off (upd_cpu (set_c_intena i) (upd_hart (if i then intr_on else intr_off) l))
               = upd_cpu (set_c_intena i) (upd_hart intr_off l)).
  { destruct l as [h cs ls]. unfold upd_cpu, upd_hart, set_cs_cpus, set_cs_hart. simpl.
    f_equal; [|by destruct i]. destruct i; [apply intr_off_of_on|apply intr_off_of_off]. }
  rewrite El, upd_cpu_twice by done. unfold upd_cpu.
  change (the_cpu (upd_hart intr_off l)) with (the_cpu l).
  unfold set_c_intena. cbn [c_proc c_noff c_intena]. by rewrite Hn.
Qed.

Lemma held_restore lk i l :
  cpu_ok l → c_noff (the_cpu l) = 0 →
  upd_cpu (set_c_intena i) (held lk l) = held lk (restore i l).
Proof.
  intros Hc Hn. unfold held. rewrite <- pushed_restore by done.
  destruct i; done.
Qed.

(** The part of [sleep] before the switch: the process is asleep on [ch], its own
    lock is held and the caller's lock [lk] is free; and the part after it, on
    whatever cpu the scheduler picked: [lk] is held again. *)
Definition asleep (ch : chan) (p : nat) (l : cpust) (s : kstate) : kstate :=
  set_k_procs (<[p := set_p_state SLEEPING (set_p_chan ch (the_proc p s))]> (k_procs s))
    (set_k_lk (held (LProc p) l) s).
Definition awake (lk : lockid) (p : nat) (l : cpust) (s : kstate) : kstate :=
  set_k_procs (<[p := set_p_chan ChNull (the_proc p s)]> (k_procs s)) (set_k_lk (held lk l) s).

Lemma upd_proc_twice p f g s :
  (p < length (k_procs s))%nat →
  bind (upd_proc p f) (λ _, upd_proc p g) s = upd_proc p (λ x, g (f x)) s.
Proof.
  intros H. unfold upd_proc. run. unfold modify. ksimpl.
  apply Ok_eq. unfold the_proc at 1. ksimpl.
  rewrite list_insert_insert_eq, nth_lookup, list_lookup_insert_eq by done. keq.
Qed.

Lemma sleep_eq ch lk p l s :
  only_lock lk p l s → lk ≠ LProc p → lock_free (LProc p) l → (p < length (k_procs s))%nat →
  ∃ k, sleep ch lk s = Swtch (asleep ch p l s) k ∧
    ∀ l' s', only_lock (LProc p) p l' s' → lock_free lk l' → (p < length (k_procs s'))%nat →
      k s' = Ok () (awake lk p (restore (intr_get (cs_hart l)) l') s').
Proof.
  intros (Hc & El & Hn & Hp & Hf) Hne Hfp Hlen. unfold sleep.
  erewrite bind_ok; [|apply curproc_eq; rewrite El; [by apply held_ok|by rewrite held_proc]].
  rewrite bool_decide_eq_true_2 by done. cbn [when].
  assert (Hsw : bind (acquire (LProc p)) (λ _, release lk) s = Ok () (set_k_lk (held (LProc p) l) s)).
  { rewrite (bind_ok _ _ _ _ _ (acquire_eq (LProc p) s ltac:(rewrite El; by apply held_ok)
      ltac:(rewrite El; by apply lock_free_held))). rewrite El, held_comm by done.
    rewrite (release_eq _ _ (held (LProc p) l)); [by rewrite set_k_lk_twice|by apply held_ok| |done].
    by apply lock_free_held. }
  rewrite (bind_ok _ _ _ _ _ Hsw).
  unfold upd_proc at 1 2. run. unfold the_proc at 1. ksimpl.
  rewrite list_insert_insert_eq, nth_lookup, list_lookup_insert_eq by done. cbn [default].
  change (the_proc p (set_k_lk (held (LProc p) l) s)) with (the_proc p s).
  unfold bind at 1. rewrite (sched_eq p l).
  - cbn [obind]. eexists. split; [reflexivity|].
    intros l' s' (Hc' & El' & Hn' & Hp' & Hf') Hfl Hlen'. unfold upd_lk, modify. cbn [obind].
    rewrite El', held_restore by done.
    destruct (restore_ok (intr_get (cs_hart l)) l' Hc' Hn') as (Hc2 & _).
    set (l2 := restore (intr_get (cs_hart l)) l') in *.
    assert (Hf2 : lock_free (LProc p) l2) by (by apply lock_free_restore).
    unfold upd_proc. run. ksimpl.
    run_release Hc2 Hf2. rewrite acquire_eq; ksimpl; [|exact Hc2|by apply lock_free_restore].
    apply Ok_eq. unfold awake. change (the_proc p (set_k_lk _ s')) with (the_proc p s'). keq.
  - split_and!; ksimpl; done.
  - by rewrite the_proc_insert.
Qed.

Lemma yield_eq p s :
  quiet p s →
  ∃ k, yield s = Swtch (set_k_procs (<[p := set_p_state RUNNABLE (the_proc p s)]> (k_procs s))
                          (set_k_lk (held (LProc p) (k_lk s)) s)) k ∧
    ∀ l' s', only_lock (LProc p) p l' s' →
      k s' = Ok () (set_k_lk (restore (intr_get (cs_hart (k_lk s))) l') s').
Proof.
  intros Hq. destruct Hq as [Hc Hp Hn Hl Hlen Hr]. unfold yield.
  rewrite (bind_ok _ _ _ _ _ (curproc_eq p s Hc Hp)).
  assert (Hfp : lock_free (LProc p) (k_lk s)) by (by apply Hl).
  run_acquire Hc Hfp. unfold upd_proc at 1. run. ksimpl.
  change (the_proc p (set_k_lk _ s)) with (the_proc p s).
  unfold bind at 1. rewrite (sched_eq p (k_lk s)).
  - cbn [obind]. eexists. split; [reflexivity|].
    intros l' s' (Hc' & El' & Hn' & Hp' & Hf'). unfold upd_lk, modify. cbn [obind].
    rewrite El', held_restore by done.
    destruct (restore_ok (intr_get (cs_hart (k_lk s))) l' Hc' Hn') as (Hc2 & _).
    rewrite (release_eq _ _ (restore (intr_get (cs_hart (k_lk s))) l')); [by ksimpl|done| |done].
    by apply lock_free_restore.
  - split_and!; ksimpl; done.
  - rewrite the_proc_insert by lia. done.
Qed.

(** ** The scheduler *)

(** The scheduler's processor with [c->proc] set. *)
Definition running (p : option nat) (l : cpust) : cpust := upd_cpu (set_c_proc p) l.

Lemma running_ok p l :
  cpu_ok l → cpu_ok (running p l) ∧ c_proc (the_cpu (running p l)) = p ∧
  c_noff (the_cpu (running p l)) = c_noff (the_cpu l).
Proof.
  intros (Hi & Hr & Hn & H0 & H1).
  assert (E : the_cpu (running p l) = set_c_proc p (the_cpu l)) by (by apply the_cpu_upd).
  split_and!; rewrite ?E; [|done..].
  refine (conj _ (conj _ (conj _ (conj _ _)))); rewrite ?E; try done.
  unfold running, upd_cpu. simpl. by rewrite length_insert.
Qed.

Lemma held_running p lk l :
  cpu_ok l → upd_cpu (set_c_proc p) (held lk l) = held lk (running p l).
Proof.
  intros Hc. assert (Hi : (cpu_index l < length (cs_cpus l))%nat) by apply Hc.
  unfold held. change (get_lock lk (running p l)) with (get_lock lk l).
  change (cpu_index (running p l)) with (cpu_index l).
  assert (E : pushed (running p l) = upd_cpu (set_c_proc p) (pushed l)); [|by rewrite E].
  unfold pushed, running. rewrite upd_cpu_twice by done.
  change (upd_hart intr_off (upd_cpu (set_c_proc p) l)) with (upd_cpu (set_c_proc p) (upd_hart intr_off l)).
  rewrite upd_cpu_twice by done. done.
Qed.

Lemma resume_noswtch start pid ts s s' k : resume start pid ts s ≠ Swtch s' k.
Proof. unfold resume. by destruct (default start (ts !! pid) s). Qed.

(** A runnable process: its thread runs with its lock held and the state
    [RUNNING]; whatever it does, the slot ends by clearing [c->proc] and
    releasing the lock. *)
Lemma scheduler_slot_run start i ts f s p :
  cpu_ok (k_lk s) → lock_free (LProc i) (k_lk s) →
  k_procs s !! i = Some p → p_state p = RUNNABLE →
  scheduler_slot start i (ts, f) s =
    (let! ts' := resume start (p_pid p) ts in
     upd_lk (upd_cpu (set_c_proc None)) ;;;
     release (LProc i) ;;;
     ret (ts', true))
    (set_k_procs (<[i := set_p_state RUNNING p]> (k_procs s))
      (set_k_lk (held (LProc i) (running (Some i) (k_lk s))) s)).
Proof.
  intros Hc Hf Hp Hs. unfold scheduler_slot, get_proc, upd_proc, upd_lk. run_acquire Hc Hf. run.
  rewrite (the_proc_lookup i p) by (by ksimpl). destruct (decide _) as [_|]; [|done].
  rewrite bind_assoc_modify. ksimpl. rewrite bind_assoc_modify. ksimpl.
  rewrite bind_assoc_noswtch by apply resume_noswtch.
  rewrite held_running by done.
  change (the_proc i (set_k_lk _ s)) with (the_proc i s).
  rewrite (the_proc_lookup i p s Hp).
  set (s1 := set_k_lk _ _). set (s2 := set_k_procs _ _).
  assert (s1 = s2) as -> by (unfold s1, s2; keq).
  reflexivity.
Qed.

Lemma scheduler_slot_skip start i x s :
  cpu_ok (k_lk s) → lock_free (LProc i) (k_lk s) → p_state (the_proc i s) ≠ RUNNABLE →
  scheduler_slot start i x s = Ok x s.
Proof.
  intros Hc Hf Hs. destruct x as [ts f]. unfold scheduler_slot, get_proc. run_acquire Hc Hf. run.
  change (the_proc i (set_k_lk _ s)) with (the_proc i s). destruct (decide _); [done|]. run.
  run_release Hc Hf. unfold ret. by rewrite set_k_lk_id.
Qed.

(** ** [kill] and [allocpid] *)

Definition has_pid (pid : Z) (p : proc) : bool := p_pid p =? pid.
Definition killed (p : proc) : proc :=
  let p := set_p_killed 1 p in if is_sleeping p then set_p_state RUNNABLE p else p.

Lemma kill_body_eq pid i p s :
  cpu_ok (k_lk s) → lock_free (LProc i) (k_lk s) → k_procs s !! i = Some p →
  kill_body pid i s =
    if p_pid p =? pid then Ok (Some 0) (set_k_procs (<[i := killed p]> (k_procs s)) s)
    else Ok None s.
Proof.
  intros Hc Hf Hp. pose proof (lookup_lt_Some _ _ _ Hp) as Hi.
  unfold kill_body, get_proc, upd_proc. run_acquire Hc Hf. run.
  change (the_proc i (set_k_lk _ s)) with (the_proc i s). rewrite (the_proc_lookup i p s Hp).
  destruct (p_pid p =? pid).
  - run. change (the_proc i (set_k_lk _ s)) with (the_proc i s). rewrite (the_proc_lookup i p s Hp).
    unfold killed. change (is_sleeping (set_p_killed 1 p)) with (is_sleeping p).
    destruct (is_sleeping p); run; ksimpl.
    + rewrite the_proc_insert by done. rewrite list_insert_insert_eq.
      run_release Hc Hf. unfold ret. okeq.
    + run_release Hc Hf. unfold ret. okeq.
  - run_release Hc Hf. unfold ret. by rewrite set_k_lk_id.
Qed.

Lemma kill_eq pid s :
  cpu_ok (k_lk s) → proc_locks (k_lk s) → length (k_procs s) = NPROC →
  kill pid s = match list_find (λ p, p_pid p = pid) (k_procs s) with
               | Some (i, p) => Ok 0 (set_k_procs (<[i := killed p]> (k_procs s)) s)
               | None => Ok (-1) s
               end.
Proof.
  intros Hc Hl Hn. unfold kill. destruct (list_find _ _) as [[i p]|] eqn:E.
  - apply list_find_Some in E as (Hp & Hpid & Hbefore). pose proof (lookup_lt_Some _ _ _ Hp).
    rewrite (bind_ok _ _ _ (Some 0) (set_k_procs (<[i := killed p]> (k_procs s)) s)); [done|].
    apply (for_first i); [lia| |].
    + intros j Hj. destruct (lookup_lt_is_Some_2 (k_procs s) j) as [q Hq]; [lia|].
      rewrite (kill_body_eq _ _ q) by (auto; apply Hl; lia).
      by rewrite (proj2 (Z.eqb_neq _ _) (Hbefore j q Hq (proj2 Hj))).
    + rewrite (kill_body_eq _ _ p) by (auto; apply Hl; lia). by rewrite (proj2 (Z.eqb_eq _ _) Hpid).
  - apply list_find_None in E.
    rewrite (bind_ok _ _ _ None s); [done|]. apply for_none. intros j Hj.
    destruct (lookup_lt_is_Some_2 (k_procs s) j) as [q Hq]; [lia|].
    rewrite (kill_body_eq _ _ q) by (auto; apply Hl; lia).
    rewrite Forall_lookup in E. by rewrite (proj2 (Z.eqb_neq _ _) (E j q Hq)).
Qed.

Lemma allocpid_eq s :
  cpu_ok (k_lk s) → lock_free LPid (k_lk s) →
  allocpid s = Ok (k_nextpid s) (set_k_nextpid (i32 (k_nextpid s + 1)) s).
Proof.
  intros Hc Hf. unfold allocpid. run_acquire Hc Hf. run. run_release Hc Hf.
  unfold ret. okeq.
Qed.

(** ** Properties *)

(** The rest of a scheduler slot, once the thread has switched back with [k]. *)
Definition slot_end (p : nat) (pid : Z) (ts : gmap Z thread) (k : thread) :
    K (gmap Z thread * bool) :=
  upd_lk (upd_cpu (set_c_proc None)) ;;;
  release (LProc p) ;;;
  ret (<[pid := k]> ts, true).

(** C17. A process that calls [sleep(ch, lk)] holding only [lk] gives up the
    processor asleep on [ch], with [lk] free and every other process as it was;
    a [wakeup(ch)] makes it runnable; and when the scheduler reaches its slot,
    the code after [sleep] runs, in state [RUNNING], with the channel cleared,
    [lk] held again and the interrupt state it had, until it switches back to
    the scheduler. *)
Theorem sleep_wakeup_resume (ch : chan) (lk : lockid) (p : nat) (l : cpust) (s : kstate)
    (rest : K unit) :
  only_lock lk p l s → lk ≠ LProc p → lock_free (LProc p) l → (p < length (k_procs s))%nat →
  ∃ s1 k, (sleep ch lk ;;; rest) s = Swtch s1 k ∧
    lock_free lk (k_lk s1) ∧
    k_procs s1 !! p = Some (set_p_state SLEEPING (set_p_chan ch (the_proc p s))) ∧
    (∀ q, q ≠ p → k_procs s1 !! q = k_procs s !! q) ∧
    (∀ t, cpu_ok (k_lk t) → proc_locks (k_lk t) → length (k_procs t) = NPROC →
       k_procs t !! p = k_procs s1 !! p →
       wp (wakeup ch) (λ _ t', p_state (the_proc p t') = RUNNABLE) t) ∧
    (∀ u pr (ts : gmap Z thread) f start,
       cpu_ok (k_lk u) → c_noff (the_cpu (k_lk u)) = 0 →
       lock_free (LProc p) (k_lk u) → lock_free lk (k_lk u) →
       k_procs u !! p = Some pr → p_state pr = RUNNABLE → ts !! p_pid pr = Some k →
       ∃ v, k_lk v = held lk (restore (intr_get (cs_hart l)) (running (Some p) (k_lk u))) ∧
         k_procs v = <[p := set_p_chan ChNull (set_p_state RUNNING pr)]> (k_procs u) ∧
         v = set_k_lk (k_lk v) (set_k_procs (k_procs v) u) ∧
         ∀ s' k', rest v = Swtch s' k' →
           scheduler_slot start p (ts, f) u = slot_end p (p_pid pr) ts k' s').
Proof.
  intros Ho Hne Hfp Hlen. destruct (sleep_eq ch lk p l s Ho Hne Hfp Hlen) as (k & Ek & Hk).
  exists (asleep ch p l s), (λ s', obind (k s') (λ _, rest)).
  assert (Hs1 : k_procs (asleep ch p l s) !! p =
                Some (set_p_state SLEEPING (set_p_chan ch (the_proc p s))))
    by (unfold asleep; ksimpl; by apply list_lookup_insert_eq).
  split_and!.
  - unfold bind. by rewrite Ek.
  - unfold asleep. ksimpl. apply lock_free_held; [done|apply Ho].
  - exact Hs1.
  - intros q Hq. unfold asleep. ksimpl. by rewrite list_lookup_insert_ne.
  - intros t Hct Hlt Hnt Et. eapply wp_ok; [by apply wakeup_eq|]. rewrite Hs1 in Et.
    erewrite the_proc_lookup; [|ksimpl; rewrite list_lookup_fmap, Et; reflexivity].
    unfold wake, is_sleeping. cbn [p_state p_chan set_p_state set_p_chan].
    rewrite !bool_decide_eq_true_2 by done. done.
  - intros u pr ts f start Hcu Hnu Hfu Hlu Hpu Hst Hts.
    destruct (running_ok (Some p) (k_lk u) Hcu) as (Hcr & Hpr & Hnr).
    set (u1 := set_k_procs (<[p := set_p_state RUNNING pr]> (k_procs u))
                 (set_k_lk (held (LProc p) (running (Some p) (k_lk u))) u)).
    assert (Hlp : (p < length (k_procs u))%nat) by (by eapply lookup_lt_Some).
    exists (awake lk p (restore (intr_get (cs_hart l)) (running (Some p) (k_lk u))) u1).
    unfold awake, u1. split_and!.
    + by ksimpl.
    + ksimpl. rewrite list_insert_insert_eq. by rewrite the_proc_insert.
    + keq.
    + intros s' k' E. rewrite (scheduler_slot_run _ _ _ _ _ pr) by done. fold u1 in E |- *.
      assert (Hk1 : k u1 = Ok () (awake lk p (restore (intr_get (cs_hart l)) (running (Some p) (k_lk u))) u1)).
      { apply Hk; [split_and!; unfold u1; ksimpl; rewrite ?Hpr, ?Hnr; done|done|].
        unfold u1. ksimpl. by rewrite length_insert. }
      rewrite (bind_ok (resume start (p_pid pr) ts) _ u1 (<[p_pid pr := k']> ts) s'); [done|].
      unfold resume, thread in *. rewrite Hts. cbn [default from_option id]. rewrite Hk1. cbn [obind].
      unfold awake. by rewrite E.
Qed.

(** [kill(pid)] marks exactly the first process table slot with that pid as
    killed, and makes it runnable if it slept, so that it can see the mark; it
    returns -1 and changes nothing when no slot has the pid. *)
Theorem kill_exact (pid : Z) (s : kstate) :
  cpu_ok (k_lk s) → proc_locks (k_lk s) → length (k_procs s) = NPROC →
  wp (kill pid) (λ r s',
    s' = set_k_procs (k_procs s') s ∧
    ((r = -1 ∧ s' = s ∧ ∀ i q, k_procs s !! i = Some q → p_pid q ≠ pid) ∨
     (r = 0 ∧ ∃ i q, k_procs s !! i = Some q ∧ p_pid q = pid ∧
       (∀ j q', k_procs s !! j = Some q' → (j < i)%nat → p_pid q' ≠ pid) ∧
       (∀ j, j ≠ i → k_procs s' !! j = k_procs s !! j) ∧
       ∃ q', k_procs s' !! i = Some q' ∧ p_killed q' = 1 ∧ p_state q' ≠ SLEEPING ∧
         q' = set_p_killed 1 (set_p_state (p_state q') q)))) s.
Proof.
  intros Hc Hl Hn. pose proof (kill_eq pid s Hc Hl Hn) as E.
  destruct (list_find (λ p, p_pid p = pid) (k_procs s)) as [[i q]|] eqn:Ef;
    (eapply wp_ok; [exact E|]).
  - apply list_find_Some in Ef as (Hq & Hpid & Hb). split; [keq|]. right. split; [done|].
    exists i, q. split_and!; [done|done|done| |].
    + intros j Hj. ksimpl. by rewrite list_lookup_insert_ne.
    + exists (killed q). ksimpl. split_and!; [apply list_lookup_insert_eq; by eapply lookup_lt_Some| | |];
        unfold killed; change (is_sleeping (set_p_killed 1 q)) with (is_sleeping q);
        unfold is_sleeping; case_bool_decide; destruct q; done.
  - apply list_find_None in Ef. split; [by rewrite set_k_procs_id|]. left. split_and!; [done..|].
    intros i q Hq. rewrite Forall_lookup in Ef. by apply (Ef i).
Qed.

(** ** A concrete quiet kernel: booted, with process 0 on hart 0 *)

Definition boot_locks : list lockid :=
  [LKmem; LPid; LBcache; LLog; LIcache; LFtable; LCons; LUart; LPr; LTicks; LVdisk]
  ++ (LProc <$> seq 0 NPROC) ++ ((λ i, LSleep (SBuf i)) <$> seq 0 NBUF)
  ++ ((λ i, LSleep (SInode i)) <$> seq 0 NINODE).
Definition quiet_lk : cpust :=
  mkCpust hart0 (<[0%nat := mkCpu (Some 0%nat) 0 false]> (replicate NCPU cpu0))
    (gset_to_gmap spinlock0 (list_to_set boot_locks)).
Definition quiet0 : kstate := set_k_lk quiet_lk kstate0.

Lemma boot_lock_in lk : boot_lock lk → lk ∈ boot_locks.
Proof.
  unfold boot_locks. rewrite !elem_of_app, !list_elem_of_fmap.
  destruct lk as [| |i| | | | |pa| | | | | |[i|i]]; cbn [boot_lock]; intros H;
    try done; try (left; by repeat constructor).
  - right. left. exists i. split; [done|]. apply elem_of_seq. lia.
  - right. right. left. exists i. split; [done|]. apply elem_of_seq. lia.
  - right. right. right. exists i. split; [done|]. apply elem_of_seq. lia.
Qed.

Lemma quiet_0 : quiet 0 quiet0.
Proof.
  split.
  - refine (conj _ (conj _ (conj _ (conj _ _)))); vm_compute; [lia| | | |]; done.
  - done.
  - done.
  - intros lk H. exists "". change (cs_locks (k_lk quiet0)) with (gset_to_gmap spinlock0 (list_to_set boot_locks : gset lockid)).
    apply lookup_gset_to_gmap_Some. split; [|done]. apply elem_of_list_to_set. by apply boot_lock_in.
  - done.
  - unfold NPROC. lia.
Qed.

(** Process 7 sleeps in slot 3. *)
Definition kill0 : kstate :=
  set_k_procs (<[3%nat := set_p_pid 7 (set_p_state SLEEPING proc0)]> (k_procs quiet0)) quiet0.

Lemma kill_exact_witness : wp (kill 7) (λ r s', r = 0) kill0.
Proof.
  eapply wp_mono.
  - apply (kill_exact 7 kill0 (q_cpu _ _ quiet_0) (quiet_proc_locks _ _ quiet_0) eq_refl).
  - intros r s' [E [(-> & _ & H)|[-> _]]]; [|done].
    by destruct (H 3%nat (set_p_pid 7 (set_p_state SLEEPING proc0))).
Defined.

Lemma sleep_wakeup_resume_witness :
  ∃ s1 k, (sleep ChLog LLog ;;; ret ()) (set_k_lk (held LLog quiet_lk) quiet0) = Swtch s1 k ∧
    lock_free LLog (k_lk s1).
Proof.
  destruct (sleep_wakeup_resume ChLog LLog 0 quiet_lk (set_k_lk (held LLog quiet_lk) quiet0) (ret ()))
    as (s1 & k & E & F & _).
  - split; [apply (q_cpu _ _ quiet_0)|]. split; [reflexivity|]. split; [reflexivity|].
    split; [reflexivity|]. by apply (q_locks _ _ quiet_0).
  - discriminate.
  - apply (q_locks _ _ quiet_0). simpl. unfold NPROC. lia.
  - change (0 < NPROC)%nat. unfold NPROC. lia.
  - exists s1, k. split; [exact E|exact F].
Defined.
