(* ===== verification/UserMem.v ===== *)
(** * User memory, one byte at a time

    The console and the pipes copy bytes between the kernel and the current process
    one by one.  [uspace] is what such a copy needs of the page table and keeps. *)

From stdpp Require Import prelude gmap list.
From Stdlib Require Import ZArith Lia.
From S2P Require Import Prelude.
From S2P Require Import Monad.
From S2P Require Import Riscv.
From S2P Require Import Types.
From S2P Require Import Mem.
From S2P Require Import Spinlock.
From S2P Require Import Kalloc.
From S2P Require Import Vm.
From S2P Require Import VmSpec.
From S2P Require Import Proc.
From S2P Require Import ProcSpec.

Section user.
Context {SY : Symbols} {PF : PteFormat}.
Context (G : gmap_pt) (fl : list Z) (root : Z).

Definition uspace (s : kstate) : Prop := vm_ok G fl root s ∧ user_ok G fl (k_mem s) root.

(** Only memory, the free list and the processor matter. *)
Lemma uspace_ext s s' :
  k_mem s' = k_mem s → k_freelist s' = k_freelist s → cpu_ok (k_lk s') → lock_free LKmem (k_lk s') →
  uspace s → uspace s'.
Proof.
  intros E1 E2 Hc Hf [[_ _ (K1 & K2 & K3 & K4 & K5) H4 H5] Hu]. split; [|by rewrite E1].
  split; [done|done| |by rewrite E1|done]. split_and!; try done; by rewrite E1, ?E2.
Qed.

Lemma uspace_held lk s : lk ≠ LKmem → uspace s → uspace (set_k_lk (held lk (k_lk s)) s).
Proof.
  intros Hne H. pose proof H as [[Hc Hf _ _ _] _]. apply uspace_ext with s; ksimpl; try done.
  - by apply held_ok.
  - by apply lock_free_held.
Qed.

Lemma copyout_byte s va pa c :
  uspace s → 0 ≤ va < 2 ^ 64 → uva (k_mem s) root va = Some pa →
  copyout root va [c] s = Ok 0 (set_k_mem (wr (k_mem s) pa c) s) ∧
  uspace (set_k_mem (wr (k_mem s) pa c) s) ∧
  ∀ vb, uva (wr (k_mem s) pa c) root vb = uva (k_mem s) root vb.
Proof.
  intros [Hv Hu] Hva Hpa. assert (Hl : Z.of_nat (length [c]) < 2 ^ 64) by (simpl; lia).
  pose proof (copyout_eq G fl root s va [c] Hv Hu Hva Hl) as E. simpl uwrite in E. rewrite Hpa in E.
  destruct (copyout_keeps G fl root s va [c] _ _ Hv Hu Hva Hl E) as [Hv' Hpt]. revert Hpt. ksimpl. intros Hpt.
  split_and!; [done| |by apply uva_ext]. split; [done|]. ksimpl. intros vb Hvb. rewrite Hpt. by apply Hu.
Qed.

Lemma copyout_byte_fails s va c :
  uspace s → 0 ≤ va < 2 ^ 64 → uva (k_mem s) root va = None → copyout root va [c] s = Ok (-1) s.
Proof.
  intros [Hv Hu] Hva Hpa. assert (Hl : Z.of_nat (length [c]) < 2 ^ 64) by (simpl; lia).
  rewrite (copyout_eq G fl root s va [c] Hv Hu Hva Hl). simpl uwrite. rewrite Hpa. simpl. by destruct s.
Qed.

Lemma copyin_byte s va pa :
  uspace s → 0 ≤ va < 2 ^ 64 → uva (k_mem s) root va = Some pa →
  copyin root va 1 s = Ok ([rd (k_mem s) pa], 0) s.
Proof. intros [Hv _] Hva Hpa. rewrite (copyin_eq G fl) by (done || lia). simpl uread. by rewrite Hpa. Qed.

(** Writing one more byte. *)
Lemma uwrite_snoc tr m va l c m' :
  uwrite tr m va l = (m', true) →
  uwrite tr m va (l ++ [c]) =
    match tr (va + Z.of_nat (length l)) with Some pa => (wr m' pa c, true) | None => (m', false) end.
Proof.
  revert m va. induction l as [|b l IH]; intros m va; simpl.
  - intros [= ->]. by rewrite Z.add_0_r.
  - destruct (tr va); [|done]. intros H. rewrite (IH _ _ H). replace (va + 1 + Z.of_nat (length l)) with (va + Z.of_nat (S (length l))) by lia. done.
Qed.

Lemma uwrite_take tr m va l m' k :
  uwrite tr m va l = (m', true) → ∃ mk, uwrite tr m va (take k l) = (mk, true).
Proof.
  revert m va k. induction l as [|b l IH]; intros m va [|k]; simpl; try by eexists.
  destruct (tr va); [|done]. intros H. by eapply IH.
Qed.

Lemma uwrite_mapped tr m va l m' k c :
  uwrite tr m va l = (m', true) → l !! k = Some c → is_Some (tr (va + Z.of_nat k)).
Proof.
  revert m va k. induction l as [|b l IH]; intros m va [|k]; simpl; try done.
  - destruct (tr va) eqn:E; [|done]. rewrite Z.add_0_r. by eauto.
  - destruct (tr va); [|done]. intros H Hk. replace (va + Z.of_nat (S k)) with (va + 1 + Z.of_nat k) by lia. by eapply IH.
Qed.

Lemma uread_lookup tr m va n l k c :
  uread tr m va n = (l, true) → l !! k = Some c → ∃ pa, tr (va + Z.of_nat k) = Some pa ∧ rd m pa = c.
Proof.
  revert va k l. induction n as [|n IH]; intros va k l; simpl; [by intros [= <-]|].
  destruct (tr va) as [pa|] eqn:E; [|done]. destruct (uread tr m (va + 1) n) as [l' ok] eqn:E'. intros [= <- ->].
  destruct k as [|k]; simpl; intros Hk; [simplify_eq; exists pa; by rewrite Z.add_0_r|].
  replace (va + Z.of_nat (S k)) with (va + 1 + Z.of_nat k) by lia. by eapply IH.
Qed.

Lemma uread_length tr m va n l : uread tr m va n = (l, true) → length l = n.
Proof.
  revert va l. induction n as [|n IH]; intros va l; simpl; [by intros [= <-]|].
  destruct (tr va); [|done]. destruct (uread tr m (va + 1) n) as [l' ok] eqn:E. intros [= <- ->]. simpl. by rewrite (IH _ _ E).
Qed.
End user.

(** ** A kernel whose process 0 has one page of user memory *)

Definition user0 : kstate :=
  set_k_mem mem0 (set_k_procs (<[0%nat := set_p_pagetable R0 proc0]> (k_procs quiet0)) quiet0).

Lemma quiet_user0 : quiet 0 user0.
Proof. apply (quiet_eq 0 quiet0); [reflexivity|reflexivity|apply quiet_0]. Qed.

Lemma uspace_user0 : @uspace symbols0 sv39_pte2pa G0 [] R0 user0.
Proof.
  apply uspace_ext with vm_state0; [reflexivity|reflexivity|apply (q_cpu _ _ quiet_0)|by apply (q_locks _ _ quiet_0)|].
  split; [apply vm_ok_0|apply user_ok_0].
Qed.
