(* ===== verification/Sleeplock.v ===== *)
(** * Sleeping locks: [kernel/sleeplock.c]

    The lemmas give each operation as an equation on states; the theorem puts
    them together as the locking protocol. *)

From stdpp Require Import prelude gmap strings list.
From Stdlib Require Import ZArith Lia.
From S2P Require Import Prelude.
From S2P Require Import Monad.
From S2P Require Import Riscv.
From S2P Require Import Types.
From S2P Require Import Spinlock.
From S2P Require Import Proc.
From S2P Require Import ProcSpec.

Definition the_slock (l : slid) (s : kstate) : sleeplock := default sleeplock0 (k_slocks s !! l).
Definition upd_slock (l : slid) (f : sleeplock → sleeplock) : K unit :=
  modify (λ s, set_k_slocks (<[l := f (the_slock l s)]> (k_slocks s)) s).

Definition initsleeplock (l : slid) (name : string) : K unit :=
  initlock (LSleep l) "sleep lock" ;;;
  upd_slock l (set_slk_name name) ;;;
  upd_slock l (set_slk_locked 0) ;;;
  upd_slock l (set_slk_pid 0).

(** [while (lk->locked) sleep(lk, &lk->lk);] *)
Definition acquiresleep_body (l : slid) (_ : unit) : K (unit + unit) :=
  let! lk := gets (the_slock l) in
  if slk_locked lk <>? 0 then sleep (ChSleep l) (LSleep l) ;;; ret (inl ())
  else ret (inr ()).

Definition acquiresleep (l : slid) : K unit :=
  acquire (LSleep l) ;;;
  loop (acquiresleep_body l) () ;;;
  upd_slock l (set_slk_locked 1) ;;;
  let! p := curproc in
  let! pr := get_proc p in
  upd_slock l (set_slk_pid (p_pid pr)) ;;;
  release (LSleep l).

Definition releasesleep (l : slid) : K unit :=
  acquire (LSleep l) ;;;
  upd_slock l (set_slk_locked 0) ;;;
  upd_slock l (set_slk_pid 0) ;;;
  wakeup (ChSleep l) ;;;
  release (LSleep l).

Definition holdingsleep (l : slid) : K bool :=
  acquire (LSleep l) ;;;
  let! lk := gets (the_slock l) in
  let! r := (if slk_locked lk <>? 0 then
               let! p := curproc in
               let! pr := get_proc p in
               ret (slk_pid lk =? p_pid pr)
             else ret false) in
  release (LSleep l) ;;;
  ret r.

(** ** What the operations do *)

Lemma set_k_slocks_twice a b s : set_k_slocks a (set_k_slocks b s) = set_k_slocks a s.
Proof. by destruct s. Qed.

Lemma the_slock_insert l v m s : the_slock l (set_k_slocks (<[l := v]> m) s) = v.
Proof. unfold the_slock. ksimpl. by rewrite lookup_insert_eq. Qed.

Lemma the_slock_insert_ne l l' v m s :
  l ≠ l' → the_slock l (set_k_slocks (<[l' := v]> m) s) = default sleeplock0 (m !! l).
Proof. intros. unfold the_slock. ksimpl. by rewrite lookup_insert_ne. Qed.

(** Process [p] holds the lock / nobody does. *)
Definition owned (l : slid) (p : nat) (s : kstate) : sleeplock :=
  mkSleeplock 1 (slk_name (the_slock l s)) (p_pid (the_proc p s)).
Definition unowned (l : slid) (s : kstate) : sleeplock :=
  mkSleeplock 0 (slk_name (the_slock l s)) 0.
Definition put_slock (l : slid) (v : sleeplock) (s : kstate) : kstate :=
  set_k_slocks (<[l := v]> (k_slocks s)) s.

Lemma acquiresleep_eq l p s :
  cpu_ok (k_lk s) → lock_free (LSleep l) (k_lk s) →
  c_proc (the_cpu (k_lk s)) = Some p → slk_locked (the_slock l s) = 0 →
  acquiresleep l s = Ok () (put_slock l (owned l p s) s).
Proof.
  intros Hc Hf Hp H0. unfold acquiresleep. run_acquire Hc Hf.
  erewrite bind_ok; [|apply loop_inr; unfold acquiresleep_body; run;
    change (the_slock l (set_k_lk _ s)) with (the_slock l s); rewrite H0; reflexivity].
  unfold upd_slock, get_proc. run. ksimpl.
  erewrite bind_ok; [|apply curproc_eq; ksimpl; [by apply held_ok|by rewrite held_proc]].
  run. ksimpl. rewrite the_slock_insert, insert_insert_eq.
  change (the_proc p (set_k_slocks ?a (set_k_lk ?b s))) with (the_proc p s).
  erewrite release_eq; [|exact Hc|exact Hf|by ksimpl].
  change (the_slock l (set_k_lk _ s)) with (the_slock l s).
  unfold put_slock, owned. okeq.
Qed.

Lemma holdingsleep_eq l p s :
  cpu_ok (k_lk s) → lock_free (LSleep l) (k_lk s) →
  c_proc (the_cpu (k_lk s)) = Some p →
  holdingsleep l s = Ok ((slk_locked (the_slock l s) <>? 0) &&
                         (slk_pid (the_slock l s) =? p_pid (the_proc p s))) s.
Proof.
  intros Hc Hf Hp. unfold holdingsleep, get_proc. run_acquire Hc Hf. run.
  change (the_slock l (set_k_lk _ s)) with (the_slock l s).
  destruct (slk_locked (the_slock l s) <>? 0); cbn [andb].
  - erewrite bind_ok.
    2: { erewrite bind_ok; [|apply curproc_eq; ksimpl; [by apply held_ok|by rewrite held_proc]].
         run. reflexivity. }
    run_release Hc Hf. unfold ret. by rewrite set_k_lk_id.
  - run. run_release Hc Hf. unfold ret. by rewrite set_k_lk_id.
Qed.

Lemma releasesleep_eq l s :
  cpu_ok (k_lk s) → lock_free (LSleep l) (k_lk s) →
  proc_locks (k_lk s) → length (k_procs s) = NPROC →
  releasesleep l s = Ok () (set_k_procs (wake (ChSleep l) <$> k_procs s) (put_slock l (unowned l s) s)).
Proof.
  intros Hc Hf Hl Hn. unfold releasesleep. run_acquire Hc Hf. unfold upd_slock. run. ksimpl.
  rewrite the_slock_insert, insert_insert_eq.
  change (the_slock l (set_k_lk _ s)) with (the_slock l s).
  erewrite bind_ok; [|apply wakeup_eq; ksimpl; [by apply held_ok|by apply proc_locks_held|done]].
  ksimpl. erewrite release_eq; [|exact Hc|exact Hf|by ksimpl].
  unfold put_slock, unowned. okeq.
Qed.

(** A process that finds the lock taken goes to sleep on it. *)
Lemma acquiresleep_busy l p s :
  cpu_ok (k_lk s) → lock_free (LSleep l) (k_lk s) →
  c_proc (the_cpu (k_lk s)) = Some p → c_noff (the_cpu (k_lk s)) = 0 →
  lock_free (LProc p) (k_lk s) → (p < length (k_procs s))%nat → slk_locked (the_slock l s) ≠ 0 →
  ∃ k, acquiresleep l s = Swtch (asleep (ChSleep l) p (k_lk s) s) k.
Proof.
  intros Hc Hf Hp Hn Hfp Hlen H0. unfold acquiresleep. run_acquire Hc Hf.
  edestruct (sleep_eq (ChSleep l) (LSleep l) p (k_lk s) (set_k_lk (held (LSleep l) (k_lk s)) s))
    as (k & Ek & _); [by split_and!; ksimpl|done|done|by ksimpl|].
  assert (Eb : ∃ k', acquiresleep_body l () (set_k_lk (held (LSleep l) (k_lk s)) s) =
               Swtch (asleep (ChSleep l) p (k_lk s) s) k').
  { unfold acquiresleep_body. run. change (the_slock l (set_k_lk _ s)) with (the_slock l s).
    rewrite (proj2 (Z.eqb_neq _ _) H0). cbn [negb]. unfold bind. rewrite Ek. cbn [obind].
    eexists. reflexivity. }
  destruct Eb as [k' Eb]. destruct (loop_swtch _ _ _ _ _ Eb) as [k2 E2].
  unfold bind. rewrite E2. cbn [obind]. eexists. reflexivity.
Qed.

(** ** Properties *)

(** The sleep-lock protocol.  If the lock is free, [acquiresleep] gives it to
    the calling process: from then on [holdingsleep] is true for that process
    and false for a process with another pid, and another [acquiresleep] puts
    its caller to sleep on the lock, with the lock's spinlock free;
    [releasesleep] frees it again and makes every process that slept on it
    runnable, and no other. *)
Theorem sleeplock_protocol (l : slid) (p : nat) (s : kstate) :
  quiet p s → boot_lock (LSleep l) → slk_locked (the_slock l s) = 0 →
  wp (acquiresleep l) (λ _ s1,
    s1 = put_slock l (owned l p s) s ∧
    (∀ q t, quiet q t → the_slock l t = the_slock l s1 →
       holdingsleep l t = Ok (p_pid (the_proc p s) =? p_pid (the_proc q t)) t ∧
       (c_noff (the_cpu (k_lk t)) = 0 → ∃ t' k, acquiresleep l t = Swtch t' k ∧
         lock_free (LSleep l) (k_lk t') ∧
         the_proc q t' = set_p_state SLEEPING (set_p_chan (ChSleep l) (the_proc q t)))) ∧
    wp (releasesleep l) (λ _ s2, slk_locked (the_slock l s2) = 0 ∧
       k_procs s2 = wake (ChSleep l) <$> k_procs s1 ∧
       (∀ l', l' ≠ l → the_slock l' s2 = the_slock l' s)) s1) s.
Proof.
  intros Hq Hb H0. pose proof (q_cpu _ _ Hq) as Hc. pose proof (q_locks _ _ Hq) as Hl.
  eapply wp_ok; [apply (acquiresleep_eq l p); [done|by apply Hl|apply (q_cur _ _ Hq)|done]|]. split; [done|].
  assert (E : the_slock l (put_slock l (owned l p s) s) = owned l p s) by apply the_slock_insert.
  split.
  - intros q t Hqt Et. rewrite E in Et.
    pose proof (q_cpu _ _ Hqt) as Hct. pose proof (q_locks _ _ Hqt) as Hlt.
    split.
    + rewrite (holdingsleep_eq l q); [|done|by apply Hlt|apply (q_cur _ _ Hqt)]. by rewrite Et.
    + intros Hn. destruct (acquiresleep_busy l q t) as [k Ek]; auto.
      * apply (q_cur _ _ Hqt).
      * apply Hlt. apply (q_range _ _ Hqt).
      * rewrite (q_procs _ _ Hqt). apply (q_range _ _ Hqt).
      * by rewrite Et.
      * exists (asleep (ChSleep l) q (k_lk t) t), k. split; [done|]. split.
        { unfold asleep. ksimpl. apply lock_free_held; [done|]. by apply Hlt. }
        unfold asleep. rewrite the_proc_insert; [done|]. rewrite (q_procs _ _ Hqt). apply (q_range _ _ Hqt).
  - eapply wp_ok; [apply releasesleep_eq; [exact Hc|by apply (Hl (LSleep l))|exact (quiet_proc_locks _ _ Hq)|exact (q_procs _ _ Hq)]|].
    unfold put_slock. ksimpl. rewrite insert_insert_eq. split_and!.
    + change (slk_locked (the_slock l (set_k_slocks (<[l := unowned l (put_slock l (owned l p s) s)]> (k_slocks s)) s)) = 0).
      by rewrite the_slock_insert.
    + done.
    + intros l' Hl'. unfold the_slock at 1. ksimpl. by rewrite lookup_insert_ne.
Qed.

Lemma sleeplock_protocol_witness : wp (acquiresleep (SBuf 2)) (λ _ _, True) quiet0.
Proof.
  eapply wp_mono.
  - apply (sleeplock_protocol (SBuf 2) 0 quiet0 quiet_0); [cbn; unfold NBUF; lia|reflexivity].
  - done.
Defined.
