(* ===== verification/Uart.v ===== *)
(** * The serial port driver: [kernel/uart.c], and [consputc] of [kernel/console.c]

    Reads of the line status register return the values of the environment's
    list [io_lsr]; a line with nothing more to report is idle, with no input.
    Writes are appended to [io_writes].  [uartintr], which calls the console,
    is in [Console.v]. *)

From stdpp Require Import prelude gmap strings list.
From Stdlib Require Import ZArith Lia.
From S2P Require Import Prelude.
From S2P Require Import Monad.
From S2P Require Import Riscv.
From S2P Require Import Types.
From S2P Require Import Spinlock.
From S2P Require Import Proc.

Definition RHR : Z := 0.
Definition THR : Z := 0.
Definition IER : Z := 1.
Definition IER_TX_ENABLE : Z := Z.shiftl 1 0.
Definition IER_RX_ENABLE : Z := Z.shiftl 1 1.
Definition FCR : Z := 2.
Definition FCR_FIFO_ENABLE : Z := Z.shiftl 1 0.
Definition FCR_FIFO_CLEAR : Z := Z.shiftl 3 1.
Definition LCR : Z := 3.
Definition LCR_EIGHT_BITS : Z := Z.shiftl 3 0.
Definition LCR_BAUD_LATCH : Z := Z.shiftl 1 7.
Definition LSR : Z := 5.
Definition LSR_RX_READY : Z := Z.shiftl 1 0.
Definition LSR_TX_IDLE : Z := Z.shiftl 1 5.

Definition upd_io (f : io → io) : K unit := modify (λ s, set_k_io (f (k_io s)) s).
Definition upd_uart (f : uart → uart) : K unit := modify (λ s, set_k_uart (f (k_uart s)) s).

(** A write of a device register. *)
Definition io_write (a v : Z) : K unit :=
  upd_io (λ d, set_io_writes (io_writes d ++ [(a, v)]) d).

Definition WriteReg (reg v : Z) : K unit := io_write (UART0 + reg) (u8 v).

Definition ReadLSR : K Z :=
  let! l := gets (λ s, io_lsr (k_io s)) in
  match l with
  | [] => ret LSR_TX_IDLE
  | v :: l' => upd_io (set_io_lsr l') ;;; ret v
  end.
Definition ReadRHR : K Z :=
  let! l := gets (λ s, io_rhr (k_io s)) in
  match l with
  | [] => ret 0
  | v :: l' => upd_io (set_io_rhr l') ;;; ret (u8 v)
  end.

Definition uartinit : K unit :=
  WriteReg IER 0x00 ;;;
  WriteReg LCR LCR_BAUD_LATCH ;;;
  WriteReg 0 0x03 ;;;
  WriteReg 1 0x00 ;;;
  WriteReg LCR LCR_EIGHT_BITS ;;;
  WriteReg FCR (Z.lor FCR_FIFO_ENABLE FCR_FIFO_CLEAR) ;;;
  WriteReg IER (Z.lor IER_TX_ENABLE IER_RX_ENABLE) ;;;
  initlock LUart "uart".

Definition uartstart_body (_ : unit) : K (unit + unit) :=
  let! u := gets k_uart in
  if ua_w u =? ua_r u then ret (inr ()) else
  let! lsr := ReadLSR in
  if Z.land lsr LSR_TX_IDLE =? 0 then ret (inr ()) else
  let c := nth (Z.to_nat (ua_r u)) (ua_buf u) 0 in
  upd_uart (λ u, set_ua_r (Z.rem (ua_r u + 1) UART_TX_BUF_SIZE) u) ;;;
  wakeup ChUart ;;;
  WriteReg THR c ;;;
  ret (inl ()).
Definition uartstart : K unit := loop uartstart_body ().

Definition uartputc_body (c : Z) (_ : unit) : K (unit + unit) :=
  let! u := gets k_uart in
  if Z.rem (ua_w u + 1) UART_TX_BUF_SIZE =? ua_r u then
    sleep ChUart LUart ;;; ret (inl ())
  else
    upd_uart (λ u, set_ua_buf (<[Z.to_nat (ua_w u) := u8 c]> (ua_buf u)) u) ;;;
    upd_uart (λ u, set_ua_w (Z.rem (ua_w u + 1) UART_TX_BUF_SIZE) u) ;;;
    uartstart ;;;
    release LUart ;;;
    ret (inr ()).
Definition uartputc (c : Z) : K unit :=
  acquire LUart ;;;
  let! panicked := gets k_panicked in
  if panicked then spin else
  loop (uartputc_body c) ().

(** [while((ReadReg(LSR) & LSR_TX_IDLE) == 0) ;] *)
Definition wait_idle (_ : unit) : K (unit + unit) :=
  let! lsr := ReadLSR in
  if Z.land lsr LSR_TX_IDLE =? 0 then ret (inl ()) else ret (inr ()).
Definition uartputc_sync (c : Z) : K unit :=
  push_off ;;;
  let! panicked := gets k_panicked in
  if panicked then spin else
  loop wait_idle () ;;;
  WriteReg THR c ;;;
  pop_off.

Definition uartgetc : K Z :=
  let! lsr := ReadLSR in
  if Z.land lsr 0x01 <>? 0 then ReadRHR else ret (-1).

(** ** [consputc] *)

Definition BACKSPACE : Z := 0x100.

Definition consputc (c : Z) : K unit :=
  if c =? BACKSPACE then
    uartputc_sync 8 ;;; uartputc_sync 32 ;;; uartputc_sync 8
  else uartputc_sync c.
