(* ===== verification/Printf.v ===== *)
(** * Formatted console output: [kernel/printf.c], and [procdump] of [kernel/proc.c]

    A format string and a [%s] argument are the bytes before the NUL; a null
    pointer is [None]. *)

From stdpp Require Import prelude gmap strings list.
From Stdlib Require Import ZArith Lia.
From S2P Require Import Prelude.
From S2P Require Import Monad.
From S2P Require Import Riscv.
From S2P Require Import Types.
From S2P Require Import Mem.
From S2P Require Import Spinlock.
From S2P Require Import Proc.
From S2P Require Import Uart.

Definition digits : list Z := bytes_of "0123456789abcdef".
Definition digit (d : Z) : Z := nth (Z.to_nat d) digits 0.

(** [do { buf[i++] = digits[x % base]; } while((x /= base) != 0);]: the contents of
    [buf], index 0 first.  A 32-bit number has at most 32 digits. *)
Fixpoint printint_digits (fuel : nat) (x base : Z) : list Z :=
  match fuel with
  | O => []
  | S f => digit (x mod base) :: (if x / base =? 0 then [] else printint_digits f (x / base) base)
  end.

(** [buf] when the last loop of [printint] starts. *)
Definition printint_buf (xx base : Z) (sign : bool) : list Z :=
  let neg := sign && (xx <? 0) in
  let x := if neg then u32 (- xx) else u32 xx in
  printint_digits 32 x base ++ (if neg then [45] else []).

Fixpoint consputs (l : list Z) : K unit :=
  match l with
  | [] => ret ()
  | c :: l' => consputc c ;;; consputs l'
  end.

(** [while(--i >= 0) consputc(buf[i]);] *)
Definition printint (xx base : Z) (sign : bool) : K unit :=
  consputs (reverse (printint_buf xx base sign)).

(** [for (i = 0; i < 16; i++, x <<= 4) consputc(digits[x >> 60]);] *)
Fixpoint printptr_loop (n : nat) (x : Z) : K unit :=
  match n with
  | O => ret ()
  | S n' => consputc (digit (Z.shiftr x 60)) ;;; printptr_loop n' (u64 (Z.shiftl x 4))
  end.
Definition printptr (x : Z) : K unit :=
  consputc 48 ;;; consputc 120 ;;; printptr_loop 16 (u64 x).

(** A variable argument. *)
Inductive parg := PNum (x : Z) | PStr (s : option (list Z)).
Definition arg_num (ap : list parg) : Z := match ap with PNum x :: _ => x | _ => 0 end.
Definition arg_str (ap : list parg) : option (list Z) :=
  match ap with PStr s :: _ => s | _ => None end.

(** The loop over the format, from the character [fmt[i]] on. *)
Fixpoint printf_loop (fmt : list Z) (ap : list parg) : K unit :=
  match fmt with
  | [] => ret ()
  | c :: fmt' =>
      if c <>? 37 then consputc c ;;; printf_loop fmt' ap
      else match fmt' with
      | [] => ret ()
      | c :: fmt'' =>
          if c =? 100 then printint (i32 (arg_num ap)) 10 true ;;; printf_loop fmt'' (tail ap)
          else if c =? 120 then printint (i32 (arg_num ap)) 16 true ;;; printf_loop fmt'' (tail ap)
          else if c =? 112 then printptr (arg_num ap) ;;; printf_loop fmt'' (tail ap)
          else if c =? 115 then
            consputs (default (bytes_of "(null)") (arg_str ap)) ;;; printf_loop fmt'' (tail ap)
          else if c =? 37 then consputc 37 ;;; printf_loop fmt'' ap
          else consputc 37 ;;; consputc c ;;; printf_loop fmt'' ap
      end
  end.

Definition printf (fmt : option (list Z)) (ap : list parg) : K unit :=
  let! locking := gets k_locking in
  when locking (acquire LPr) ;;;
  match fmt with
  | None => panic "null fmt"
  | Some fmt => printf_loop fmt ap ;;; when locking (release LPr)
  end.

(** The function [panic]: what the constructor [Panic] stands for. *)
Definition panic_fn (msg : list Z) : K unit :=
  modify (set_k_locking false) ;;;
  printf (Some (bytes_of "panic: ")) [] ;;;
  printf (Some msg) [] ;;;
  printf (Some [10]) [] ;;;
  modify (set_k_panicked true) ;;;
  spin.

Definition printfinit : K unit :=
  initlock LPr "pr" ;;;
  modify (set_k_locking true).

(** ** [procdump] *)

Definition state_name (st : procstate) : list Z :=
  bytes_of match st with
           | UNUSED => "unused" | SLEEPING => "sleep " | RUNNABLE => "runble"
           | RUNNING => "run   " | ZOMBIE => "zombie"
           end.

Definition procdump : K unit :=
  printf (Some [10]) [] ;;;
  let! _ := for_ (R := unit) NPROC 0 (λ i,
    let! p := get_proc i in
    if decide (p_state p = UNUSED) then ret None else
    printf (Some (bytes_of "%d %s %s"))
      [PNum (p_pid p); PStr (Some (state_name (p_state p))); PStr (Some (cstr (p_name p)))] ;;;
    printf (Some [10]) [] ;;;
    ret None) in
  ret ().
