(* ===== verification/Console.v ===== *)
(** * The console: [kernel/console.c], and [uartintr] of [kernel/uart.c] *)

From stdpp Require Import prelude gmap strings list.
From Stdlib Require Import ZArith Lia.
From S2P Require Import Prelude.
From S2P Require Import Monad.
From S2P Require Import Riscv.
From S2P Require Import Types.
From S2P Require Import Mem.
From S2P Require Import Spinlock.
From S2P Require Import Vm.
From S2P Require Import Proc.
From S2P Require Import Uart.
From S2P Require Import Printf.

Definition C_P : Z := 16.
Definition C_U : Z := 21.
Definition C_H : Z := 8.
Definition C_D : Z := 4.

Definition upd_cons (f : cons → cons) : K unit := modify (λ s, set_k_cons (f (k_cons s)) s).
(** [cons.buf[i % INPUT_BUF]] *)
Definition cons_at (i : Z) (co : cons) : Z := nth (Z.to_nat (i mod INPUT_BUF)) (co_buf co) 0.

Section console.
Context {PF : PteFormat}.

Definition consolewrite_body (user_src : bool) (src n : Z) (i : Z) : K (Z + Z) :=
  if negb (i <? n) then ret (inr i) else
  let! (l, r) := either_copyin user_src (u64 (src + i)) 1 in
  if r =? -1 then ret (inr i) else
  uartputc (nth 0 l 0) ;;;
  ret (inl (i + 1)).
Definition consolewrite (user_src : bool) (src n : Z) : K Z :=
  acquire LCons ;;;
  let! i := loop (consolewrite_body user_src src n) 0 in
  release LCons ;;;
  ret i.

(** [while(cons.r == cons.w)]: [true] when the process was killed. *)
Definition consoleread_wait (_ : unit) : K (unit + bool) :=
  let! co := gets k_cons in
  if co_r co =? co_w co then
    let! p := curproc in
    let! pr := get_proc p in
    if p_killed pr <>? 0 then ret (inr true)
    else sleep ChCons LCons ;;; ret (inl ())
  else ret (inr false).

(** The loop variables are [dst] and [n]; it leaves with [None] for the early
    [return -1] and with [Some n] otherwise. *)
Definition consoleread_body (user_dst : bool) (target : Z) (x : Z * Z) :
    K (Z * Z + option Z) :=
  let '(dst, n) := x in
  if negb (0 <? n) then ret (inr (Some n)) else
  let! killed := loop consoleread_wait () in
  if killed then release LCons ;;; ret (inr None) else
  let! co := gets k_cons in
  let c := cons_at (co_r co) co in
  upd_cons (λ co, set_co_r (u32 (co_r co + 1)) co) ;;;
  if c =? C_D then
    when (n <? target) (upd_cons (λ co, set_co_r (u32 (co_r co - 1)) co)) ;;;
    ret (inr (Some n))
  else
  let! r := either_copyout user_dst dst [c] in
  if r =? -1 then ret (inr (Some n)) else
  if c =? 10 then ret (inr (Some (n - 1)))
  else ret (inl (u64 (dst + 1), n - 1)).

Definition consoleread (user_dst : bool) (dst n : Z) : K Z :=
  let target := u32 n in
  acquire LCons ;;;
  let! r := loop (consoleread_body user_dst target) (dst, n) in
  match r with
  | None => ret (-1)
  | Some n => release LCons ;;; ret (i32 (target - n))
  end.
End console.

Definition kill_line_body (_ : unit) : K (unit + unit) :=
  let! co := gets k_cons in
  if (co_e co <>? co_w co) && (cons_at (u32 (co_e co - 1)) co <>? 10) then
    upd_cons (λ co, set_co_e (u32 (co_e co - 1)) co) ;;;
    consputc BACKSPACE ;;;
    ret (inl ())
  else ret (inr ()).

Definition consoleintr (c : Z) : K unit :=
  acquire LCons ;;;
  (if c =? C_P then procdump
   else if c =? C_U then loop kill_line_body ()
   else if (c =? C_H) || (c =? 0x7f) then
     let! co := gets k_cons in
     when (co_e co <>? co_w co)
       (upd_cons (λ co, set_co_e (u32 (co_e co - 1)) co) ;;; consputc BACKSPACE)
   else
     let! co := gets k_cons in
     when ((c <>? 0) && (u32 (co_e co - co_r co) <? INPUT_BUF))
       (let c := if c =? 13 then 10 else c in
        consputc c ;;;
        upd_cons (λ co, set_co_e (u32 (co_e co + 1))
          (set_co_buf (<[Z.to_nat (co_e co mod INPUT_BUF) := u8 c]> (co_buf co)) co)) ;;;
        let! co := gets k_cons in
        when ((c =? 10) || (c =? C_D) || (co_e co =? u32 (co_r co + INPUT_BUF)))
          (upd_cons (λ co, set_co_w (co_e co) co) ;;; wakeup ChCons))) ;;;
  release LCons.

Definition consoleinit : K unit :=
  initlock LCons "cons" ;;;
  uartinit ;;;
  modify (λ s, set_k_devsw
    (<[Z.to_nat CONSOLE := (Some CONSOLEREAD, Some CONSOLEWRITE)]> (k_devsw s)) s).

(** ** [uartintr] *)

Definition uartintr_body (_ : unit) : K (unit + unit) :=
  let! c := uartgetc in
  if c =? -1 then ret (inr ())
  else consoleintr c ;;; ret (inl ()).
Definition uartintr : K unit :=
  loop uartintr_body () ;;;
  acquire LUart ;;;
  uartstart ;;;
  release LUart.
