(* ===== verification/ConsoleSpec.v ===== *)
(** * The serial line and the line editor of the console

    What the uart driver sends and in which order, and the line editor that
    [consoleintr] implements on a circular buffer: an abstract editor
    on two lists, the bytes that a reader may take and the line that is being
    typed, which the code is shown to refine. *)

From stdpp Require Import prelude gmap strings list.
From Stdlib Require Import ZArith Lia.
From S2P Require Import Prelude.
From S2P Require Import Ring.
From S2P Require Import Monad.
From S2P Require Import Riscv.
From S2P Require Import Types.
From S2P Require Import Mem.
From S2P Require Import Spinlock.
From S2P Require Import Kalloc.
From S2P Require Import Proc.
From S2P Require Import ProcSpec.
From S2P Require Import Vm.
From S2P Require Import VmSpec.
From S2P Require Import UserMem.
From S2P Require Import Uart.
From S2P Require Import Printf.
From S2P Require Import Console.

(** ** Sending without interrupts *)

(** Writes of the transmit register. *)
Definition out (l : list Z) : list (Z * Z) := (λ c, (UART0 + THR, u8 c)) <$> l.

(** The device after [l] has been sent; some readings of the status register are used up. *)
Definition tx_io (l lsr : list Z) (d : io) : io := set_io_writes (io_writes d ++ out l) (set_io_lsr lsr d).
Definition tx (l : list Z) (s s' : kstate) : Prop :=
  ∃ lsr, lsr `suffix_of` io_lsr (k_io s) ∧ s' = set_k_io (tx_io l lsr (k_io s)) s.

(** The kernel has not panicked, and its traces are shorter than a loop may run. *)
Definition uart_ok (s : kstate) : Prop :=
  cpu_ok (k_lk s) ∧ k_panicked s = false ∧ Z.of_nat (length (io_lsr (k_io s))) < 2 ^ 64.

Lemma tx_nil s : tx [] s s.
Proof.
  exists (io_lsr (k_io s)). split; [done|]. unfold tx_io. simpl. rewrite app_nil_r.
  destruct s as [? ? ? ? ? ? ? ? ? ? ? ? ? ? ? ? ? ? ? ? ? ? ? ? d ?]. by destruct d.
Qed.

Lemma tx_app l1 l2 s1 s2 s3 : tx l1 s1 s2 → tx l2 s2 s3 → tx (l1 ++ l2) s1 s3.
Proof.
  intros (r1 & H1 & ->) (r2 & H2 & ->). exists r2. revert H2. ksimpl. unfold tx_io. ksimpl. intros H2.
  split; [by etrans|]. unfold out. by rewrite fmap_app, (assoc_L (++)).
Qed.

Lemma tx_uart_ok l s s' : tx l s s' → uart_ok s → uart_ok s'.
Proof.
  intros (r & Hr & ->) (H1 & H2 & H3). unfold uart_ok. ksimpl. unfold tx_io. ksimpl.
  split_and!; [done|done|]. apply suffix_length in Hr. lia.
Qed.

Lemma read_lsr_eq s :
  ReadLSR s = Ok (hd LSR_TX_IDLE (io_lsr (k_io s))) (set_k_io (set_io_lsr (tl (io_lsr (k_io s))) (k_io s)) s).
Proof.
  unfold ReadLSR, upd_io. run. destruct s as [? ? ? ? ? ? ? ? ? ? ? ? ? ? ? ? ? ? ? ? ? ? ? ? d ?].
  destruct d as [? ? [|v l] ? ?]; reflexivity.
Qed.

Lemma suffix_tl {A} (l : list A) : tl l `suffix_of` l.
Proof. destruct l as [|x l]; [done|]. by exists [x]. Qed.

Lemma wait_idle_ok s :
  Z.of_nat (length (io_lsr (k_io s))) < 2 ^ 64 →
  wp (loop wait_idle ()) (λ _ s', tx [] s s') s.
Proof.
  intros Hl. apply (wp_loop_ghost wait_idle (λ n _ t, n = length (io_lsr (k_io t)) ∧ tx [] s t))
    with (n := length (io_lsr (k_io s))); [|split; [done|apply tx_nil]|done].
  intros n [] t [-> Ht]. unfold wait_idle. rewrite wp_bind. eapply wp_ok; [apply read_lsr_eq|].
  set (t' := set_k_io _ _). assert (tx [] s t') as Ht'.
  { eapply (tx_app [] []); [done|]. exists (tl (io_lsr (k_io t))). split; [apply suffix_tl|].
    unfold t', tx_io. simpl. rewrite app_nil_r.
    destruct t as [? ? ? ? ? ? ? ? ? ? ? ? ? ? ? ? ? ? ? ? ? ? ? ? d ?]. by destruct d. }
  destruct (io_lsr (k_io t)) as [|v r] eqn:E; simpl hd.
  - change (Z.land LSR_TX_IDLE LSR_TX_IDLE =? 0) with false. by rewrite wp_ret.
  - destruct (Z.land v LSR_TX_IDLE =? 0); rewrite wp_ret; [|done].
    exists (length (io_lsr (k_io t'))). split; [|done]. unfold t'. ksimpl. simpl. lia.
Qed.

Lemma uartputc_sync_ok c s : uart_ok s → wp (uartputc_sync c) (λ _ s', tx [c] s s') s.
Proof.
  intros (Hc & Hp & Hl). unfold uartputc_sync. rewrite wp_bind. eapply wp_ok; [by apply push_off_eq|].
  rewrite wp_bind, wp_gets. ksimpl. rewrite Hp, wp_bind. eapply wp_mono; [apply wait_idle_ok; by ksimpl|].
  intros [] t (r & Hr & ->). revert Hr. ksimpl. intros Hr.
  unfold WriteReg, io_write, upd_io. rewrite wp_bind, wp_modify. eapply wp_ok; [apply (pop_off_pushed _ (k_lk s)); by ksimpl|].
  exists r. split; [done|]. unfold tx_io. ksimpl. simpl. rewrite app_nil_r. keq.
Qed.

(** What a character looks like on the line. *)
Definition rubout : list Z := [8; 32; 8].
Definition echo (c : Z) : list Z := if c =? BACKSPACE then rubout else [c].

Lemma consputc_ok c s : uart_ok s → wp (consputc c) (λ _ s', tx (echo c) s s') s.
Proof.
  intros H. unfold consputc, echo. case_match; [|by apply uartputc_sync_ok].
  rewrite wp_bind. eapply wp_mono; [by apply uartputc_sync_ok|]. intros [] s1 H1.
  rewrite wp_bind. eapply wp_mono; [apply uartputc_sync_ok; by eapply tx_uart_ok|]. intros [] s2 H2.
  eapply wp_mono; [apply uartputc_sync_ok; eapply tx_uart_ok; [done|by eapply tx_uart_ok]|]. intros [] s3 H3.
  eapply (tx_app [8] [32; 8]); [done|]. by eapply (tx_app [32] [8]).
Qed.

(** ** The transmit queue *)

(** The bytes that wait to be sent. *)
Record uart_holds (u : uart) (q : list Z) : Prop := mkuart_holds {
  uh_len : length (ua_buf u) = 32%nat;
  uh_room : (length q < 32)%nat;
  uh_r : 0 ≤ ua_r u < 32;
  uh_w : ua_w u = (ua_r u + Z.of_nat (length q)) mod 32;
  uh_bytes : ring_holds 32 (ua_buf u) (ua_r u) q
}.

Lemma uart_pop u c q : uart_holds u (c :: q) →
  nth (Z.to_nat (ua_r u)) (ua_buf u) 0 = c ∧ (ua_w u =? ua_r u) = false ∧
  uart_holds (set_ua_r (Z.rem (ua_r u + 1) UART_TX_BUF_SIZE) u) q.
Proof.
  intros [H1 H2 H3 H4 H5]. apply ring_pop in H5 as [Hc H5]. unfold ring_at in Hc.
  rewrite (Z.mod_small (ua_r u)) in Hc by done. change UART_TX_BUF_SIZE with 32. rewrite Z.rem_mod_nonneg by lia.
  simpl in H2, H4. split_and!; [done|rewrite H4; apply Z.eqb_neq; mlia|].
  split; ksimpl; try done; try lia.
  - apply Z.mod_pos_bound. lia.
  - rewrite H4, Zplus_mod_idemp_l. f_equal. lia.
  - eapply ring_holds_mod; [|exact H5]. by rewrite Zmod_mod.
Qed.

Lemma uart_push u c q : uart_holds u q → (length q < 31)%nat →
  (Z.rem (ua_w u + 1) UART_TX_BUF_SIZE =? ua_r u) = false ∧
  uart_holds (set_ua_w (Z.rem (ua_w u + 1) UART_TX_BUF_SIZE) (set_ua_buf (<[Z.to_nat (ua_w u) := c]> (ua_buf u)) u)) (q ++ [c]).
Proof.
  intros [H1 H2 H3 H4 H5] Hq. change UART_TX_BUF_SIZE with 32.
  assert (0 ≤ ua_w u < 32) by (rewrite H4; apply Z.mod_pos_bound; lia). rewrite Z.rem_mod_nonneg by lia.
  split; [apply Z.eqb_neq; rewrite H4; mlia|]. split; ksimpl; rewrite ?length_insert, ?length_app; simpl; try done; try lia.
  - rewrite H4, Zplus_mod_idemp_l. f_equal. lia.
  - rewrite <- (Z.mod_small (ua_w u) 32) at 1 by done. apply ring_push; [done|lia|lia| |done]. by rewrite H4, Zmod_mod.
Qed.

(** [sent] has left the queue; a process that waits for room is woken. *)
Definition started (sent : list Z) (u : uart) (lsr : list Z) (s : kstate) : kstate :=
  set_k_uart u (set_k_io (tx_io sent lsr (k_io s))
    (set_k_procs (if decide (sent = []) then k_procs s else wake ChUart <$> k_procs s) s)).

Lemma wake_twice ch (l : list proc) : wake ch <$> (wake ch <$> l) = wake ch <$> l.
Proof.
  rewrite <- list_fmap_compose. apply list_fmap_ext. intros _ p _. unfold compose, wake.
  destruct (is_sleeping p && bool_decide (p_chan p = ch)) eqn:E; [|by rewrite E]. by destruct p.
Qed.

Definition busy (v : Z) : Prop := Z.land v LSR_TX_IDLE = 0.

Lemma uartstart_ok q s :
  cpu_ok (k_lk s) → proc_locks (k_lk s) → length (k_procs s) = NPROC → uart_holds (k_uart s) q →
  Forall is_byte q →
  wp uartstart (λ _ s', ∃ sent rest u lsr, q = sent ++ rest ∧ uart_holds u rest ∧
    lsr `suffix_of` io_lsr (k_io s) ∧ (rest = [] ∨ Exists busy (io_lsr (k_io s))) ∧ s' = started sent u lsr s) s.
Proof.
  intros Hc Hl Hn Hq Hb.
  apply (wp_loop_ghost uartstart_body (λ n _ t, ∃ sent rest u lsr, q = sent ++ rest ∧ n = length rest ∧
    uart_holds u rest ∧ lsr `suffix_of` io_lsr (k_io s) ∧ t = started sent u lsr s)) with (n := length q).
  2:{ exists [], q, (k_uart s), (io_lsr (k_io s)). split_and!; try done. unfold started, tx_io. simpl. rewrite app_nil_r.
      destruct s as [? ? ? ? ? ? ? ? ? ? ? ? ? ? ? ? ? ? ? ? ? ? ? ? d ?]. by destruct d. }
  2:{ destruct Hq as [_ H _ _ _]. lia. }
  intros n [] t (sent & rest & u & lsr & -> & -> & Hu & Hs & ->). unfold uartstart_body. rewrite wp_bind, wp_gets.
  unfold started. ksimpl. destruct rest as [|c rest].
  { pose proof Hu as [H1 H2 H3 H4 H5]. rewrite H4. simpl. rewrite Z.add_0_r, Z.mod_small, Z.eqb_refl by done.
    rewrite wp_ret. exists sent, [], u, lsr. split_and!; try done. by left. }
  pose proof Hu as (Ec & Hne & Hu')%uart_pop. rewrite Hne, wp_bind. eapply wp_ok; [apply read_lsr_eq|]. ksimpl.
  unfold tx_io. ksimpl. destruct (Z.land (hd LSR_TX_IDLE lsr) LSR_TX_IDLE =? 0) eqn:E.
  { rewrite wp_ret. exists sent, (c :: rest), u, (tl lsr). split_and!; try done.
    - etrans; [apply suffix_tl|done].
    - right. destruct lsr as [|v lsr]; [done|]. apply Z.eqb_eq in E. destruct Hs as [l0 Hs]. rewrite Hs.
      apply Exists_app. right. by constructor.
  }
  unfold upd_uart. rewrite wp_bind, wp_modify. ksimpl. rewrite wp_bind.
  eapply wp_ok; [apply wakeup_eq; ksimpl; [done|done|destruct (decide _); [done|by rewrite length_fmap]]|]. ksimpl.
  unfold WriteReg, io_write, upd_io. rewrite wp_bind, wp_modify, wp_ret. ksimpl.
  exists (length rest). split; [simpl; lia|]. eexists (sent ++ [c]), rest, _, (tl lsr).
  rewrite <- (assoc_L (++)). split_and!; [done|done|exact Hu'|etrans; [apply suffix_tl|done]|].
  rewrite Ec. unfold started, tx_io. rewrite (decide_False (P := sent ++ [c] = [])) by (by intros [_ ?]%app_nil).
  unfold out. rewrite fmap_app. simpl. rewrite (assoc_L (++)).
  replace (wake ChUart <$> (if decide (sent = []) then k_procs s else wake ChUart <$> k_procs s)) with (wake ChUart <$> k_procs s)
    by (destruct (decide (sent = [])); [done|by rewrite wake_twice]). ksimpl. keq.
Qed.

(** The transmit queue is a queue.  With bytes [q] waiting in the circular buffer of the
    driver, [uartputc(c)] puts [c] behind them and starts the line: what it sends followed by
    what waits afterwards is exactly [q ++ [c]], in order, nothing lost or sent twice;
    bytes are left only when the line reported itself busy; processes waiting for room
    are woken when something left.  When 31 bytes wait, the caller sleeps on the read
    index instead, with its lock released and the queue as it was. *)
Theorem uart_fifo p q c s :
  quiet p s → k_panicked s = false → uart_holds (k_uart s) q → Forall is_byte (q ++ [c]) →
  if decide (length q = 31%nat)
  then ∃ k, uartputc c s = Swtch (asleep ChUart p (k_lk s) (set_k_lk (held LUart (k_lk s)) s)) k
  else wp (uartputc c) (λ _ s', ∃ sent rest u lsr, q ++ [c] = sent ++ rest ∧ uart_holds u rest ∧
    lsr `suffix_of` io_lsr (k_io s) ∧ (rest = [] ∨ Exists busy (io_lsr (k_io s))) ∧ s' = started sent u lsr s) s.
Proof.
  intros Hq Hp Hu Hb. assert (Hf : lock_free LUart (k_lk s)) by (by apply (q_locks _ _ Hq)).
  pose proof (q_cpu _ _ Hq) as Hc. unfold uartputc. case_decide as Hfull.
  - rewrite (bind_ok _ _ _ _ _ (acquire_eq _ _ Hc Hf)). run. ksimpl. rewrite Hp.
    destruct (sleep_eq ChUart LUart p (k_lk s) (set_k_lk (held LUart (k_lk s)) s)) as (k & E & _).
    { split_and!; [done|by ksimpl|apply Hq|apply Hq|done]. }
    { done. } { apply (q_locks _ _ Hq). simpl. apply Hq. } { ksimpl. rewrite (q_procs _ _ Hq). apply Hq. }
    destruct (loop_swtch (uartputc_body c) () (set_k_lk (held LUart (k_lk s)) s)
      (asleep ChUart p (k_lk s) (set_k_lk (held LUart (k_lk s)) s)) (λ t, obind (k t) (λ _, ret (inl ())))) as [k' Ek]; [|by exists k'].
    unfold uartputc_body. run. ksimpl. destruct Hu as [H1 H2 H3 H4 H5].
    rewrite (proj2 (Z.eqb_eq _ _)); [by rewrite (bind_swtch _ _ _ _ _ E)|].
    change UART_TX_BUF_SIZE with 32. rewrite Z.rem_mod_nonneg by mlia. rewrite H4, Hfull. mlia.
  - rewrite wp_bind, wp_acquire, wp_bind, wp_gets by done. ksimpl. rewrite Hp.
    assert (length q < 31)%nat as Hlen by (destruct Hu; lia). destruct (uart_push _ c _ Hu Hlen) as [Hne Hu'].
    apply Forall_app in Hb as Hbs. destruct Hbs as [_ Hcb]. inversion_clear Hcb as [|? ? Hcb' _]. unfold is_byte in Hcb'.
    destruct (λ E, uartstart_ok (q ++ [c]) (set_k_uart (set_ua_w (Z.rem (ua_w (k_uart s) + 1) UART_TX_BUF_SIZE)
      (set_ua_buf (<[Z.to_nat (ua_w (k_uart s)) := c]> (ua_buf (k_uart s))) (k_uart s)))
      (set_k_lk (held LUart (k_lk s)) s)) (held_ok _ _ Hc) (proc_locks_held _ _ E (quiet_proc_locks _ _ Hq)) (q_procs _ _ Hq) Hu' Hb)
      as ([] & t & Et & sent & rest & u & lsr & E1 & E2 & E3 & E4 & E5); [done|].
    eapply wp_ok; [apply (loop_inr _ _ _ () (set_k_lk (k_lk s) t))|].
    + unfold uartputc_body, upd_uart. run. ksimpl. rewrite Hne. run. ksimpl. rewrite u8_small by lia.
      rewrite (bind_ok _ _ _ _ _ Et). erewrite bind_ok; [|apply (release_eq LUart _ (k_lk s)); [done|done|rewrite E5; unfold started; by ksimpl]]. done.
    + exists sent, rest, u, lsr. rewrite E5. split_and!; done.
Qed.

(** ** The line editor *)

(** What the console holds: [rd] may be read, [ed] is the line being typed. *)
Record cons_holds (co : cons) (rd ed : list Z) : Prop := mkcons_holds {
  ch_len : length (co_buf co) = Z.to_nat INPUT_BUF;
  ch_room : Z.of_nat (length rd + length ed) ≤ INPUT_BUF;
  ch_r : 0 ≤ co_r co < 2 ^ 32;
  ch_w : co_w co = u32 (co_r co + Z.of_nat (length rd));
  ch_e : co_e co = u32 (co_r co + Z.of_nat (length rd + length ed));
  ch_bytes : ring_holds INPUT_BUF (co_buf co) (co_r co) (rd ++ ed);
  ch_line : Forall (λ c, c ≠ 10) ed
}.

Record edited := mkEdited { e_rd : list Z; e_ed : list Z; e_echo : list Z; e_wake : bool }.

(** One character typed: the two lists, the echo, and whether readers are woken.  A
    line is handed over at a newline, at an end of file, or when the buffer is full;
    a character that does not fit is dropped. *)
Definition edit (c : Z) (rd ed : list Z) : edited :=
  if c =? C_U then mkEdited rd [] (concat (replicate (length ed) rubout)) false
  else if (c =? C_H) || (c =? 0x7f) then
    mkEdited rd (take (length ed - 1) ed) (if decide (ed = []) then [] else rubout) false
  else if (c =? 0) || (INPUT_BUF <=? Z.of_nat (length rd + length ed)) then mkEdited rd ed [] false
  else
    let c := if c =? 13 then 10 else c in
    if (c =? 10) || (c =? C_D) || (Z.of_nat (length rd + length ed + 1) =? INPUT_BUF)
    then mkEdited (rd ++ ed ++ [c]) [] [c] true else mkEdited rd (ed ++ [c]) [c] false.

Lemma cons_at_ring i co : cons_at (u32 i) co = ring_at INPUT_BUF (co_buf co) i.
Proof. unfold cons_at, ring_at. rewrite u32_mod_ring; done. Qed.

(** The index of the last typed character. *)
Lemma cons_last co rd ed x :
  cons_holds co rd (ed ++ [x]) → cons_at (u32 (co_e co - 1)) co = x ∧ (co_e co =? co_w co) = false ∧
  cons_holds (set_co_e (u32 (co_e co - 1)) co) rd ed.
Proof.
  intros [H1 H2 H3 H4 H5 H6 H7]. rewrite length_app in H2, H5. simpl in H2, H5.
  change INPUT_BUF with 128 in H2.
  assert (Ee : u32 (co_e co - 1) = u32 (co_r co + Z.of_nat (length rd + length ed))).
  { rewrite H5, u32_sub_idemp. f_equal. lia. }
  split_and!.
  - rewrite Ee, cons_at_ring. rewrite (assoc_L (++)) in H6. apply ring_last in H6. by rewrite <- length_app.
  - rewrite H5, H4, u32_eq_add by lia. apply Z.eqb_neq. lia.
  - apply Forall_app in H7 as [H7 _]. rewrite (assoc_L (++)) in H6. apply ring_holds_app in H6 as [H6 _].
    split; ksimpl; try done. change INPUT_BUF with 128. lia.
Qed.

Lemma kill_line_ok rd ed s :
  uart_ok s → cons_holds (k_cons s) rd ed →
  wp (loop kill_line_body ()) (λ _ s', ∃ co, cons_holds co rd [] ∧
    tx (concat (replicate (length ed) rubout)) (set_k_cons co s) s') s.
Proof.
  intros Hu Hh.
  apply (wp_loop_ghost kill_line_body (λ n _ t, ∃ ed1 ed2 co, ed = ed1 ++ ed2 ∧ n = length ed1 ∧
    cons_holds co rd ed1 ∧ tx (concat (replicate (length ed2) rubout)) (set_k_cons co s) t))
    with (n := length ed).
  2:{ exists ed, [], (k_cons s). rewrite app_nil_r. split_and!; try done.
      replace (set_k_cons (k_cons s) s) with s by (by destruct s). apply tx_nil. }
  2:{ destruct Hh as [_ H _ _ _ _ _]. change INPUT_BUF with 128 in H. lia. }
  intros n [] t (ed1 & ed2 & co & -> & -> & Hc & Ht). unfold kill_line_body.
  assert (Et : k_cons t = co) by (destruct Ht as (r & _ & ->); by ksimpl).
  assert (Hut : uart_ok t).
  { eapply tx_uart_ok; [done|]. revert Hu. unfold uart_ok. by ksimpl. }
  rewrite wp_bind, wp_gets, Et. destruct ed1 as [|x ed1 _] using rev_ind.
  { assert ((co_e co =? co_w co) = true) as ->.
    { destruct Hc as [_ H _ E1 E2 _ _]. simpl in *. rewrite E1, E2, Nat.add_0_r. apply Z.eqb_refl. }
    simpl. rewrite wp_ret. by exists co. }
  pose proof (ch_line _ _ _ Hc) as Hnl. apply Forall_app in Hnl as [_ Hx]. inversion_clear Hx as [|? ? Hx10 _].
  apply cons_last in Hc as (Hx & Hne & Hc). rewrite Hx, Hne. zdec.
  unfold upd_cons. rewrite wp_bind, wp_modify, wp_bind, Et.
  eapply wp_mono; [apply consputc_ok; revert Hut; unfold uart_ok; by ksimpl|].
  intros [] t2 Ht2. rewrite wp_ret. exists (length ed1). rewrite length_app. split; [simpl; lia|].
  exists ed1, (x :: ed2), (set_co_e (u32 (co_e co - 1)) co). rewrite <- (assoc_L (++)). split_and!; try done.
  destruct Ht as (r & Hr & ->). revert Ht2 Hr. ksimpl. intros Ht2 Hr.
  simpl length. rewrite replicate_S_end, concat_app. simpl concat. eapply tx_app; [|exact Ht2].
  exists r. split; [by ksimpl|]. keq.
Qed.

(** A character is stored at the edit index. *)
Lemma cons_store co rd ed x :
  cons_holds co rd ed → Z.of_nat (length rd + length ed) < INPUT_BUF → x ≠ 10 →
  cons_holds (set_co_e (u32 (co_e co + 1))
    (set_co_buf (<[Z.to_nat (co_e co mod INPUT_BUF) := x]> (co_buf co)) co)) rd (ed ++ [x]).
Proof.
  intros [H1 H2 H3 H4 H5 H6 H7] Hr Hx. change INPUT_BUF with 128 in Hr. split; ksimpl; try done.
  - by rewrite length_insert.
  - rewrite length_app. change INPUT_BUF with 128. simpl. lia.
  - rewrite H5, u32_add_idemp, length_app. f_equal. simpl. lia.
  - rewrite (assoc_L (++)). apply ring_push; [done|by rewrite H1|rewrite length_app; change INPUT_BUF with 128; lia| |done].
    rewrite H5, u32_mod_ring, length_app by done. f_equal.
  - by apply Forall_app_2; [|constructor].
Qed.

(** The line is handed over. *)
Lemma cons_commit co rd ed x :
  cons_holds co rd ed → Z.of_nat (length rd + length ed) < INPUT_BUF →
  let co' := set_co_e (u32 (co_e co + 1)) (set_co_buf (<[Z.to_nat (co_e co mod INPUT_BUF) := x]> (co_buf co)) co) in
  cons_holds (set_co_w (co_e co') co') (rd ++ ed ++ [x]) [].
Proof.
  intros [H1 H2 H3 H4 H5 H6 H7] Hr co'. change INPUT_BUF with 128 in Hr.
  assert (El : length (rd ++ ed ++ [x]) = (length rd + length ed + 1)%nat) by (rewrite !length_app; simpl; lia).
  assert (Ee : u32 (co_e co + 1) = u32 (co_r co + Z.of_nat (length rd + length ed + 1))).
  { rewrite H5, u32_add_idemp. f_equal. lia. }
  unfold co'. split; ksimpl; rewrite ?app_nil_r, ?Nat.add_0_r, ?El; try done.
  - by rewrite length_insert.
  - change INPUT_BUF with 128. lia.
  - rewrite (assoc_L (++)). apply ring_push; [done|by rewrite H1|rewrite length_app; change INPUT_BUF with 128; lia| |done].
    rewrite H5, u32_mod_ring, length_app by done. f_equal.
Qed.

(** The kernel may take an interrupt of the console: its lock is free. *)
Definition intr_ok (s : kstate) : Prop :=
  uart_ok s ∧ lock_free LCons (k_lk s) ∧ proc_locks (k_lk s) ∧ length (k_procs s) = NPROC.

(** The rest of the kernel after the editor has accepted a character. *)
Definition after_edit (r : edited) (s s' : kstate) : Prop :=
  ∃ co, cons_holds co (e_rd r) (e_ed r) ∧
    tx (e_echo r) (set_k_cons co (if e_wake r then set_k_procs (wake ChCons <$> k_procs s) s else s)) s'.

Lemma edit_nothing rd ed s : cons_holds (k_cons s) rd ed → after_edit (mkEdited rd ed [] false) s s.
Proof.
  intros H. exists (k_cons s). split; [done|]. cbn [e_echo e_wake].
  replace (set_k_cons (k_cons s) s) with s by (by destruct s). apply tx_nil.
Qed.

Lemma rubout_ok rd ed s :
  uart_ok s → cons_holds (k_cons s) rd ed →
  wp (let! co := gets k_cons in
      when (co_e co <>? co_w co) (upd_cons (λ co, set_co_e (u32 (co_e co - 1)) co) ;;; consputc BACKSPACE))
    (λ _, after_edit (mkEdited rd (take (length ed - 1) ed) (if decide (ed = []) then [] else rubout) false) s) s.
Proof.
  intros Hu Hh. rewrite wp_bind, wp_gets. destruct ed as [|x ed _] using rev_ind.
  - assert ((co_e (k_cons s) =? co_w (k_cons s)) = true) as ->.
    { destruct Hh as [_ _ _ E1 E2 _ _]. rewrite E1, E2, Nat.add_0_r. apply Z.eqb_refl. }
    simpl when. rewrite wp_ret. by apply edit_nothing.
  - apply cons_last in Hh as (_ & Hne & Hh). rewrite Hne. simpl when. unfold upd_cons.
    rewrite wp_bind, wp_modify. eapply wp_mono; [apply consputc_ok; revert Hu; unfold uart_ok; by ksimpl|].
    intros [] t Ht. eexists. split; [|].
    2:{ destruct (decide (ed ++ [x] = [])) as [[_ E]%app_nil|_]; [done|]. exact Ht. }
    rewrite length_app, take_app_le by (simpl; lia). rewrite take_ge by (simpl; lia). exact Hh.
Qed.

Lemma type_ok c rd ed s :
  uart_ok s → proc_locks (k_lk s) → length (k_procs s) = NPROC →
  cons_holds (k_cons s) rd ed → 0 ≤ c < 256 → c ≠ C_U → c ≠ C_H → c ≠ 0x7f →
  wp (let! co := gets k_cons in
     when ((c <>? 0) && (u32 (co_e co - co_r co) <? INPUT_BUF))
       (let c := if c =? 13 then 10 else c in
        consputc c ;;;
        upd_cons (λ co, set_co_e (u32 (co_e co + 1))
          (set_co_buf (<[Z.to_nat (co_e co mod INPUT_BUF) := u8 c]> (co_buf co)) co)) ;;;
        let! co := gets k_cons in
        when ((c =? 10) || (c =? C_D) || (co_e co =? u32 (co_r co + INPUT_BUF)))
          (upd_cons (λ co, set_co_w (co_e co) co) ;;; wakeup ChCons)))
    (λ _, after_edit (edit c rd ed) s) s.
Proof.
  intros Hu Hpl Hn Hh Hc HU HH HD. pose proof Hh as [_ Hroom Hr _ Ee _ _].
  change INPUT_BUF with 128 in Hroom. rewrite wp_bind, wp_gets, Ee, u32_diff by lia.
  unfold edit, C_U, C_H in *. rewrite (proj2 (Z.eqb_neq c 21)), (proj2 (Z.eqb_neq c 8)), (proj2 (Z.eqb_neq c 127)) by done. cbn [orb].
  rewrite (Z.leb_antisym (Z.of_nat _) INPUT_BUF). destruct (c =? 0) eqn:E0; simpl negb; cbn [orb andb].
  { simpl when. rewrite wp_ret. by apply edit_nothing. }
  destruct (Z.ltb_spec (Z.of_nat (length rd + length ed)) INPUT_BUF) as [Hlt|Hge]; cbn [negb when].
  2:{ rewrite wp_ret. by apply edit_nothing. }
  set (c' := if c =? 13 then 10 else c). assert (0 ≤ c' < 256 ∧ c' ≠ BACKSPACE) as [Hc' HB].
  { unfold c', BACKSPACE. destruct (c =? 13); lia. }
  cbv zeta. rewrite wp_bind. eapply wp_mono; [by apply consputc_ok|]. intros [] t Ht.
  unfold echo in Ht. rewrite (proj2 (Z.eqb_neq _ _) HB) in Ht.
  destruct Ht as (lsr & Hlsr & ->). unfold upd_cons. rewrite wp_bind, wp_modify, wp_bind, wp_gets. ksimpl.
  rewrite (u8_small c') by lia. fold c'.
  assert ((co_e (set_co_e (u32 (co_e (k_cons s) + 1)) (set_co_buf (<[Z.to_nat (co_e (k_cons s) mod INPUT_BUF) := c']>
     (co_buf (k_cons s))) (k_cons s))) =? u32 (co_r (k_cons s) + INPUT_BUF)) =
     (Z.of_nat (length rd + length ed + 1) =? INPUT_BUF)) as Efull.
  { ksimpl. rewrite Ee, u32_add_idemp, <- Z.add_assoc. change INPUT_BUF with 128.
    rewrite u32_eq_add by lia. f_equal. lia. }
  ksimpl_in Efull. rewrite Efull.
  destruct ((c' =? 10) || (c' =? C_D) || (Z.of_nat (length rd + length ed + 1) =? INPUT_BUF)) eqn:Ecommit; cbn [when].
  - rewrite wp_bind, wp_modify. eapply wp_ok; [apply wakeup_eq; ksimpl; [apply Hu|done|done]|].
    exists (set_co_w (u32 (co_e (k_cons s) + 1)) (set_co_e (u32 (co_e (k_cons s) + 1)) (set_co_buf (<[Z.to_nat (co_e (k_cons s) mod INPUT_BUF) := c']>
     (co_buf (k_cons s))) (k_cons s)))). split; [by apply cons_commit|].
    exists lsr. simpl e_wake. ksimpl. split; [done|]. keq.
  - rewrite wp_ret. eexists. split; [apply cons_store; [done|done|]|].
    { apply orb_false_elim in Ecommit as [Ecommit _]. apply orb_false_elim in Ecommit as [E10 _]. by apply Z.eqb_neq. }
    exists lsr. simpl e_wake. ksimpl. split; [done|]. keq.
Qed.

(** C27. The console interrupt implements a line editor.  A console holds the bytes that a
    reader may take and the line being typed, in a circular buffer of 128 places with
    indices that wrap at 2^32.  For every character but the process dump key,
    [consoleintr] moves the two lists as [edit] says (append, erase, kill the line, hand
    the line over, or drop the character when the buffer is full), echoes what the editor
    echoes, in that order, on the serial line, wakes the readers exactly when a line is
    handed over, and changes nothing else of the kernel: the locks are as before. *)
Theorem consoleintr_edits c rd ed s :
  intr_ok s → cons_holds (k_cons s) rd ed → 0 ≤ c < 256 → c ≠ C_P →
  wp (consoleintr c) (λ _, after_edit (edit c rd ed) s) s.
Proof.
  intros Hi Hh Hc HP. pose proof Hi as (Hu & Hf & Hpl & Hn). unfold consoleintr.
  rewrite wp_bind, wp_acquire by (done || apply Hu). rewrite (proj2 (Z.eqb_neq c C_P)), wp_bind by done.
  set (s1 := set_k_lk _ s). assert (Hu1 : uart_ok s1).
  { destruct Hu as (Hu1 & Hu2 & Hu3). unfold uart_ok, s1. ksimpl. by split; [apply held_ok|]. }
  assert (Hh1 : cons_holds (k_cons s1) rd ed) by (unfold s1; by ksimpl).
  apply (wp_mono _ (λ _, after_edit (edit c rd ed) s1)).
  - destruct (Z.eqb_spec c C_U) as [->|HU]; [by apply kill_line_ok|].
    destruct (Z.eqb_spec c C_H) as [->|HH]; [by apply (rubout_ok rd ed)|].
    destruct (Z.eqb_spec c 0x7f) as [->|HD]; [by apply (rubout_ok rd ed)|].
    apply type_ok; try done. unfold s1. ksimpl. by apply proc_locks_held.
  - intros [] t (co & H1 & lsr & H2 & ->). rewrite (wp_release _ _ _ (k_lk s)); [|apply Hu|done|].
    + exists co. split; [done|]. exists lsr. revert H2. unfold s1. destruct (e_wake _); ksimpl; intros H2; (split; [done|keq]).
    + unfold s1. destruct (e_wake _); by ksimpl.
Qed.

(** ** Reading a line *)

(** What a read of [n] bytes takes from the front of [rd]: up to and with a newline, or up
    to an end-of-file mark, which stays for the next read unless nothing came before
    it ([got] says whether something has).  [None] when more has to be typed first. *)
Fixpoint take_line (n : nat) (got : bool) (rd : list Z) : option (list Z * list Z) :=
  match n with
  | O => Some ([], rd)
  | S n' =>
      match rd with
      | [] => None
      | c :: rd' =>
          if c =? C_D then Some ([], if got then rd else rd')
          else if c =? 10 then Some ([c], rd')
          else '(d, rest) ← take_line n' true rd'; Some (c :: d, rest)
      end
  end.

Lemma take_line_length n got rd d rest : take_line n got rd = Some (d, rest) → (length d ≤ n)%nat.
Proof.
  revert got rd d. induction n as [|n IH]; intros got rd d; simpl; [by intros [= <- <-]|].
  destruct rd as [|c rd]; [done|]. destruct (c =? C_D); [intros [= <- <-]; simpl; lia|].
  destruct (c =? 10); [intros [= <- <-]; simpl; lia|].
  destruct (take_line n true rd) as [[d2 r2]|] eqn:E; [|done]. intros [= <- <-]. simpl. apply IH in E. lia.
Qed.

Section read.
Context {SY : Symbols} {PF : PteFormat}.
Context (G : gmap_pt) (fl : list Z) (root : Z).

Lemma either_copyout_byte p s va pa c :
  uspace G fl root s → c_proc (the_cpu (k_lk s)) = Some p → p_pagetable (the_proc p s) = root →
  0 ≤ va < 2 ^ 64 → uva (k_mem s) root va = Some pa →
  either_copyout true va [c] s = Ok 0 (set_k_mem (wr (k_mem s) pa c) s) ∧
  uspace G fl root (set_k_mem (wr (k_mem s) pa c) s) ∧
  ∀ vb, uva (wr (k_mem s) pa c) root vb = uva (k_mem s) root vb.
Proof.
  intros Hs Hp Hr Hva Hpa. destruct (copyout_byte G fl root s va pa c Hs Hva Hpa) as (E & H).
  split; [|done]. unfold either_copyout, get_proc. erewrite bind_ok; [|apply myproc_eq, Hs].
  rewrite Hp. unfold deref. run. by rewrite Hr.
Qed.

(** The first byte that may be read is taken. *)
Lemma cons_take co c rd ed :
  cons_holds co (c :: rd) ed → cons_at (co_r co) co = c ∧ (co_r co =? co_w co) = false ∧
  cons_holds (set_co_r (u32 (co_r co + 1)) co) rd ed.
Proof.
  intros [H1 H2 H3 H4 H5 H6 H7]. simpl in H2. change INPUT_BUF with 128 in H2.
  change ((c :: rd) ++ ed) with (c :: (rd ++ ed)) in H6. apply ring_pop in H6 as [Hx H6].
  split_and!.
  - rewrite <- (u32_small (co_r co)) by lia. rewrite cons_at_ring. exact Hx.
  - rewrite H4, <- (u32_small (co_r co)) at 1 by lia.
    rewrite <- (Z.add_0_r (co_r co)) at 1. rewrite u32_eq_add by (simpl; lia). apply Z.eqb_neq. simpl. lia.
  - split; ksimpl; try done.
    + change INPUT_BUF with 128. lia.
    + apply u32_range.
    + rewrite H4, u32_add_idemp. f_equal. simpl. lia.
    + rewrite H5, u32_add_idemp. f_equal. simpl. lia.
    + eapply ring_holds_mod; [|exact H6]. by rewrite u32_mod_ring.
Qed.

(** The mark goes back. *)
Lemma cons_untake co : 0 ≤ co_r co < 2 ^ 32 →
  set_co_r (u32 (co_r (set_co_r (u32 (co_r co + 1)) co) - 1)) (set_co_r (u32 (co_r co + 1)) co) = co.
Proof.
  intros H. ksimpl. rewrite u32_sub_idemp. replace (co_r co + 1 - 1) with (co_r co) by lia. rewrite u32_small by done.
  by destruct co.
Qed.

(** Process [p] runs and may wait for nothing: a line is there. *)
Lemma consoleread_wait_ok co c rd ed t :
  k_cons t = co → cons_holds co (c :: rd) ed → loop consoleread_wait () t = Ok false t.
Proof.
  intros E H. apply cons_take in H as (_ & Hne & _). apply loop_inr. unfold consoleread_wait. run.
  by rewrite E, Hne.
Qed.

(** The kernel in the middle of the read: [d0] has been delivered. *)
Record reading (s : kstate) (dst n : Z) (d rest ed : list Z) (k : nat) (x : Z * Z) (t : kstate) : Prop := mkreading {
  rd_parts : ∃ d0 d1 rd co m, d = d0 ++ d1 ∧ x = (dst + Z.of_nat (length d0), n - Z.of_nat (length d0)) ∧
    Z.of_nat k = n - Z.of_nat (length d0) ∧
    take_line k (negb (Nat.eqb (length d0) 0)) rd = Some (d1, rest) ∧
    cons_holds co rd ed ∧ uwrite (uva (k_mem s) root) (k_mem s) dst d0 = (m, true) ∧
    t = set_k_mem m (set_k_cons co s) ∧ (∀ va, uva m root va = uva (k_mem s) root va);
  rd_space : uspace G fl root t
}.

Definition read_done (s : kstate) (dst n : Z) (d rest ed : list Z) (r : option Z) (t : kstate) : Prop :=
  r = Some (n - Z.of_nat (length d)) ∧ ∃ co m, cons_holds co rest ed ∧
    uwrite (uva (k_mem s) root) (k_mem s) dst d = (m, true) ∧ t = set_k_mem m (set_k_cons co s).

Lemma consoleread_step p s dst n d rest ed m' k x t :
  c_proc (the_cpu (k_lk s)) = Some p → p_pagetable (the_proc p s) = root →
  0 ≤ dst → dst + n < 2 ^ 64 → uwrite (uva (k_mem s) root) (k_mem s) dst d = (m', true) →
  reading s dst n d rest ed k x t →
  wp (consoleread_body true n x) (λ r t', match r with
    | inl x' => ∃ k', (k' < k)%nat ∧ reading s dst n d rest ed k' x' t'
    | inr y => read_done s dst n d rest ed y t'
    end) t.
Proof.
  intros Hp Hroot H0 Hdst Hd [(d0 & d1 & rd & co & m & -> & -> & Hk & Htl & Hc & Hm & -> & Htr) Hsp].
  unfold consoleread_body. destruct k as [|k]; simpl in Htl.
  { simplify_eq. rewrite app_nil_r. zdec. rewrite wp_ret. split; [do 2 f_equal; lia|]. exists co, m. done. }
  zdec. destruct rd as [|c rd]; [done|]. rewrite wp_bind.
  eapply wp_ok; [eapply (consoleread_wait_ok co); [by ksimpl|done]|]. cbv iota.
  pose proof Hc as (Ec & _ & Hc')%cons_take. rewrite wp_bind, wp_gets. ksimpl. cbv zeta. rewrite Ec.
  unfold upd_cons. rewrite wp_bind, wp_modify. ksimpl.
  destruct (c =? C_D) eqn:ED.
  { simplify_eq. rewrite app_nil_r in *. rewrite wp_bind, wp_when.
    destruct (Nat.eqb_spec (length d0) 0) as [E|E]; simpl negb; cbv iota; zdec.
    - rewrite wp_ret. split; [do 2 f_equal; lia|]. eexists _, m. split; [exact Hc'|]. split; [done|]. keq.
    - rewrite wp_modify, wp_ret. split; [do 2 f_equal; lia|]. exists co, m. split; [done|]. split; [done|].
      ksimpl. pose proof (cons_untake co (ch_r _ _ _ Hc)) as Eu. ksimpl_in Eu. rewrite Eu. keq. }
  assert (∃ d2, d1 = c :: d2 ∧ (c = 10 ∧ d2 = [] ∧ rest = rd ∨ c ≠ 10 ∧ take_line k true rd = Some (d2, rest))) as (d2 & -> & Hd2).
  { revert Htl. clear -ED. destruct (Z.eqb_spec c 10); [intros [= <- <-]; by eauto 10|].
    destruct (take_line k true rd) as [[d2 r2]|]; [|done]. intros [= <- <-]. eauto 10. }
  destruct (uwrite_mapped _ _ _ _ _ (length d0) c Hd) as [pa Hpa]; [by rewrite list_lookup_middle|].
  assert (Hpm : uva m root (dst + Z.of_nat (length d0)) = Some pa) by (by rewrite Htr).
  set (t1 := set_k_cons _ _). assert (Et1 : t1 = set_k_mem m (set_k_cons (set_co_r (u32 (co_r co + 1)) co) s)) by (unfold t1; keq).
  rewrite Et1. clear t1 Et1.
  destruct (either_copyout_byte p (set_k_mem m (set_k_cons (set_co_r (u32 (co_r co + 1)) co) s))
    (dst + Z.of_nat (length d0)) pa c) as (E & Hsp' & Htr'); ksimpl; try done; try lia.
  { eapply uspace_ext; [| | | |exact Hsp]; ksimpl; try done; destruct Hsp as [[? ? _ _ _] _]; by ksimpl_in vm_cpu. }
  rewrite wp_bind. eapply wp_ok; [exact E|]. ksimpl. change (0 =? -1) with false. cbv iota.
  pose proof (uwrite_snoc _ _ _ _ c _ Hm) as Hsn. rewrite Hpa in Hsn.
  destruct Hd2 as [(-> & -> & ->)|(Hne & Htl2)].
  - change (10 =? 10) with true. rewrite wp_ret. split; [rewrite length_app; simpl; f_equal; lia|].
    by eexists _, _.
  - zdec. rewrite wp_ret. exists k. split; [lia|]. split; [|by ksimpl_in Hsp'].
    exists (d0 ++ [c]), d2, rd, (set_co_r (u32 (co_r co + 1)) co), (wr m pa c).
    rewrite <- (assoc_L (++)), length_app. simpl length. split_and!; try done.
    + rewrite u64_small by lia. f_equal; lia.
    + lia.
    + by destruct (Nat.eqb_spec (length d0 + 1) 0); [lia|].
    + intros va. rewrite <- Htr. apply (Htr' va).
Qed.

(** Reading the console returns the line as it was edited.  When the bytes that may be
    read answer a [read] of [n] bytes (they reach a newline, an end-of-file mark or [n]
    bytes), [consoleread] does not wait: it puts into user memory exactly what
    [take_line] takes, up to and with the newline or up to the mark, returns its length,
    leaves the rest and the line being typed for later, keeps an end-of-file mark that
    comes after other bytes so that the next read returns 0, and releases its lock. *)
Theorem consoleread_line p s dst n rd ed d rest m' :
  quiet p s → uspace G fl root s → p_pagetable (the_proc p s) = root →
  cons_holds (k_cons s) rd ed → 0 ≤ n < 2 ^ 31 → 0 ≤ dst → dst + n < 2 ^ 64 →
  take_line (Z.to_nat n) false rd = Some (d, rest) →
  uwrite (uva (k_mem s) root) (k_mem s) dst d = (m', true) →
  wp (consoleread true dst n) (λ r s', r = Z.of_nat (length d) ∧
    ∃ co, cons_holds co rest ed ∧ s' = set_k_mem m' (set_k_cons co s)) s.
Proof.
  intros Hq Hsp Hroot Hc Hn Hd0 Hd1 Htl Hm. unfold consoleread.
  assert (Hf : lock_free LCons (k_lk s)) by (by apply (q_locks _ _ Hq)).
  rewrite u32_small by lia. rewrite wp_bind, wp_acquire by (done || apply Hq). cbv zeta.
  set (s1 := set_k_lk _ s). rewrite wp_bind.
  assert (Ep : c_proc (the_cpu (k_lk s1)) = Some p).
  { unfold s1. ksimpl. rewrite held_proc; [apply Hq|apply Hq]. }
  eapply wp_mono; [apply (wp_loop_ghost (consoleread_body true n) (reading s1 dst n d rest ed)
    (read_done s1 dst n d rest ed)) with (n := Z.to_nat n)|].
  - intros k x t. apply (consoleread_step p s1 dst n d rest ed m'); try done; unfold s1; by ksimpl.
  - split; [|by apply uspace_held].
    exists [], d, rd, (k_cons s1), (k_mem s1). simpl. rewrite Z.add_0_r, Z.sub_0_r.
    split_and!; try done; try lia; unfold s1; ksimpl; done.
  - lia.
  - intros r t (-> & co & m & Hco & Hw & ->). rewrite wp_bind.
    rewrite (wp_release _ _ _ (k_lk s)); [|apply Hq|done|unfold s1; by ksimpl]. rewrite wp_ret.
    pose proof (take_line_length _ _ _ _ _ Htl).
    split; [rewrite i32_small; lia|]. exists co. split; [done|]. revert Hw. unfold s1. ksimpl. rewrite Hm. intros [= <-]. keq.
Qed.
End read.

(** ** A typed line *)

(** Process 0 has typed "h", "j", erase, "i" and Enter. *)
Definition typed : cons := mkCons (<[2%nat := 10]> (<[1%nat := 105]> (<[0%nat := 104]> (replicate 128 0)))) 0 3 3.
Definition con0 : kstate := set_k_cons typed user0.

Lemma cons_typed : cons_holds typed [104; 105; 10] [].
Proof.
  split; try reflexivity; try done.
  - intros i x Hi. destruct i as [|[|[|i]]]; simpl in Hi; simplify_eq; reflexivity.
Qed.

Lemma intr_ok_con0 : intr_ok con0.
Proof.
  split_and!; [|by apply (q_locks _ _ quiet_0)|apply (quiet_proc_locks _ _ quiet_0)|reflexivity].
  split_and!; [apply (q_cpu _ _ quiet_0)|reflexivity|reflexivity].
Qed.

Lemma consoleintr_edits_witness :
  wp (consoleintr 120) (λ _ s', ∃ co, cons_holds co [104; 105; 10] [120] ∧ io_writes (k_io s') = [(UART0 + THR, 120)]) con0.
Proof.
  eapply wp_mono; [apply (consoleintr_edits 120 [104; 105; 10] [] con0 intr_ok_con0 cons_typed); [lia|done]|].
  intros [] s' (co & H & lsr & _ & ->). exists co. split; [exact H|reflexivity].
Defined.

Lemma consoleread_line_witness :
  wp (@consoleread sv39_pte2pa true 100 50) (λ r s', r = 3 ∧ ∃ co, cons_holds co [] []) con0.
Proof.
  eapply wp_mono.
  - apply (@consoleread_line symbols0 sv39_pte2pa G0 [] R0 0 con0 100 50 [104; 105; 10] [] [104; 105; 10] []
      (wr (wr (wr mem0 (D0 + 100) 104) (D0 + 101) 105) (D0 + 102) 10)).
    + apply (quiet_eq 0 user0); [reflexivity|reflexivity|apply quiet_user0].
    + apply uspace_ext with user0; [reflexivity|reflexivity|apply (q_cpu _ _ quiet_0)|by apply (q_locks _ _ quiet_0)|apply uspace_user0].
    + reflexivity.
    + apply cons_typed.
    + lia.
    + lia.
    + lia.
    + reflexivity.
    + vm_compute. reflexivity.
  - intros r s' (-> & co & H & _). split; [reflexivity|]. by exists co.
Defined.

Definition line0 : kstate := set_k_uart (mkUart (replicate 32 0) 0 0) quiet0.

Lemma uart_fifo_witness :
  wp (uartputc 65) (λ _ s', io_writes (k_io s') = [(UART0 + THR, 65)]) line0.
Proof.
  eapply wp_mono.
  - apply (uart_fifo 0 [] 65 line0).
    + apply (quiet_eq 0 quiet0); [reflexivity|reflexivity|apply quiet_0].
    + reflexivity.
    + split; try reflexivity; simpl; try lia. apply ring_holds_nil.
    + repeat constructor; lia.
  - intros [] s' (sent & rest & u & lsr & E & _ & _ & [->|H] & ->); [|by apply Exists_nil in H].
    rewrite app_nil_r in E. rewrite <- E. reflexivity.
Defined.
