(* ===== verification/Virtio.v ===== *)
(** * The disk driver: [kernel/virtio_disk.c]

    The virtqueue that driver and device share is [k_vdisk]: the descriptors,
    the available ring ([d_avail]: flags, index, then the ring) and the used
    ring.  The request header is a local object; it is stored at the physical
    address that [kvmpa] gives for it. *)

From stdpp Require Import prelude gmap strings list.
From Stdlib Require Import ZArith Lia.
From S2P Require Import Prelude.
From S2P Require Import Monad.
From S2P Require Import Riscv.
From S2P Require Import Types.
From S2P Require Import Mem.
From S2P Require Import Spinlock.
From S2P Require Import Kalloc.
From S2P Require Import Vm.
From S2P Require Import Proc.
From S2P Require Import Uart.

Definition VIRTIO_MMIO_MAGIC_VALUE : Z := 0x000.
Definition VIRTIO_MMIO_VERSION : Z := 0x004.
Definition VIRTIO_MMIO_DEVICE_ID : Z := 0x008.
Definition VIRTIO_MMIO_VENDOR_ID : Z := 0x00c.
Definition VIRTIO_MMIO_DEVICE_FEATURES : Z := 0x010.
Definition VIRTIO_MMIO_DRIVER_FEATURES : Z := 0x020.
Definition VIRTIO_MMIO_GUEST_PAGE_SIZE : Z := 0x028.
Definition VIRTIO_MMIO_QUEUE_SEL : Z := 0x030.
Definition VIRTIO_MMIO_QUEUE_NUM_MAX : Z := 0x034.
Definition VIRTIO_MMIO_QUEUE_NUM : Z := 0x038.
Definition VIRTIO_MMIO_QUEUE_PFN : Z := 0x040.
Definition VIRTIO_MMIO_QUEUE_NOTIFY : Z := 0x050.
Definition VIRTIO_MMIO_INTERRUPT_STATUS : Z := 0x060.
Definition VIRTIO_MMIO_INTERRUPT_ACK : Z := 0x064.
Definition VIRTIO_MMIO_STATUS : Z := 0x070.
Definition VIRTIO_CONFIG_S_ACKNOWLEDGE : Z := 1.
Definition VIRTIO_CONFIG_S_DRIVER : Z := 2.
Definition VIRTIO_CONFIG_S_DRIVER_OK : Z := 4.
Definition VIRTIO_CONFIG_S_FEATURES_OK : Z := 8.
Definition VIRTIO_BLK_F_RO : Z := 5.
Definition VIRTIO_BLK_F_SCSI : Z := 7.
Definition VIRTIO_BLK_F_CONFIG_WCE : Z := 11.
Definition VIRTIO_BLK_F_MQ : Z := 12.
Definition VIRTIO_F_ANY_LAYOUT : Z := 27.
Definition VIRTIO_RING_F_INDIRECT_DESC : Z := 28.
Definition VIRTIO_RING_F_EVENT_IDX : Z := 29.

Definition the_buf (i : nat) (s : kstate) : buf := nth i (k_bufs s) buf0.
Definition get_buf (i : nat) : K buf := gets (the_buf i).
Definition upd_buf (i : nat) (f : buf → buf) : K unit :=
  modify (λ s, set_k_bufs (<[i := f (the_buf i s)]> (k_bufs s)) s).

Definition upd_vdisk (f : vdisk → vdisk) : K unit := modify (λ s, set_k_vdisk (f (k_vdisk s)) s).
Definition the_desc (i : nat) (d : vdisk) : VRingDesc := nth i (d_desc d) desc0.
Definition put_desc (i : nat) (v : VRingDesc) (d : vdisk) : vdisk :=
  set_d_desc (<[i := v]> (d_desc d)) d.
Definition the_info (i : nat) (d : vdisk) : vinfo := nth i (d_info d) info0.
Definition put_info (i : nat) (v : vinfo) (d : vdisk) : vdisk :=
  set_d_info (<[i := v]> (d_info d)) d.

(** [*R(r)] and [*R(r) = v] *)
Definition R_read (r : Z) : K Z :=
  gets (λ s, u32 (default 0 (io_regs (k_io s) !! (VIRTIO0 + r)))).
Definition R_write (r v : Z) : K unit := io_write (VIRTIO0 + r) (u32 v).

(** [features &= ~(1 << bit)] *)
Definition clear_bit (features bit : Z) : Z := Z.land features (lnot64 (Z.shiftl 1 bit)).

Section virtio.
Context {SY : Symbols} {PF : PteFormat}.

Definition virtio_disk_init : K unit :=
  initlock LVdisk "virtio_disk" ;;;
  let! magic := R_read VIRTIO_MMIO_MAGIC_VALUE in
  let! version := R_read VIRTIO_MMIO_VERSION in
  let! device := R_read VIRTIO_MMIO_DEVICE_ID in
  let! vendor := R_read VIRTIO_MMIO_VENDOR_ID in
  if (magic <>? 0x74726976) || (version <>? 1) || (device <>? 2) || (vendor <>? 0x554d4551)
  then panic "could not find virtio disk" else
  let status := Z.lor 0 VIRTIO_CONFIG_S_ACKNOWLEDGE in
  R_write VIRTIO_MMIO_STATUS status ;;;
  let status := Z.lor status VIRTIO_CONFIG_S_DRIVER in
  R_write VIRTIO_MMIO_STATUS status ;;;
  let! features := R_read VIRTIO_MMIO_DEVICE_FEATURES in
  let features := clear_bit features VIRTIO_BLK_F_RO in
  let features := clear_bit features VIRTIO_BLK_F_SCSI in
  let features := clear_bit features VIRTIO_BLK_F_CONFIG_WCE in
  let features := clear_bit features VIRTIO_BLK_F_MQ in
  let features := clear_bit features VIRTIO_F_ANY_LAYOUT in
  let features := clear_bit features VIRTIO_RING_F_EVENT_IDX in
  let features := clear_bit features VIRTIO_RING_F_INDIRECT_DESC in
  R_write VIRTIO_MMIO_DRIVER_FEATURES features ;;;
  let status := Z.lor status VIRTIO_CONFIG_S_FEATURES_OK in
  R_write VIRTIO_MMIO_STATUS status ;;;
  let status := Z.lor status VIRTIO_CONFIG_S_DRIVER_OK in
  R_write VIRTIO_MMIO_STATUS status ;;;
  R_write VIRTIO_MMIO_GUEST_PAGE_SIZE PGSIZE ;;;
  R_write VIRTIO_MMIO_QUEUE_SEL 0 ;;;
  let! max := R_read VIRTIO_MMIO_QUEUE_NUM_MAX in
  if max =? 0 then panic "virtio disk has no queue 0" else
  if max <? Z.of_nat NUM then panic "virtio disk max queue too short" else
  R_write VIRTIO_MMIO_QUEUE_NUM (Z.of_nat NUM) ;;;
  (* memset(disk.pages, 0, sizeof(disk.pages)); *)
  upd_vdisk (λ d, mkVdisk (replicate NUM desc0) (replicate 10 0) 0 (replicate NUM 0)
                    (d_free d) (d_used_idx d) (d_info d)) ;;;
  R_write VIRTIO_MMIO_QUEUE_PFN (Z.shiftr disk_pages PGSHIFT) ;;;
  upd_vdisk (set_d_free (replicate NUM true)).

Definition alloc_desc : K (option nat) :=
  for_ NUM 0 (λ i,
    let! d := gets k_vdisk in
    if nth i (d_free d) false then
      upd_vdisk (λ d, set_d_free (<[i := false]> (d_free d)) d) ;;;
      ret (Some i)
    else ret None).

Definition free_desc (i : nat) : K unit :=
  if (NUM <=? i)%nat then panic "virtio_disk_intr 1" else
  let! d := gets k_vdisk in
  if nth i (d_free d) false then panic "virtio_disk_intr 2" else
  upd_vdisk (λ d, put_desc i (set_vd_addr 0 (the_desc i d)) d) ;;;
  upd_vdisk (λ d, set_d_free (<[i := true]> (d_free d)) d) ;;;
  wakeup ChDesc.

Definition free_chain_body (i : nat) : K (nat + unit) :=
  free_desc i ;;;
  let! d := gets k_vdisk in
  if Z.land (vd_flags (the_desc i d)) VRING_DESC_F_NEXT <>? 0
  then ret (inl (Z.to_nat (vd_next (the_desc i d))))
  else ret (inr ()).
Definition free_chain (i : nat) : K unit := loop free_chain_body i.

Fixpoint free_descs (l : list nat) : K unit :=
  match l with
  | [] => ret ()
  | i :: l' => free_desc i ;;; free_descs l'
  end.

(** [for(int i = 0; i < 3; i++)]: [idx] holds the descriptors found so far. *)
Fixpoint alloc_descs (n : nat) (idx : list nat) : K (option (list nat)) :=
  match n with
  | O => ret (Some idx)
  | S n' =>
      let! i := alloc_desc in
      match i with
      | Some i => alloc_descs n' (idx ++ [i])
      | None => free_descs idx ;;; ret None
      end
  end.
Definition alloc3_desc : K (option (list nat)) := alloc_descs 3 [].

(** [while(1){ if(alloc3_desc(idx) == 0) break; sleep(...); }] *)
Definition wait_desc (_ : unit) : K (unit + list nat) :=
  let! r := alloc3_desc in
  match r with
  | Some idx => ret (inr idx)
  | None => sleep ChDesc LVdisk ;;; ret (inl ())
  end.

(** [while(b->disk == 1) sleep(b, &disk.vdisk_lock);] *)
Definition wait_disk (b : nat) (_ : unit) : K (unit + unit) :=
  let! bf := get_buf b in
  if b_disk bf =? 1 then sleep (ChBuf b) LVdisk ;;; ret (inl ())
  else ret (inr ()).

(** [struct virtio_blk_outhdr buf0] *)
Definition outhdr (write : bool) (sector : Z) : list Z :=
  le_split 4 (if write then VIRTIO_BLK_T_OUT else VIRTIO_BLK_T_IN) ++ le_split 4 0
  ++ le_split 8 sector.

Definition virtio_disk_rw (b : nat) (write : bool) : K unit :=
  let! bf := get_buf b in
  let sector := u32 (b_blockno bf * (BSIZE / 512)) in
  acquire LVdisk ;;;
  let! idx := loop wait_desc () in
  let i0 := nth 0%nat idx 0%nat in
  let i1 := nth 1%nat idx 0%nat in
  let i2 := nth 2%nat idx 0%nat in
  let! pa := kvmpa stk in
  upd_mem (λ m, store_bytes m pa (outhdr write sector)) ;;;
  upd_vdisk (put_desc i0 (mkDesc pa 16 VRING_DESC_F_NEXT (Z.of_nat i1))) ;;;
  upd_vdisk (put_desc i1 (mkDesc (bdata b) BSIZE
    (Z.lor (if write then 0 else VRING_DESC_F_WRITE) VRING_DESC_F_NEXT) (Z.of_nat i2))) ;;;
  upd_vdisk (λ d, put_info i0 (set_in_status 0 (the_info i0 d)) d) ;;;
  upd_vdisk (put_desc i2 (mkDesc (info_status i0) 1 VRING_DESC_F_WRITE 0)) ;;;
  upd_buf b (set_b_disk 1) ;;;
  upd_vdisk (λ d, put_info i0 (set_in_b (Some b) (the_info i0 d)) d) ;;;
  upd_vdisk (λ d, set_d_avail
    (<[(2 + Z.to_nat (nth 1 (d_avail d) 0%Z mod Z.of_nat NUM)%Z)%nat := Z.of_nat i0]> (d_avail d)) d) ;;;
  upd_vdisk (λ d, set_d_avail (<[1%nat := u16 (nth 1 (d_avail d) 0%Z + 1)]> (d_avail d)) d) ;;;
  R_write VIRTIO_MMIO_QUEUE_NOTIFY 0 ;;;
  loop (wait_disk b) () ;;;
  upd_vdisk (λ d, put_info i0 (set_in_b None (the_info i0 d)) d) ;;;
  free_chain i0 ;;;
  release LVdisk.

Definition virtio_disk_intr_body (_ : unit) : K (unit + unit) :=
  let! d := gets k_vdisk in
  if d_used_idx d mod Z.of_nat NUM =? d_used_id d mod Z.of_nat NUM then ret (inr ()) else
  let id := Z.to_nat (nth (Z.to_nat (d_used_idx d)) (d_used_elems d) 0) in
  if in_status (the_info id d) <>? 0 then panic "virtio_disk_intr status" else
  let! b := deref (in_b (the_info id d)) in
  upd_buf b (set_b_disk 0) ;;;
  wakeup (ChBuf b) ;;;
  upd_vdisk (λ d, set_d_used_idx ((d_used_idx d + 1) mod Z.of_nat NUM) d) ;;;
  ret (inl ()).
Definition virtio_disk_intr : K unit :=
  acquire LVdisk ;;;
  loop virtio_disk_intr_body () ;;;
  let! st := R_read VIRTIO_MMIO_INTERRUPT_STATUS in
  R_write VIRTIO_MMIO_INTERRUPT_ACK (Z.land st 0x3) ;;;
  release LVdisk.
End virtio.
