(* ===== verification/Bio.v ===== *)
(** * The buffer cache: [kernel/bio.c]

    A [struct buf *] is an index of [k_bufs]; index [NBUF] is [bcache.head].
    The cache and everything above it are generic in the disk driver. *)

From stdpp Require Import prelude gmap strings list.
From Stdlib Require Import ZArith Lia.
From S2P Require Import Prelude.
From S2P Require Import Monad.
From S2P Require Import Riscv.
From S2P Require Import Types.
From S2P Require Import Spinlock.
From S2P Require Import Proc.
From S2P Require Import Sleeplock.
From S2P Require Import Virtio.

(** What the buffer cache calls: [virtio_disk_rw(b, write)]. *)
Class DiskDriver := disk_rw : nat → bool → K unit.

Definition head : nat := NBUF.

Definition binit : K unit :=
  initlock LBcache "bcache" ;;;
  upd_buf head (set_b_prev head) ;;;
  upd_buf head (set_b_next head) ;;;
  let! _ := for_ (R := unit) NBUF 0 (λ b,
    let! h := get_buf head in
    upd_buf b (set_b_next (b_next h)) ;;;
    upd_buf b (set_b_prev head) ;;;
    initsleeplock (SBuf b) "buffer" ;;;
    let! h := get_buf head in
    upd_buf (b_next h) (set_b_prev b) ;;;
    upd_buf head (set_b_next b) ;;;
    ret None) in
  ret ().

(** [for(b = bcache.head.next; b != &bcache.head; b = b->next)] with the body of
    the first loop of [bget] *)
Definition bget_cached (dev blockno : Z) (b : nat) : K (nat + option nat) :=
  if decide (b = head) then ret (inr None) else
  let! bf := get_buf b in
  if (b_dev bf =? dev) && (b_blockno bf =? blockno) then
    upd_buf b (set_b_refcnt (u32 (b_refcnt bf + 1))) ;;;
    release LBcache ;;;
    acquiresleep (SBuf b) ;;;
    ret (inr (Some b))
  else ret (inl (b_next bf)).

(** The second loop of [bget], over [prev]. *)
Definition bget_recycle (dev blockno : Z) (b : nat) : K (nat + option nat) :=
  if decide (b = head) then ret (inr None) else
  let! bf := get_buf b in
  if b_refcnt bf =? 0 then
    upd_buf b (set_b_dev dev) ;;;
    upd_buf b (set_b_blockno blockno) ;;;
    upd_buf b (set_b_valid 0) ;;;
    upd_buf b (set_b_refcnt 1) ;;;
    release LBcache ;;;
    acquiresleep (SBuf b) ;;;
    ret (inr (Some b))
  else ret (inl (b_prev bf)).

Definition bget (dev blockno : Z) : K nat :=
  acquire LBcache ;;;
  let! h := get_buf head in
  let! r := loop (bget_cached dev blockno) (b_next h) in
  match r with
  | Some b => ret b
  | None =>
      let! h := get_buf head in
      let! r := loop (bget_recycle dev blockno) (b_prev h) in
      match r with
      | Some b => ret b
      | None => panic "bget: no buffers"
      end
  end.

Section bio.
Context {DD : DiskDriver}.

Definition bread (dev blockno : Z) : K nat :=
  let! b := bget dev blockno in
  let! bf := get_buf b in
  when (b_valid bf =? 0) (disk_rw b false ;;; upd_buf b (set_b_valid 1)) ;;;
  ret b.

Definition bwrite (b : nat) : K unit :=
  let! h := holdingsleep (SBuf b) in
  if negb h then panic "bwrite" else
  disk_rw b true.
End bio.

Definition brelse (b : nat) : K unit :=
  let! h := holdingsleep (SBuf b) in
  if negb h then panic "brelse" else
  releasesleep (SBuf b) ;;;
  acquire LBcache ;;;
  upd_buf b (λ bf, set_b_refcnt (u32 (b_refcnt bf - 1)) bf) ;;;
  let! bf := get_buf b in
  when (b_refcnt bf =? 0)
    (upd_buf (b_next bf) (set_b_prev (b_prev bf)) ;;;
     let! bf := get_buf b in
     upd_buf (b_prev bf) (set_b_next (b_next bf)) ;;;
     let! h := get_buf head in
     upd_buf b (set_b_next (b_next h)) ;;;
     upd_buf b (set_b_prev head) ;;;
     let! h := get_buf head in
     upd_buf (b_next h) (set_b_prev b) ;;;
     upd_buf head (set_b_next b)) ;;;
  release LBcache.

Definition bpin (b : nat) : K unit :=
  acquire LBcache ;;;
  upd_buf b (λ bf, set_b_refcnt (u32 (b_refcnt bf + 1)) bf) ;;;
  release LBcache.

Definition bunpin (b : nat) : K unit :=
  acquire LBcache ;;;
  upd_buf b (λ bf, set_b_refcnt (u32 (b_refcnt bf - 1)) bf) ;;;
  release LBcache.
