(* ===== verification/BioSpec.v ===== *)
(** * What the buffer cache guarantees

    [ring] reads the doubly linked list of [bcache] as the list of buffers from
    most to least recently released; the lemmas give [bget] and [brelse] as
    equations on states, in terms of that list.  [cache] is the state of the
    cache as one process sees it, with the blocks it pins and holds; [blk] is
    the content of a block as every reader sees it. *)

From stdpp Require Import prelude gmap strings list list_numbers.
From Stdlib Require Import ZArith Lia.
From S2P Require Import Prelude.
From S2P Require Import Monad.
From S2P Require Import Riscv.
From S2P Require Import Types.
From S2P Require Import Spinlock.
From S2P Require Import Proc.
From S2P Require Import ProcSpec.
From S2P Require Import Sleeplock.
From S2P Require Import Virtio.
From S2P Require Import Bio.

(** ** Doubly linked rings *)

Section ring.
Implicit Types N P : nat → nat.

(** [l] is the list of nodes strictly between [a] and [c]. *)
Fixpoint seg N P (a : nat) (l : list nat) (c : nat) : Prop :=
  match l with
  | [] => N a = c ∧ P c = a
  | x :: l' => N a = x ∧ P x = a ∧ seg N P x l' c
  end.

Definition fupd (i v : nat) (f : nat → nat) : nat → nat := λ j, if decide (j = i) then v else f j.

Lemma fupd_eq i v f : fupd i v f i = v.
Proof. unfold fupd. by case_decide. Qed.

Lemma fupd_ne i v f j : j ≠ i → fupd i v f j = f j.
Proof. unfold fupd. by case_decide. Qed.

Lemma seg_frame N P N' P' a l c :
  (∀ x, x ∈ a :: l → N' x = N x) → (∀ x, x ∈ l ++ [c] → P' x = P x) →
  seg N P a l c → seg N' P' a l c.
Proof.
  revert a. induction l as [|x l IH]; intros a HN HP; simpl.
  - rewrite (HN a), (HP c) by set_solver. done.
  - rewrite (HN a), (HP x) by set_solver. intros (? & ? & ?). split_and!; [done|done|].
    apply IH; [|intros; apply HP; set_solver|done]. intros y Hy. apply HN. set_solver.
Qed.

Lemma seg_app N P a l1 b l2 c :
  seg N P a (l1 ++ b :: l2) c ↔ seg N P a l1 b ∧ seg N P b l2 c.
Proof.
  revert a. induction l1 as [|x l1 IH]; intros a; simpl; [naive_solver|].
  rewrite IH. naive_solver.
Qed.

(** The links out of the two ends. *)
Lemma seg_first N P a l c : seg N P a l c → N a = hd c l.
Proof. destruct l; simpl; naive_solver. Qed.

Fixpoint final (a : nat) (l : list nat) : nat :=
  match l with [] => a | x :: l' => final x l' end.

Lemma final_in a l : final a l ∈ a :: l.
Proof.
  revert a. induction l as [|x l IH]; intros a; simpl; [set_solver|].
  specialize (IH x). set_solver.
Qed.

Lemma final_app a l x : final a (l ++ [x]) = x.
Proof. revert a. induction l; simpl; auto. Qed.

Lemma seg_last N P a l c : seg N P a l c → P c = final a l.
Proof.
  revert a. induction l as [|x l IH]; intros a; simpl; [naive_solver|].
  intros (_ & _ & H). by rewrite (IH x H).
Qed.

(** Redirecting the last link of a segment. *)
Lemma seg_relink N P a l b c :
  NoDup (a :: l) → c ∉ l → seg N P a l b →
  seg (fupd (P b) c N) (fupd c (P b) P) a l c.
Proof.
  revert a. induction l as [|x l IH]; intros a Hnd Hc; simpl.
  - intros [H1 H2]. rewrite H2, !fupd_eq. done.
  - intros (H1 & H2 & H3). apply NoDup_cons in Hnd as [Ha Hnd].
    pose proof (final_in x l) as Hin. rewrite <- (seg_last _ _ _ _ _ H3) in Hin.
    assert (a ≠ P b) by (intros E; rewrite <- E in Hin; done).
    assert (x ≠ c) by (intros ->; apply Hc; set_solver).
    rewrite !fupd_ne by done. split_and!; [done|done|].
    apply IH; [done|set_solver|done].
Qed.

(** Unlinking [b] from a ring with node [h], and linking it in after [h]. *)
Lemma seg_remove N P h l1 b l2 :
  NoDup (h :: l1 ++ b :: l2) → seg N P h (l1 ++ b :: l2) h →
  seg (fupd (P b) (N b) N) (fupd (N b) (P b) P) h (l1 ++ l2) h.
Proof.
  intros Hnd H. apply seg_app in H as [H1 H2].
  pose proof (seg_first _ _ _ _ _ H2) as Eb. pose proof (seg_last _ _ _ _ _ H1) as Ep.
  apply NoDup_cons in Hnd as [Hh Hnd]. apply NoDup_app in Hnd as (Hn1 & Hd & Hn2).
  apply NoDup_cons in Hn2 as [Hb Hn2].
  pose proof (final_in h l1) as Hin. rewrite <- Ep in Hin.
  destruct l2 as [|y l2]; simpl in Eb.
  - rewrite app_nil_r, Eb. apply seg_relink; [by constructor; set_solver|set_solver|done].
  - rewrite Eb in *. destruct H2 as (_ & _ & H2). apply seg_app. split.
    + apply seg_relink; [by constructor; set_solver|set_solver|done].
    + eapply seg_frame; [| |exact H2].
      * intros x Hx. apply fupd_ne. intros E. rewrite E in Hx.
        apply elem_of_cons in Hin as [E'|Hin]; [rewrite E' in Hx; set_solver|set_solver].
      * apply NoDup_cons in Hn2 as [Hy Hn2]. intros x Hx. apply fupd_ne. intros ->. set_solver.
Qed.

Lemma seg_insert N P h l b :
  NoDup (h :: l) → b ∉ h :: l → seg N P h l h →
  seg (fupd h b (fupd b (N h) N)) (fupd (N h) b (fupd b h P)) h (b :: l) h.
Proof.
  intros Hnd Hb H. pose proof (seg_first _ _ _ _ _ H) as Eh.
  apply not_elem_of_cons in Hb as [Hbh Hbl]. simpl.
  rewrite fupd_eq. split; [done|].
  destruct l as [|x l]; simpl in Eh; rewrite Eh.
  - simpl. unfold fupd. repeat (case_decide; simplify_eq); done.
  - assert (b ≠ x) by set_solver. destruct H as (_ & _ & H).
    apply NoDup_cons in Hnd as [Hh Hnd]. apply NoDup_cons in Hnd as [Hx Hnd].
    assert (h ≠ x) by set_solver.
    simpl. split_and!; [unfold fupd; repeat (case_decide; simplify_eq); done..|].
    eapply seg_frame; [| |exact H].
    + intros y Hy. rewrite !fupd_ne by set_solver. done.
    + intros y Hy. rewrite !fupd_ne by set_solver. done.
Qed.
End ring.

(** ** The buffers *)

Definition nbuf (i : nat) (l : list buf) : buf := nth i l buf0.
Definition nexts (l : list buf) (i : nat) : nat := b_next (nbuf i l).
Definition prevs (l : list buf) (i : nat) : nat := b_prev (nbuf i l).
Definition ring (bufs : list buf) (l : list nat) : Prop := seg (nexts bufs) (prevs bufs) head l head.

Lemma nbuf_insert i b l : (i < length l)%nat → nbuf i (<[i := b]> l) = b.
Proof. intros H. unfold nbuf. by rewrite nth_lookup, list_lookup_insert_eq. Qed.

Lemma nbuf_insert_ne i j b l : i ≠ j → nbuf i (<[j := b]> l) = nbuf i l.
Proof. intros H. unfold nbuf. by rewrite !nth_lookup, list_lookup_insert_ne. Qed.

Lemma nbuf_insert_case i j b l :
  (j < length l)%nat → nbuf i (<[j := b]> l) = if decide (i = j) then b else nbuf i l.
Proof. intros H. case_decide; [subst; by apply nbuf_insert|by apply nbuf_insert_ne]. Qed.

(** The cache's structure: [l] is the list of all buffers, most recently
    released first; no block is cached twice.  (Device 0 marks a buffer never
    used.) *)
Record cache_ok (l : list nat) (bufs : list buf) : Prop := mkcache {
  ca_len : length bufs = S NBUF;
  ca_perm : l ≡ₚ seq 0 NBUF;
  ca_ring : ring bufs l;
  ca_uniq : ∀ i j, (i < NBUF)%nat → (j < NBUF)%nat → b_dev (nbuf i bufs) ≠ 0 →
    b_dev (nbuf i bufs) = b_dev (nbuf j bufs) →
    b_blockno (nbuf i bufs) = b_blockno (nbuf j bufs) → i = j
}.

Lemma cache_elem l bufs i : cache_ok l bufs → i ∈ l ↔ (i < NBUF)%nat.
Proof. intros H. rewrite (ca_perm _ _ H), elem_of_seq. lia. Qed.

Lemma cache_nodup l bufs : cache_ok l bufs → NoDup (head :: l).
Proof.
  intros H. constructor; [rewrite (cache_elem _ _ _ H); unfold head; lia|].
  rewrite (ca_perm _ _ H). apply NoDup_seq.
Qed.

(** An update of a buffer that keeps its links keeps the ring. *)
Lemma ring_update bufs l i b :
  (i < length bufs)%nat → b_next b = nexts bufs i → b_prev b = prevs bufs i →
  ring bufs l → ring (<[i := b]> bufs) l.
Proof.
  intros Hi Hn Hp. apply seg_frame; intros x _.
  - unfold nexts in *. rewrite nbuf_insert_case by done. by case_decide; subst.
  - unfold prevs in *. rewrite nbuf_insert_case by done. by case_decide; subst.
Qed.

Lemma cache_update l bufs i b :
  (i < NBUF)%nat → b_next b = nexts bufs i → b_prev b = prevs bufs i →
  (b_dev b ≠ 0 → ∀ j, (j < NBUF)%nat → j ≠ i → b_dev (nbuf j bufs) = b_dev b →
     b_blockno (nbuf j bufs) ≠ b_blockno b) →
  cache_ok l bufs → cache_ok l (<[i := b]> bufs).
Proof.
  intros Hi Hn Hp Hu H. pose proof (ca_len _ _ H) as HL.
  split; [by rewrite length_insert|apply (ca_perm _ _ H)|
          apply ring_update; auto; [lia|apply (ca_ring _ _ H)]|].
  intros j k Hj Hk. rewrite !(nbuf_insert_case _ i) by lia.
  case_decide; case_decide; subst; [done| | |by apply (ca_uniq _ _ H)].
  - intros Hd Ed Eb. exfalso. apply (Hu Hd k); auto.
  - intros Hd Ed Eb. exfalso. apply (Hu ltac:(congruence) j); auto.
Qed.

(** Same key: a change of reference count, data or validity. *)
Lemma cache_update_same l bufs i b :
  (i < NBUF)%nat → b_next b = nexts bufs i → b_prev b = prevs bufs i →
  b_dev b = b_dev (nbuf i bufs) → b_blockno b = b_blockno (nbuf i bufs) →
  cache_ok l bufs → cache_ok l (<[i := b]> bufs).
Proof.
  intros Hi Hn Hp Hd Hb H. apply cache_update; auto. rewrite Hd, Hb.
  intros H0 j Hj Hne E1 E2. apply Hne. by apply (ca_uniq _ _ H); [..|rewrite E1| |].
Qed.

(** ** [bget] *)

Lemma ring_next bufs l1 y l2 : ring bufs (l1 ++ y :: l2) → nexts bufs y = hd head l2.
Proof. intros H. apply seg_app in H as [_ H]. by apply seg_first in H. Qed.

Lemma ring_prev bufs l1 y l2 : ring bufs (l1 ++ y :: l2) → prevs bufs y = final head l1.
Proof. intros H. apply seg_app in H as [H _]. by apply seg_last in H. Qed.

Lemma ring_hd bufs l : ring bufs l → nexts bufs head = hd head l.
Proof. apply seg_first. Qed.

Lemma ring_tl bufs l : ring bufs l → prevs bufs head = final head l.
Proof. apply seg_last. Qed.

(** The buffer holds block [bno] of device [dev]. *)
Definition caches (dev bno : Z) (b : buf) : Prop := b_dev b = dev ∧ b_blockno b = bno.
#[export] Instance caches_dec dev bno b : Decision (caches dev bno b).
Proof. unfold caches. apply _. Defined.

Lemma caches_inj l bufs dev bno i j :
  cache_ok l bufs → (i < NBUF)%nat → (j < NBUF)%nat →
  caches dev bno (nbuf i bufs) → caches dev bno (nbuf j bufs) → dev ≠ 0 → i = j.
Proof. intros Hk Hi Hj [E1 E2] [E3 E4] Hd. apply (ca_uniq _ _ Hk); congruence. Qed.

Lemma caches_test dev bno b :
  (b_dev b =? dev) && (b_blockno b =? bno) = bool_decide (caches dev bno b).
Proof.
  unfold caches. repeat zcase; cbn [andb]; symmetry;
    (rewrite bool_decide_eq_true || rewrite bool_decide_eq_false); naive_solver.
Qed.

Definition set_buf (i : nat) (b : buf) (s : kstate) : kstate :=
  set_k_bufs (<[i := b]> (k_bufs s)) s.

Lemma the_buf_insert i b v s :
  (i < length v)%nat → the_buf i (set_k_bufs (<[i := b]> v) s) = b.
Proof. intros. unfold the_buf. ksimpl. by apply nbuf_insert. Qed.

Lemma the_buf_insert_ne i j b v s :
  i ≠ j → the_buf i (set_k_bufs (<[j := b]> v) s) = nbuf i v.
Proof. intros. unfold the_buf. ksimpl. by apply nbuf_insert_ne. Qed.

(** What [bget] does to the buffer it returns: a reference to a cached block, or
    the buffer of another block recycled. *)
Definition ref_buf (b : buf) : buf := set_b_refcnt (u32 (b_refcnt b + 1)) b.
Definition recycle_buf (dev bno : Z) (b : buf) : buf :=
  set_b_refcnt 1 (set_b_valid 0 (set_b_blockno bno (set_b_dev dev b))).

Section bget.
Context (dev bno : Z) (p : nat) (l : list nat).

(** The state in which the loops of [bget] run. *)
Definition bget_pre (s : kstate) : Prop :=
  cpu_ok (k_lk s) ∧ lock_free LBcache (k_lk s) ∧ c_proc (the_cpu (k_lk s)) = Some p ∧
  cache_ok l (k_bufs s).

(** Locking the buffer found, from the state inside the critical section. *)
Lemma bget_take b v s :
  bget_pre s → lock_free (LSleep (SBuf b)) (k_lk s) → slk_locked (the_slock (SBuf b) s) = 0 →
  (let! _ := release LBcache in acquiresleep (SBuf b) ;;; ret (inr (A := nat) (Some b)))
    (set_k_bufs v (set_k_lk (held LBcache (k_lk s)) s)) =
  Ok (inr (Some b)) (put_slock (SBuf b) (owned (SBuf b) p s) (set_k_bufs v s)).
Proof.
  intros (Hc & Hf & Hp & _) Hs H0.
  erewrite bind_ok; [|apply release_eq; [exact Hc|exact Hf|by ksimpl]].
  ksimpl.
  assert (E : set_k_lk (k_lk s) (set_k_bufs v (set_k_lk (held LBcache (k_lk s)) s)) = set_k_bufs v s) by keq.
  rewrite E. erewrite bind_ok; [|apply (acquiresleep_eq _ p); ksimpl; done]. done.
Qed.

Lemma bget_cached_next l1 y l2 s :
  cache_ok (l1 ++ y :: l2) (k_bufs s) → ¬ caches dev bno (the_buf y s) →
  bget_cached dev bno y s = Ok (inl (hd head l2)) s.
Proof.
  intros Hk Hn. unfold bget_cached. pose proof (cache_nodup _ _ Hk) as Hnd.
  destruct (decide (y = head)) as [->|_].
  { apply NoDup_cons in Hnd as [Hnd _]. set_solver. }
  unfold get_buf. run. rewrite caches_test, bool_decide_eq_false_2 by done. unfold ret.
  by rewrite <- (ring_next _ _ _ _ (ca_ring _ _ Hk)).
Qed.

Lemma bget_recycle_next l1 y l2 s :
  cache_ok (l1 ++ y :: l2) (k_bufs s) → b_refcnt (the_buf y s) ≠ 0 →
  bget_recycle dev bno y s = Ok (inl (final head l1)) s.
Proof.
  intros Hk Hn. unfold bget_recycle. pose proof (cache_nodup _ _ Hk) as Hnd.
  destruct (decide (y = head)) as [->|_].
  { apply NoDup_cons in Hnd as [Hnd _]. set_solver. }
  unfold get_buf. run. rewrite (proj2 (Z.eqb_neq _ _) Hn). unfold ret.
  by rewrite <- (ring_prev _ _ _ _ (ca_ring _ _ Hk)).
Qed.

Lemma cache_length s : cache_ok l (k_bufs s) → length l = NBUF.
Proof. intros H. by rewrite (Permutation_length (ca_perm _ _ H)), length_seq. Qed.

(** The first loop stops at a buffer that caches the block, or finds none. *)
Lemma bget_loop_hit l1 b l2 s s' :
  l = l1 ++ b :: l2 → cache_ok l (k_bufs s) → Forall (λ y, ¬ caches dev bno (the_buf y s)) l1 →
  bget_cached dev bno b s = Ok (inr (Some b)) s' →
  loop (bget_cached dev bno) (b_next (the_buf head s)) s = Ok (Some b) s'.
Proof.
  intros El Hk Hl1 Hb. change (b_next (the_buf head s)) with (nexts (k_bufs s) head).
  rewrite (ring_hd _ _ (ca_ring _ _ Hk)), El. pose proof (cache_length s Hk) as E.
  replace (hd head (l1 ++ b :: l2)) with (hd b l1) by (by destruct l1).
  apply loop_path; [|done|].
  - intros la y lb ->. rewrite <- app_assoc in El. simpl in El.
    rewrite (bget_cached_next la y (lb ++ b :: l2)).
    + by destruct lb.
    + by rewrite <- El.
    + apply Forall_app in Hl1 as [_ Hl1]. by inversion Hl1.
  - rewrite El, length_app in E. unfold NBUF in E. lia.
Qed.

Lemma bget_loop_miss s :
  cache_ok l (k_bufs s) → Forall (λ y, ¬ caches dev bno (the_buf y s)) l →
  loop (bget_cached dev bno) (b_next (the_buf head s)) s = Ok None s.
Proof.
  intros Hk Hl1. change (b_next (the_buf head s)) with (nexts (k_bufs s) head).
  rewrite (ring_hd _ _ (ca_ring _ _ Hk)). pose proof (cache_length s Hk) as E.
  apply loop_path; [|unfold bget_cached; by destruct (decide _)|unfold NBUF in E; lia].
  intros la y lb ->. apply (bget_cached_next la); [done|].
  apply Forall_app in Hl1 as [_ Hl1]. by inversion Hl1.
Qed.

(** The second loop, from the tail. *)
Lemma final_reverse a k : final a k = hd a (reverse k).
Proof.
  destruct k as [|x k] using rev_ind; [done|]. by rewrite final_app, reverse_app.
Qed.

Lemma bget_loop_victim l1 b l2 s s' :
  l = l1 ++ b :: l2 → cache_ok l (k_bufs s) → Forall (λ y, b_refcnt (the_buf y s) ≠ 0) l2 →
  bget_recycle dev bno b s = Ok (inr (Some b)) s' →
  loop (bget_recycle dev bno) (b_prev (the_buf head s)) s = Ok (Some b) s'.
Proof.
  intros El Hk Hl2 Hb. change (b_prev (the_buf head s)) with (prevs (k_bufs s) head).
  rewrite (ring_tl _ _ (ca_ring _ _ Hk)), final_reverse, El, reverse_app, reverse_cons, <- app_assoc.
  pose proof (cache_length s Hk) as E.
  replace (hd head (reverse l2 ++ [b] ++ reverse l1)) with (hd b (reverse l2)) by (by destruct (reverse l2)).
  apply loop_path; [|done|].
  - intros la y lb Er. apply (f_equal reverse) in Er.
    rewrite reverse_involutive, reverse_app, reverse_cons, <- app_assoc in Er. simpl in Er.
    rewrite (bget_recycle_next (l1 ++ b :: reverse lb) y (reverse la)).
    + rewrite final_reverse, reverse_app, reverse_cons, reverse_involutive, <- app_assoc.
      by destruct lb.
    + rewrite <- app_assoc. simpl. by rewrite <- Er, <- El.
    + rewrite Er in Hl2. apply Forall_app in Hl2 as [_ Hl2]. by inversion Hl2.
  - rewrite El, length_app in E. simpl in E. rewrite length_reverse. unfold NBUF in E. lia.
Qed.

Lemma bget_loop_full s :
  cache_ok l (k_bufs s) → Forall (λ y, b_refcnt (the_buf y s) ≠ 0) l →
  loop (bget_recycle dev bno) (b_prev (the_buf head s)) s = Ok None s.
Proof.
  intros Hk Hl. change (b_prev (the_buf head s)) with (prevs (k_bufs s) head).
  rewrite (ring_tl _ _ (ca_ring _ _ Hk)), final_reverse. pose proof (cache_length s Hk) as E.
  apply loop_path; [|unfold bget_recycle; by destruct (decide _)|
                    rewrite length_reverse; unfold NBUF in E; lia].
  intros la y lb Er. apply (f_equal reverse) in Er.
  rewrite reverse_involutive, reverse_app, reverse_cons, <- app_assoc in Er. simpl in Er.
  rewrite (bget_recycle_next (reverse lb) y (reverse la)).
  - by rewrite final_reverse, reverse_involutive.
  - by rewrite <- Er.
  - rewrite Er in Hl. apply Forall_app in Hl as [_ Hl]. by inversion Hl.
Qed.

(** ** [bget], case by case *)

Lemma bget_hit b s :
  bget_pre s → (b < NBUF)%nat → dev ≠ 0 → caches dev bno (the_buf b s) →
  lock_free (LSleep (SBuf b)) (k_lk s) → slk_locked (the_slock (SBuf b) s) = 0 →
  bget dev bno s =
    Ok b (put_slock (SBuf b) (owned (SBuf b) p s) (set_buf b (ref_buf (the_buf b s)) s)).
Proof.
  intros Hpre Hb Hd Hm Hs H0. pose proof Hpre as (Hc & Hf & Hp & Hk).
  unfold bget. run_acquire Hc Hf. unfold get_buf at 1. run. ksimpl.
  destruct (list_elem_of_split _ _ (proj2 (cache_elem _ _ b Hk) Hb)) as (l1 & l2 & El).
  erewrite bind_ok.
  2: { change (the_buf head (set_k_lk _ s)) with (the_buf head (set_k_lk (held LBcache (k_lk s)) s)).
       eapply (bget_loop_hit l1 b l2); [done|by ksimpl| |].
       - apply Forall_forall. intros y Hy Hc'. assert (y = b) as ->.
         { apply (caches_inj _ _ _ _ _ _ Hk) with (3 := Hc') (4 := Hm); [|done|done].
           apply (cache_elem _ _ _ Hk). rewrite El. set_solver. }
         pose proof (cache_nodup _ _ Hk) as Hnd. rewrite El in Hnd.
         apply NoDup_cons in Hnd as [_ Hnd]. apply NoDup_app in Hnd as (_ & Hnd & _). set_solver.
       - unfold bget_cached. destruct (decide (b = head)) as [->|_]; [unfold head in Hb; lia|].
         unfold get_buf, upd_buf. run. change (the_buf b (set_k_lk _ s)) with (the_buf b s).
         rewrite caches_test, bool_decide_eq_true_2 by done. run. ksimpl.
         by apply bget_take. }
  done.
Qed.

Lemma bget_recycle_eq b s :
  bget_pre s → (b < NBUF)%nat → b_refcnt (the_buf b s) = 0 →
  lock_free (LSleep (SBuf b)) (k_lk s) → slk_locked (the_slock (SBuf b) s) = 0 →
  bget_recycle dev bno b (set_k_lk (held LBcache (k_lk s)) s) =
    Ok (inr (Some b)) (put_slock (SBuf b) (owned (SBuf b) p s)
                         (set_buf b (recycle_buf dev bno (the_buf b s)) s)).
Proof.
  intros Hpre Hb Hr Hs H0. pose proof Hpre as (_ & _ & _ & Hk).
  assert (Hi : (b < length (k_bufs s))%nat) by (rewrite (ca_len _ _ Hk); lia).
  unfold bget_recycle. destruct (decide (b = head)) as [->|_]; [unfold head in Hb; lia|].
  unfold get_buf, upd_buf. run. change (the_buf b (set_k_lk _ s)) with (the_buf b s).
  rewrite Hr. cbn [Z.eqb]. run. ksimpl.
  change (the_buf b (set_k_lk _ s)) with (the_buf b s).
  rewrite !list_insert_insert_eq, !the_buf_insert by done. by apply bget_take.
Qed.

Lemma bget_miss l1 b l2 s :
  bget_pre s → l = l1 ++ b :: l2 → Forall (λ y, ¬ caches dev bno (the_buf y s)) l →
  b_refcnt (the_buf b s) = 0 → Forall (λ y, b_refcnt (the_buf y s) ≠ 0) l2 →
  lock_free (LSleep (SBuf b)) (k_lk s) → slk_locked (the_slock (SBuf b) s) = 0 →
  bget dev bno s =
    Ok b (put_slock (SBuf b) (owned (SBuf b) p s)
            (set_buf b (recycle_buf dev bno (the_buf b s)) s)).
Proof.
  intros Hpre El Hn Hr H2 Hs H0. pose proof Hpre as (Hc & Hf & Hp & Hk).
  assert (Hb : (b < NBUF)%nat) by (apply (cache_elem _ _ _ Hk); rewrite El; set_solver).
  unfold bget. run_acquire Hc Hf. unfold get_buf. run.
  rewrite (bind_ok _ _ _ None (set_k_lk (held LBcache (k_lk s)) s))
    by (apply bget_loop_miss; [by ksimpl|done]).
  run. erewrite bind_ok; [|apply (bget_loop_victim l1 b l2); [done|by ksimpl|done|by apply bget_recycle_eq]].
  done.
Qed.

Lemma bget_full s :
  bget_pre s → Forall (λ y, ¬ caches dev bno (the_buf y s)) l →
  Forall (λ y, b_refcnt (the_buf y s) ≠ 0) l → bget dev bno s = Panic "bget: no buffers".
Proof.
  intros (Hc & Hf & Hp & Hk) Hn Hr. unfold bget. run_acquire Hc Hf. unfold get_buf. run.
  rewrite (bind_ok _ _ _ None (set_k_lk (held LBcache (k_lk s)) s))
    by (apply bget_loop_miss; [by ksimpl|done]).
  run. rewrite (bind_ok _ _ _ None (set_k_lk (held LBcache (k_lk s)) s))
    by (apply bget_loop_full; [by ksimpl|done]).
  done.
Qed.
End bget.

(** ** [brelse] *)

Definition unref_buf (b : buf) : buf := set_b_refcnt (u32 (b_refcnt b - 1)) b.

(** The list after the last reference to [b] is dropped. *)
Definition to_front (b : nat) (l : list nat) : list nat := b :: filter (λ x, x ≠ b) l.

(** The list surgery of [brelse] on the array of buffers. *)
Definition upd_nb (i : nat) (f : buf → buf) (bufs : list buf) : list buf :=
  <[i := f (nbuf i bufs)]> bufs.
Definition unlink (b : nat) (bufs : list buf) : list buf :=
  let u := upd_nb (nexts bufs b) (set_b_prev (prevs bufs b)) bufs in
  upd_nb (prevs u b) (set_b_next (nexts u b)) u.
Definition link_front (b : nat) (bufs : list buf) : list buf :=
  let u := upd_nb b (set_b_next (nexts bufs head)) bufs in
  let u := upd_nb b (set_b_prev head) u in
  let u := upd_nb (nexts u head) (set_b_prev b) u in
  upd_nb head (set_b_next b) u.

(** Equal up to the links. *)
Definition same_content (x y : buf) : Prop :=
  b_valid x = b_valid y ∧ b_disk x = b_disk y ∧ b_dev x = b_dev y ∧ b_blockno x = b_blockno y ∧
  b_refcnt x = b_refcnt y ∧ b_data x = b_data y.

Lemma same_content_refl x : same_content x x.
Proof. by unfold same_content. Qed.

Lemma same_content_trans x y z : same_content x y → same_content y z → same_content x z.
Proof. unfold same_content. intros (?&?&?&?&?&?) (?&?&?&?&?&?). split_and!; congruence. Qed.

Lemma upd_nb_length i f bufs : length (upd_nb i f bufs) = length bufs.
Proof. apply length_insert. Qed.

Lemma nexts_set_next i v bufs j :
  (i < length bufs)%nat → nexts (upd_nb i (set_b_next v) bufs) j = fupd i v (nexts bufs) j.
Proof.
  intros H. unfold nexts, upd_nb, fupd. rewrite nbuf_insert_case by done. by case_decide.
Qed.

Lemma nexts_set_prev i v bufs j :
  (i < length bufs)%nat → nexts (upd_nb i (set_b_prev v) bufs) j = nexts bufs j.
Proof.
  intros H. unfold nexts, upd_nb. rewrite nbuf_insert_case by done. by case_decide; subst.
Qed.

Lemma prevs_set_prev i v bufs j :
  (i < length bufs)%nat → prevs (upd_nb i (set_b_prev v) bufs) j = fupd i v (prevs bufs) j.
Proof.
  intros H. unfold prevs, upd_nb, fupd. rewrite nbuf_insert_case by done. by case_decide.
Qed.

Lemma prevs_set_next i v bufs j :
  (i < length bufs)%nat → prevs (upd_nb i (set_b_next v) bufs) j = prevs bufs j.
Proof.
  intros H. unfold prevs, upd_nb. rewrite nbuf_insert_case by done. by case_decide; subst.
Qed.

Lemma content_set_next i v bufs j :
  (i < length bufs)%nat → same_content (nbuf j (upd_nb i (set_b_next v) bufs)) (nbuf j bufs).
Proof. intros H. unfold upd_nb. rewrite nbuf_insert_case by done. by case_decide; subst. Qed.

Lemma content_set_prev i v bufs j :
  (i < length bufs)%nat → same_content (nbuf j (upd_nb i (set_b_prev v) bufs)) (nbuf j bufs).
Proof. intros H. unfold upd_nb. rewrite nbuf_insert_case by done. by case_decide; subst. Qed.

Lemma ring_range bufs l x :
  ring bufs l → (∀ y, y ∈ l → (y < NBUF)%nat) → x = head ∨ x ∈ l →
  (nexts bufs x ≤ NBUF)%nat ∧ (prevs bufs x ≤ NBUF)%nat.
Proof.
  intros Hr Hl Hx. unfold head in *.
  assert (Hn : ∀ k, (∀ y, y ∈ k → (y < NBUF)%nat) → (hd NBUF k ≤ NBUF)%nat).
  { intros [|y k] Hk; simpl; [lia|]. specialize (Hk y). assert (y < NBUF)%nat by (apply Hk; set_solver). lia. }
  destruct Hx as [->|Hx].
  - rewrite (ring_hd _ _ Hr : nexts bufs NBUF = _), (ring_tl _ _ Hr : prevs bufs NBUF = _), final_reverse.
    split; apply Hn; set_solver.
  - destruct (list_elem_of_split _ _ Hx) as (l1 & l2 & ->).
    rewrite (ring_next _ _ _ _ Hr), (ring_prev _ _ _ _ Hr), final_reverse.
    split; apply Hn; set_solver.
Qed.

Lemma seg_ext N P N' P' a l c :
  (∀ x, N' x = N x) → (∀ x, P' x = P x) → seg N P a l c → seg N' P' a l c.
Proof. intros. eapply seg_frame; eauto. Qed.

Lemma unlink_ok bufs l1 b l2 :
  length bufs = S NBUF → NoDup (head :: l1 ++ b :: l2) →
  (∀ y, y ∈ l1 ++ b :: l2 → (y < NBUF)%nat) → ring bufs (l1 ++ b :: l2) →
  length (unlink b bufs) = S NBUF ∧ ring (unlink b bufs) (l1 ++ l2) ∧
  ∀ j, same_content (nbuf j (unlink b bufs)) (nbuf j bufs).
Proof.
  intros HL Hnd Hl Hr. destruct (ring_range _ _ b Hr Hl) as [Hn Hp]; [set_solver|].
  assert (Hnb : nexts bufs b ≠ b).
  { rewrite (ring_next _ _ _ _ Hr). apply NoDup_cons in Hnd as [Hh Hnd].
    destruct l2 as [|y l2]; simpl; [set_solver|]. apply NoDup_app in Hnd as (_ & _ & Hnd). 
    apply NoDup_cons in Hnd as [Hnd _]. set_solver. }
  unfold unlink. cbv zeta. set (u := upd_nb (nexts bufs b) (set_b_prev (prevs bufs b)) bufs).
  assert (Hu : length u = S NBUF) by (unfold u; by rewrite upd_nb_length).
  assert (Eu : prevs u b = prevs bufs b).
  { unfold u. rewrite prevs_set_prev by lia. by apply fupd_ne. }
  assert (En : nexts u b = nexts bufs b) by (unfold u; by rewrite nexts_set_prev by lia).
  rewrite Eu, En. split_and!.
  - by rewrite upd_nb_length.
  - eapply seg_ext; [| |apply (seg_remove _ _ _ _ b _ Hnd Hr)]; intros x.
    + rewrite nexts_set_next by lia. unfold fupd. case_decide; [done|]. unfold u. by rewrite nexts_set_prev by lia.
    + rewrite prevs_set_next by lia. unfold u. by rewrite prevs_set_prev by lia.
  - intros j. eapply same_content_trans; [apply content_set_next; lia|apply content_set_prev; lia].
Qed.

Lemma link_front_ok bufs b l :
  length bufs = S NBUF → NoDup (head :: l) → b ∉ head :: l → (b < NBUF)%nat →
  (∀ y, y ∈ l → (y < NBUF)%nat) → ring bufs l →
  length (link_front b bufs) = S NBUF ∧ ring (link_front b bufs) (b :: l) ∧
  ∀ j, same_content (nbuf j (link_front b bufs)) (nbuf j bufs).
Proof.
  intros HL Hnd Hb Hlt Hl Hr. destruct (ring_range _ _ head Hr Hl) as [Hn _]; [by left|].
  unfold link_front. cbv zeta.
  set (u1 := upd_nb b (set_b_next (nexts bufs head)) bufs).
  set (u2 := upd_nb b (set_b_prev head) u1).
  assert (H1 : length u1 = S NBUF) by (unfold u1; by rewrite upd_nb_length).
  assert (H2 : length u2 = S NBUF) by (unfold u2; by rewrite upd_nb_length).
  assert (En : nexts u2 head = nexts bufs head).
  { unfold u2. rewrite nexts_set_prev by lia. unfold u1. rewrite nexts_set_next by lia.
    apply fupd_ne. set_solver. }
  rewrite En. set (u3 := upd_nb (nexts bufs head) (set_b_prev b) u2).
  assert (H3 : length u3 = S NBUF) by (unfold u3; by rewrite upd_nb_length).
  assert (Hh : (head < S NBUF)%nat) by (unfold head; lia).
  split_and!.
  - by rewrite upd_nb_length.
  - eapply seg_ext; [| |apply (seg_insert _ _ _ _ b Hnd Hb Hr)]; intros x.
    + rewrite nexts_set_next by lia. unfold fupd at 1 2. case_decide; [done|].
      unfold u3. rewrite nexts_set_prev by lia. unfold u2. rewrite nexts_set_prev by lia.
      unfold u1. by rewrite nexts_set_next by lia.
    + rewrite prevs_set_next by lia. unfold u3. rewrite prevs_set_prev by lia.
      unfold fupd at 1 2. case_decide; [done|]. unfold u2. rewrite prevs_set_prev by lia.
      unfold fupd. case_decide; [done|]. unfold u1. by rewrite prevs_set_next by lia.
  - intros j. eapply same_content_trans; [apply content_set_next; lia|].
    eapply same_content_trans; [apply content_set_prev; lia|].
    eapply same_content_trans; [apply content_set_prev; lia|apply content_set_next; lia].
Qed.

(** Moving a buffer to the front keeps the cache well-formed. *)
Lemma move_front_ok l bufs b :
  cache_ok l bufs → (b < NBUF)%nat →
  cache_ok (to_front b l) (link_front b (unlink b bufs)) ∧
  ∀ j, same_content (nbuf j (link_front b (unlink b bufs))) (nbuf j bufs).
Proof.
  intros Hk Hb. pose proof (cache_nodup _ _ Hk) as Hnd.
  destruct (list_elem_of_split _ _ (proj2 (cache_elem _ _ b Hk) Hb)) as (l1 & l2 & El).
  assert (Hl : ∀ y, y ∈ l → (y < NBUF)%nat) by (intros y; apply (cache_elem _ _ _ Hk)).
  rewrite El in Hnd, Hl. pose proof (ca_ring _ _ Hk) as Hr. rewrite El in Hr.
  destruct (unlink_ok bufs l1 b l2 (ca_len _ _ Hk) Hnd Hl Hr) as (HL1 & Hr1 & Hc1).
  assert (Hnd' := Hnd). apply NoDup_cons in Hnd' as [Hh Hnd']. apply NoDup_app in Hnd' as (Hn1 & Hd & Hn2).
  apply NoDup_cons in Hn2 as [Hb2 Hn2].
  assert (Hb1 : b ∉ l1) by set_solver.
  assert (Ef : to_front b l = b :: l1 ++ l2).
  { unfold to_front. f_equal. rewrite El, filter_app, filter_cons_False by naive_solver.
    by rewrite !filter_id by (intros x Hx ->; done). }
  destruct (link_front_ok (unlink b bufs) b (l1 ++ l2) HL1) as (HL2 & Hr2 & Hc2); auto.
  - constructor; [set_solver|]. apply NoDup_app. split_and!; [done|set_solver|done].
  - rewrite not_elem_of_cons, not_elem_of_app. split_and!; [unfold head; lia|done|done].
  - intros y Hy. apply Hl. set_solver.
  - assert (Hc : ∀ j, same_content (nbuf j (link_front b (unlink b bufs))) (nbuf j bufs))
      by (intros j; eapply same_content_trans; eauto).
    split; [|done]. split; [done| | |].
    + rewrite Ef, <- (ca_perm _ _ Hk), El. apply Permutation_middle.
    + by rewrite Ef.
    + intros i j Hi Hj. destruct (Hc i) as (_ & _ & E1 & E2 & _), (Hc j) as (_ & _ & E3 & E4 & _).
      rewrite E1, E2, E3, E4. by apply (ca_uniq _ _ Hk).
Qed.

Definition brelse_bufs (b : nat) (bufs : list buf) : list buf :=
  let u := upd_nb b unref_buf bufs in
  if b_refcnt (nbuf b u) =? 0 then link_front b (unlink b u) else u.

(** The sleeplock of [b] is held by process [p]. *)
Definition holds_buf (b p : nat) (s : kstate) : Prop :=
  slk_locked (the_slock (SBuf b) s) ≠ 0 ∧ slk_pid (the_slock (SBuf b) s) = p_pid (the_proc p s).

Lemma holdingsleep_holds b p s :
  quiet p s → (b < NBUF)%nat → holds_buf b p s → holdingsleep (SBuf b) s = Ok true s.
Proof.
  intros Hq Hb [H1 H2]. rewrite (holdingsleep_eq _ p); [|apply Hq|by apply (q_locks _ _ Hq)|apply Hq].
  by rewrite (proj2 (Z.eqb_neq _ _) H1), H2, Z.eqb_refl.
Qed.

Lemma upd_buf_eq i f s : upd_buf i f s = Ok () (set_k_bufs (upd_nb i f (k_bufs s)) s).
Proof. done. Qed.

Lemma get_buf_eq i s : get_buf i s = Ok (nbuf i (k_bufs s)) s.
Proof. done. Qed.

Ltac run_buf := repeat (first [rewrite (bind_ok _ _ _ _ _ (get_buf_eq _ _))
                              | rewrite (bind_ok _ _ _ _ _ (upd_buf_eq _ _ _))]; cbv beta; ksimpl).

Lemma brelse_surgery b bf s :
  bf = nbuf b (k_bufs s) →
  (upd_buf (b_next bf) (set_b_prev (b_prev bf)) ;;;
   let! bf := get_buf b in
   upd_buf (b_prev bf) (set_b_next (b_next bf)) ;;;
   let! h := get_buf head in
   upd_buf b (set_b_next (b_next h)) ;;;
   upd_buf b (set_b_prev head) ;;;
   let! h := get_buf head in
   upd_buf (b_next h) (set_b_prev b) ;;;
   upd_buf head (set_b_next b)) s =
  Ok () (set_k_bufs (link_front b (unlink b (k_bufs s))) s).
Proof. intros ->. run_buf. rewrite upd_buf_eq. ksimpl. reflexivity. Qed.

Lemma brelse_eq b p s :
  quiet p s → (b < NBUF)%nat → holds_buf b p s →
  brelse b s = Ok () (set_k_bufs (brelse_bufs b (k_bufs s))
    (set_k_procs (wake (ChSleep (SBuf b)) <$> k_procs s)
      (put_slock (SBuf b) (unowned (SBuf b) s) s))).
Proof.
  intros Hq Hb Hh. pose proof Hq as [Hc Hp _ Hl Hn _]. unfold brelse.
  rewrite (bind_ok _ _ _ _ _ (holdingsleep_holds b p s Hq Hb Hh)). cbn [negb].
  erewrite bind_ok; [|apply releasesleep_eq; [exact Hc|by apply (Hl (LSleep (SBuf b)))|
                      exact (quiet_proc_locks _ _ Hq)|exact Hn]].
  set (s1 := set_k_procs _ _).
  assert (E1 : k_lk s1 = k_lk s) by done. assert (Eb : k_bufs s1 = k_bufs s) by done.
  rewrite <- Eb. clearbody s1. clear Eb.
  assert (Hc1 : cpu_ok (k_lk s1)) by (by rewrite E1).
  assert (Hf1 : lock_free LBcache (k_lk s1)) by (rewrite E1; by apply Hl).
  run_acquire Hc1 Hf1.
  rewrite (bind_ok _ _ _ _ _ (upd_buf_eq _ _ _)). ksimpl.
  rewrite (bind_ok _ _ _ _ _ (get_buf_eq _ _)). ksimpl.
  unfold brelse_bufs. cbv zeta.
  change (λ bf : buf, set_b_refcnt (u32 (b_refcnt bf - 1)) bf) with unref_buf.
  set (u := upd_nb b unref_buf (k_bufs s1)).
  destruct (b_refcnt (nbuf b u) =? 0); cbn [when].
  - erewrite bind_ok; [|apply brelse_surgery; by ksimpl].
    ksimpl. erewrite release_eq; [|exact Hc1|exact Hf1|by ksimpl]. okeq.
  - run. erewrite release_eq; [|exact Hc1|exact Hf1|by ksimpl]. okeq.
Qed.

(** ** [bget] and [brelse] keep the cache well-formed *)

Lemma cache_ref l bufs b :
  cache_ok l bufs → (b < NBUF)%nat → cache_ok l (<[b := ref_buf (nbuf b bufs)]> bufs).
Proof. intros. by apply cache_update_same. Qed.

Lemma cache_recycle l bufs dev bno b :
  cache_ok l bufs → (b < NBUF)%nat → Forall (λ y, ¬ caches dev bno (nbuf y bufs)) l →
  cache_ok l (<[b := recycle_buf dev bno (nbuf b bufs)]> bufs).
Proof.
  intros Hk Hb Hn. apply cache_update; [done..| |done].
  intros _ j Hj Hne E1 E2. rewrite Forall_forall in Hn.
  apply (Hn j); [by apply (cache_elem _ _ _ Hk)|]. by split.
Qed.

Lemma brelse_bufs_ok l bufs b :
  cache_ok l bufs → (b < NBUF)%nat →
  cache_ok (if u32 (b_refcnt (nbuf b bufs) - 1) =? 0 then to_front b l else l) (brelse_bufs b bufs) ∧
  ∀ j, same_content (nbuf j (brelse_bufs b bufs))
         (if decide (j = b) then unref_buf (nbuf b bufs) else nbuf j bufs).
Proof.
  intros Hk Hb. pose proof (ca_len _ _ Hk) as HL. unfold brelse_bufs. cbv zeta.
  set (u := upd_nb b unref_buf bufs).
  assert (Hu : cache_ok l u) by (by apply cache_update_same).
  assert (Ec : ∀ j, nbuf j u = if decide (j = b) then unref_buf (nbuf b bufs) else nbuf j bufs)
    by (intros j; unfold u, upd_nb; rewrite nbuf_insert_case by lia; by case_decide; subst).
  rewrite (Ec b), decide_True by done. cbn [unref_buf b_refcnt set_b_refcnt].
  destruct (u32 (b_refcnt (nbuf b bufs) - 1) =? 0).
  - destruct (move_front_ok l u b Hu Hb) as [H1 H2]. split; [done|]. intros j. rewrite <- Ec. apply H2.
  - split; [done|]. intros j. rewrite <- Ec. apply same_content_refl.
Qed.

(** ** [binit] *)

Lemma binit_step b s :
  (let! h := get_buf head in
   upd_buf b (set_b_next (b_next h)) ;;;
   upd_buf b (set_b_prev head) ;;;
   initsleeplock (SBuf b) "buffer" ;;;
   let! h := get_buf head in
   upd_buf (b_next h) (set_b_prev b) ;;;
   upd_buf head (set_b_next b) ;;;
   ret (@None unit)) s =
  Ok None (set_k_bufs (link_front b (k_bufs s))
     (set_k_lk (put_lock (LSleep (SBuf b)) (mkSpinlock 0 "sleep lock" None) (k_lk s))
        (put_slock (SBuf b) (mkSleeplock 0 "buffer" 0) s))).
Proof.
  run_buf. unfold initsleeplock, initlock, upd_lk, upd_slock. run. ksimpl. run_buf.
  rewrite !the_slock_insert, !insert_insert_eq. unfold ret, put_slock.
  cbn [set_slk_name set_slk_locked set_slk_pid slk_locked slk_name slk_pid].
  apply Ok_eq. unfold link_front. cbv zeta. keq.
Qed.

(** Device number 0 marks the buffers of a fresh cache. *)
Definition fresh_bufs (bufs : list buf) : Prop :=
  length bufs = S NBUF ∧ ∀ i, (i < NBUF)%nat → b_dev (nbuf i bufs) = 0.

Lemma binit_ok s :
  fresh_bufs (k_bufs s) →
  wp binit (λ _ s', cache_ok (reverse (seq 0 NBUF)) (k_bufs s') ∧
    (∀ i, (i < NBUF)%nat → same_content (nbuf i (k_bufs s')) (nbuf i (k_bufs s)) ∧
       slk_locked (the_slock (SBuf i) s') = 0 ∧ lock_free (LSleep (SBuf i)) (k_lk s')) ∧
    lock_free LBcache (k_lk s')) s.
Proof.
  intros [HL Hd]. unfold binit, initlock, upd_lk. rewrite wp_bind, wp_modify.
  rewrite wp_bind. eapply wp_ok; [apply upd_buf_eq|]. rewrite wp_bind. eapply wp_ok; [apply upd_buf_eq|].
  ksimpl. rewrite wp_bind.
  set (u0 := upd_nb head (set_b_next head) (upd_nb head (set_b_prev head) (k_bufs s))).
  assert (HL0 : length u0 = S NBUF) by (unfold u0; by rewrite !upd_nb_length).
  assert (Hh : (head < S NBUF)%nat) by (unfold head; lia).
  assert (Hc0 : ∀ j, same_content (nbuf j u0) (nbuf j (k_bufs s))).
  { intros j. eapply same_content_trans; [apply content_set_next; rewrite upd_nb_length; lia|
      apply content_set_prev; lia]. }
  assert (Hr0 : ring u0 []).
  { split; unfold u0.
    - rewrite nexts_set_next by (rewrite upd_nb_length; lia). by rewrite fupd_eq.
    - rewrite prevs_set_next by (rewrite upd_nb_length; lia).
      rewrite prevs_set_prev by lia. by rewrite fupd_eq. }
  apply (wp_for NBUF 0 _ (λ i t, length (k_bufs t) = S NBUF ∧ ring (k_bufs t) (reverse (seq 0 i)) ∧
    (∀ j, same_content (nbuf j (k_bufs t)) (nbuf j (k_bufs s))) ∧
    (∀ j, (j < i)%nat → slk_locked (the_slock (SBuf j) t) = 0 ∧ lock_free (LSleep (SBuf j)) (k_lk t)) ∧
    lock_free LBcache (k_lk t))).
  - ksimpl. split_and!; [done|done|done|lia|]. exists "bcache". unfold put_lock. simpl. apply lookup_insert_eq.
  - intros i t Hi (HLt & Hrt & Hct & Hst & Hft). eapply wp_ok; [apply binit_step|]. cbv beta.
    destruct (link_front_ok (k_bufs t) i (reverse (seq 0 i)) HLt) as (H1 & H2 & H3); [..|done|].
    + constructor; [rewrite elem_of_reverse, elem_of_seq; unfold head; lia|].
      rewrite reverse_Permutation. apply NoDup_seq.
    + rewrite not_elem_of_cons, elem_of_reverse, elem_of_seq. unfold head. lia.
    + lia.
    + intros y. rewrite elem_of_reverse, elem_of_seq. lia.
    + unfold put_slock. ksimpl. split_and!; [done| | | |].
      * rewrite seq_S, reverse_app. done.
      * intros j. eapply same_content_trans; eauto.
      * intros j Hj. destruct (decide (j = i)) as [->|Hne].
        -- split; [by unfold the_slock; ksimpl; rewrite lookup_insert_eq|].
           exists "sleep lock". unfold put_lock. simpl. apply lookup_insert_eq.
        -- destruct (Hst j ltac:(lia)) as [Hs1 [n Hs2]]. split.
           { unfold the_slock. ksimpl. rewrite lookup_insert_ne by congruence. exact Hs1. }
           exists n. unfold put_lock. simpl. by rewrite lookup_insert_ne by congruence.
      * destruct Hft as [n Hn]. exists n. unfold put_lock. simpl. by rewrite lookup_insert_ne.
  - intros t (HLt & Hrt & Hct & Hst & Hft). rewrite wp_ret. split_and!; [|auto with lia|done].
    split; [done|apply reverse_Permutation|done|].
    intros i j Hi Hj Hnz. exfalso. apply Hnz. destruct (Hct i) as (_ & _ & -> & _). by apply Hd.
Qed.

Lemma bget_pre_quiet p l s : quiet p s → cache_ok l (k_bufs s) → bget_pre p l s.
Proof.
  intros Hq Hk. split_and!; [apply Hq|by apply (q_locks _ _ Hq)|apply Hq|done].
Qed.

Lemma sbuf_free b p s : quiet p s → (b < NBUF)%nat → lock_free (LSleep (SBuf b)) (k_lk s).
Proof. intros Hq Hb. by apply (q_locks _ _ Hq). Qed.

Lemma holds_owned b p s s' :
  (∀ i, p_pid (the_proc i s') = p_pid (the_proc i s)) →
  holds_buf b p (put_slock (SBuf b) (owned (SBuf b) p s) s').
Proof.
  intros H. unfold holds_buf, put_slock. rewrite the_slock_insert. split; [done|].
  cbn [owned slk_pid]. symmetry. apply H.
Qed.

(** ** Properties *)

(** C16. The buffer cache is a least-recently-used cache.  Its doubly linked list
    is at every moment a list of all the buffers, without repetition, and no
    block has two buffers.  [bget] of a cached block returns the one buffer that
    has it, with its contents and one more reference; of a block that is not
    cached, it recycles the last unreferenced buffer of the list; with all
    buffers referenced it panics.  [brelse] drops a reference and, when it was
    the last one, moves the buffer to the front of the list. *)
Theorem bcache_lru (p : nat) (dev bno : Z) (l : list nat) (s : kstate) :
  quiet p s → dev ≠ 0 → cache_ok l (k_bufs s) →
  (∀ b, (b < NBUF)%nat → slk_locked (the_slock (SBuf b) s) = 0 → caches dev bno (the_buf b s) →
     wp (bget dev bno) (λ r s', r = b ∧ holds_buf b p s' ∧ cache_ok l (k_bufs s') ∧
       the_buf b s' = ref_buf (the_buf b s) ∧ ∀ j, j ≠ b → the_buf j s' = the_buf j s) s) ∧
  (Forall (λ i, ¬ caches dev bno (the_buf i s)) l →
     (∀ l1 b l2, l = l1 ++ b :: l2 → b_refcnt (the_buf b s) = 0 →
        Forall (λ i, b_refcnt (the_buf i s) ≠ 0) l2 → slk_locked (the_slock (SBuf b) s) = 0 →
        wp (bget dev bno) (λ r s', r = b ∧ holds_buf b p s' ∧ cache_ok l (k_bufs s') ∧
          the_buf b s' = recycle_buf dev bno (the_buf b s) ∧ ∀ j, j ≠ b → the_buf j s' = the_buf j s) s) ∧
     (Forall (λ i, b_refcnt (the_buf i s) ≠ 0) l → bget dev bno s = Panic "bget: no buffers")) ∧
  (∀ b, (b < NBUF)%nat → holds_buf b p s → 1 ≤ b_refcnt (the_buf b s) < 2 ^ 32 →
     wp (brelse b) (λ _ s', slk_locked (the_slock (SBuf b) s') = 0 ∧
       cache_ok (if b_refcnt (the_buf b s) =? 1 then to_front b l else l) (k_bufs s') ∧
       (∀ j, same_content (the_buf j s')
          (if decide (j = b) then set_b_refcnt (b_refcnt (the_buf b s) - 1) (the_buf b s)
           else the_buf j s))) s).
Proof.
  intros Hq Hd Hk. pose proof (bget_pre_quiet _ _ _ Hq Hk) as Hpre. pose proof (ca_len _ _ Hk) as HL.
  split_and!; [|split|].
  - intros b Hb H0 Hc. eapply wp_ok; [apply (bget_hit dev bno p l); [done..|by apply (sbuf_free b p)|done]|].
    split_and!; [done|by apply holds_owned|by apply cache_ref|by apply nbuf_insert; lia|].
    intros j Hj. by apply nbuf_insert_ne.
  - intros l1 b l2 El Hr H2 H0.
    assert (Hb : (b < NBUF)%nat) by (apply (cache_elem _ _ _ Hk); rewrite El; set_solver).
    eapply wp_ok; [apply (bget_miss dev bno p l l1 b l2); [done..|by apply (sbuf_free b p)|done]|].
    split_and!; [done|by apply holds_owned|by apply cache_recycle|by apply nbuf_insert; lia|].
    intros j Hj. by apply nbuf_insert_ne.
  - intros Hr. by apply (bget_full dev bno p l).
  - intros b Hb Hh Hr. eapply wp_ok; [by apply (brelse_eq b p)|].
    change (the_buf b s) with (nbuf b (k_bufs s)) in *.
    destruct (brelse_bufs_ok l (k_bufs s) b Hk Hb) as [H1 H2].
    rewrite (u32_small (b_refcnt (nbuf b (k_bufs s)) - 1)) in H1 by lia.
    split_and!.
    + unfold the_slock, put_slock. ksimpl. by rewrite lookup_insert_eq.
    + ksimpl. replace (b_refcnt (nbuf b (k_bufs s)) =? 1) with (b_refcnt (nbuf b (k_bufs s)) - 1 =? 0); [done|].
      repeat zcase; lia || done.
    + intros j. eapply same_content_trans; [exact (H2 j)|]. unfold unref_buf.
      case_decide; [|done]. rewrite u32_small by lia. done.
Qed.

(** A booted kernel with a fresh cache. *)
Definition fresh_cache : list buf :=
  imap (λ i b, set_b_next (if decide (i = 0%nat) then head else i - 1)%nat
                 (set_b_prev (if decide (i = 29%nat) then head else i + 1)%nat b)) (replicate NBUF buf0)
  ++ [set_b_next 29 (set_b_prev 0 buf0)].
Definition fresh_state : kstate := set_k_bufs fresh_cache quiet0.

Lemma quiet_fresh : quiet 0 fresh_state.
Proof. apply (quiet_eq 0 quiet0); [done|done|apply quiet_0]. Qed.

Lemma cache_fresh : cache_ok (reverse (seq 0 NBUF)) fresh_cache.
Proof.
  split; [done|apply reverse_Permutation|vm_compute; repeat split|].
  intros i j Hi Hj Hn. exfalso. apply Hn. unfold nbuf, fresh_cache, NBUF in *.
  do 30 (destruct i as [|i]; [reflexivity|]). lia.
Qed.

Lemma bcache_lru_witness :
  wp (bget 1 7) (λ r s', r = 0%nat ∧ holds_buf 0 0 s') fresh_state.
Proof.
  destruct (bcache_lru 0 1 7 (reverse (seq 0 NBUF)) fresh_state quiet_fresh) as (_ & H & _).
  - discriminate.
  - exact cache_fresh.
  - destruct H as [H _].
    + apply Forall_forall. intros i Hi [E _]. apply elem_of_reverse, elem_of_seq in Hi.
      unfold NBUF in Hi. do 30 (destruct i as [|i]; [discriminate E|]). lia.
    + eapply wp_mono; [apply (H (reverse (seq 1 29)) 0%nat []); [reflexivity|reflexivity|constructor|reflexivity]|].
      intros r s' (E & Hh & _). split; [exact E|exact Hh].
Defined.
