(* ===== verification/Cache.v ===== *)
(** * The buffer cache over a disk

    What the layers above [bio.c] rely on.  [DiskLaws] is the interface of the
    disk driver: a request returns with the block transferred.  [cinv] is the
    state of the cache for a process that holds the buffers [H] while the
    blocks [P] are pinned by the log; [blk] is the content of a block as every
    [bread] sees it. *)

From stdpp Require Import prelude gmap strings list list_numbers fin_sets.
From Stdlib Require Import ZArith Lia.
From S2P Require Import Prelude.
From S2P Require Import Monad.
From S2P Require Import Riscv.
From S2P Require Import Types.
From S2P Require Import Mem.
From S2P Require Import Spinlock.
From S2P Require Import Proc.
From S2P Require Import ProcSpec.
From S2P Require Import Sleeplock.
From S2P Require Import Virtio.
From S2P Require Import Bio.
From S2P Require Import BioSpec.

(** ** Frames *)

(** A process may have been woken, or have slept and run again. *)
Definition proc_sim (x y : proc) : Prop := ∃ st ch, y = set_p_state st (set_p_chan ch x).
Definition procs_sim (a b : list proc) : Prop := Forall2 proc_sim a b.

Lemma proc_sim_refl x : proc_sim x x.
Proof. exists (p_state x), (p_chan x). by destruct x. Qed.

Lemma proc_sim_trans x y z : proc_sim x y → proc_sim y z → proc_sim x z.
Proof. intros (a & b & ->) (c & d & ->). exists c, d. by destruct x. Qed.

#[export] Instance procs_sim_refl : Reflexive procs_sim.
Proof. intros l. apply Forall_Forall2_diag, Forall_forall. intros x _. apply proc_sim_refl. Qed.

#[export] Instance procs_sim_trans : Transitive procs_sim.
Proof.
  intros a b c H1. revert c. induction H1 as [|x y a b Hxy _ IH]; intros c H2; inversion H2; subst;
    constructor; [by eapply proc_sim_trans|by apply IH].
Qed.

Lemma wake_sim ch l : procs_sim l (wake ch <$> l).
Proof.
  apply Forall2_fmap_r, Forall_Forall2_diag, Forall_forall. intros x _. unfold compose, wake, is_sleeping.
  case_match; [exists RUNNABLE, (p_chan x); by destruct x|apply proc_sim_refl].
Qed.

Lemma procs_sim_pid a b i : procs_sim a b → p_pid (nth i b proc0) = p_pid (nth i a proc0).
Proof.
  intros H. rewrite !nth_lookup. destruct (a !! i) as [x|] eqn:Ea.
  - destruct (Forall2_lookup_l _ _ _ _ _ H Ea) as (y & -> & (st & ch & ->)); done.
  - pose proof (Forall2_length _ _ _ H). apply lookup_ge_None in Ea.
    by rewrite (lookup_ge_None_2 b) by lia.
Qed.

(** The part of the kernel that the buffer cache and the disk leave alone. *)
Definition core (s : kstate) :=
  (k_lk s, k_freelist s, k_kpt s, k_initproc s, k_nextpid s, k_first s, k_ticks s, k_log s, k_sb s,
   k_icache s, k_ftable s, k_pipes s, k_cons s, k_uart s, k_locking s, k_panicked s, k_devsw s,
   k_started s).

(** The disk driver may use the memory of [scratch], and nothing else. *)
Definition frame (scratch : Z → Prop) (s s' : kstate) : Prop :=
  core s' = core s ∧ procs_sim (k_procs s) (k_procs s') ∧
  (∀ a, ¬ scratch a → rd (k_mem s') a = rd (k_mem s) a) ∧
  ∀ i, the_slock (SInode i) s' = the_slock (SInode i) s.

#[export] Instance frame_refl sc : Reflexive (frame sc).
Proof. intros s. by split_and!. Qed.

#[export] Instance frame_trans sc : Transitive (frame sc).
Proof.
  intros s t u (H1 & H2 & H3 & HS) (H4 & H5 & H6 & HT). split_and!; [congruence|by etrans| |].
  - intros a Ha. rewrite H6, H3 by done. done.
  - intros i. by rewrite HT, HS.
Qed.

Lemma frame_quiet sc p s s' : frame sc s s' → quiet p s → quiet p s'.
Proof.
  intros (E & Hp & _). apply quiet_eq; [by injection E|by rewrite (Forall2_length _ _ _ Hp)].
Qed.

Lemma frame_pid sc s s' i : frame sc s s' → p_pid (the_proc i s') = p_pid (the_proc i s).
Proof. intros (_ & H & _). by apply procs_sim_pid. Qed.

Lemma frame_log sc s s' : frame sc s s' → k_log s' = k_log s.
Proof. intros (E & _). by injection E. Qed.
Lemma frame_sb sc s s' : frame sc s s' → k_sb s' = k_sb s.
Proof. intros (E & _). by injection E. Qed.
Lemma frame_icache sc s s' : frame sc s s' → k_icache s' = k_icache s.
Proof. intros (E & _). by injection E. Qed.
Lemma frame_lk sc s s' : frame sc s s' → k_lk s' = k_lk s.
Proof. intros (E & _). by injection E. Qed.
Lemma frame_ilock sc s s' i : frame sc s s' → the_slock (SInode i) s' = the_slock (SInode i) s.
Proof. by intros (_ & _ & _ & H). Qed.

(** ** The disk *)

Definition zero_block : list Z := replicate 1024 0.
Definition disk_block (bno : Z) (s : kstate) : list Z := default zero_block (k_disk s !! bno).

(** What [bio.c] relies on: a request by a process that holds the buffer's lock
    returns, and then the block has been read into the buffer or written to the
    disk. *)
Class DiskLaws {DD : DiskDriver} := mkDiskLaws {
  scratch : Z → Prop;               (** memory the driver writes *)
  disk_uses : Z → Prop;             (** memory the driver reads *)
  disk_ready : kstate → Prop;
  uses_not_scratch : ∀ a, disk_uses a → ¬ scratch a;
  disk_ready_ext : ∀ s s', k_vdisk s' = k_vdisk s → k_io s' = k_io s → k_kpt s' = k_kpt s →
    (∀ a, disk_uses a → rd (k_mem s') a = rd (k_mem s) a) → disk_ready s → disk_ready s';
  disk_read : ∀ p b s, quiet p s → disk_ready s → (b < NBUF)%nat →
    (b < length (k_bufs s))%nat → b_disk (the_buf b s) = 0 → 0 ≤ b_blockno (the_buf b s) < 2 ^ 31 →
    wp (disk_rw b false) (λ _ s', frame scratch s s' ∧ disk_ready s' ∧ k_slocks s' = k_slocks s ∧
      k_disk s' = k_disk s ∧ k_dwrites s' = k_dwrites s ∧
      k_bufs s' = <[b := set_b_data (disk_block (b_blockno (the_buf b s)) s) (the_buf b s)]> (k_bufs s)) s;
  disk_write : ∀ p b s, quiet p s → disk_ready s → (b < NBUF)%nat →
    (b < length (k_bufs s))%nat → b_disk (the_buf b s) = 0 → 0 ≤ b_blockno (the_buf b s) < 2 ^ 31 →
    wp (disk_rw b true) (λ _ s', frame scratch s s' ∧ disk_ready s' ∧ k_slocks s' = k_slocks s ∧
      k_disk s' = <[b_blockno (the_buf b s) := b_data (the_buf b s)]> (k_disk s) ∧
      k_dwrites s' = k_dwrites s ++ [(b_blockno (the_buf b s), b_data (the_buf b s))] ∧
      k_bufs s' = k_bufs s) s
}.

(** A disk that completes each request at once. *)
Definition sync_disk_rw (b : nat) (write : bool) : K unit :=
  let! bf := get_buf b in
  if write then
    modify (λ s, set_k_dwrites (k_dwrites s ++ [(b_blockno bf, b_data bf)])
      (set_k_disk (<[b_blockno bf := b_data bf]> (k_disk s)) s))
  else
    let! d := gets (disk_block (b_blockno bf)) in
    upd_buf b (set_b_data d).
Definition sync_disk : DiskDriver := sync_disk_rw.

#[export] Instance sync_disk_laws : @DiskLaws sync_disk.
Proof.
  refine (@mkDiskLaws sync_disk (λ _, False) (λ _, False) (λ _, True) _ _ _ _); [done|done| |];
    intros p b s _ _ _ _ _ _;
    unfold disk_rw, sync_disk, sync_disk_rw, get_buf; rewrite wp_bind, wp_gets.
  - rewrite wp_bind, wp_gets. eapply wp_ok; [apply upd_buf_eq|]. ksimpl.
    split_and!; [|done..]. by split_and!.
  - rewrite wp_modify. ksimpl. split_and!; [|done..]. by split_and!.
Defined.

(** ** The cache seen by one process *)

Section cache.
Context {DD : DiskDriver} {DL : DiskLaws}.
Implicit Types (H : gset nat) (P : gmap Z Z).

(** The buffer holds a block of the root device. *)
Definition in_use (b : buf) : Prop := b_dev b = ROOTDEV.
Definition pinned P (b : buf) : Prop := in_use b ∧ is_Some (P !! b_blockno b).

#[global] Instance in_use_dec b : Decision (in_use b).
Proof. unfold in_use. apply _. Defined.
#[global] Instance pinned_dec P b : Decision (pinned P b).
Proof. unfold pinned. apply _. Defined.

(** The references that the log has to a buffer: [P] counts them per block. *)
Definition base P (b : buf) : Z := if b_dev b =? ROOTDEV then default 0 (P !! b_blockno b) else 0.
Definition counts P : Prop := ∀ n k, P !! n = Some k → 1 ≤ k < 2 ^ 32.

Lemma base_pinned P b : counts P → pinned P b → 1 ≤ base P b < 2 ^ 32.
Proof.
  intros HP [Hu [k Hk]]. unfold base. rewrite (proj2 (Z.eqb_eq _ _) Hu), Hk. by apply (HP _ _ Hk).
Qed.

Lemma base_unpinned P b : ¬ pinned P b → base P b = 0.
Proof.
  intros Hn. unfold base. destruct (Z.eqb_spec (b_dev b) ROOTDEV) as [Hu|]; [|done].
  destruct (P !! b_blockno b) eqn:E; [|done].
  exfalso. apply Hn. by split.
Qed.

Lemma base_range P b : counts P → 0 ≤ base P b < 2 ^ 32.
Proof.
  intros HP. destruct (decide (pinned P b)) as [Hp|]; [pose proof (base_pinned P b HP Hp); lia|].
  rewrite base_unpinned by done. lia.
Qed.

Lemma base_content P x y : same_content x y → base P x = base P y.
Proof. intros (_ & _ & E1 & E2 & _). unfold base. by rewrite E1, E2. Qed.

(** Per buffer: device, validity, reference count, size and, when nobody may
    have changed it since, agreement with the disk. *)
Record buf_ok H P (i : nat) (b : buf) (s : kstate) : Prop := mkbuf_ok {
  bo_dev : b_dev b = 0 ∨ in_use b;
  bo_valid : in_use b → b_valid b = 1;
  bo_disk : b_disk b = 0;
  bo_ref : b_refcnt b = u32 (base P b + b2z (bool_decide (i ∈ H)));
  bo_len : length (b_data b) = 1024%nat;
  bo_clean : i ∉ H → ¬ pinned P b → in_use b → b_data b = disk_block (b_blockno b) s;
  bo_no : in_use b → 0 ≤ b_blockno b < 2 ^ 31
}.

Record cinv (p : nat) (l : list nat) H P (s : kstate) : Prop := mkcinv {
  ci_quiet : quiet p s;
  ci_ready : disk_ready s;
  ci_cache : cache_ok l (k_bufs s);
  ci_bufs : ∀ i, (i < NBUF)%nat → buf_ok H P i (nbuf i (k_bufs s)) s;
  ci_held : ∀ i, i ∈ H → (i < NBUF)%nat ∧ holds_buf i p s ∧ in_use (nbuf i (k_bufs s));
  ci_free : ∀ i, (i < NBUF)%nat → i ∉ H → slk_locked (the_slock (SBuf i) s) = 0;
  ci_counts : counts P;
  ci_pin : ∀ n, is_Some (P !! n) → ∃ i, (i < NBUF)%nat ∧ caches ROOTDEV n (nbuf i (k_bufs s));
  ci_disk : ∀ n d, k_disk s !! n = Some d → length d = 1024%nat
}.

(** The content of block [n]: the cached copy if there is one. *)
Definition blk (s : kstate) (n : Z) : list Z :=
  match list_find (λ i, caches ROOTDEV n (nbuf i (k_bufs s))) (seq 0 NBUF) with
  | Some (_, i) => b_data (nbuf i (k_bufs s))
  | None => disk_block n s
  end.

Lemma root_inj l bufs n i j :
  cache_ok l bufs → (i < NBUF)%nat → (j < NBUF)%nat →
  caches ROOTDEV n (nbuf i bufs) → caches ROOTDEV n (nbuf j bufs) → i = j.
Proof. intros Hk Hi Hj H1 H2. by eapply caches_inj. Qed.

Lemma blk_cached l i n s :
  cache_ok l (k_bufs s) → (i < NBUF)%nat → caches ROOTDEV n (nbuf i (k_bufs s)) →
  blk s n = b_data (nbuf i (k_bufs s)).
Proof.
  intros Hk Hi Hc. unfold blk. destruct (list_find _ _) as [[k j]|] eqn:E.
  - apply list_find_Some in E as (Hj & Hcj & _). apply lookup_seq in Hj as [-> Hj].
    by rewrite (root_inj _ _ _ _ i Hk Hj Hi Hcj Hc).
  - apply list_find_None in E. rewrite Forall_forall in E. exfalso. apply (E i); [|done].
    apply elem_of_seq. lia.
Qed.

Lemma blk_uncached n s :
  (∀ i, (i < NBUF)%nat → ¬ caches ROOTDEV n (nbuf i (k_bufs s))) → blk s n = disk_block n s.
Proof.
  intros Hn. unfold blk. destruct (list_find _ _) as [[k j]|] eqn:E; [|done].
  apply list_find_Some in E as (Hj & Hcj & _). apply lookup_seq in Hj as [-> Hj]. by destruct (Hn k).
Qed.

(** Either some buffer has the block or none has. *)
Lemma cached_dec n s :
  (∃ i, (i < NBUF)%nat ∧ caches ROOTDEV n (nbuf i (k_bufs s))) ∨
  (∀ i, (i < NBUF)%nat → ¬ caches ROOTDEV n (nbuf i (k_bufs s))).
Proof.
  destruct (list_find (λ i, caches ROOTDEV n (nbuf i (k_bufs s))) (seq 0 NBUF)) as [[k j]|] eqn:E.
  - apply list_find_Some in E as (Hj & Hcj & _). apply lookup_seq in Hj as [-> Hj]. left. eauto.
  - apply list_find_None in E. rewrite Forall_forall in E. right. intros i Hi. apply E, elem_of_seq. lia.
Qed.

Lemma blk_len p l H P s n : cinv p l H P s → length (blk s n) = 1024%nat.
Proof.
  intros Hi. destruct (cached_dec n s) as [(i & Hlt & Hc)|Hn].
  - rewrite (blk_cached l i) by (auto; apply Hi). by apply (ci_bufs _ _ _ _ _ Hi).
  - rewrite blk_uncached by done. unfold disk_block. destruct (k_disk s !! n) eqn:E; simpl; [|done].
    by apply (ci_disk _ _ _ _ _ Hi n).
Qed.

(** ** A buffer for the block *)

Lemma nbuf_in_use_caches b n : caches ROOTDEV n b ↔ in_use b ∧ b_blockno b = n.
Proof. done. Qed.

(** At most [size H + size P] buffers are referenced, so some buffer is free. *)
Lemma victim_exists p l H P s :
  cinv p l H P s → (size H + size P < NBUF)%nat →
  ∃ l1 b l2, l = l1 ++ b :: l2 ∧ b_refcnt (nbuf b (k_bufs s)) = 0 ∧
    Forall (λ i, b_refcnt (nbuf i (k_bufs s)) ≠ 0) l2.
Proof.
  intros Hi Hsz. destruct (list_find (λ i, b_refcnt (nbuf i (k_bufs s)) = 0) (reverse l)) as [[k b]|] eqn:E.
  - apply list_find_Some in E as (Hk & Hr & Hb).
    exists (reverse (drop (S k) (reverse l))), b, (reverse (take k (reverse l))).
    split_and!; [|done|].
    + rewrite <- (reverse_involutive l) at 1.
      rewrite <- (take_drop_middle (reverse l) k b Hk) at 1.
      by rewrite reverse_app, reverse_cons, <- app_assoc.
    + apply Forall_reverse, Forall_forall. intros x Hx. apply list_elem_of_lookup in Hx as [j Hj].
      apply lookup_take_Some in Hj as [Hj Hlt]. by apply (Hb j).
  - apply list_find_None in E. exfalso.
    assert (Hall : ∀ i, (i < NBUF)%nat → b_refcnt (nbuf i (k_bufs s)) ≠ 0).
    { intros i Hlt. rewrite Forall_forall in E. apply E. rewrite elem_of_reverse.
      by apply (cache_elem _ _ _ (ci_cache _ _ _ _ _ Hi)). }
    assert (Hp : ∀ i, (i < NBUF)%nat → i ∉ H → pinned P (nbuf i (k_bufs s))).
    { intros i Hlt Hn. apply dec_stable. intros Hnp. apply (Hall i Hlt).
      rewrite (bo_ref _ _ _ _ _ (ci_bufs _ _ _ _ _ Hi i Hlt)).
      by rewrite base_unpinned, bool_decide_eq_false_2. }
    set (f := λ i, if decide (i ∈ H) then inl i else inr (b_blockno (nbuf i (k_bufs s))) : nat + Z).
    assert (Hsub : f <$> seq 0 NBUF ⊆+ (inl <$> elements H) ++ (inr <$> (map_to_list P).*1)).
    { apply NoDup_submseteq.
      - apply NoDup_fmap_2_strong; [|apply NoDup_seq]. intros i j Hsi Hsj. apply elem_of_seq in Hsi, Hsj.
        unfold f. do 2 case_decide; intros Eq; simplify_eq; [done|].
        destruct (Hp i) as [Hui _]; [lia|done|]. destruct (Hp j) as [Huj _]; [lia|done|].
        eapply root_inj; [apply (ci_cache _ _ _ _ _ Hi)|lia|lia|by split|by split].
      - intros x. rewrite list_elem_of_fmap. intros (i & -> & Hs). apply elem_of_seq in Hs.
        unfold f. rewrite elem_of_app, !list_elem_of_fmap. case_decide as Hin.
        + left. exists i. split; [done|]. by apply elem_of_elements.
        + right. eexists. split; [done|]. destruct (Hp i) as [_ [k Hk]]; [lia|done|].
          apply list_elem_of_fmap. eexists (_, k). split; [done|]. by apply elem_of_map_to_list. }
    apply submseteq_length in Hsub. rewrite length_app, !length_fmap, length_seq, length_map_to_list in Hsub.
    unfold size at 1, set_size in Hsz. simpl in Hsz. lia.
Qed.

Lemma disk_block_eq n s s' : k_disk s' = k_disk s → disk_block n s' = disk_block n s.
Proof. intros E. unfold disk_block. by rewrite E. Qed.

(** [bread] adds buffer [b], now [bf], to the held ones. *)
Lemma cinv_grab p l H P b bf s s' :
  cinv p l H P s → (b < NBUF)%nat → b ∉ H →
  frame scratch s s' → disk_ready s' → k_disk s' = k_disk s →
  k_slocks s' = <[SBuf b := owned (SBuf b) p s]> (k_slocks s) → k_bufs s' = <[b := bf]> (k_bufs s) →
  b_next bf = nexts (k_bufs s) b → b_prev bf = prevs (k_bufs s) b →
  in_use bf → 0 ≤ b_blockno bf < 2 ^ 31 → b_valid bf = 1 → b_disk bf = 0 →
  b_refcnt bf = u32 (base P bf + 1) → b_data bf = blk s (b_blockno bf) →
  (caches ROOTDEV (b_blockno bf) (nbuf b (k_bufs s)) ∨
   (b_refcnt (nbuf b (k_bufs s)) = 0 ∧
    ∀ i, (i < NBUF)%nat → ¬ caches ROOTDEV (b_blockno bf) (nbuf i (k_bufs s)))) →
  cinv p l ({[b]} ∪ H) P s' ∧ ∀ n, blk s' n = blk s n.
Proof.
  intros Hi Hb HbH Hfr Hrd Ed Es Eb En Ep Hu Hno Hv Hdk Hr Hd Hcase.
  pose proof (ci_cache _ _ _ _ _ Hi) as Hk. pose proof (ca_len _ _ Hk) as HL.
  assert (Eo : ∀ i, nbuf i (k_bufs s') = if decide (i = b) then bf else nbuf i (k_bufs s))
    by (intros i; rewrite Eb; apply nbuf_insert_case; lia).
  assert (Hoth : ∀ i, (i < NBUF)%nat → i ≠ b → ¬ caches ROOTDEV (b_blockno bf) (nbuf i (k_bufs s))).
  { intros i Hlt Hne Hc. destruct Hcase as [Hcb|[_ Hn]]; [|by apply (Hn i)].
    apply Hne. by apply (root_inj _ _ _ _ _ Hk Hlt Hb Hc Hcb). }
  assert (Hk' : cache_ok l (k_bufs s')).
  { rewrite Eb. apply cache_update; [done..| |done]. intros _ j Hj Hne E1 E2.
    apply (Hoth j Hj Hne). split; [by rewrite E1|done]. }
  assert (Hnp : ¬ caches ROOTDEV (b_blockno bf) (nbuf b (k_bufs s)) →
     ¬ pinned P (nbuf b (k_bufs s)) ∧
     (in_use (nbuf b (k_bufs s)) → b_data (nbuf b (k_bufs s)) = disk_block (b_blockno (nbuf b (k_bufs s))) s)).
  { intros Hnc. destruct Hcase as [?|[Hr0 _]]; [done|]. pose proof (ci_bufs _ _ _ _ _ Hi b Hb) as Hbo.
    assert (Hnp : ¬ pinned P (nbuf b (k_bufs s))).
    { intros Hp. rewrite (bo_ref _ _ _ _ _ Hbo), bool_decide_eq_false_2, Z.add_0_r in Hr0 by done.
      pose proof (base_pinned P _ (ci_counts _ _ _ _ _ Hi) Hp). rewrite u32_small in Hr0; lia. }
    split; [done|]. intros Hub. by apply (bo_clean _ _ _ _ _ Hbo). }
  split; [split|].
  - apply (frame_quiet scratch p s); [done|apply (ci_quiet _ _ _ _ _ Hi)].
  - done.
  - done.
  - intros i Hlt. rewrite Eo. case_decide as Eib; [subst i|].
    + split; [by right|done|done| | |set_solver|done].
      * rewrite Hr. by rewrite bool_decide_eq_true_2 by set_solver.
      * rewrite Hd. by apply (blk_len p l H P).
    + destruct (ci_bufs _ _ _ _ _ Hi i Hlt) as [H1 H2 H3 H4 H5 H6 H7]. split; try done.
      * rewrite H4. do 3 f_equal. apply bool_decide_ext. set_solver.
      * intros HiH. rewrite (disk_block_eq _ s) by done. apply H6. set_solver.
  - intros i [->%elem_of_singleton|HiH]%elem_of_union.
    + split_and!; [done| |by rewrite Eo, decide_True].
      unfold holds_buf, the_slock. rewrite Es, lookup_insert_eq. split; [done|].
      cbn [default from_option id owned slk_pid]. symmetry. by apply (frame_pid scratch).
    + destruct (ci_held _ _ _ _ _ Hi i HiH) as (Hlt & Hh & Hui). assert (i ≠ b) by set_solver.
      split_and!; [done| |by rewrite Eo, decide_False].
      unfold holds_buf, the_slock in *. rewrite Es, lookup_insert_ne by congruence.
      by rewrite (frame_pid scratch s s' p Hfr).
  - intros i Hlt HiH. assert (i ≠ b) by set_solver. unfold the_slock.
    rewrite Es, lookup_insert_ne by congruence. apply (ci_free _ _ _ _ _ Hi); set_solver.
  - apply (ci_counts _ _ _ _ _ Hi).
  - intros n Hn. destruct (ci_pin _ _ _ _ _ Hi n Hn) as (i & Hlt & Hc).
    destruct (decide (i = b)) as [->|Hne].
    + exists b. split; [done|]. rewrite Eo, decide_True by done.
      destruct (decide (caches ROOTDEV (b_blockno bf) (nbuf b (k_bufs s)))) as [[_ E]|Hnc].
      * split; [done|]. rewrite <- E. apply Hc.
      * exfalso. apply (Hnp Hnc). split; [apply Hc|]. by rewrite (proj2 Hc).
    + exists i. split; [done|]. by rewrite Eo, decide_False.
  - rewrite Ed. apply (ci_disk _ _ _ _ _ Hi).
  - intros n. destruct (decide (n = b_blockno bf)) as [->|Hnn].
    { rewrite (blk_cached l b) by (try done; rewrite Eo, decide_True by done; by split).
      by rewrite Eo, decide_True. }
    destruct (cached_dec n s) as [(i & Hlt & Hc)|Hnc].
    + destruct (decide (i = b)) as [->|Hne].
      * rewrite (blk_cached l b n s) by done. destruct Hnp as [_ Hcl].
        { intros [_ E]. apply Hnn. rewrite <- E. symmetry. apply Hc. }
        rewrite Hcl by apply Hc. rewrite (proj2 Hc), (blk_uncached n s'); [by apply disk_block_eq|].
        intros j Hj. rewrite Eo. case_decide; [intros [_ E]; congruence|]. intros Hcj.
        destruct (decide (j = b)); [done|]. apply n0. by apply (root_inj _ _ _ _ _ Hk Hj Hlt Hcj Hc).
      * rewrite (blk_cached l i n s), (blk_cached l i n s'); try done; by rewrite Eo, decide_False.
    + rewrite (blk_uncached n s), (blk_uncached n s'); [by apply disk_block_eq| |done].
      intros j Hj. rewrite Eo. case_decide; [intros [_ E]; congruence|by apply Hnc].
Qed.

(** ** [bread] *)

(** What a step at this level leaves alone. *)
Definition bframe (s s' : kstate) : Prop := frame scratch s s'.

Lemma frame_put_slock p b v s :
  frame scratch s (put_slock (SBuf b) (owned (SBuf b) p s) (set_k_bufs v s)).
Proof. split_and!; [done..|]. intros i. by apply the_slock_insert_ne. Qed.

Lemma disk_ready_frame s s' :
  frame scratch s s' → k_vdisk s' = k_vdisk s → k_io s' = k_io s → disk_ready s → disk_ready s'.
Proof.
  intros (E & _ & Hm & _) E1 E2. apply disk_ready_ext; [done|done|by injection E|].
  intros a Ha. by apply Hm, uses_not_scratch.
Qed.

Lemma cinv_ready_frame p l H P s s' :
  cinv p l H P s → frame scratch s s' → k_vdisk s' = k_vdisk s → k_io s' = k_io s → disk_ready s'.
Proof. intros Hi Hf E1 E2. by apply (disk_ready_frame s s' Hf E1 E2), (ci_ready _ _ _ _ _ Hi). Qed.

(** Changes outside the cache. *)
Lemma cinv_ext p l H P s s' :
  cinv p l H P s → quiet p s' → k_bufs s' = k_bufs s →
  (∀ b, the_slock (SBuf b) s' = the_slock (SBuf b) s) → k_disk s' = k_disk s → p_pid (the_proc p s') = p_pid (the_proc p s) →
  k_vdisk s' = k_vdisk s → k_io s' = k_io s → k_kpt s' = k_kpt s →
  (∀ a, disk_uses a → rd (k_mem s') a = rd (k_mem s) a) → cinv p l H P s'.
Proof.
  intros Hi Hq Eb Es Ed Ep Ev Eio Ek Em. destruct Hi as [? Hrd Hk Hbs Hh Hf Hcn Hp Hd].
  split; rewrite ?Eb, ?Ed; try done.
  - by apply (disk_ready_ext s s').
  - intros i Hi. destruct (Hbs i Hi). split; try done. by rewrite (disk_block_eq _ s s').
  - intros i Hi. destruct (Hh i Hi) as (? & ? & ?). split_and!; [done| |done].
    unfold holds_buf in *. by rewrite Es, Ep.
  - intros i. rewrite Es. apply Hf.
Qed.

Lemma blk_same s s' n : k_bufs s' = k_bufs s → k_disk s' = k_disk s → blk s' n = blk s n.
Proof. intros Eb Ed. unfold blk, disk_block. by rewrite Eb, Ed. Qed.

Definition bread_post p l H P (n : Z) (s : kstate) (b : nat) (s' : kstate) : Prop :=
  (b < NBUF)%nat ∧ b ∉ H ∧ cinv p l ({[b]} ∪ H) P s' ∧ caches ROOTDEV n (nbuf b (k_bufs s')) ∧
  b_data (nbuf b (k_bufs s')) = blk s n ∧ (∀ m, blk s' m = blk s m) ∧
  (∀ i, i ≠ b → nbuf i (k_bufs s') = nbuf i (k_bufs s)) ∧
  k_disk s' = k_disk s ∧ k_dwrites s' = k_dwrites s ∧ frame scratch s s'.

Lemma bread_hit p l H P n b s :
  cinv p l H P s → (b < NBUF)%nat → b ∉ H → caches ROOTDEV n (nbuf b (k_bufs s)) →
  wp (bread ROOTDEV n) (bread_post p l H P n s) s.
Proof.
  intros Hi Hb HbH Hc. pose proof (ci_quiet _ _ _ _ _ Hi) as Hq. pose proof (ci_cache _ _ _ _ _ Hi) as Hk.
  pose proof (ci_bufs _ _ _ _ _ Hi b Hb) as Hbo. pose proof (ca_len _ _ Hk) as HL.
  unfold bread. rewrite wp_bind.
  eapply wp_ok; [apply (bget_hit ROOTDEV n p l b); [by apply bget_pre_quiet|done..|by apply (sbuf_free b p)|
                  by apply (ci_free _ _ _ _ _ Hi)]|].
  set (bf := ref_buf (the_buf b s)). set (s1 := put_slock _ _ _).
  assert (E1 : nbuf b (k_bufs s1) = bf) by (apply nbuf_insert; lia).
  rewrite wp_bind. eapply wp_ok; [apply get_buf_eq|]. rewrite E1.
  assert (Hv : b_valid bf = 1) by (by apply (bo_valid _ _ _ _ _ Hbo), Hc).
  rewrite Hv. cbn [Z.eqb when]. rewrite wp_bind, !wp_ret.
  assert (Hrf : b_refcnt bf = u32 (base P bf + 1)).
  { change (u32 (b_refcnt (nbuf b (k_bufs s)) + 1) = u32 (base P (nbuf b (k_bufs s)) + 1)).
    rewrite (bo_ref _ _ _ _ _ Hbo), (bool_decide_eq_false_2 (b ∈ H)), Z.add_0_r by done.
    unfold u32. by rewrite Z.add_mod_idemp_l. }
  assert (Hfr : frame scratch s s1) by apply frame_put_slock.
  destruct (cinv_grab p l H P b bf s s1) as [Hi' Hblk]; try done.
  - by apply (cinv_ready_frame p l H P s).
  - by apply Hc.
  - by apply (bo_no _ _ _ _ _ Hbo), Hc.
  - apply (bo_disk _ _ _ _ _ Hbo).
  - symmetry. apply (blk_cached l); [done|done|]. split; [apply Hc|done].
  - left. split; [apply Hc|done].
  - split_and!; try done.
    + by rewrite E1.
    + rewrite E1. symmetry. by apply (blk_cached l).
    + intros i Hne. by apply nbuf_insert_ne.
Qed.

(** No held buffer has lost a reference. *)
Definition unleaked H P (s : kstate) : Prop :=
  ∀ i, i ∈ H → base P (nbuf i (k_bufs s)) + 1 < 2 ^ 32.

Lemma bread_miss p l H P n s :
  cinv p l H P s → 0 ≤ n < 2 ^ 31 → (size H + size P < NBUF)%nat → unleaked H P s →
  (∀ i, (i < NBUF)%nat → ¬ caches ROOTDEV n (nbuf i (k_bufs s))) →
  wp (bread ROOTDEV n) (bread_post p l H P n s) s.
Proof.
  intros Hi Hno Hsz Hlk Hn. pose proof (ci_quiet _ _ _ _ _ Hi) as Hq. pose proof (ci_cache _ _ _ _ _ Hi) as Hk.
  pose proof (ca_len _ _ Hk) as HL.
  destruct (victim_exists p l H P s Hi Hsz) as (l1 & b & l2 & El & Hr0 & Hl2).
  assert (Hb : (b < NBUF)%nat) by (apply (cache_elem _ _ _ Hk); rewrite El; set_solver).
  pose proof (ci_bufs _ _ _ _ _ Hi b Hb) as Hbo.
  assert (Hnb : b ∉ H ∧ ¬ pinned P (nbuf b (k_bufs s))).
  { pose proof (base_range P (nbuf b (k_bufs s)) (ci_counts _ _ _ _ _ Hi)) as Hrg.
    rewrite (bo_ref _ _ _ _ _ Hbo) in Hr0. assert (HbH : b ∉ H).
    { intros Hx. specialize (Hlk b Hx). rewrite bool_decide_eq_true_2 in Hr0 by done.
      rewrite u32_small in Hr0 by (simpl; lia). simpl in Hr0. lia. }
    split; [done|]. intros Hx. pose proof (base_pinned P _ (ci_counts _ _ _ _ _ Hi) Hx).
    rewrite bool_decide_eq_false_2, Z.add_0_r, u32_small in Hr0 by (done || lia). lia. }
  destruct Hnb as [HbH Hnp].
  unfold bread. rewrite wp_bind.
  eapply wp_ok; [apply (bget_miss ROOTDEV n p l l1 b l2); [by apply bget_pre_quiet|done| |done|done|
                  by apply (sbuf_free b p)|by apply (ci_free _ _ _ _ _ Hi)]|].
  { apply Forall_forall. intros y Hy. apply Hn. by apply (cache_elem _ _ _ Hk). }
  set (bf := recycle_buf ROOTDEV n (the_buf b s)). set (s1 := put_slock _ _ _).
  assert (E1 : nbuf b (k_bufs s1) = bf) by (apply nbuf_insert; lia).
  assert (Hfr1 : frame scratch s s1) by apply frame_put_slock.
  rewrite wp_bind. eapply wp_ok; [apply get_buf_eq|]. rewrite E1. cbn [b_valid bf recycle_buf set_b_refcnt set_b_valid Z.eqb when].
  rewrite wp_bind, wp_bind. eapply wp_mono.
  { apply (disk_read p); [by apply (frame_quiet scratch p s)| |done| | |].
    - by apply (cinv_ready_frame p l H P s).
    - unfold s1, put_slock, set_buf. ksimpl. rewrite length_insert. lia.
    - change (b_disk (nbuf b (k_bufs s1)) = 0). rewrite E1. apply (bo_disk _ _ _ _ _ Hbo).
    - change (the_buf b s1) with (nbuf b (k_bufs s1)). by rewrite E1. }
  intros [] s2 (Hf2 & Hrd2 & Es2 & Ed2 & Ew2 & Eb2).
  eapply wp_ok; [apply upd_buf_eq|]. rewrite wp_ret.
  change (the_buf b s1) with (nbuf b (k_bufs s1)) in Eb2. rewrite E1 in Eb2.
  set (s3 := set_k_bufs _ s2). set (bf3 := set_b_valid 1 (set_b_data (disk_block n s) bf)).
  assert (Eb3 : k_bufs s3 = <[b := bf3]> (k_bufs s)).
  { unfold s3, upd_nb. ksimpl. rewrite Eb2, list_insert_insert_eq.
    rewrite nbuf_insert by (unfold s1, put_slock, set_buf; ksimpl; rewrite length_insert; lia).
    unfold s1, put_slock, set_buf. ksimpl. by rewrite list_insert_insert_eq. }
  assert (Hf3 : frame scratch s2 s3) by (by split_and!).
  assert (Hrd3 : disk_ready s3) by (by apply (disk_ready_frame s2 s3)).
  assert (Hfr : frame scratch s s3) by (etrans; [exact Hfr1|]; etrans; [exact Hf2|exact Hf3]).
  assert (Ed3 : k_disk s3 = k_disk s) by (unfold s3; ksimpl; by rewrite Ed2).
  destruct (cinv_grab p l H P b bf3 s s3) as [Hi' Hblk]; try done.
  - apply (bo_disk _ _ _ _ _ Hbo).
  - rewrite base_unpinned; [done|]. intros [_ Hin].
    destruct (ci_pin _ _ _ _ _ Hi _ Hin) as (i & Hlt & Hc). by apply (Hn i).
  - symmetry. by apply blk_uncached.
  - by right.
  - split_and!; try done.
    + rewrite Eb3, nbuf_insert by lia. done.
    + rewrite Eb3, nbuf_insert by lia. symmetry. by apply blk_uncached.
    + intros i Hne. by rewrite Eb3, nbuf_insert_ne.
Qed.

(** Reading block [n] into a buffer that this process does not hold yet. *)
Lemma bread_spec p l H P n s :
  cinv p l H P s → 0 ≤ n < 2 ^ 31 → (size H + size P < NBUF)%nat → unleaked H P s →
  (∀ i, i ∈ H → b_blockno (nbuf i (k_bufs s)) ≠ n) →
  wp (bread ROOTDEV n) (bread_post p l H P n s) s.
Proof.
  intros Hi Hno Hsz Hlk HH. destruct (cached_dec n s) as [(b & Hb & Hc)|Hn]; [|by apply bread_miss].
  apply (bread_hit p l H P n b); try done. intros HbH. by apply (HH b HbH), Hc.
Qed.

(** ** Changing, writing and releasing a held buffer *)

(** Block contents only depend on what the buffers cache. *)
Lemma blk_ext l l' s s' n :
  cache_ok l (k_bufs s) → cache_ok l' (k_bufs s') →
  (∀ i, (i < NBUF)%nat → in_use (nbuf i (k_bufs s')) ↔ in_use (nbuf i (k_bufs s))) →
  (∀ i, (i < NBUF)%nat → b_blockno (nbuf i (k_bufs s')) = b_blockno (nbuf i (k_bufs s))) →
  (∀ i, (i < NBUF)%nat → caches ROOTDEV n (nbuf i (k_bufs s)) →
     b_data (nbuf i (k_bufs s')) = b_data (nbuf i (k_bufs s))) →
  ((∀ i, (i < NBUF)%nat → ¬ caches ROOTDEV n (nbuf i (k_bufs s))) → disk_block n s' = disk_block n s) →
  blk s' n = blk s n.
Proof.
  intros Hk Hk' Hu Hb Hd Hn.
  assert (Hc : ∀ i, (i < NBUF)%nat → caches ROOTDEV n (nbuf i (k_bufs s')) ↔ caches ROOTDEV n (nbuf i (k_bufs s))).
  { intros i Hi. rewrite !nbuf_in_use_caches, (Hu i Hi), (Hb i Hi). done. }
  destruct (cached_dec n s) as [(i & Hi & Hci)|Hnc].
  - rewrite (blk_cached l i n s), (blk_cached l' i n s'); auto. by apply Hc.
  - rewrite (blk_uncached n s), (blk_uncached n s'); auto. intros i Hi. rewrite Hc by done. by apply Hnc.
Qed.

Definition put_data (b : nat) (d : list Z) (s : kstate) : kstate :=
  set_k_bufs (upd_nb b (set_b_data d) (k_bufs s)) s.

Lemma nbuf_put_data b d s i :
  (b < length (k_bufs s))%nat →
  nbuf i (k_bufs (put_data b d s)) =
    if decide (i = b) then set_b_data d (nbuf b (k_bufs s)) else nbuf i (k_bufs s).
Proof. intros. unfold put_data, upd_nb. ksimpl. by apply nbuf_insert_case. Qed.

Lemma put_data_spec p l H P b d s :
  cinv p l H P s → b ∈ H → length d = 1024%nat →
  cinv p l H P (put_data b d s) ∧ frame scratch s (put_data b d s) ∧
  ∀ n, blk (put_data b d s) n =
    if decide (n = b_blockno (nbuf b (k_bufs s))) then d else blk s n.
Proof.
  intros Hi HbH Hlen. destruct (ci_held _ _ _ _ _ Hi b HbH) as (Hb & Hh & Hu).
  pose proof (ci_cache _ _ _ _ _ Hi) as Hk. pose proof (ca_len _ _ Hk) as HL.
  assert (Eo := λ i, nbuf_put_data b d s i ltac:(lia)).
  assert (Hk' : cache_ok l (k_bufs (put_data b d s))) by (by apply cache_update_same).
  assert (Hfr : frame scratch s (put_data b d s)) by (by split_and!).
  split_and!; [split|done|].
  - apply (frame_quiet scratch p s _ Hfr), (ci_quiet _ _ _ _ _ Hi).
  - by apply (cinv_ready_frame p l H P s).
  - done.
  - intros i Hlt. rewrite Eo. destruct (ci_bufs _ _ _ _ _ Hi i Hlt) as [H1 H2 H3 H4 H5 H6].
    destruct (decide (i = b)) as [->|]; by split.
  - intros i HiH. destruct (ci_held _ _ _ _ _ Hi i HiH) as (? & ? & ?). split_and!; [done|done|].
    rewrite Eo. by case_decide; subst.
  - apply (ci_free _ _ _ _ _ Hi).
  - apply (ci_counts _ _ _ _ _ Hi).
  - intros n Hn. destruct (ci_pin _ _ _ _ _ Hi n Hn) as (i & Hlt & Hc). exists i. split; [done|].
    rewrite Eo. by case_decide; subst.
  - apply (ci_disk _ _ _ _ _ Hi).
  - intros n. case_decide as En.
    + rewrite (blk_cached l b) by (try done; rewrite Eo, decide_True by done; by split).
      by rewrite Eo, decide_True.
    + apply (blk_ext l l); auto; intros i Hlt; rewrite Eo; case_decide; subst; try done.
      intros [_ E]. congruence.
Qed.

Definition bwrite_post p l H P b (s s' : kstate) : Prop :=
  cinv p l H P s' ∧ frame scratch s s' ∧ k_bufs s' = k_bufs s ∧
  k_disk s' = <[b_blockno (nbuf b (k_bufs s)) := b_data (nbuf b (k_bufs s))]> (k_disk s) ∧
  k_dwrites s' = k_dwrites s ++ [(b_blockno (nbuf b (k_bufs s)), b_data (nbuf b (k_bufs s)))] ∧
  ∀ n, blk s' n = blk s n.

Lemma bwrite_spec p l H P b s :
  cinv p l H P s → b ∈ H → wp (bwrite b) (λ _ s', bwrite_post p l H P b s s') s.
Proof.
  intros Hi HbH. destruct (ci_held _ _ _ _ _ Hi b HbH) as (Hb & Hh & Hu).
  pose proof (ci_cache _ _ _ _ _ Hi) as Hk. pose proof (ca_len _ _ Hk) as HL.
  pose proof (ci_quiet _ _ _ _ _ Hi) as Hq. pose proof (ci_bufs _ _ _ _ _ Hi b Hb) as Hbo.
  unfold bwrite. rewrite wp_bind. eapply wp_ok; [by apply (holdingsleep_holds b p)|]. cbn [negb].
  eapply wp_mono; [apply (disk_write p); [done|apply (ci_ready _ _ _ _ _ Hi)|done|lia|apply (bo_disk _ _ _ _ _ Hbo)|by apply (bo_no _ _ _ _ _ Hbo)]|].
  intros [] s' (Hf & Hrd & Es & Ed & Ew & Eb).
  change (the_buf b s) with (nbuf b (k_bufs s)) in *.
  assert (Edb : ∀ n, n ≠ b_blockno (nbuf b (k_bufs s)) → disk_block n s' = disk_block n s)
    by (intros n Hn; unfold disk_block; by rewrite Ed, lookup_insert_ne).
  split_and!; [split|done..|]; rewrite ?Eb.
  - by apply (frame_quiet scratch p s).
  - done.
  - done.
  - intros i Hlt. destruct (ci_bufs _ _ _ _ _ Hi i Hlt) as [H1 H2 H3 H4 H5 H6 H7]. split; try done.
    intros HiH Hnp Hui. rewrite Edb; [by apply H6|]. intros E. 
    assert (i = b) as ->; [|done]. by eapply root_inj; [exact Hk|..|split].
  - intros i HiH. destruct (ci_held _ _ _ _ _ Hi i HiH) as (? & [? ?] & ?). split_and!; [done| |done].
    unfold holds_buf, the_slock in *. rewrite Es. by rewrite (frame_pid scratch s s' p Hf).
  - intros i Hlt HiH. unfold the_slock. rewrite Es. by apply (ci_free _ _ _ _ _ Hi).
  - apply (ci_counts _ _ _ _ _ Hi).
  - apply (ci_pin _ _ _ _ _ Hi).
  - intros n d. rewrite Ed, lookup_insert_Some. intros [[_ <-]|[_ ?]];
      [apply (bo_len _ _ _ _ _ Hbo)|by eapply (ci_disk _ _ _ _ _ Hi)].
  - intros n. apply (blk_ext l l); rewrite ?Eb; try done.
    intros Hn. apply Edb. intros ->. by apply (Hn b Hb).
Qed.

(** What a release leaves of the other buffers. *)
Definition brelse_post p H P b (s s' : kstate) : Prop :=
  (∃ l', cinv p l' (H ∖ {[b]}) P s') ∧ frame scratch s s' ∧ k_disk s' = k_disk s ∧
  k_dwrites s' = k_dwrites s ∧ (∀ n, blk s' n = blk s n) ∧
  ∀ i, i ≠ b → same_content (nbuf i (k_bufs s')) (nbuf i (k_bufs s)).

Lemma brelse_spec p l H P b s :
  cinv p l H P s → b ∈ H →
  (is_Some (P !! b_blockno (nbuf b (k_bufs s))) ∨
   b_data (nbuf b (k_bufs s)) = disk_block (b_blockno (nbuf b (k_bufs s))) s) →
  wp (brelse b) (λ _ s', brelse_post p H P b s s') s.
Proof.
  intros Hi HbH Hcl. destruct (ci_held _ _ _ _ _ Hi b HbH) as (Hb & Hh & Hu).
  pose proof (ci_cache _ _ _ _ _ Hi) as Hk. pose proof (ca_len _ _ Hk) as HL.
  pose proof (ci_quiet _ _ _ _ _ Hi) as Hq. pose proof (ci_bufs _ _ _ _ _ Hi b Hb) as Hbo.
  eapply wp_ok; [by apply (brelse_eq b p)|]. destruct (brelse_bufs_ok l (k_bufs s) b Hk Hb) as [Hk' Hc].
  set (l' := if u32 (b_refcnt (nbuf b (k_bufs s)) - 1) =? 0 then to_front b l else l) in Hk'.
  set (s' := set_k_bufs _ _).
  assert (Eb : k_bufs s' = brelse_bufs b (k_bufs s)) by done.
  assert (Hfr : frame scratch s s') by (split_and!; [done|apply wake_sim|done|intros i; by apply the_slock_insert_ne]).
  assert (Hpin : ∀ x y, same_content x y → pinned P x ↔ pinned P y)
    by (intros x y (_ & _ & E1 & E2 & _); unfold pinned, in_use; by rewrite E1, E2).
  rewrite <- Eb in Hk', Hc.
  assert (Hdk : disk_ready s') by (by apply (cinv_ready_frame p l H P s)).
  split_and!; try done.
  - exists l'. split; try done.
    + by apply (frame_quiet scratch p s).
    + intros i Hlt. specialize (Hc i). pose proof (Hpin _ _ Hc) as Hp2. pose proof (base_content P _ _ Hc) as Hba.
      destruct (ci_bufs _ _ _ _ _ Hi i Hlt) as [H1 H2 H3 H4 H5 H6].
      destruct Hc as (Ev & Edk & Edv & Ebn & Erf & Edt). unfold in_use in *.
      case_decide as Eib; [subst i|].
      * split; unfold in_use; rewrite ?Edv, ?Ev, ?Edk, ?Edt, ?Ebn; try done.
        -- rewrite Erf, Hba. cbn [unref_buf b_refcnt set_b_refcnt]. rewrite H4.
           rewrite (bool_decide_eq_true_2 (b ∈ H)), (bool_decide_eq_false_2 (b ∈ H ∖ {[b]})) by set_solver.
           change (base P (unref_buf (nbuf b (k_bufs s)))) with (base P (nbuf b (k_bufs s))).
           unfold u32. rewrite Zminus_mod_idemp_l. f_equal. simpl. lia.
        -- rewrite Hp2. intros _ Hnp _. destruct Hcl as [Hin|Ecl]; [|exact Ecl].
           exfalso. apply Hnp. by split.
      * split; unfold in_use; rewrite ?Edv, ?Ev, ?Edk, ?Edt, ?Ebn; try done.
        -- rewrite Erf, H4, Hba. do 3 f_equal. apply bool_decide_ext. set_solver.
        -- rewrite Hp2. intros HiH Hnp Hui. apply H6; [set_solver|done|done].
    + intros i [HiH Hne]%elem_of_difference. rewrite elem_of_singleton in Hne.
      destruct (ci_held _ _ _ _ _ Hi i HiH) as (? & [Hl1 Hl2] & Hui). split_and!; [done| |].
      * unfold holds_buf, the_slock, s', put_slock in *. ksimpl. rewrite lookup_insert_ne by congruence.
        split; [done|]. rewrite Hl2. symmetry. apply (frame_pid scratch s s' p Hfr).
      * destruct (Hc i) as (_ & _ & Edv & _). rewrite decide_False in Edv by done.
        unfold in_use. by rewrite Edv.
    + intros i Hlt Hni. unfold the_slock, s', put_slock. ksimpl.
      destruct (decide (i = b)) as [->|Hne]; [by rewrite lookup_insert_eq|].
      rewrite lookup_insert_ne by congruence. apply (ci_free _ _ _ _ _ Hi); set_solver.
    + apply (ci_counts _ _ _ _ _ Hi).
    + intros n Hn. destruct (ci_pin _ _ _ _ _ Hi n Hn) as (i & Hlt & Hcn). exists i. split; [done|].
      destruct (Hc i) as (_ & _ & Edv & Ebn & _). unfold caches. rewrite Edv, Ebn.
      by case_decide; subst.
    + apply (ci_disk _ _ _ _ _ Hi).
  - intros n. apply (blk_ext l l'); try done; intros i Hlt; destruct (Hc i) as (_ & _ & Edv & Ebn & _ & Edt);
      unfold in_use; rewrite ?Edv, ?Ebn, ?Edt; by case_decide; subst.
  - intros i Hne. specialize (Hc i). by rewrite decide_False in Hc.
Qed.

(** ** Pinning *)

Lemma bpin_eq b s :
  cpu_ok (k_lk s) → lock_free LBcache (k_lk s) →
  bpin b s = Ok () (set_k_bufs (upd_nb b ref_buf (k_bufs s)) s).
Proof.
  intros Hc Hf. unfold bpin. run_acquire Hc Hf. rewrite (bind_ok _ _ _ _ _ (upd_buf_eq _ _ _)). ksimpl.
  erewrite release_eq; [|exact Hc|exact Hf|by ksimpl]. okeq.
Qed.

Lemma bunpin_eq b s :
  cpu_ok (k_lk s) → lock_free LBcache (k_lk s) →
  bunpin b s = Ok () (set_k_bufs (upd_nb b unref_buf (k_bufs s)) s).
Proof.
  intros Hc Hf. unfold bunpin. run_acquire Hc Hf. rewrite (bind_ok _ _ _ _ _ (upd_buf_eq _ _ _)). ksimpl.
  erewrite release_eq; [|exact Hc|exact Hf|by ksimpl]. okeq.
Qed.

(** A held buffer whose block enters or leaves the set of pinned blocks. *)
Lemma cinv_pin p l H P P' b (f : buf → buf) s :
  cinv p l H P s → b ∈ H → (f = ref_buf ∨ f = unref_buf) →
  b_refcnt (f (nbuf b (k_bufs s))) =
    u32 (default 0 (P' !! b_blockno (nbuf b (k_bufs s))) + 1) →
  (∀ n, n ≠ b_blockno (nbuf b (k_bufs s)) → P' !! n = P !! n) → counts P' →
  cinv p l H P' (set_k_bufs (upd_nb b f (k_bufs s)) s) ∧
  (∀ n, blk (set_k_bufs (upd_nb b f (k_bufs s)) s) n = blk s n).
Proof.
  intros Hi HbH Hf Hr HP HPc. destruct (ci_held _ _ _ _ _ Hi b HbH) as (Hb & Hh & Hu).
  pose proof (ci_cache _ _ _ _ _ Hi) as Hk. pose proof (ca_len _ _ Hk) as HL.
  set (s' := set_k_bufs _ s). set (bf := nbuf b (k_bufs s)) in *.
  assert (Hff : same_content (f bf) (set_b_refcnt (b_refcnt (f bf)) bf)) by (destruct Hf as [-> | ->]; done).
  assert (Eo : ∀ i, nbuf i (k_bufs s') = if decide (i = b) then f bf else nbuf i (k_bufs s))
    by (intros i; unfold s', upd_nb; ksimpl; apply nbuf_insert_case; lia).
  assert (Hk' : cache_ok l (k_bufs s'))
    by (apply cache_update_same; try done; by destruct Hf as [-> | ->]).
  assert (Hother : ∀ i, (i < NBUF)%nat → i ≠ b → in_use (nbuf i (k_bufs s)) →
    P' !! b_blockno (nbuf i (k_bufs s)) = P !! b_blockno (nbuf i (k_bufs s))).
  { intros i Hlt Hne Hui. apply HP. intros E. apply Hne. by eapply root_inj; [exact Hk|..|split]. }
  assert (Hpb : ∀ i, b_blockno (nbuf i (k_bufs s')) = b_blockno (nbuf i (k_bufs s)) ∧
     (in_use (nbuf i (k_bufs s')) ↔ in_use (nbuf i (k_bufs s))) ∧
     b_data (nbuf i (k_bufs s')) = b_data (nbuf i (k_bufs s))).
  { intros i. rewrite Eo. destruct (decide (i = b)) as [->|]; [|done]. by destruct Hf as [-> | ->]. }
  split; [split|].
  - apply (quiet_eq p s); [done|done|apply (ci_quiet _ _ _ _ _ Hi)].
  - by apply (disk_ready_ext s), (ci_ready _ _ _ _ _ Hi).
  - done.
  - intros i Hlt. destruct (ci_bufs _ _ _ _ _ Hi i Hlt) as [H1 H2 H3 H4 H5 H6 H7]. rewrite Eo.
    destruct (decide (i = b)) as [->|Hne].
    + destruct Hff as (E1 & E2 & E3 & E4 & E5 & E6). cbn [b_valid b_disk b_dev b_blockno b_data set_b_refcnt] in *.
      split; unfold in_use; rewrite ?E1, ?E2, ?E3, ?E6; try done; [|by rewrite E4].
      rewrite Hr, bool_decide_eq_true_2 by done. unfold base. rewrite E3, E4.
      by rewrite (proj2 (Z.eqb_eq _ _) Hu).
    + split; try done.
      * rewrite H4. unfold base. destruct (Z.eqb_spec (b_dev (nbuf i (k_bufs s))) ROOTDEV) as [Hui|]; [|done].
        by rewrite (Hother i Hlt Hne Hui).
      * intros HiH Hnp Hui. apply H6; [done| |done]. intros [_ Hx]. apply Hnp. split; [done|].
        by rewrite (Hother i Hlt Hne Hui).
  - intros i HiH. destruct (ci_held _ _ _ _ _ Hi i HiH) as (? & ? & ?). split_and!; [done|done|].
    by apply (proj1 (proj2 (Hpb i))).
  - apply (ci_free _ _ _ _ _ Hi).
  - done.
  - intros n Hn. destruct (decide (n = b_blockno bf)) as [->|Hne].
    + exists b. split; [done|]. apply nbuf_in_use_caches. destruct (Hpb b) as (-> & -> & _). done.
    + rewrite HP in Hn by done. destruct (ci_pin _ _ _ _ _ Hi n Hn) as (i & Hlt & Hc). exists i. split; [done|].
      apply nbuf_in_use_caches. destruct (Hpb i) as (-> & -> & _). done.
  - apply (ci_disk _ _ _ _ _ Hi).
  - intros n. apply (blk_ext l l); try done; intros i Hlt; by destruct (Hpb i) as (? & ? & ?).
Qed.

(** A block that is neither pinned nor held is the same on disk. *)
Lemma blk_clean p l H P n s :
  cinv p l H P s → P !! n = None → (∀ i, i ∈ H → b_blockno (nbuf i (k_bufs s)) ≠ n) →
  blk s n = disk_block n s.
Proof.
  intros Hi HP HH. destruct (cached_dec n s) as [(i & Hlt & Hc)|Hn]; [|by apply blk_uncached].
  rewrite (blk_cached l i) by (done || apply (ci_cache _ _ _ _ _ Hi)). rewrite <- (proj2 Hc).
  apply (bo_clean _ _ _ _ _ (ci_bufs _ _ _ _ _ Hi i Hlt)).
  - intros HiH. by apply (HH i HiH), Hc.
  - intros [_ Hs]. rewrite (proj2 Hc), HP in Hs. by destruct Hs.
  - apply Hc.
Qed.

(** [bread] of a block for a process that holds nothing. *)
Lemma bread_first p l P n s :
  cinv p l ∅ P s → 0 ≤ n < 2 ^ 31 → (size P < NBUF)%nat → wp (bread ROOTDEV n) (bread_post p l ∅ P n s) s.
Proof.
  intros Hi Hno Hsz. apply bread_spec; [done|done|rewrite size_empty; lia|intros i; set_solver|intros i; set_solver].
Qed.
End cache.
