(* ===== verification/VirtioSpec.v ===== *)
(** * The disk driver does what the buffer cache relies on

    [virtio_disk_rw] of [kernel/virtio_disk.c] puts a request into the queue and
    sleeps until the interrupt of the device reports its completion.  Here the
    sleeping process, the device, the interrupt handler and the scheduler that
    resumes the process are put together, and the result is shown to be a
    driver with the laws of [DiskLaws], on which the theorems about the buffer
    cache and the log rest.  The device is not part of the program: it is a
    parameter, with the behaviour that the virtio specification documents. *)

From stdpp Require Import prelude gmap strings list list_numbers.
From Stdlib Require Import ZArith Lia.
From S2P Require Import Prelude.
From S2P Require Import Monad.
From S2P Require Import Riscv.
From S2P Require Import Types.
From S2P Require Import Mem.
From S2P Require Import Spinlock.
From S2P Require Import Kalloc.
From S2P Require Import Vm.
From S2P Require Import VmSpec.
From S2P Require Import Proc.
From S2P Require Import ProcSpec.
From S2P Require Import Sleeplock.
From S2P Require Import Uart.
From S2P Require Import Virtio.
From S2P Require Import Bio.
From S2P Require Import BioSpec.
From S2P Require Import Cache.

(** ** A hart that holds no lock *)

(** Processor state [l], with current process [pr] and interrupts on or off. *)
Definition rest (pr : option nat) (i : bool) (l : cpust) : cpust :=
  upd_cpu (λ _, mkCpu pr 0 i) (upd_hart (if i then intr_on else intr_off) l).

Definition hart_ok (l : cpust) : Prop :=
  (cpu_index l < length (cs_cpus l))%nat ∧ 0 ≤ r_sstatus (cs_hart l) < 2 ^ 64.

Section rest.
Context (l : cpust) (Hl : hart_ok l).

Lemma rest_cpu pr i : the_cpu (rest pr i l) = mkCpu pr 0 i.
Proof. unfold rest. rewrite the_cpu_upd; [done|]. destruct Hl. by destruct i. Qed.

Lemma rest_get pr i : intr_get (cs_hart (rest pr i l)) = i.
Proof. destruct i; [apply intr_on_get|apply intr_off_get]. Qed.

Lemma rest_ok pr i : cpu_ok (rest pr i l).
Proof.
  destruct Hl as [H1 H2]. refine (conj _ (conj _ (conj _ (conj _ _)))); rewrite ?rest_cpu, ?rest_get; try done.
  - unfold rest, upd_cpu. simpl. rewrite length_insert. by destruct i.
  - destruct i; simpl; [by apply intr_on_range|by apply intr_off_range].
Qed.

Lemma rest_hart pr i : hart_ok (rest pr i l).
Proof. destruct (rest_ok pr i) as (H1 & H2 & _). by split. Qed.

Lemma rest_twice a b i j : rest a i (rest b j l) = rest a i l.
Proof.
  destruct Hl as [H1 H2]. destruct l as [h cs ls]. unfold rest, upd_cpu, upd_hart, set_cs_cpus, set_cs_hart, cpu_index in *.
  simpl in *. f_equal.
  - destruct i, j; [apply intr_on_of_on|by apply intr_on_of_off|apply intr_off_of_on|apply intr_off_of_off].
  - destruct i, j; simpl; by rewrite list_insert_insert_eq.
Qed.

Lemma rest_restore pr i j : restore i (rest pr j l) = rest pr i l.
Proof.
  rewrite <- (rest_twice pr pr i j). unfold restore. unfold rest at 2. unfold upd_cpu.
  assert (E : the_cpu (upd_hart (if i then intr_on else intr_off) (rest pr j l)) = mkCpu pr 0 j)
    by (destruct i; exact (rest_cpu pr j)).
  by rewrite E.
Qed.

Lemma lock_free_rest lk pr i : lock_free lk (rest pr i l) ↔ lock_free lk l.
Proof. done. Qed.

Lemma pushed_idle pr i (j : bool) :
  pushed (upd_hart (if j then intr_on else intr_off) (rest pr i l)) =
  upd_cpu (λ _, mkCpu pr 1 j) (upd_hart intr_off l).
Proof.
  destruct Hl as [H1 H2]. unfold pushed.
  assert (E : intr_get (cs_hart (upd_hart (if j then intr_on else intr_off) (rest pr i l))) = j)
    by (destruct j; [apply intr_on_get|apply intr_off_get]). rewrite E.
  unfold upd_cpu at 1.
  match goal with |- context [the_cpu (upd_hart intr_off ?x)] =>
    replace (the_cpu (upd_hart intr_off x)) with (mkCpu pr 0 i)
      by (rewrite <- (rest_cpu pr i); by destruct j) end.
  simpl. destruct l as [h cs ls]. unfold rest, upd_cpu, upd_hart, set_cs_cpus, set_cs_hart, cpu_index in *. simpl in *. f_equal.
  - destruct i, j; rewrite ?intr_off_of_on, ?intr_off_of_off; rewrite ?intr_off_of_on, ?intr_off_of_off; done.
  - destruct i, j; simpl; by rewrite list_insert_insert_eq.
Qed.

Lemma rest_idle pr i : rest pr i l = upd_hart (if i then intr_on else intr_off) (rest pr i l).
Proof.
  unfold rest, upd_hart, upd_cpu, set_cs_cpus, set_cs_hart. simpl. f_equal.
  destruct i; symmetry; [apply intr_on_of_on|apply intr_off_of_off].
Qed.

Lemma pushed_rest pr i : pushed (rest pr i l) = upd_cpu (λ _, mkCpu pr 1 i) (upd_hart intr_off l).
Proof. rewrite rest_idle. apply pushed_idle. Qed.

(** The scheduler changes [c->proc] while it holds the process's lock. *)
Lemma held_set_proc lk pr pr' i :
  upd_cpu (set_c_proc pr') (held lk (rest pr i l)) = held lk (rest pr' i l).
Proof.
  destruct Hl as [H1 H2]. unfold held. rewrite !pushed_rest. unfold put_lock.
  assert (Ei : cpu_index (rest pr i l) = cpu_index (rest pr' i l)) by (by destruct i). rewrite Ei.
  change (get_lock lk (rest pr' i l)) with (get_lock lk (rest pr i l)).
  unfold upd_cpu at 1.
  match goal with |- context [the_cpu (set_cs_locks ?x ?y)] => change (the_cpu (set_cs_locks x y)) with (the_cpu y) end.
  rewrite the_cpu_upd by done. destruct l as [h cs ls]. unfold upd_cpu, upd_hart, set_cs_cpus, set_cs_hart, set_cs_locks, cpu_index. simpl.
  by rewrite list_insert_insert_eq.
Qed.
End rest.

(** Outside critical sections [intena] does not matter: [acquire] overwrites it. *)
Lemma acquire_idle lk pr i (j : bool) l s :
  hart_ok l → lock_free lk l → k_lk s = upd_hart (if j then intr_on else intr_off) (rest pr i l) →
  acquire lk s = Ok () (set_k_lk (held lk (rest pr j l)) s).
Proof.
  intros Hl Hf El. pose proof (rest_ok l Hl pr j) as Hok.
  assert (E : push_off s = push_off (set_k_lk (rest pr j l) s)).
  { rewrite !push_off_idx; ksimpl; [|apply Hok|].
    - by rewrite El, pushed_idle, pushed_rest.
    - rewrite El. destruct (rest_ok l Hl pr i) as (H & _). by destruct j. }
  pose proof (acquire_eq lk (set_k_lk (rest pr j l) s) Hok Hf) as E2. ksimpl_in E2.
  etrans; [|exact E2]. unfold acquire, bind at 1 3. by rewrite E.
Qed.

(** A process that runs without holding a lock. *)
Lemma quiet_rest p s :
  quiet p s → hart_ok (k_lk s) ∧ k_lk s = rest (Some p) (intr_get (cs_hart (k_lk s))) (k_lk s).
Proof.
  intros Hq. destruct (q_cpu _ _ Hq) as (H1 & H2 & H3 & H4 & H5). pose proof (q_noff _ _ Hq) as Hn.
  pose proof (q_cur _ _ Hq) as Hp. split; [by split|]. unfold rest.
  assert (E : upd_hart (if intr_get (cs_hart (k_lk s)) then intr_on else intr_off) (k_lk s) = k_lk s).
  { destruct (k_lk s) as [h cs ls]. unfold upd_hart, set_cs_hart. simpl in *. f_equal.
    destruct (intr_get h) eqn:E; [by apply intr_on_id|by apply intr_off_id]. }
  rewrite E. symmetry. apply upd_cpu_id; [done|]. rewrite <- (H4 Hn), <- Hp, <- Hn. by destruct (the_cpu (k_lk s)).
Qed.

(** ** Descriptors *)

Definition busy3 : list bool := [false; false; false; true; true; true; true; true].

Section driver.
Context {SY : Symbols} {PF : PteFormat}.

Lemma alloc_desc_eq i s :
  (i < NUM)%nat → (∀ j, (j < i)%nat → nth j (d_free (k_vdisk s)) false = false) →
  nth i (d_free (k_vdisk s)) false = true →
  alloc_desc s = Ok (Some i) (set_k_vdisk (set_d_free (<[i := false]> (d_free (k_vdisk s))) (k_vdisk s)) s).
Proof.
  intros Hi Hj Ei. unfold alloc_desc. apply (for_first i).
  - lia.
  - intros j Hlt. run. rewrite Hj by lia. done.
  - run. by rewrite Ei.
Qed.

Lemma alloc3_eq s :
  d_free (k_vdisk s) = replicate NUM true →
  alloc3_desc s = Ok (Some [0; 1; 2]%nat) (set_k_vdisk (set_d_free busy3 (k_vdisk s)) s).
Proof.
  intros E. unfold alloc3_desc, alloc_descs.
  erewrite bind_ok; [|apply (alloc_desc_eq 0); [unfold NUM; lia|lia|by rewrite E]]. rewrite E.
  erewrite bind_ok; [|apply (alloc_desc_eq 1); [unfold NUM; lia| |done]]. 2:{ intros [|j] Hj; [done|lia]. }
  ksimpl. cbn [d_free set_d_free].
  erewrite bind_ok; [|apply (alloc_desc_eq 2); [unfold NUM; lia| |done]]. 2:{ intros [|[|j]] Hj; [done|done|lia]. }
  ksimpl. okeq.
Qed.

Lemma free_desc_eq i s :
  cpu_ok (k_lk s) → proc_locks (k_lk s) → length (k_procs s) = NPROC →
  (i < NUM)%nat → nth i (d_free (k_vdisk s)) false = false →
  free_desc i s = Ok () (set_k_procs (wake ChDesc <$> k_procs s) (set_k_vdisk
    (set_d_free (<[i := true]> (d_free (k_vdisk s))) (put_desc i (set_vd_addr 0 (the_desc i (k_vdisk s))) (k_vdisk s))) s)).
Proof.
  intros Hc Hl Hn Hi Ef. unfold free_desc. replace (NUM <=? i)%nat with false by (symmetry; apply Nat.leb_gt; lia).
  run. rewrite Ef. unfold upd_vdisk. run. ksimpl. rewrite wakeup_eq by done. ksimpl. okeq.
Qed.

(** *** The translation of the request header's address *)

(** The pages [t2], [t1], [t0] of the kernel page table translate the stack
    address [stk] to [pa]. *)
Definition stk_mapped (t2 t1 t0 pa : Z) (s : kstate) : Prop :=
  k_kpt s = t2 ∧ stk < MAXVA ∧ pte_addr t0 0 stk ≠ 0 ∧
  (has (load64 (k_mem s) (pte_addr t2 2 stk)) PTE_V = true ∧ pte2pa (load64 (k_mem s) (pte_addr t2 2 stk)) = t1) ∧
  (has (load64 (k_mem s) (pte_addr t1 1 stk)) PTE_V = true ∧ pte2pa (load64 (k_mem s) (pte_addr t1 1 stk)) = t0) ∧
  (has (load64 (k_mem s) (pte_addr t0 0 stk)) PTE_V = true ∧
   u64 (pte2pa (load64 (k_mem s) (pte_addr t0 0 stk)) + stk mod PGSIZE) = pa).

(** The bytes of the three entries. *)
Definition stk_ptes (t2 t1 t0 a : Z) : Prop :=
  pte_addr t2 2 stk ≤ a < pte_addr t2 2 stk + 8 ∨ pte_addr t1 1 stk ≤ a < pte_addr t1 1 stk + 8 ∨
  pte_addr t0 0 stk ≤ a < pte_addr t0 0 stk + 8.

Lemma stk_mapped_ext t2 t1 t0 pa s s' :
  k_kpt s' = k_kpt s → (∀ a, stk_ptes t2 t1 t0 a → rd (k_mem s') a = rd (k_mem s) a) →
  stk_mapped t2 t1 t0 pa s → stk_mapped t2 t1 t0 pa s'.
Proof.
  intros Ek Hm (H1 & H2 & H3 & H4 & H5 & H6). unfold stk_mapped.
  rewrite Ek, !(load64_ext (k_mem s') (k_mem s)) by (intros x Hx; apply Hm; unfold stk_ptes; tauto). done.
Qed.

Lemma kvmpa_eq t2 t1 t0 pa s : stk_mapped t2 t1 t0 pa s → kvmpa stk s = Ok pa s.
Proof.
  intros (H1 & H2 & H3 & (H4 & E4) & (H5 & E5) & (H6 & E6)). unfold kvmpa, walk. run. rewrite H1.
  replace (MAXVA <=? stk) with false by (symmetry; apply Z.leb_gt; lia).
  assert (Ew : walk_loop 2 t2 stk false s = Ok (Some t0) s).
  { cbn [walk_loop]. unfold walk_step, ld64. run. change (Z.of_nat 2) with 2. rewrite H4. run.
    rewrite E4. change (Z.of_nat 1) with 1. rewrite H5. run. by rewrite E5. }
  unfold bind at 1 2. rewrite Ew. cbn [obind ret]. unfold ret at 1. cbn [obind].
  rewrite (proj2 (Z.eqb_neq _ _) H3). unfold ld64. run. rewrite H6. cbn [negb]. by rewrite E6.
Qed.
(** ** Submitting a request *)

Definition sector_of (bf : buf) : Z := u32 (b_blockno bf * (BSIZE / 512)).
Definition data_flags (write : bool) : Z := Z.lor (if write then 0 else VRING_DESC_F_WRITE) VRING_DESC_F_NEXT.

(** The queue with the request for buffer [b] in descriptors 0, 1 and 2, step by
    step as [virtio_disk_rw] makes it. *)
Definition q_hdr (pa : Z) : vdisk → vdisk := put_desc 0 (mkDesc pa 16 VRING_DESC_F_NEXT (Z.of_nat 1)).
Definition q_data (b : nat) (write : bool) : vdisk → vdisk :=
  put_desc 1 (mkDesc (bdata b) BSIZE (data_flags write) (Z.of_nat 2)).
Definition q_stat0 (d : vdisk) : vdisk := put_info 0 (set_in_status 0 (the_info 0 d)) d.
Definition q_stat : vdisk → vdisk := put_desc 2 (mkDesc (info_status 0) 1 VRING_DESC_F_WRITE 0).
Definition q_buf (b : nat) (d : vdisk) : vdisk := put_info 0 (set_in_b (Some b) (the_info 0 d)) d.
Definition q_ring (d : vdisk) : vdisk :=
  set_d_avail (<[(2 + Z.to_nat (nth 1 (d_avail d) 0%Z mod Z.of_nat NUM)%Z)%nat := Z.of_nat 0]> (d_avail d)) d.
Definition q_index (d : vdisk) : vdisk :=
  set_d_avail (<[1%nat := u16 (nth 1 (d_avail d) 0%Z + 1)]> (d_avail d)) d.
Definition queued (pa : Z) (b : nat) (write : bool) (d : vdisk) : vdisk :=
  q_index (q_ring (q_buf b (q_stat (q_stat0 (q_data b write (q_hdr pa (set_d_free busy3 d))))))).

Definition notified (x : io) : io :=
  set_io_writes (io_writes x ++ [(VIRTIO0 + VIRTIO_MMIO_QUEUE_NOTIFY, 0)]) x.

Definition submitted (pa : Z) (b : nat) (write : bool) (s : kstate) : kstate :=
  set_k_io (notified (k_io s)) (set_k_vdisk (queued pa b write (k_vdisk s))
    (set_k_bufs (<[b := set_b_disk 1 (the_buf b s)]> (k_bufs s))
      (set_k_mem (store_bytes (k_mem s) pa (outhdr write (sector_of (the_buf b s))))
        (set_k_lk (held LVdisk (k_lk s)) s)))).

Lemma queue_updates {A} m f1 f2 f3 f4 b g f5 f6 f7 r v (k : K A) s :
  (upd_mem m ;;; upd_vdisk f1 ;;; upd_vdisk f2 ;;; upd_vdisk f3 ;;; upd_vdisk f4 ;;; upd_buf b g ;;;
   upd_vdisk f5 ;;; upd_vdisk f6 ;;; upd_vdisk f7 ;;; R_write r v ;;; k) s =
  k (set_k_io (set_io_writes (io_writes (k_io s) ++ [(VIRTIO0 + r, u32 v)]) (k_io s))
    (set_k_vdisk (f7 (f6 (f5 (f4 (f3 (f2 (f1 (k_vdisk s))))))))
      (set_k_bufs (<[b := g (the_buf b s)]> (k_bufs s)) (set_k_mem (m (k_mem s)) s)))).
Proof. unfold upd_mem, upd_vdisk, upd_buf, R_write, io_write, upd_io. run. ksimpl. by destruct s. Qed.

Lemma submit_eq t2 t1 t0 pa b write s :
  cpu_ok (k_lk s) → lock_free LVdisk (k_lk s) → d_free (k_vdisk s) = replicate NUM true →
  stk_mapped t2 t1 t0 pa s →
  virtio_disk_rw b write s =
  (loop (wait_disk b) () ;;;
   upd_vdisk (λ d, put_info 0 (set_in_b None (the_info 0 d)) d) ;;;
   free_chain 0 ;;;
   release LVdisk) (submitted pa b write s).
Proof.
  intros Hc Hf Ef Hm. unfold virtio_disk_rw. rewrite (bind_ok _ _ _ _ _ (get_buf_eq _ _)).
  change (nbuf b (k_bufs s)) with (the_buf b s). fold (sector_of (the_buf b s)).
  run_acquire Hc Hf.
  erewrite bind_ok.
  2:{ apply loop_inr. unfold wait_desc. erewrite bind_ok; [|by apply alloc3_eq]. reflexivity. }
  cbn [nth]. ksimpl.
  erewrite bind_ok; [|apply (kvmpa_eq t2 t1 t0 pa); exact Hm].
  etrans.
  { apply (queue_updates _ (q_hdr pa) (q_data b write) q_stat0 q_stat _ _ (q_buf b) q_ring q_index). }
  ksimpl. change (the_buf b (set_k_vdisk _ _)) with (the_buf b s).
  unfold submitted, queued, notified. change (u32 0) with 0. reflexivity.
Qed.
(** ** The device and the rest of the machine *)

(** The queue holds a request that the device has not seen yet. *)
Record request (b : nat) (write : bool) (sector : Z) (i0 i1 i2 : nat) (s : kstate) : Prop := mkrequest {
  rq_index : nth 1 (d_avail (k_vdisk s)) 0 = u16 (d_used_id (k_vdisk s) + 1);
  rq_ring : nth (2 + Z.to_nat (d_used_id (k_vdisk s) mod Z.of_nat NUM)) (d_avail (k_vdisk s)) 0 = Z.of_nat i0;
  rq_hdr : ∃ pa, the_desc i0 (k_vdisk s) = mkDesc pa 16 VRING_DESC_F_NEXT (Z.of_nat i1) ∧
    load_bytes (k_mem s) pa 16 = outhdr write sector;
  rq_data : the_desc i1 (k_vdisk s) = mkDesc (bdata b) BSIZE (data_flags write) (Z.of_nat i2);
  rq_status : the_desc i2 (k_vdisk s) = mkDesc (info_status i0) 1 VRING_DESC_F_WRITE 0
}.

(** The queue after the device has put chain [i0] on the used ring, with status 0. *)
Definition used (i0 : nat) (d : vdisk) : vdisk :=
  set_d_used_id (u16 (d_used_id d + 1))
    (set_d_used_elems (<[Z.to_nat (d_used_id d mod Z.of_nat NUM) := Z.of_nat i0]> (d_used_elems d))
      (put_info i0 (set_in_status 0 (the_info i0 d)) d)).

(** The block of [BSIZE] bytes at [sector] is written from or read into the buffer. *)
Definition transfer (b : nat) (write : bool) (sector : Z) (s : kstate) : kstate :=
  let n := sector / (BSIZE / 512) in
  if write then
    set_k_dwrites (k_dwrites s ++ [(n, b_data (the_buf b s))])
      (set_k_disk (<[n := b_data (the_buf b s)]> (k_disk s)) s)
  else set_k_bufs (<[b := set_b_data (disk_block n s) (the_buf b s)]> (k_bufs s)) s.

(** The device: when there is a request, it serves it. *)
Class VirtioDevice := {
  device : kstate → kstate;
  device_serves : ∀ b write sector i0 i1 i2 s, (b < NBUF)%nat → (i0 < NUM)%nat → 0 ≤ sector < 2 ^ 64 →
    request b write sector i0 i1 i2 s →
    device s = set_k_vdisk (used i0 (k_vdisk s)) (transfer b write sector s)
}.

Context {VD : VirtioDevice}.

(** While process [p] sleeps: the scheduler goes on with its loop (interrupts
    on), the device serves the request and interrupts, [virtio_disk_intr] handles the
    interrupt, and the scheduler finds [p] runnable and switches to it. *)
Definition meanwhile (p : nat) : K unit :=
  upd_lk (upd_cpu (set_c_proc None)) ;;;
  release (LProc p) ;;;
  upd_lk (upd_hart intr_on) ;;;
  modify device ;;;
  upd_lk (upd_hart intr_off) ;;;
  virtio_disk_intr ;;;
  upd_lk (upd_hart intr_on) ;;;
  acquire (LProc p) ;;;
  let! pr := get_proc p in
  if decide (p_state pr = RUNNABLE) then
    upd_proc p (set_p_state RUNNING) ;;;
    upd_lk (upd_cpu (set_c_proc (Some p)))
  else spin.

(** The call of [virtio_disk_rw] by the process that runs, which sleeps in it. *)
Definition await (p : nat) (c : K unit) : K unit := λ s,
  match c s with
  | Swtch s1 k => bind (meanwhile p) (λ _, k) s1
  | o => o
  end.
Definition virtio_driver : DiskDriver := λ b write,
  let! p := gets (λ s, c_proc (the_cpu (k_lk s))) in
  match p with
  | Some p => await p (virtio_disk_rw b write)
  | None => virtio_disk_rw b write
  end.

(** *** The queue *)

Record queue_ok (d : vdisk) : Prop := mkqueue_ok {
  qo_desc : length (d_desc d) = NUM;
  qo_avail : length (d_avail d) = 10%nat;
  qo_elems : length (d_used_elems d) = NUM;
  qo_info : length (d_info d) = NUM;
  qo_id : 0 ≤ d_used_id d < 2 ^ 16;
  qo_next : nth 1 (d_avail d) 0 = d_used_id d;
  qo_idx : d_used_idx d = d_used_id d mod Z.of_nat NUM
}.

Lemma the_desc_put i j v d :
  (j < length (d_desc d))%nat → the_desc i (put_desc j v d) = if decide (i = j) then v else the_desc i d.
Proof.
  intros Hj. unfold the_desc, put_desc. cbn [d_desc set_d_desc]. rewrite !nth_lookup. case_decide as E.
  - subst. by rewrite list_lookup_insert_eq.
  - by rewrite list_lookup_insert_ne.
Qed.

Lemma the_info_put i j v d :
  (j < length (d_info d))%nat → the_info i (put_info j v d) = if decide (i = j) then v else the_info i d.
Proof.
  intros Hj. unfold the_info, put_info. cbn [d_info set_d_info]. rewrite !nth_lookup. case_decide as E.
  - subst. by rewrite list_lookup_insert_eq.
  - by rewrite list_lookup_insert_ne.
Qed.
Lemma queued_facts pa b write d :
  queue_ok d → let D := queued pa b write d in
  (length (d_desc D) = NUM ∧ length (d_avail D) = 10%nat ∧ length (d_used_elems D) = NUM ∧ length (d_info D) = NUM) ∧
  (d_free D = busy3 ∧ d_used_id D = d_used_id d ∧ d_used_idx D = d_used_idx d ∧ d_used_elems D = d_used_elems d) ∧
  the_desc 0 D = mkDesc pa 16 VRING_DESC_F_NEXT 1 ∧
  the_desc 1 D = mkDesc (bdata b) BSIZE (data_flags write) 2 ∧
  the_desc 2 D = mkDesc (info_status 0) 1 VRING_DESC_F_WRITE 0 ∧
  the_info 0 D = mkInfo (Some b) 0 ∧
  nth 1 (d_avail D) 0 = u16 (d_used_id d + 1) ∧
  nth (2 + Z.to_nat (d_used_id d mod Z.of_nat NUM)) (d_avail D) 0 = 0.
Proof.
  intros [H1 H2 H3 H4 H5 H6 H7] D. pose proof (Z.mod_pos_bound (d_used_id d) (Z.of_nat NUM)) as Hm.
  unfold NUM in *. set (r := (2 + Z.to_nat (d_used_id d mod 8))%nat).
  assert (Hr : (2 ≤ r < 10)%nat) by (unfold r; lia).
  set (d0 := q_buf b (q_stat (q_stat0 (q_data b write (q_hdr pa (set_d_free busy3 d)))))).
  assert (E0 : d_avail d0 = d_avail d) by done.
  assert (ED : d_avail D = <[1%nat := u16 (d_used_id d + 1)]> (<[r := 0]> (d_avail d))).
  { change (d_avail D) with (d_avail (q_index (q_ring d0))).
    unfold q_index, q_ring. cbn [d_avail set_d_avail]. rewrite E0. 
    assert (En : nth 1 (<[r := 0]> (d_avail d)) 0 = d_used_id d).
    { rewrite nth_lookup, list_lookup_insert_ne by lia. by rewrite <- nth_lookup, H6. }
    rewrite H6. change (Z.of_nat NUM) with 8. fold r. change (Z.of_nat 0) with 0. by rewrite En. }
  split_and!; try done.
  - change (length (d_desc D)) with (length (d_desc d0)). simpl. by rewrite !length_insert.
  - by rewrite ED, !length_insert.
  - change (length (d_info D)) with (length (d_info d0)). simpl. by rewrite !length_insert.
  - change (the_desc 0 D) with (the_desc 0 (q_stat (q_data b write (q_hdr pa d)))).
    unfold q_stat, q_data, q_hdr. rewrite !the_desc_put by (simpl; rewrite ?length_insert; lia). done.
  - change (the_desc 1 D) with (the_desc 1 (q_stat (q_data b write (q_hdr pa d)))).
    unfold q_stat, q_data, q_hdr. rewrite !the_desc_put by (simpl; rewrite ?length_insert; lia). done.
  - change (the_desc 2 D) with (the_desc 2 (q_stat (q_data b write (q_hdr pa d)))).
    unfold q_stat, q_data, q_hdr. rewrite !the_desc_put by (simpl; rewrite ?length_insert; lia). done.
  - change (the_info 0 D) with (the_info 0 (q_buf b (q_stat0 d))).
    unfold q_buf, q_stat0. rewrite !the_info_put by (simpl; rewrite ?length_insert; lia). done.
  - rewrite ED, nth_lookup, list_lookup_insert_eq by (rewrite length_insert; lia). done.
  - rewrite ED. change (Z.of_nat 8) with 8. fold r. rewrite nth_lookup, list_lookup_insert_ne, list_lookup_insert_eq by lia. done.
Qed.

(** *** The interrupt *)

Definition acked (s : kstate) : io :=
  set_io_writes (io_writes (k_io s) ++ [(VIRTIO0 + VIRTIO_MMIO_INTERRUPT_ACK,
    u32 (Z.land (u32 (default 0 (io_regs (k_io s) !! (VIRTIO0 + VIRTIO_MMIO_INTERRUPT_STATUS)))) 0x3))]) (k_io s).

Lemma u16_mod8 id : 0 ≤ id → u16 (id + 1) mod 8 = (id mod 8 + 1) mod 8.
Proof.
  intros H. unfold u16. rewrite Z.mod_mod_divide by (by exists 8192). by rewrite <- Zplus_mod_idemp_l.
Qed.
Definition intr_done (b : nat) (s : kstate) : kstate :=
  set_k_vdisk (set_d_used_idx ((d_used_idx (k_vdisk s) + 1) mod Z.of_nat NUM) (k_vdisk s))
    (set_k_procs (wake (ChBuf b) <$> k_procs s)
      (set_k_bufs (<[b := set_b_disk 0 (the_buf b s)]> (k_bufs s)) s)).

(** One request [id0] for buffer [b] is on the used ring. *)
Definition completed (b : nat) (d : vdisk) : Prop :=
  ∃ id, 0 ≤ id ∧ d_used_idx d = id mod Z.of_nat NUM ∧ d_used_id d = u16 (id + 1) ∧
    nth (Z.to_nat (id mod Z.of_nat NUM)) (d_used_elems d) 0 = 0 ∧ the_info 0 d = mkInfo (Some b) 0.

Lemma intr_loop b s :
  cpu_ok (k_lk s) → proc_locks (k_lk s) → length (k_procs s) = NPROC → completed b (k_vdisk s) →
  loop virtio_disk_intr_body () s = Ok () (intr_done b s).
Proof.
  intros Hc Hl Hn (id & Hid & E1 & E2 & E3 & E4). unfold NUM in *. change (Z.of_nat 8) with 8 in *.
  pose proof (Z.mod_pos_bound id 8 ltac:(lia)) as Hm. pose proof (u16_mod8 id Hid) as Hu.
  assert (Hdiv : (id mod 8 + 1) mod 8 = if id mod 8 =? 7 then 0 else id mod 8 + 1).
  { destruct (Z.eqb_spec (id mod 8) 7) as [->|]; [done|]. apply Z.mod_small. lia. }
  apply (loop_two _ _ _ () (intr_done b s)).
  - unfold virtio_disk_intr_body. run. change (Z.of_nat NUM) with 8. rewrite E1, E2, Hu, Z.mod_mod by lia.
    replace (id mod 8 =? (id mod 8 + 1) mod 8) with false
      by (symmetry; apply Z.eqb_neq; rewrite Hdiv; destruct (Z.eqb_spec (id mod 8) 7); lia).
    rewrite E3. change (Z.to_nat 0) with 0%nat. rewrite E4. cbn [in_status in_b].
    change (0 <>? 0) with false. cbn [deref]. run. unfold upd_buf. run.
    erewrite bind_ok; [|apply wakeup_eq; done]. unfold upd_vdisk. run. ksimpl.
    unfold intr_done. rewrite E1. change (Z.of_nat NUM) with 8. clear. okeq.
  - unfold virtio_disk_intr_body, intr_done. run. ksimpl. cbn [d_used_idx d_used_id set_d_used_idx].
    change (Z.of_nat NUM) with 8. rewrite E1, E2, Hu, Z.mod_mod, Z.eqb_refl by lia. run. done.
Qed.

Lemma intr_eq b i l s :
  hart_ok l → (∀ lk, boot_lock lk → lock_free lk l) → length (k_procs s) = NPROC → completed b (k_vdisk s) →
  k_lk s = upd_hart intr_off (rest None i l) →
  virtio_disk_intr s = Ok () (set_k_io (acked s) (intr_done b (set_k_lk (rest None false l) s))).
Proof.
  intros Hh Hl Hn Hcm El. unfold virtio_disk_intr.
  rewrite (bind_ok _ _ _ _ _ (acquire_idle LVdisk None i false l s Hh (Hl LVdisk I) El)).
  pose proof (rest_ok l Hh None false) as Hok.
  erewrite bind_ok; [|apply intr_loop with (b := b); ksimpl; [by apply held_ok| |done|done]].
  2:{ apply proc_locks_held; [done|]. intros j Hj. apply lock_free_rest. by apply Hl. }
  unfold R_read, R_write, io_write, upd_io. run. unfold intr_done. ksimpl.
  erewrite release_eq; [|exact Hok|apply lock_free_rest; exact (Hl LVdisk I)|by ksimpl]. ksimpl.
  unfold acked. change (the_buf b (set_k_lk _ s)) with (the_buf b s). clear. okeq.
Qed.
(** *** From the sleep to the next time the process runs *)

Definition served (b : nat) (write : bool) (sector : Z) (t : kstate) : kstate :=
  set_k_vdisk (used 0 (k_vdisk t)) (transfer b write sector t).

Definition interrupted (b : nat) (write : bool) (sector : Z) (t : kstate) : kstate :=
  set_k_io (acked t) (intr_done b (served b write sector t)).

Lemma transfer_lk b write sector x t :
  transfer b write sector (set_k_lk x t) = set_k_lk x (transfer b write sector t).
Proof. by destruct write. Qed.

Lemma transfer_procs b write sector t : k_procs (transfer b write sector t) = k_procs t.
Proof. by destruct write. Qed.
Lemma transfer_lk_eq b write sector t : k_lk (transfer b write sector t) = k_lk t.
Proof. by destruct write. Qed.
Lemma transfer_io b write sector t : k_io (transfer b write sector t) = k_io t.
Proof. by destruct write. Qed.

Lemma meanwhile_eq p i l b write sector t :
  hart_ok l → (∀ lk, boot_lock lk → lock_free lk l) → (p < NPROC)%nat → (b < NBUF)%nat → 0 ≤ sector < 2 ^ 64 →
  k_lk t = held (LProc p) (rest (Some p) i l) → length (k_procs t) = NPROC →
  request b write sector 0 1 2 t → completed b (used 0 (k_vdisk t)) →
  p_state (the_proc p t) = SLEEPING → p_chan (the_proc p t) = ChBuf b →
  meanwhile p t = Ok () (set_k_lk (held (LProc p) (rest (Some p) true l))
    (set_k_procs (<[p := set_p_state RUNNING (the_proc p t)]> (wake (ChBuf b) <$> k_procs t))
      (interrupted b write sector t))).
Proof.
  intros Hh Hl Hp Hb Hsec El Hn Hreq Hcm Hst Hch. unfold meanwhile, upd_lk. run. ksimpl.
  rewrite El, held_set_proc by done. pose proof (rest_ok l Hh None i) as Hok.
  assert (Hlp : lock_free (LProc p) l) by (by apply Hl).
  erewrite bind_ok; [|eapply release_eq; [exact Hok|apply lock_free_rest; exact Hlp|by ksimpl]].
  run. ksimpl.
  assert (Hreq' : ∀ x, request b write sector 0 1 2 (set_k_lk x t)) by (intros x; destruct Hreq; by split).
  rewrite (device_serves b write sector 0 1 2 _ Hb ltac:(unfold NUM; lia) Hsec (Hreq' _)).
  rewrite transfer_lk. ksimpl.
  assert (El2 : upd_hart intr_off (upd_hart intr_on (rest None i l)) = upd_hart intr_off (rest None i l)).
  { unfold upd_hart, set_cs_hart. simpl. by rewrite intr_off_of_on. }
  rewrite El2.
  erewrite bind_ok; [|eapply (intr_eq b i l); [done|exact Hl|ksimpl; by rewrite transfer_procs|ksimpl; exact Hcm|by ksimpl]].
  run. unfold intr_done. ksimpl.
  erewrite bind_ok; [|eapply (acquire_idle (LProc p) None false true l); [done|exact Hlp|by ksimpl]].
  unfold get_proc. run.
  assert (Hlt : (p < length (k_procs t))%nat) by lia.
  destruct (lookup_lt_is_Some_2 _ _ Hlt) as [pp Hpp].
  assert (Epp : the_proc p t = pp) by (unfold the_proc; by rewrite (nth_lookup_Some _ _ _ _ Hpp)).
  rewrite Epp in *.
  assert (Ew : ∀ u, k_procs u = wake (ChBuf b) <$> k_procs t → the_proc p u = set_p_state RUNNABLE pp).
  { intros u Eu. unfold the_proc. rewrite Eu, nth_lookup, list_lookup_fmap, Hpp. simpl. unfold wake, is_sleeping.
    rewrite Hst, Hch, !bool_decide_eq_true_2 by done. done. }
  erewrite Ew by (ksimpl; by rewrite transfer_procs).
  rewrite decide_True by done. unfold upd_proc. run. ksimpl. unfold modify. ksimpl.
  erewrite Ew by (ksimpl; by rewrite transfer_procs). rewrite held_set_proc by done.
  apply Ok_eq. unfold interrupted, served, intr_done, acked. ksimpl. rewrite !transfer_procs, !transfer_io.
  match goal with |- context [the_buf b (set_k_lk ?x (set_k_vdisk ?y ?z))] =>
    change (the_buf b (set_k_lk x (set_k_vdisk y z))) with (the_buf b z) end.
  match goal with |- context [the_buf b (set_k_vdisk ?y ?z)] =>
    change (the_buf b (set_k_vdisk y z)) with (the_buf b z) end.
  set (z := transfer b write sector t). generalize dependent z. intros z. clear. keq.
Qed.
(** *** Giving the descriptors back *)

Definition freed (i : nat) (d : vdisk) : vdisk :=
  set_d_free (<[i := true]> (d_free d)) (put_desc i (set_vd_addr 0 (the_desc i d)) d).
Definition free_step (i : nat) (s : kstate) : kstate :=
  set_k_procs (wake ChDesc <$> k_procs s) (set_k_vdisk (freed i (k_vdisk s)) s).

Lemma freed_desc i j d :
  (i < length (d_desc d))%nat →
  vd_flags (the_desc j (freed i d)) = vd_flags (the_desc j d) ∧ vd_next (the_desc j (freed i d)) = vd_next (the_desc j d).
Proof.
  intros Hi. unfold freed. change (the_desc j (set_d_free ?x ?y)) with (the_desc j y).
  rewrite (the_desc_put j i) by done. case_decide as E; [subst|]; done.
Qed.

Lemma free_chain_eq s :
  cpu_ok (k_lk s) → proc_locks (k_lk s) → length (k_procs s) = NPROC →
  length (d_desc (k_vdisk s)) = NUM → d_free (k_vdisk s) = busy3 →
  vd_flags (the_desc 0 (k_vdisk s)) = VRING_DESC_F_NEXT → vd_next (the_desc 0 (k_vdisk s)) = 1 →
  Z.land (vd_flags (the_desc 1 (k_vdisk s))) VRING_DESC_F_NEXT ≠ 0 → vd_next (the_desc 1 (k_vdisk s)) = 2 →
  vd_flags (the_desc 2 (k_vdisk s)) = VRING_DESC_F_WRITE →
  free_chain 0 s = Ok () (free_step 2 (free_step 1 (free_step 0 s))).
Proof.
  intros Hc Hl Hn Hd Ef F0 N0 F1 N1 F2. unfold free_chain.
  assert (Hstep : ∀ i t, k_lk t = k_lk s → length (k_procs t) = NPROC → (i < NUM)%nat →
    nth i (d_free (k_vdisk t)) false = false → free_desc i t = Ok () (free_step i t)).
  { intros i t El Ht Hi Hfi. apply free_desc_eq; rewrite ?El; done. }
  apply (loop_chain free_chain_body (λ i, i)
    (λ i, match i with 0 => s | 1 => free_step 0 s | _ => free_step 1 (free_step 0 s) end)%nat 2); [|..|lia].
  - intros [|[|i]] Hi; [| |lia]; unfold free_chain_body.
    + rewrite (bind_ok _ _ _ _ _ (Hstep 0%nat s eq_refl Hn ltac:(unfold NUM; lia) ltac:(by rewrite Ef))). run.
      change (k_vdisk (free_step 0 s)) with (freed 0 (k_vdisk s)).
      destruct (freed_desc 0 0 (k_vdisk s)) as [-> ->]; [rewrite Hd; unfold NUM; lia|]. by rewrite F0, N0.
    + rewrite (bind_ok _ _ _ _ _ (Hstep 1%nat (free_step 0 s) eq_refl ltac:(unfold free_step; ksimpl; by rewrite length_fmap)
        ltac:(unfold NUM; lia) ltac:(unfold free_step; ksimpl; cbn [freed d_free set_d_free]; by rewrite Ef))). run.
      change (k_vdisk (free_step 1 (free_step 0 s))) with (freed 1 (freed 0 (k_vdisk s))).
      destruct (freed_desc 1 1 (freed 0 (k_vdisk s))) as [-> ->]; [simpl; rewrite length_insert, Hd; unfold NUM; lia|].
      destruct (freed_desc 0 1 (k_vdisk s)) as [-> ->]; [rewrite Hd; unfold NUM; lia|]. rewrite N1.
      by rewrite (proj2 (Z.eqb_neq _ _) F1).
  - unfold free_chain_body.
    rewrite (bind_ok _ _ _ _ _ (Hstep 2%nat (free_step 1 (free_step 0 s)) eq_refl ltac:(unfold free_step; ksimpl; by rewrite !length_fmap)
      ltac:(unfold NUM; lia) ltac:(unfold free_step; ksimpl; cbn [freed d_free set_d_free]; by rewrite Ef))). run.
    change (k_vdisk (free_step 2 (free_step 1 (free_step 0 s)))) with (freed 2 (freed 1 (freed 0 (k_vdisk s)))).
    destruct (freed_desc 2 2 (freed 1 (freed 0 (k_vdisk s)))) as [-> ->]; [simpl; rewrite !length_insert, Hd; unfold NUM; lia|].
    destruct (freed_desc 1 2 (freed 0 (k_vdisk s))) as [-> ->]; [simpl; rewrite !length_insert, Hd; unfold NUM; lia|].
    destruct (freed_desc 0 2 (k_vdisk s)) as [-> ->]; [rewrite Hd; unfold NUM; lia|]. by rewrite F2.
Qed.

(** *** The whole request *)

Lemma proc_sim_state st x : proc_sim x (set_p_state st x).
Proof. exists st, (p_chan x). by destruct x. Qed.
Lemma proc_sim_chan ch x : proc_sim x (set_p_chan ch x).
Proof. exists (p_state x), ch. by destruct x. Qed.

Lemma procs_sim_insert p y a b : procs_sim a b → proc_sim (nth p a proc0) y → procs_sim a (<[p := y]> b).
Proof.
  intros Hab H. apply Forall2_same_length_lookup.
  split; [by rewrite length_insert, (Forall2_length _ _ _ Hab)|]. intros i x z Ex Ez.
  assert (Hp : (i < length b)%nat) by (rewrite <- (Forall2_length _ _ _ Hab); by eapply lookup_lt_Some).
  destruct (decide (i = p)) as [->|Hne].
  - rewrite list_lookup_insert_eq in Ez by done. injection Ez as <-. by rewrite nth_lookup, Ex in H.
  - rewrite list_lookup_insert_ne in Ez by done. by apply (Forall2_lookup_lr _ _ _ _ _ _ Hab Ex Ez).
Qed.

Lemma interrupted_sim b write sector t x y z w :
  set_k_procs x (set_k_lk y (interrupted b write sector (set_k_procs z (set_k_lk w t)))) =
  set_k_procs x (set_k_lk y (interrupted b write sector t)).
Proof.
  unfold interrupted, served, intr_done, acked. destruct write; unfold transfer; ksimpl; done.
Qed.

Lemma interrupted_bufs b write sector t :
  k_bufs (interrupted b write sector t) =
  <[b := set_b_disk 0 (if write then the_buf b t
    else nbuf b (<[b := set_b_data (disk_block (sector / (BSIZE / 512)) t) (the_buf b t)]> (k_bufs t)))]>
    (if write then k_bufs t
     else <[b := set_b_data (disk_block (sector / (BSIZE / 512)) t) (the_buf b t)]> (k_bufs t)).
Proof. by destruct write. Qed.

Lemma interrupted_disk b write sector t :
  (b < length (k_bufs t))%nat → b_disk (nbuf b (k_bufs (interrupted b write sector t))) = 0.
Proof.
  intros H. rewrite interrupted_bufs. unfold nbuf at 1. rewrite nth_lookup, list_lookup_insert_eq; [done|].
  destruct write; [done|by rewrite length_insert].
Qed.

Lemma the_proc_set p y l s :
  (p < length l)%nat → k_procs s = <[p := y]> l → the_proc p s = y.
Proof. intros Hp E. unfold the_proc. by rewrite E, nth_lookup, list_lookup_insert_eq. Qed.

Lemma awake_bufs lk p l x y s : k_bufs (awake lk p l (set_k_lk x (set_k_procs y s))) = k_bufs s.
Proof. by destruct s. Qed.
Lemma awake_eq lk p l x y s :
  awake lk p l (set_k_lk x (set_k_procs y s)) =
  set_k_procs (k_procs (awake lk p l (set_k_lk x (set_k_procs y s)))) (set_k_lk (held lk l) s).
Proof. unfold awake. ksimpl. by destruct s. Qed.

Lemma await_wait p l b write sector (c : K unit) t :
  hart_ok l → l = rest (Some p) (intr_get (cs_hart l)) l → (∀ lk, boot_lock lk → lock_free lk l) →
  (p < NPROC)%nat → (b < NBUF)%nat → (b < length (k_bufs t))%nat → 0 ≤ sector < 2 ^ 64 →
  k_lk t = held LVdisk l → length (k_procs t) = NPROC →
  request b write sector 0 1 2 t → completed b (used 0 (k_vdisk t)) → b_disk (the_buf b t) = 1 →
  ∃ PR, procs_sim (k_procs t) PR ∧
    await p (loop (wait_disk b) () ;;; c) t = c (set_k_procs PR (set_k_lk (held LVdisk l) (interrupted b write sector t))).
Proof.
  intros Hh Er Hl Hp Hb Hbl Hsec El Hn Hreq Hcm Hd. set (i := intr_get (cs_hart l)) in *.
  pose proof (rest_ok l Hh (Some p) i) as Hok. rewrite <- Er in Hok.
  assert (Hcpu : the_cpu l = mkCpu (Some p) 0 i) by (rewrite Er; by apply rest_cpu).
  assert (Ho : only_lock LVdisk p l t) by (split_and!; rewrite ?Hcpu; try done; by apply Hl).
  destruct (sleep_eq (ChBuf b) LVdisk p l t Ho) as (k & Ek & Hk); [done|by apply Hl|lia|].
  assert (Eb : wait_disk b () t = Swtch (asleep (ChBuf b) p l t) (λ s, obind (k s) (λ _, ret (inl ())))).
  { unfold wait_disk. rewrite (bind_ok _ _ _ _ _ (get_buf_eq _ _)).
    change (nbuf b (k_bufs t)) with (the_buf b t). rewrite Hd. change (1 =? 1) with true. by apply bind_swtch. }
  destruct (loop_swtch_resume _ _ _ _ _ Eb) as (k' & Ek' & Hk').
  set (t1 := asleep (ChBuf b) p l t) in *.
  assert (Ht1 : the_proc p t1 = set_p_state SLEEPING (set_p_chan (ChBuf b) (the_proc p t)))
    by (apply (the_proc_set p _ (k_procs t)); [lia|done]).
  set (P2 := <[p := set_p_state RUNNING (the_proc p t1)]> (wake (ChBuf b) <$> k_procs t1)).
  set (t2 := set_k_lk (held (LProc p) (rest (Some p) true l)) (set_k_procs P2 (interrupted b write sector t1))).
  assert (Em : meanwhile p t1 = Ok () t2).
  { apply (meanwhile_eq p i); try done.
    - unfold t1, asleep. ksimpl. by rewrite <- Er.
    - unfold t1, asleep. ksimpl. by rewrite length_insert.
    - destruct Hreq; by split.
    - by rewrite Ht1.
    - by rewrite Ht1. }
  assert (Hn2 : length P2 = NPROC) by (unfold P2; rewrite length_insert, length_fmap; unfold t1, asleep; ksimpl; by rewrite length_insert).
  assert (Ek2 : k t2 = Ok () (awake LVdisk p l t2)).
  { rewrite (Hk (rest (Some p) true l)); [|split_and!; rewrite ?rest_cpu by done|apply lock_free_rest; by apply Hl|].
    - rewrite rest_restore by done. fold i. rewrite <- Er. reflexivity.
    - by apply rest_ok.
    - done.
    - done.
    - done.
    - apply lock_free_rest; by apply Hl.
    - change (k_procs t2) with P2. lia. }
  exists (k_procs (awake LVdisk p l t2)). split.
  - assert (H1 : procs_sim (k_procs t) (k_procs t1))
      by (apply procs_sim_insert; [done|]; eapply proc_sim_trans; [apply proc_sim_chan|apply proc_sim_state]).
    assert (H2 : procs_sim (k_procs t1) P2) by (apply procs_sim_insert; [apply wake_sim|apply proc_sim_state]).
    etrans; [exact H1|]. etrans; [exact H2|]. apply procs_sim_insert; [done|apply proc_sim_chan].
  - unfold await. rewrite (bind_swtch _ _ _ _ _ Ek'). rewrite (bind_ok _ _ _ _ _ Em). cbv beta.
    assert (Ew : wait_disk b () (awake LVdisk p l t2) = Ok (inr ()) (awake LVdisk p l t2)).
    { unfold wait_disk. rewrite (bind_ok _ _ _ _ _ (get_buf_eq _ _)).
      unfold t2. rewrite awake_bufs, interrupted_disk by done. reflexivity. }
    assert (E3 : k' t2 = Ok () (awake LVdisk p l t2))
      by (eapply Hk'; [cbv beta; rewrite Ek2; cbn [obind]; reflexivity|exact Ew]).
    rewrite E3. cbn [obind]. f_equal.
    unfold t2 at 1. rewrite awake_eq. unfold t1 at 2, asleep. apply interrupted_sim.
Qed.

Definition unlinked (d : vdisk) : vdisk := put_info 0 (set_in_b None (the_info 0 d)) d.

Lemma finish_eq l u :
  cpu_ok l → (∀ lk, boot_lock lk → lock_free lk l) → k_lk u = held LVdisk l → length (k_procs u) = NPROC →
  length (d_desc (k_vdisk u)) = NUM → d_free (k_vdisk u) = busy3 →
  vd_flags (the_desc 0 (k_vdisk u)) = VRING_DESC_F_NEXT → vd_next (the_desc 0 (k_vdisk u)) = 1 →
  Z.land (vd_flags (the_desc 1 (k_vdisk u))) VRING_DESC_F_NEXT ≠ 0 → vd_next (the_desc 1 (k_vdisk u)) = 2 →
  vd_flags (the_desc 2 (k_vdisk u)) = VRING_DESC_F_WRITE →
  (upd_vdisk unlinked ;;; free_chain 0 ;;; release LVdisk) u =
  Ok () (set_k_lk l (set_k_procs (wake ChDesc <$> (wake ChDesc <$> (wake ChDesc <$> k_procs u)))
    (set_k_vdisk (freed 2 (freed 1 (freed 0 (unlinked (k_vdisk u))))) u))).
Proof.
  intros Hc Hl El Hn Hd Ef F0 N0 F1 N1 F2. unfold upd_vdisk. run.
  erewrite bind_ok; [|apply free_chain_eq; ksimpl; try done].
  2:{ rewrite El. by apply held_ok. }
  2:{ rewrite El. apply proc_locks_held; [done|]. intros j Hj. by apply Hl. }
  unfold free_step. ksimpl. erewrite release_eq; [|exact Hc|exact (Hl LVdisk I)|by ksimpl]. ksimpl. clear. okeq.
Qed.

(** The queue after the request in [q] has been served and its descriptors freed. *)
Definition finished (q : vdisk) : vdisk :=
  let d1 := used 0 q in
  freed 2 (freed 1 (freed 0 (unlinked (set_d_used_idx ((d_used_idx d1 + 1) mod Z.of_nat NUM) d1)))).

(** The parts of the queue of which the steps below keep the length or the value. *)
Definition shape (d : vdisk) := (length (d_desc d), length (d_info d), d_avail d, d_used_elems d, d_used_id d, d_used_idx d).

Lemma freed_shape i d : shape (freed i d) = shape d.
Proof. destruct d. unfold shape. simpl. by rewrite length_insert. Qed.
Lemma unlinked_shape d : shape (unlinked d) = shape d.
Proof. destruct d. unfold shape. simpl. by rewrite length_insert. Qed.
Lemma freed_free i d : d_free (freed i d) = <[i := true]> (d_free d).
Proof. by destruct d. Qed.
Lemma unlinked_free d : d_free (unlinked d) = d_free d.
Proof. by destruct d. Qed.

Lemma finished_fields q :
  (length (d_desc (finished q)) = length (d_desc q) ∧ d_avail (finished q) = d_avail q ∧
   length (d_used_elems (finished q)) = length (d_used_elems q) ∧ length (d_info (finished q)) = length (d_info q)) ∧
  d_used_id (finished q) = u16 (d_used_id q + 1) ∧ d_used_idx (finished q) = (d_used_idx q + 1) mod Z.of_nat NUM ∧
  d_free (finished q) = <[2%nat := true]> (<[1%nat := true]> (<[0%nat := true]> (d_free q))).
Proof.
  assert (E : shape (finished q) = shape (set_d_used_idx ((d_used_idx q + 1) mod Z.of_nat NUM) (used 0 q)))
    by (unfold finished; cbv zeta; by rewrite !freed_shape, unlinked_shape).
  assert (Ef : d_free (finished q) = <[2%nat := true]> (<[1%nat := true]> (<[0%nat := true]> (d_free q))))
    by (unfold finished; cbv zeta; rewrite !freed_free, unlinked_free; by destruct q).
  rewrite Ef. generalize dependent (finished q). intros f E _.
  injection E as -> -> -> -> -> ->. destruct q. simpl. by rewrite !length_insert.
Qed.

Lemma finished_ok pa b write d :
  queue_ok d → queue_ok (finished (queued pa b write d)) ∧ d_free (finished (queued pa b write d)) = replicate NUM true.
Proof.
  intros Hq. destruct (queued_facts pa b write d Hq) as ((L1 & L2 & L3 & L4) & (E1 & E2 & E3 & E4) & _ & _ & _ & _ & A1 & _).
  destruct Hq as [Q1 Q2 Q3 Q4 Q5 Q6 Q7]. generalize dependent (queued pa b write d). intros q L1 L2 L3 L4 E1 E2 E3 E4 A1.
  destruct (finished_fields q) as ((F1 & F2 & F3 & F4) & F5 & F6 & F7).
  split; [split|]; rewrite ?F1, ?F2, ?F3, ?F4, ?F5, ?F6, ?F7; try done.
  - apply u16_range.
  - by rewrite A1, E2.
  - change (Z.of_nat NUM) with 8 in *. by rewrite E2, E3, Q7, u16_mod8 by lia.
  - by rewrite E1.
Qed.

Lemma queued_completed pa b write d : queue_ok d → completed b (used 0 (queued pa b write d)).
Proof.
  intros Hq. destruct (queued_facts pa b write d Hq) as ((_ & _ & L3 & L4) & (_ & E2 & E3 & E4) & _ & _ & _ & I0 & _ & _).
  destruct Hq as [Q1 Q2 Q3 Q4 Q5 Q6 Q7]. set (q := queued pa b write d) in *.
  pose proof (Z.mod_pos_bound (d_used_id d) 8 ltac:(lia)) as Hm.
  exists (d_used_id d). change (Z.of_nat NUM) with 8 in *. split_and!; [lia|..].
  - change (d_used_idx (used 0 q)) with (d_used_idx q). by rewrite E3.
  - change (d_used_id (used 0 q)) with (u16 (d_used_id q + 1)). by rewrite E2.
  - change (d_used_elems (used 0 q)) with (<[Z.to_nat (d_used_id q mod 8) := 0]> (d_used_elems q)).
    rewrite E2, nth_lookup, list_lookup_insert_eq; [done|]. rewrite L3. unfold NUM. lia.
  - change (the_info 0 (used 0 q)) with (the_info 0 (put_info 0 (set_in_status 0 (the_info 0 q)) q)).
    rewrite the_info_put by (rewrite L4; unfold NUM; lia). by rewrite I0.
Qed.

Definition driver_ready (t2 t1 t0 pa : Z) (s : kstate) : Prop :=
  queue_ok (k_vdisk s) ∧ d_free (k_vdisk s) = replicate NUM true ∧ stk_mapped t2 t1 t0 pa s.

Lemma outhdr_length write sector : length (outhdr write sector) = 16%nat.
Proof. unfold outhdr. by rewrite !length_app, !length_le_split. Qed.

Lemma submitted_request pa b write s :
  queue_ok (k_vdisk s) → request b write (sector_of (the_buf b s)) 0 1 2 (submitted pa b write s).
Proof.
  intros Hq. destruct (queued_facts pa b write _ Hq) as (_ & (_ & E2 & _) & D0 & D1 & D2 & _ & A1 & A2).
  unfold submitted. generalize dependent (queued pa b write (k_vdisk s)). intros q E2 D0 D1 D2 A1 A2.
  split; ksimpl; rewrite ?E2; try done. exists pa. split; [done|].
  rewrite <- (outhdr_length write (sector_of (the_buf b s))). apply load_store_bytes.
  unfold outhdr. rewrite !Forall_app. split_and!; apply le_split_bytes.
Qed.

Lemma sector_block bf : 0 ≤ b_blockno bf < 2 ^ 31 → sector_of bf / (BSIZE / 512) = b_blockno bf.
Proof.
  intros H. unfold sector_of. change (BSIZE / 512) with 2. rewrite u32_small by lia. apply Z.div_mul. lia.
Qed.

Lemma interrupted_fields b write sector t :
  k_vdisk (interrupted b write sector t) = (let d := used 0 (k_vdisk t) in
    set_d_used_idx ((d_used_idx d + 1) mod Z.of_nat NUM) d) ∧
  core (interrupted b write sector t) = core t ∧ k_mem (interrupted b write sector t) = k_mem t ∧
  k_slocks (interrupted b write sector t) = k_slocks t ∧
  k_disk (interrupted b write sector t) = k_disk (transfer b write sector t) ∧
  k_dwrites (interrupted b write sector t) = k_dwrites (transfer b write sector t).
Proof. unfold core. by destruct write. Qed.

Lemma desc_kept i q x y :
  the_desc i (set_d_used_idx x (used y q)) = the_desc i q.
Proof. done. Qed.
Lemma descs_kept q x y : d_desc (set_d_used_idx x (used y q)) = d_desc q.
Proof. done. Qed.
Lemma free_kept q x y : d_free (set_d_used_idx x (used y q)) = d_free q.
Proof. done. Qed.

Lemma virtio_driver_eq t2 t1 t0 pa p b write s :
  quiet p s → driver_ready t2 t1 t0 pa s → (b < NBUF)%nat → (b < length (k_bufs s))%nat →
  ∃ PR, procs_sim (k_procs s) PR ∧
    virtio_driver b write s = Ok () (set_k_lk (k_lk s) (set_k_procs PR (set_k_vdisk (finished (queued pa b write (k_vdisk s)))
      (interrupted b write (sector_of (the_buf b s)) (submitted pa b write s))))).
Proof.
  intros Hq (Hqo & Hfr & Hst) Hb Hbl. destruct (quiet_rest p s Hq) as [Hh Er].
  pose proof (q_cpu _ _ Hq) as Hc. pose proof (q_locks _ _ Hq) as Hl.
  unfold virtio_driver. run. rewrite (q_cur _ _ Hq).
  set (sec := sector_of (the_buf b s)). set (t := submitted pa b write s).
  assert (Ea : await p (virtio_disk_rw b write) s =
    await p (loop (wait_disk b) () ;;; (upd_vdisk unlinked ;;; free_chain 0 ;;; release LVdisk)) t).
  { unfold await. by rewrite (submit_eq t2 t1 t0 pa) by (done || by apply Hl). }
  rewrite Ea. clear Ea.
  assert (Hreq : request b write sec 0 1 2 t) by (by apply submitted_request).
  assert (Hdk : b_disk (the_buf b t) = 1).
  { unfold the_buf at 1, t, submitted. ksimpl. by rewrite nth_lookup, list_lookup_insert_eq. }
  destruct (await_wait p (k_lk s) b write sec (upd_vdisk unlinked ;;; free_chain 0 ;;; release LVdisk) t)
    as (PR & Hsim & ->); try done; try apply Hq.
  { unfold t, submitted. ksimpl. by rewrite length_insert. }
  { unfold sec, sector_of. pose proof (u32_range (b_blockno (the_buf b s) * (BSIZE / 512))). lia. }
  { by apply queued_completed. }
  destruct (queued_facts pa b write _ Hqo) as ((L1 & _) & (E1 & _) & D0 & D1 & D2 & _).
  destruct (interrupted_fields b write sec t) as (Ev & _).
  assert (Hn : length PR = NPROC) by (rewrite <- (Forall2_length _ _ _ Hsim); apply Hq).
  change (k_vdisk t) with (queued pa b write (k_vdisk s)) in Ev.
  rewrite (finish_eq (k_lk s)); ksimpl; rewrite ?Ev; cbv zeta; rewrite ?desc_kept, ?descs_kept, ?free_kept, ?D0, ?D1, ?D2;
    [|first [assumption|reflexivity|by destruct write]..].
  exists (wake ChDesc <$> (wake ChDesc <$> (wake ChDesc <$> PR))). split.
  { change (k_procs t) with (k_procs s) in Hsim. etrans; [exact Hsim|]. do 2 (etrans; [|apply wake_sim]). apply wake_sim. }
  apply Ok_eq. unfold finished. cbv zeta. generalize (interrupted b write sec t). intros v. clear. keq.
Qed.

(** The header of the request, on the kernel stack of the process. *)
Definition header_bytes (pa a : Z) : Prop := pa ≤ a < pa + 16.

Lemma disk_back bf : b_disk bf = 0 → set_b_disk 0 (set_b_disk 1 bf) = bf.
Proof. destruct bf. simpl. by intros ->. Qed.
Lemma disk_back_data bf x : b_disk bf = 0 → set_b_disk 0 (set_b_data x (set_b_disk 1 bf)) = set_b_data x bf.
Proof. destruct bf. simpl. by intros ->. Qed.

Section ready.
Context (t2 t1 t0 pa : Z) (Hdisj : ∀ a, stk_ptes t2 t1 t0 a → ¬ header_bytes pa a).

Lemma virtio_rw_spec p b write s :
  quiet p s → driver_ready t2 t1 t0 pa s → (b < NBUF)%nat → (b < length (k_bufs s))%nat →
  b_disk (the_buf b s) = 0 → 0 ≤ b_blockno (the_buf b s) < 2 ^ 31 →
  let n := b_blockno (the_buf b s) in let d := b_data (the_buf b s) in
  wp (virtio_driver b write) (λ _ s', frame (header_bytes pa) s s' ∧ driver_ready t2 t1 t0 pa s' ∧
    k_slocks s' = k_slocks s ∧
    k_disk s' = (if write then <[n := d]> (k_disk s) else k_disk s) ∧
    k_dwrites s' = (if write then k_dwrites s ++ [(n, d)] else k_dwrites s) ∧
    k_bufs s' = (if write then k_bufs s else <[b := set_b_data (disk_block n s) (the_buf b s)]> (k_bufs s))) s.
Proof.
  intros Hq Hr Hb Hbl Hd Hn n d. destruct (virtio_driver_eq t2 t1 t0 pa p b write s Hq Hr Hb Hbl) as (PR & Hsim & E).
  eapply wp_ok; [exact E|]. destruct Hr as (Hqo & _ & Hst).
  set (t := submitted pa b write s). set (sec := sector_of (the_buf b s)).
  destruct (interrupted_fields b write sec t) as (_ & E2 & E3 & E4 & E5 & E6).
  destruct (finished_ok pa b write _ Hqo) as [Hf1 Hf2].
  assert (Hmem : ∀ a, ¬ header_bytes pa a → rd (k_mem (interrupted b write sec t)) a = rd (k_mem s) a).
  { intros a Ha. rewrite E3. unfold t, submitted. ksimpl. rewrite rd_store_bytes, outhdr_length.
    rewrite decide_False; [done|]. exact Ha. }
  assert (Hbuf : the_buf b t = set_b_disk 1 (the_buf b s))
    by (unfold the_buf at 1, t, submitted; ksimpl; by rewrite nth_lookup, list_lookup_insert_eq).
  assert (Ets : k_disk t = k_disk s ∧ k_dwrites t = k_dwrites s) by done. destruct Ets as [Et1 Et2].
  assert (Etb : k_bufs t = <[b := set_b_disk 1 (the_buf b s)]> (k_bufs s)) by done.
  pose proof (disk_back _ Hd) as Hb0.
  assert (Hid : <[b := the_buf b s]> (k_bufs s) = k_bufs s).
  { apply list_insert_id. destruct (lookup_lt_is_Some_2 _ _ Hbl) as [x Hx].
    unfold the_buf. by rewrite nth_lookup, Hx. }
  assert (Es : sec / (BSIZE / 512) = n) by (by apply sector_block).
  split_and!.
  - split_and!; [|ksimpl; done|ksimpl; exact Hmem|intros j; unfold the_slock; ksimpl; by rewrite E4].
    change (core t) with (core (set_k_lk (held LVdisk (k_lk s)) s)) in E2.
    generalize dependent (interrupted b write sec t). intros v. intros. unfold core in *. ksimpl. ksimpl_in E2. congruence.
  - split_and!; ksimpl; try done. apply (stk_mapped_ext _ _ _ _ s); [|ksimpl; intros a Ha; apply Hmem; by apply Hdisj|done].
    ksimpl. change (k_kpt s) with (k_kpt t). by injection E2.
  - ksimpl. by rewrite E4.
  - ksimpl. rewrite E5. unfold transfer. rewrite Es. destruct write; ksimpl; [|done]. by rewrite Hbuf, Et1.
  - ksimpl. rewrite E6. unfold transfer. rewrite Es. destruct write; ksimpl; [|done]. by rewrite Hbuf, Et2.
  - ksimpl. rewrite interrupted_bufs, Hbuf, Etb, Es. destruct write.
    + by rewrite list_insert_insert_eq, Hb0, Hid.
    + unfold nbuf. rewrite nth_lookup, list_lookup_insert_eq by (by rewrite length_insert).
      rewrite !list_insert_insert_eq. f_equal. unfold disk_block. rewrite Et1. by apply disk_back_data.
Qed.

(** The driver has the laws the buffer cache relies on. *)
Definition virtio_laws : @DiskLaws virtio_driver.
Proof.
  refine (@mkDiskLaws virtio_driver (header_bytes pa) (stk_ptes t2 t1 t0) (driver_ready t2 t1 t0 pa) Hdisj _ _ _).
  - intros s s' Ev _ Ek Hm (H1 & H2 & H3). unfold driver_ready. rewrite Ev. split_and!; [done|done|].
    by apply (stk_mapped_ext _ _ _ _ s).
  - intros p b s Hq Hr Hb Hbl Hd Hn. exact (virtio_rw_spec p b false s Hq Hr Hb Hbl Hd Hn).
  - intros p b s Hq Hr Hb Hbl Hd Hn. exact (virtio_rw_spec p b true s Hq Hr Hb Hbl Hd Hn).
Defined.
End ready.

End driver.

(** ** A device, and a request *)

Section device.
#[local] Existing Instance symbols0.
#[local] Existing Instance sv39_pte2pa.

(** The device takes the chain that the available ring names. *)
Definition ring_device (s : kstate) : kstate :=
  let d := k_vdisk s in
  let i0 := Z.to_nat (nth (2 + Z.to_nat (d_used_id d mod Z.of_nat NUM)) (d_avail d) 0) in
  let d0 := the_desc i0 d in
  let d1 := the_desc (Z.to_nat (vd_next d0)) d in
  let hdr := load_bytes (k_mem s) (vd_addr d0) 16 in
  let write := bool_decide (le_join (take 4 hdr) = VIRTIO_BLK_T_OUT) in
  set_k_vdisk (used i0 d) (transfer (Z.to_nat ((vd_addr d1 - 0x80010000) / 1112)) write (le_join (drop 8 hdr)) s).

#[local] Instance ring_device_ok : VirtioDevice.
Proof.
  refine {| device := ring_device |}. intros b write sector i0 i1 i2 s Hb Hi Hsec [H1 H2 (pa & H3 & H4) H5 H6].
  unfold ring_device. rewrite H2, Nat2Z.id, H3. cbn [vd_next vd_addr]. rewrite Nat2Z.id, H5, H4. cbn [vd_addr].
  assert (E8 : drop 8 (outhdr write sector) = le_split 8 sector) by done.
  assert (E4 : take 4 (outhdr write sector) = le_split 4 (if write then VIRTIO_BLK_T_OUT else VIRTIO_BLK_T_IN)) by done.
  rewrite E8, E4, !le_join_split_small by (destruct write; done).
  replace (Z.to_nat ((bdata b - 0x80010000) / 1112)) with b; [by destruct write|].
  unfold bdata, symbols0. rewrite Z.add_simpl_l, Z.mul_comm, Z.div_mul by done. by rewrite Nat2Z.id.
Defined.

Definition vmem : gmap Z Z :=
  store64 (store64 (store64 ∅ (pte_addr 0x80100000 2 stk) (Z.lor (PA2PTE 0x80101000) PTE_V))
    (pte_addr 0x80101000 1 stk) (Z.lor (PA2PTE 0x80102000) PTE_V))
    (pte_addr 0x80102000 0 stk) (Z.lor (PA2PTE 0x80103000) PTE_V).
Definition vstate : kstate :=
  set_k_kpt 0x80100000 (set_k_mem vmem (set_k_vdisk (set_d_free (replicate NUM true) (k_vdisk fresh_state)) fresh_state)).

Lemma vstate_ready : driver_ready 0x80100000 0x80101000 0x80102000 0x80103000 vstate.
Proof. split_and!; [split; vm_compute; done|vm_compute; done|]. split_and!; vm_compute; done. Qed.

End device.
