(* ===== verification/Log.v ===== *)
(** * The write-ahead log: [kernel/log.c]

    Block numbers of the log header are kept as their 32-bit patterns.  A log
    header in a buffer is at its place in the data: [n] at offset 0, [block[i]]
    at offset [4 + 4 * i]. *)

From stdpp Require Import prelude gmap strings list.
From Stdlib Require Import ZArith Lia.
From S2P Require Import Prelude.
From S2P Require Import Monad.
From S2P Require Import Riscv.
From S2P Require Import Types.
From S2P Require Import Spinlock.
From S2P Require Import Proc.
From S2P Require Import Sleeplock.
From S2P Require Import Virtio.
From S2P Require Import Bio.

Definition upd_log (f : log → log) : K unit := modify (λ s, set_k_log (f (k_log s)) s).

(** [sizeof(struct logheader)] *)
Definition sizeof_logheader : Z := 4 + 4 * LOGSIZE.

(** [log.lh.block[i]] *)
Definition lh_at (i : nat) (lg : log) : Z := nth i (lh_block lg) 0.

Section log.
Context {DD : DiskDriver}.

Definition install_trans : K unit :=
  let! lg := gets k_log in
  let! _ := for_ (R := unit) (Z.to_nat (lh_n lg)) 0 (λ tail,
    let! lg := gets k_log in
    let! lbuf := bread (lg_dev lg) (u32 (lg_start lg + Z.of_nat tail + 1)) in
    let! dbuf := bread (lg_dev lg) (lh_at tail lg) in
    let! l := get_buf lbuf in
    upd_buf dbuf (set_b_data (b_data l)) ;;;
    bwrite dbuf ;;;
    bunpin dbuf ;;;
    brelse lbuf ;;;
    brelse dbuf ;;;
    ret None) in
  ret ().

Definition read_head : K unit :=
  let! lg := gets k_log in
  let! b := bread (lg_dev lg) (u32 (lg_start lg)) in
  let! bf := get_buf b in
  upd_log (set_lh_n (i32 (get32 0 (b_data bf)))) ;;;
  let! lg := gets k_log in
  let! _ := for_ (R := unit) (Z.to_nat (lh_n lg)) 0 (λ i,
    upd_log (λ lg, set_lh_block
      (<[i := get32 (4 + 4 * Z.of_nat i) (b_data bf)]> (lh_block lg)) lg) ;;;
    ret None) in
  brelse b.

(** [hb->n = log.lh.n] and the loop that copies the block numbers *)
Fixpoint put_blocks (n i : nat) (lg : log) (data : list Z) : list Z :=
  match n with
  | O => data
  | S n' => put_blocks n' (S i) lg (put32 (4 + 4 * Z.of_nat i) (lh_at i lg) data)
  end.
Definition put_header (lg : log) (data : list Z) : list Z :=
  put_blocks (Z.to_nat (lh_n lg)) 0 lg (put32 0 (lh_n lg) data).

Definition write_head : K unit :=
  let! lg := gets k_log in
  let! b := bread (lg_dev lg) (u32 (lg_start lg)) in
  upd_buf b (λ bf, set_b_data (put_header lg (b_data bf)) bf) ;;;
  bwrite b ;;;
  brelse b.

Definition recover_from_log : K unit :=
  read_head ;;;
  install_trans ;;;
  upd_log (set_lh_n 0) ;;;
  write_head.

Definition initlog (dev : Z) (sb : superblock) : K unit :=
  if BSIZE <=? sizeof_logheader then panic "initlog: too big logheader" else
  initlock LLog "log" ;;;
  upd_log (set_lg_start (i32 (sb_logstart sb))) ;;;
  upd_log (set_lg_size (i32 (sb_nlog sb))) ;;;
  upd_log (set_lg_dev dev) ;;;
  recover_from_log.

Definition begin_op_body (_ : unit) : K (unit + unit) :=
  let! lg := gets k_log in
  if lg_committing lg then sleep ChLog LLog ;;; ret (inl ())
  else if LOGSIZE <? lh_n lg + (lg_outstanding lg + 1) * MAXOPBLOCKS then
    sleep ChLog LLog ;;; ret (inl ())
  else
    upd_log (λ lg, set_lg_outstanding (lg_outstanding lg + 1) lg) ;;;
    release LLog ;;;
    ret (inr ()).
Definition begin_op : K unit :=
  acquire LLog ;;;
  loop begin_op_body ().

Definition write_log : K unit :=
  let! lg := gets k_log in
  let! _ := for_ (R := unit) (Z.to_nat (lh_n lg)) 0 (λ tail,
    let! lg := gets k_log in
    let! to := bread (lg_dev lg) (u32 (lg_start lg + Z.of_nat tail + 1)) in
    let! from := bread (lg_dev lg) (lh_at tail lg) in
    let! f := get_buf from in
    upd_buf to (set_b_data (b_data f)) ;;;
    bwrite to ;;;
    brelse from ;;;
    brelse to ;;;
    ret None) in
  ret ().

Definition commit : K unit :=
  let! lg := gets k_log in
  when (0 <? lh_n lg)
    (write_log ;;;
     write_head ;;;
     install_trans ;;;
     upd_log (set_lh_n 0) ;;;
     write_head).

Definition end_op : K unit :=
  acquire LLog ;;;
  upd_log (λ lg, set_lg_outstanding (lg_outstanding lg - 1) lg) ;;;
  let! lg := gets k_log in
  if lg_committing lg then panic "log.committing" else
  let do_commit := lg_outstanding lg =? 0 in
  (if do_commit then upd_log (set_lg_committing true) else wakeup ChLog) ;;;
  release LLog ;;;
  when do_commit
    (commit ;;;
     acquire LLog ;;;
     upd_log (set_lg_committing false) ;;;
     wakeup ChLog ;;;
     release LLog).
End log.

(** [for (i = 0; i < log.lh.n; i++) if (log.lh.block[i] == b->blockno) break;] *)
Fixpoint find_block (n i : nat) (lg : log) (blockno : Z) : nat :=
  match n with
  | O => i
  | S n' => if lh_at i lg =? blockno then i else find_block n' (S i) lg blockno
  end.

Definition log_write (b : nat) : K unit :=
  let! lg := gets k_log in
  if (LOGSIZE <=? lh_n lg) || (lg_size lg - 1 <=? lh_n lg)
  then panic "too big a transaction" else
  if lg_outstanding lg <? 1 then panic "log_write outside of trans" else
  acquire LLog ;;;
  let! lg := gets k_log in
  let! bf := get_buf b in
  let i := find_block (Z.to_nat (lh_n lg)) 0 lg (b_blockno bf) in
  upd_log (set_lh_block (<[i := b_blockno bf]> (lh_block lg))) ;;;
  when (Z.of_nat i =? lh_n lg)
    (bpin b ;;;
     upd_log (λ lg, set_lh_n (lh_n lg + 1) lg)) ;;;
  release LLog.
