(* ===== verification/LogSpec.v ===== *)
(** * Crash safety of the log

    The disk sees a sequence of block writes; a crash may happen after any
    prefix of it.  The lemmas give the writes of [write_log], [write_head] and
    [install_trans]; the theorems show that recovery turns the disk that any
    crash of [commit] leaves into the state before the transaction or the state
    after it. *)

From stdpp Require Import prelude gmap strings list list_numbers fin_sets.
From Stdlib Require Import ZArith Lia.
From S2P Require Import Prelude.
From S2P Require Import Monad.
From S2P Require Import Riscv.
From S2P Require Import Types.
From S2P Require Import Spinlock.
From S2P Require Import Proc.
From S2P Require Import ProcSpec.
From S2P Require Import Sleeplock.
From S2P Require Import Virtio.
From S2P Require Import Bio.
From S2P Require Import BioSpec.
From S2P Require Import Cache.
From S2P Require Import Log.

(** ** Sequences of block writes *)

Notation disk_t := (gmap Z (list Z)).
Definition apply_writes (ws : list (Z * list Z)) (D : disk_t) : disk_t :=
  foldl (λ D w, <[w.1 := w.2]> D) D ws.
Definition at_ (D : disk_t) (n : Z) : list Z := default zero_block (D !! n).

Lemma apply_writes_app ws ws' D : apply_writes (ws ++ ws') D = apply_writes ws' (apply_writes ws D).
Proof. apply foldl_app. Qed.

Lemma apply_writes_other ws D n :
  n ∉ ws.*1 → apply_writes ws D !! n = D !! n.
Proof.
  revert D. induction ws as [|[m d] ws IH]; intros D Hn; simpl; [done|].
  rewrite IH by set_solver. apply lookup_insert_ne. set_solver.
Qed.

Lemma apply_writes_hit ws D i n d :
  NoDup ws.*1 → ws !! i = Some (n, d) → apply_writes ws D !! n = Some d.
Proof.
  revert D i. induction ws as [|[m e] ws IH]; intros D i Hnd Hi; [done|].
  apply NoDup_cons in Hnd as [Hm Hnd]. destruct i as [|i]; simpl in *.
  - simplify_eq. rewrite apply_writes_other by done. apply lookup_insert_eq.
  - by apply (IH _ i).
Qed.

Lemma apply_writes_lookup ws D n :
  apply_writes ws D !! n = match apply_writes ws ∅ !! n with Some d => Some d | None => D !! n end.
Proof.
  revert D. induction ws as [|[m d] ws IH]; intros D; simpl; [by rewrite lookup_empty|].
  rewrite (IH (<[m := d]> D)), (IH (<[m := d]> ∅)).
  destruct (apply_writes ws ∅ !! n); [done|]. destruct (decide (n = m)) as [->|].
  - by rewrite !lookup_insert_eq.
  - by rewrite !lookup_insert_ne, lookup_empty.
Qed.

(** A block that is written gets the same content whatever the disk was. *)
Lemma apply_writes_in ws D D' n : n ∈ ws.*1 → apply_writes ws D !! n = apply_writes ws D' !! n.
Proof.
  revert D D'. induction ws as [|[m d] ws IH]; intros D D' Hn; simpl in *; [set_solver|].
  destruct (decide (n ∈ ws.*1)); [by apply IH|]. rewrite !apply_writes_other by done.
  assert (n = m) as -> by set_solver. by rewrite !lookup_insert_eq.
Qed.

Lemma take_keys (ws : list (Z * list Z)) k n : n ∈ (take k ws).*1 → n ∈ ws.*1.
Proof. intros Hn. rewrite <- (take_drop k ws), fmap_app. set_solver. Qed.

Section log.
Context {DD : DiskDriver} {DL : DiskLaws}.
Implicit Types (H : gset nat) (P : gmap Z Z).

(** One write of block [n] with data [d], and nothing else that matters here. *)
Definition wrote p P' (n : Z) (d : list Z) (s s' : kstate) : Prop :=
  (∃ l', cinv p l' ∅ P' s') ∧ frame scratch s s' ∧
  k_disk s' = <[n := d]> (k_disk s) ∧ k_dwrites s' = k_dwrites s ++ [(n, d)] ∧
  ∀ m, blk s' m = if decide (m = n) then d else blk s m.

(** A second block, besides the one in [b]. *)
Lemma bread_second p l P b n s :
  cinv p l {[b]} P s → 0 ≤ n < 2 ^ 31 → b_blockno (nbuf b (k_bufs s)) ≠ n →
  (is_Some (P !! n) ∨ (1 + size P < NBUF)%nat ∧ P !! b_blockno (nbuf b (k_bufs s)) = None) →
  wp (bread ROOTDEV n) (bread_post p l {[b]} P n s) s.
Proof.
  intros Hi Hno Hne [Hp|[Hsz Hb]].
  - destruct (ci_pin _ _ _ _ _ Hi n Hp) as (i & Hlt & Hc). apply (bread_hit p l _ P n i); try done.
    intros ->%elem_of_singleton. by apply Hne, Hc.
  - apply bread_spec; [done|done|rewrite size_singleton; lia| |set_solver].
    intros i ->%elem_of_singleton. rewrite base_unpinned; [lia|]. intros [_ Hs]. rewrite Hb in Hs. by destruct Hs.
Qed.

(** Releasing both buffers. *)
Lemma brelse_both p l P b c s :
  cinv p l {[b; c]} P s → b ≠ c →
  (is_Some (P !! b_blockno (nbuf b (k_bufs s))) ∨
   b_data (nbuf b (k_bufs s)) = disk_block (b_blockno (nbuf b (k_bufs s))) s) →
  (is_Some (P !! b_blockno (nbuf c (k_bufs s))) ∨
   b_data (nbuf c (k_bufs s)) = disk_block (b_blockno (nbuf c (k_bufs s))) s) →
  wp (brelse b ;;; brelse c ;;; ret (@None unit)) (λ r s', r = None ∧ (∃ l', cinv p l' ∅ P s') ∧
    frame scratch s s' ∧ k_disk s' = k_disk s ∧ k_dwrites s' = k_dwrites s ∧ ∀ n, blk s' n = blk s n) s.
Proof.
  intros Hi Hbc Hb Hc. rewrite wp_bind. eapply wp_mono; [apply (brelse_spec p l {[b; c]} P b); [done|set_solver|done]|].
  intros [] s1 ((l1 & Hi1) & Hf1 & Ed1 & Ew1 & Hb1 & Ho1).
  assert (EH : {[b; c]} ∖ {[b]} = {[c]} :> gset nat) by set_solver. rewrite EH in Hi1.
  rewrite wp_bind. eapply wp_mono.
  { apply (brelse_spec p l1 {[c]} P c); [exact Hi1|set_solver|].
    destruct (Ho1 c ltac:(done)) as (_ & _ & _ & E1 & _ & E2). rewrite E1, E2, (disk_block_eq _ s) by done. exact Hc. }
  intros [] s2 ((l2 & Hi2) & Hf2 & Ed2 & Ew2 & Hb2 & _).
  assert (EH2 : {[c]} ∖ {[c]} = ∅ :> gset nat) by set_solver. rewrite EH2 in Hi2.
  rewrite wp_ret. split_and!; [done|by exists l2|by etrans|congruence|congruence|].
  intros n. by rewrite Hb2, Hb1.
Qed.

(** Copying block [from] to block [to] through the cache, as [write_log] does. *)
Lemma log_copy p l P (to from : Z) s :
  cinv p l ∅ P s → 0 ≤ to < 2 ^ 31 → 0 ≤ from < 2 ^ 31 →
  (size P < NBUF)%nat → P !! to = None → is_Some (P !! from) →
  wp (let! tob := bread ROOTDEV to in
      let! fromb := bread ROOTDEV from in
      let! f := get_buf fromb in
      upd_buf tob (set_b_data (b_data f)) ;;;
      bwrite tob ;;;
      brelse fromb ;;;
      brelse tob ;;;
      ret (@None unit))
    (λ r s', r = None ∧ wrote p P to (blk s from) s s') s.
Proof.
  intros Hi Hrt Hrf Hsz Hto Hpin. rewrite wp_bind. eapply wp_mono; [by apply (bread_first p l P)|].
  intros tb s1 (Htb & _ & Hi1 & Hc1 & Hd1 & Hb1 & Ho1 & Ed1 & Ew1 & Hf1).
  assert (Hne : to ≠ from) by (intros ->; rewrite Hto in Hpin; by destruct Hpin).
  rewrite union_empty_r_L in Hi1.
  rewrite wp_bind. eapply wp_mono; [apply (bread_second p l P tb); [done|done|by rewrite (proj2 Hc1)|by left]|].
  intros fb s2 (Hfb & Hfne & Hi2 & Hc2 & Hd2 & Hb2 & Ho2 & Ed2 & Ew2 & Hf2).
  assert (Htf : tb ≠ fb) by set_solver.
  rewrite wp_bind. eapply wp_ok; [apply get_buf_eq|]. rewrite Hd2, Hb1.
  rewrite wp_bind. eapply wp_ok; [apply upd_buf_eq|]. fold (put_data tb (blk s from) s2).
  destruct (put_data_spec p l _ P tb (blk s from) s2 Hi2) as (Hi3 & Hf3 & Hb3); [set_solver|by apply (blk_len p l ∅ P)|].
  assert (E2t : nbuf tb (k_bufs s2) = nbuf tb (k_bufs s1)) by (by apply Ho2).
  rewrite E2t, (proj2 Hc1) in Hb3.
  pose proof (nbuf_put_data tb (blk s from) s2) as E3.
  assert (HL : length (k_bufs s2) = S NBUF) by apply (ca_len _ _ (ci_cache _ _ _ _ _ Hi2)).
  set (s3 := put_data tb (blk s from) s2) in *.
  assert (E3t : nbuf tb (k_bufs s3) = set_b_data (blk s from) (nbuf tb (k_bufs s2)))
    by (rewrite E3, decide_True by (done || lia); done).
  assert (E3f : nbuf fb (k_bufs s3) = nbuf fb (k_bufs s2)) by (rewrite E3, decide_False by (done || lia); done).
  rewrite wp_bind. eapply wp_mono; [apply (bwrite_spec p l ({[fb]} ∪ {[tb]}) P tb); [exact Hi3|set_solver]|].
  intros [] s4 (Hi4 & Hf4 & Eb4 & Ed4 & Ew4 & Hb4). rewrite E3t in Ed4, Ew4.
  cbn [b_blockno b_data set_b_data] in Ed4, Ew4. rewrite E2t, (proj2 Hc1) in Ed4, Ew4.
  eapply wp_mono.
  { apply (brelse_both p l P fb tb); [|done| |].
    - exact Hi4.
    - left. rewrite Eb4, E3f, (proj2 Hc2). done.
    - right. rewrite Eb4, E3t. cbn [b_blockno b_data set_b_data]. rewrite E2t, (proj2 Hc1).
      unfold disk_block. by rewrite Ed4, lookup_insert_eq. }
  intros r s5 (-> & Hi5 & Hf5 & Ed5 & Ew5 & Hb5). split; [done|]. split_and!.
  - done.
  - etrans; [exact Hf1|]. etrans; [exact Hf2|]. etrans; [exact Hf3|]. by etrans.
  - rewrite Ed5, Ed4. change (k_disk s3) with (k_disk s2). by rewrite Ed2, Ed1.
  - rewrite Ew5, Ew4. change (k_dwrites s3) with (k_dwrites s2). by rewrite Ew2, Ew1.
  - intros m. rewrite Hb5, Hb4, Hb3, Hb2, Hb1. done.
Qed.

(** Installing a logged block at its home, as [install_trans] does: the unpin
    takes the log's reference, or, in recovery, one that nobody had. *)
Definition unpinned P P' (home : Z) : Prop :=
  counts P' ∧ (∀ n, n ≠ home → P' !! n = P !! n) ∧
  u32 (default 0 (P' !! home) + 1) = default 0 (P !! home).

Lemma log_install p l P P' (lblk home : Z) s :
  cinv p l ∅ P s → 0 ≤ lblk < 2 ^ 31 → 0 ≤ home < 2 ^ 31 →
  (size P < NBUF)%nat → P !! lblk = None → lblk ≠ home →
  (is_Some (P !! home) ∨ (1 + size P < NBUF)%nat) → unpinned P P' home →
  wp (let! lbuf := bread ROOTDEV lblk in
      let! dbuf := bread ROOTDEV home in
      let! l := get_buf lbuf in
      upd_buf dbuf (set_b_data (b_data l)) ;;;
      bwrite dbuf ;;;
      bunpin dbuf ;;;
      brelse lbuf ;;;
      brelse dbuf ;;;
      ret (@None unit))
    (λ r s', r = None ∧ wrote p P' home (blk s lblk) s s') s.
Proof.
  intros Hi Hrl Hrh Hsz Hlb Hne Hhome (HP1 & HP2 & HP3). rewrite wp_bind.
  eapply wp_mono; [by apply (bread_first p l P)|].
  intros lb s1 (Hlt & _ & Hi1 & Hc1 & Hd1 & Hb1 & Ho1 & Ed1 & Ew1 & Hf1).
  rewrite union_empty_r_L in Hi1.
  rewrite wp_bind. eapply wp_mono.
  { apply (bread_second p l P lb); [done|done|by rewrite (proj2 Hc1)|]. destruct Hhome as [Hp|Hsz2]; [by left|].
    right. split; [done|]. by rewrite (proj2 Hc1). }
  intros db s2 (Hdb & Hdne & Hi2 & Hc2 & Hd2 & Hb2 & Ho2 & Ed2 & Ew2 & Hf2).
  assert (Hld : lb ≠ db) by set_solver.
  assert (E2l : nbuf lb (k_bufs s2) = nbuf lb (k_bufs s1)) by (by apply Ho2).
  rewrite wp_bind. eapply wp_ok; [apply get_buf_eq|]. rewrite E2l, Hd1.
  rewrite wp_bind. eapply wp_ok; [apply upd_buf_eq|]. fold (put_data db (blk s lblk) s2).
  destruct (put_data_spec p l _ P db (blk s lblk) s2 Hi2) as (Hi3 & Hf3 & Hb3); [set_solver|by apply (blk_len p l ∅ P)|].
  rewrite (proj2 Hc2) in Hb3.
  assert (HL : length (k_bufs s2) = S NBUF) by apply (ca_len _ _ (ci_cache _ _ _ _ _ Hi2)).
  pose proof (λ i, nbuf_put_data db (blk s lblk) s2 i ltac:(lia)) as E3.
  set (s3 := put_data db (blk s lblk) s2) in *.
  assert (E3d : nbuf db (k_bufs s3) = set_b_data (blk s lblk) (nbuf db (k_bufs s2))) by (rewrite E3, decide_True; done).
  assert (E3l : nbuf lb (k_bufs s3) = nbuf lb (k_bufs s1)) by (rewrite E3, decide_False; done).
  rewrite wp_bind. eapply wp_mono; [apply (bwrite_spec p l ({[db]} ∪ {[lb]}) P db); [exact Hi3|set_solver]|].
  intros [] s4 (Hi4 & Hf4 & Eb4 & Ed4 & Ew4 & Hb4). rewrite E3d in Ed4, Ew4.
  cbn [b_blockno b_data set_b_data] in Ed4, Ew4. rewrite (proj2 Hc2) in Ed4, Ew4.
  pose proof (ci_quiet _ _ _ _ _ Hi4) as Hq4.
  rewrite wp_bind. eapply wp_ok; [apply bunpin_eq; [apply Hq4|by apply (q_locks _ _ Hq4)]|].
  assert (E4n : b_blockno (nbuf db (k_bufs s4)) = home) by (rewrite Eb4, E3d; apply Hc2).
  destruct (cinv_pin p l ({[db]} ∪ {[lb]}) P P' db unref_buf s4 Hi4) as (Hi5 & Hb5); rewrite ?E4n; try done.
  { set_solver. }
  { by right. }
  { pose proof (bo_ref _ _ _ _ _ (ci_bufs _ _ _ _ _ Hi4 db Hdb)) as Hr.
    cbn [unref_buf b_refcnt set_b_refcnt]. rewrite Hr, bool_decide_eq_true_2 by set_solver.
    assert (Eb : base P (nbuf db (k_bufs s4)) = default 0 (P !! home)).
    { unfold base. rewrite E4n. replace (b_dev (nbuf db (k_bufs s4))) with ROOTDEV; [done|].
      rewrite Eb4, E3d. symmetry. apply Hc2. }
    rewrite Eb, HP3. unfold u32. rewrite Zminus_mod_idemp_l. simpl (b2z true).
    replace (default 0 (P !! home) + 1 - 1) with (default 0 (P !! home)) by lia.
    assert (0 ≤ default 0 (P !! home) < 2 ^ 32) as Hr2.
    { rewrite <- HP3. apply u32_range. } rewrite Z.mod_small by lia. done. }
  set (s5 := set_k_bufs _ s4) in *.
  assert (E5 : ∀ i, b_blockno (nbuf i (k_bufs s5)) = b_blockno (nbuf i (k_bufs s4)) ∧
                    b_data (nbuf i (k_bufs s5)) = b_data (nbuf i (k_bufs s4))).
  { intros i. unfold s5, upd_nb. ksimpl. rewrite nbuf_insert_case by (rewrite Eb4; unfold s3, put_data; ksimpl; rewrite upd_nb_length; lia).
    by case_decide; subst. }
  eapply wp_mono.
  { apply (brelse_both p l P' lb db); [|done| |].
    - assert (E : {[lb; db]} = {[db]} ∪ {[lb]} :> gset nat) by set_solver. by rewrite E.
    - right. destruct (E5 lb) as [-> ->]. rewrite Eb4, E3l, (proj2 Hc1), Hd1.
      rewrite (blk_clean p l ∅ P) by (done || set_solver).
      unfold disk_block, s5. ksimpl. rewrite Ed4, lookup_insert_ne by done.
      change (k_disk s3) with (k_disk s2). by rewrite Ed2, Ed1.
    - right. destruct (E5 db) as [-> ->]. rewrite E4n, Eb4, E3d. cbn [b_data set_b_data].
      unfold disk_block, s5. ksimpl. by rewrite Ed4, lookup_insert_eq. }
  intros r s6 (-> & Hi6 & Hf6 & Ed6 & Ew6 & Hb6). split; [done|]. split_and!.
  - done.
  - etrans; [exact Hf1|]. etrans; [exact Hf2|]. etrans; [exact Hf3|]. etrans; [exact Hf4|].
    etrans; [|exact Hf6]. by split_and!.
  - rewrite Ed6. unfold s5. ksimpl. rewrite Ed4. change (k_disk s3) with (k_disk s2). by rewrite Ed2, Ed1.
  - rewrite Ew6. unfold s5. ksimpl. rewrite Ew4. change (k_dwrites s3) with (k_dwrites s2). by rewrite Ew2, Ew1.
  - intros m. rewrite Hb6, Hb5, Hb4, Hb3, Hb2, Hb1. done.
Qed.

(** Writing the in-memory header to block [lg_start]. *)
Lemma write_head_spec p l P s :
  cinv p l ∅ P s → (size P < NBUF)%nat → lg_dev (k_log s) = ROOTDEV → 0 ≤ lg_start (k_log s) < 2 ^ 31 →
  P !! lg_start (k_log s) = None → length (put_header (k_log s) (blk s (lg_start (k_log s)))) = 1024%nat →
  wp write_head (λ _ s', wrote p P (lg_start (k_log s)) (put_header (k_log s) (blk s (lg_start (k_log s)))) s s') s.
Proof.
  intros Hi Hsz Hdev Hst HP Hlen. set (st := lg_start (k_log s)) in *. set (hdr := put_header _ _) in *.
  unfold write_head. rewrite wp_bind, wp_gets, wp_bind. fold st. rewrite Hdev, u32_small by lia.
  eapply wp_mono; [by apply (bread_first p l P)|].
  intros b s1 (Hlt & _ & Hi1 & Hc1 & Hd1 & Hb1 & Ho1 & Ed1 & Ew1 & Hf1). rewrite union_empty_r_L in Hi1.
  rewrite wp_bind. eapply wp_ok; [apply upd_buf_eq|].
  assert (Hx : set_k_bufs (upd_nb b (λ bf, set_b_data (put_header (k_log s) (b_data bf)) bf) (k_bufs s1)) s1
               = put_data b hdr s1).
  { unfold put_data, upd_nb. by rewrite Hd1. }
  rewrite Hx.
  destruct (put_data_spec p l {[b]} P b hdr s1 Hi1) as (Hi3 & Hf3 & Hb3); [set_solver|done|].
  rewrite (proj2 Hc1) in Hb3.
  assert (HL : length (k_bufs s1) = S NBUF) by apply (ca_len _ _ (ci_cache _ _ _ _ _ Hi1)).
  pose proof (nbuf_put_data b hdr s1 b ltac:(lia)) as E3. rewrite decide_True in E3 by done.
  set (s3 := put_data b hdr s1) in *.
  rewrite wp_bind. eapply wp_mono; [apply (bwrite_spec p l {[b]} P b); [exact Hi3|set_solver]|].
  intros [] s4 (Hi4 & Hf4 & Eb4 & Ed4 & Ew4 & Hb4). rewrite E3 in Ed4, Ew4.
  cbn [b_blockno b_data set_b_data] in Ed4, Ew4. rewrite (proj2 Hc1) in Ed4, Ew4.
  eapply wp_mono.
  { apply (brelse_spec p l {[b]} P b); [exact Hi4|set_solver|]. right. rewrite Eb4, E3.
    cbn [b_blockno b_data set_b_data]. rewrite (proj2 Hc1). unfold disk_block. by rewrite Ed4, lookup_insert_eq. }
  intros [] s5 ((l' & Hi5) & Hf5 & Ed5 & Ew5 & Hb5 & _).
  assert (EH : {[b]} ∖ {[b]} = ∅ :> gset nat) by set_solver. rewrite EH in Hi5.
  split_and!.
  - by exists l'.
  - etrans; [exact Hf1|]. etrans; [exact Hf3|]. by etrans.
  - rewrite Ed5, Ed4. change (k_disk s3) with (k_disk s1). by rewrite Ed1.
  - rewrite Ew5, Ew4. change (k_dwrites s3) with (k_dwrites s1). by rewrite Ew1.
  - intros m. rewrite Hb5, Hb4, Hb3, Hb1. done.
Qed.

(** ** Sequences of writes *)

Definition wrote_list p P' (ws : list (Z * list Z)) (s s' : kstate) : Prop :=
  (∃ l', cinv p l' ∅ P' s') ∧ frame scratch s s' ∧
  k_disk s' = apply_writes ws (k_disk s) ∧ k_dwrites s' = k_dwrites s ++ ws ∧
  ∀ m, blk s' m = default (blk s m) (apply_writes ws ∅ !! m).

Lemma wrote_nil p l P s : cinv p l ∅ P s → wrote_list p P [] s s.
Proof. intros Hi. split_and!; [by exists l|done|done|by rewrite app_nil_r|]. intros m. simpl. by rewrite lookup_empty. Qed.

Lemma wrote_snoc p P P' ws n d s t u :
  wrote_list p P ws s t → wrote p P' n d t u → wrote_list p P' (ws ++ [(n, d)]) s u.
Proof.
  intros (_ & Hf & Ed & Ew & Hb) (Hi & Hf' & Ed' & Ew' & Hb').
  split_and!; [done|by etrans| | |].
  - by rewrite Ed', Ed, apply_writes_app.
  - by rewrite Ew', Ew, app_assoc.
  - intros m. rewrite Hb', Hb, apply_writes_app. simpl. case_decide as E.
    + subst. by rewrite lookup_insert_eq.
    + by rewrite lookup_insert_ne.
Qed.

Lemma wrote_app p P P' ws ws' s t u :
  wrote_list p P ws s t → wrote_list p P' ws' t u → wrote_list p P' (ws ++ ws') s u.
Proof.
  intros (_ & Hf & Ed & Ew & Hb) (Hi & Hf' & Ed' & Ew' & Hb').
  split_and!; [done|by etrans| | |].
  - by rewrite Ed', Ed, apply_writes_app.
  - by rewrite Ew', Ew, app_assoc.
  - intros m. rewrite Hb', Hb, apply_writes_app, (apply_writes_lookup ws' (apply_writes ws ∅)).
    by destruct (apply_writes ws' ∅ !! m).
Qed.

Lemma wrote_one p P n d s t : wrote p P n d s t → wrote_list p P [(n, d)] s t.
Proof.
  intros (Hi & Hf & Ed & Ew & Hb). split_and!; [done|done|done|done|]. intros m. rewrite Hb. simpl.
  case_decide as E; [subst; by rewrite lookup_insert_eq|by rewrite lookup_insert_ne].
Qed.

(** ** The transaction in memory *)

Definition logged (lg : log) : list Z := take (Z.to_nat (lh_n lg)) (lh_block lg).

(** The log occupies blocks [st .. st + 30]; the blocks it logs lie elsewhere. *)
Definition in_log (st n : Z) : Prop := st ≤ n ≤ st + LOGSIZE.

Record log_ok (lg : log) : Prop := mklog_ok {
  lo_dev : lg_dev lg = ROOTDEV;
  lo_start : 0 ≤ lg_start lg ∧ lg_start lg + LOGSIZE < 2 ^ 31;
  lo_n : 0 ≤ lh_n lg < LOGSIZE;
  lo_len : length (lh_block lg) = 30%nat;
  lo_nodup : NoDup (logged lg);
  lo_range : Forall (λ b, 0 ≤ b < 2 ^ 31 ∧ ¬ in_log (lg_start lg) b) (logged lg)
}.

(** The pins of a transaction: one reference to each of its blocks. *)
Definition pins (bl : list Z) : gmap Z Z := list_to_map ((λ b, (b, 1)) <$> bl).

Lemma pins_lookup bl b k : pins bl !! b = Some k ↔ b ∈ bl ∧ k = 1.
Proof.
  unfold pins. induction bl as [|x bl IH]; simpl; [rewrite lookup_empty; set_solver|].
  destruct (decide (b = x)) as [->|Hne].
  - rewrite lookup_insert_eq. set_solver.
  - rewrite lookup_insert_ne, IH by done. set_solver.
Qed.

Lemma pins_some bl b : b ∈ bl → pins bl !! b = Some 1.
Proof. intros H. by apply pins_lookup. Qed.

Lemma pins_none bl b : b ∉ bl → pins bl !! b = None.
Proof. intros H. apply eq_None_not_Some. intros [k Hk]. apply pins_lookup in Hk. naive_solver. Qed.

Lemma size_pins bl : (size (pins bl) ≤ length bl)%nat.
Proof.
  induction bl as [|x bl IH]; [done|]. unfold pins in *.
  rewrite fmap_cons, list_to_map_cons, map_size_insert. cbn [length].
  destruct (_ !! x); unfold id; lia.
Qed.

Lemma counts_pins bl : counts (pins bl).
Proof. intros n k Hk. apply pins_lookup in Hk as [_ ->]. lia. Qed.

Lemma logged_length lg : log_ok lg → length (logged lg) = Z.to_nat (lh_n lg).
Proof. intros H. unfold logged. rewrite length_take, (lo_len _ H). pose proof (lo_n _ H). consts. lia. Qed.

Lemma logged_at lg i :
  log_ok lg → (i < Z.to_nat (lh_n lg))%nat → logged lg !! i = Some (lh_at i lg).
Proof.
  intros H Hi. unfold logged, lh_at. rewrite lookup_take_lt by done.
  destruct (lookup_lt_is_Some_2 (lh_block lg) i) as [x Hx].
  { rewrite (lo_len _ H). pose proof (lo_n _ H). consts. lia. }
  by rewrite (nth_lookup_Some _ _ _ _ Hx).
Qed.

(** [write_log]: block [tail] of the log gets the cached content of the
    [tail]-th block of the transaction. *)
Definition log_writes (st : Z) (ds : list (list Z)) : list (Z * list Z) :=
  imap (λ i d, (st + Z.of_nat i + 1, d)) ds.

Lemma log_writes_keys st ds n :
  n ∈ (log_writes st ds).*1 ↔ st + 1 ≤ n < st + 1 + Z.of_nat (length ds).
Proof.
  unfold log_writes. rewrite fmap_imap, list_elem_of_lookup. split.
  - intros [i Hi]. apply list_lookup_imap_Some in Hi as (d & Hd & ->).
    apply lookup_lt_Some in Hd. simpl. lia.
  - intros Hn. exists (Z.to_nat (n - st - 1)). rewrite list_lookup_imap.
    destruct (lookup_lt_is_Some_2 ds (Z.to_nat (n - st - 1))) as [d ->]; [lia|]. simpl. f_equal. lia.
Qed.

Lemma write_log_spec p l s :
  log_ok (k_log s) → cinv p l ∅ (pins (logged (k_log s))) s →
  wp write_log (λ _ s', wrote_list p (pins (logged (k_log s)))
    (log_writes (lg_start (k_log s)) (blk s <$> logged (k_log s))) s s') s.
Proof.
  intros Hlo Hi. set (lg := k_log s) in *. set (P := pins (logged lg)) in *.
  set (W := log_writes (lg_start lg) (blk s <$> logged lg)).
  assert (Hsz : (size P < NBUF)%nat).
  { pose proof (size_pins (logged lg)). rewrite logged_length in * by done. pose proof (lo_n _ Hlo).
    unfold P, NBUF. consts. lia. }
  assert (HW : ∀ i, W !! i = (λ b, (lg_start lg + Z.of_nat i + 1, blk s b)) <$> logged lg !! i).
  { intros i. unfold W, log_writes. rewrite list_lookup_imap, list_lookup_fmap. by destruct (logged lg !! i). }
  unfold write_log. rewrite wp_bind, wp_gets, wp_bind. fold lg.
  apply (wp_for (Z.to_nat (lh_n lg)) 0 _ (λ i t, wrote_list p P (take i W) s t)).
  - by apply (wrote_nil p l).
  - intros i t Hlt Ht. pose proof Ht as ((lt & Hit) & Hft & Edt & Ewt & Hbt).
    assert (Hb := logged_at lg i Hlo ltac:(lia)). set (b := lh_at i lg) in *.
    assert (Hin : b ∈ logged lg) by (apply list_elem_of_lookup; by exists i).
    pose proof (proj1 (Forall_forall _ _) (lo_range _ Hlo) b Hin) as [Hbr Hnl]. unfold in_log in Hnl.
    destruct (lo_start _ Hlo) as [Hst1 Hst2]. pose proof (lo_n _ Hlo).
    rewrite wp_bind, wp_gets, (frame_log _ _ _ Hft). fold lg.
    rewrite (lo_dev _ Hlo), u32_small by (consts; lia). fold b.
    eapply wp_mono; [apply (log_copy p lt P); [done|consts; lia|done|done| |]|].
    + apply pins_none. intros Hx. destruct (proj1 (Forall_forall _ _) (lo_range _ Hlo) _ Hx) as [_ Hy].
      apply Hy. unfold in_log. consts. lia.
    + unfold P. rewrite (pins_some _ _ Hin). by eexists.
    + intros r u [-> Hw].
      assert (Eb : blk t b = blk s b).
      { rewrite Hbt, (apply_writes_other (take i W) ∅ b), lookup_empty; [done|].
        intros Hx. assert (Hx' : b ∈ W.*1).
        { rewrite fmap_take in Hx. rewrite <- (take_drop i W.*1). apply elem_of_app. by left. }
        apply log_writes_keys in Hx'. rewrite length_fmap, logged_length in Hx' by done. consts. lia. }
      rewrite Eb in Hw. rewrite (take_S_r W i (lg_start lg + Z.of_nat i + 1, blk s b)) by (by rewrite HW, Hb).
      by eapply wrote_snoc.
  - intros t Ht. rewrite wp_ret. rewrite take_ge in Ht; [done|].
    unfold W, log_writes. rewrite length_imap, length_fmap, logged_length by done. lia.
Qed.

(** [install_trans]: each block of the transaction gets the content of its log
    block.  [Pi i] are the references of the log after [i] blocks. *)
Definition install_writes (st : Z) (f : Z → list Z) (bl : list Z) : list (Z * list Z) :=
  imap (λ i b, (b, f (st + Z.of_nat i + 1))) bl.

Lemma install_writes_keys st f bl : (install_writes st f bl).*1 = bl.
Proof.
  unfold install_writes. rewrite fmap_imap. apply list_eq. intros i. rewrite list_lookup_imap.
  by destruct (bl !! i).
Qed.

Lemma install_trans_spec p l (Pi : nat → gmap Z Z) s :
  log_ok (k_log s) → cinv p l ∅ (Pi 0%nat) s →
  (∀ i b, logged (k_log s) !! i = Some b →
     unpinned (Pi i) (Pi (S i)) b ∧ (size (Pi i) < NBUF)%nat ∧
     (∀ m, in_log (lg_start (k_log s)) m → Pi i !! m = None) ∧
     (is_Some (Pi i !! b) ∨ (1 + size (Pi i) < NBUF)%nat)) →
  wp install_trans (λ _ s', wrote_list p (Pi (length (logged (k_log s))))
    (install_writes (lg_start (k_log s)) (blk s) (logged (k_log s))) s s') s.
Proof.
  intros Hlo Hi HPi. set (lg := k_log s) in *. set (W := install_writes (lg_start lg) (blk s) (logged lg)).
  assert (HW : ∀ i, W !! i = (λ b, (b, blk s (lg_start lg + Z.of_nat i + 1))) <$> logged lg !! i).
  { intros i. unfold W, install_writes. by rewrite list_lookup_imap. }
  unfold install_trans. rewrite wp_bind, wp_gets, wp_bind. fold lg. rewrite <- (logged_length lg Hlo).
  apply (wp_for (length (logged lg)) 0 _ (λ i t, wrote_list p (Pi i) (take i W) s t)).
  - by apply (wrote_nil p l).
  - intros i t Hlt Ht. pose proof Ht as ((lt & Hit) & Hft & Edt & Ewt & Hbt).
    rewrite (logged_length lg Hlo) in Hlt.
    assert (Hb := logged_at lg i Hlo ltac:(lia)). set (b := lh_at i lg) in *.
    assert (Hin : b ∈ logged lg) by (apply list_elem_of_lookup; by exists i).
    pose proof (proj1 (Forall_forall _ _) (lo_range _ Hlo) b Hin) as [Hbr Hnl].
    destruct (lo_start _ Hlo) as [Hst1 Hst2]. pose proof (lo_n _ Hlo).
    destruct (HPi i b Hb) as (Hun & Hsz & Hnl2 & Hor).
    assert (Hilog : in_log (lg_start lg) (lg_start lg + Z.of_nat i + 1)) by (unfold in_log; consts; lia).
    rewrite wp_bind, wp_gets, (frame_log _ _ _ Hft). fold lg.
    rewrite (lo_dev _ Hlo), u32_small by (consts; lia). fold b.
    eapply wp_mono; [apply (log_install p lt (Pi i) (Pi (S i))); try done|].
    + consts. lia.
    + by apply Hnl2.
    + intros E. apply Hnl. by rewrite <- E.
    + intros r u [-> Hw].
      assert (Eb : blk t (lg_start lg + Z.of_nat i + 1) = blk s (lg_start lg + Z.of_nat i + 1)).
      { rewrite Hbt, (apply_writes_other (take i W) ∅), lookup_empty; [done|].
        intros Hx. assert (Hx' : lg_start lg + Z.of_nat i + 1 ∈ W.*1).
        { rewrite fmap_take in Hx. rewrite <- (take_drop i W.*1). apply elem_of_app. by left. }
        unfold W in Hx'. rewrite install_writes_keys in Hx'.
        by destruct (proj1 (Forall_forall _ _) (lo_range _ Hlo) _ Hx') as [_ Hy]. }
      rewrite Eb in Hw. rewrite (take_S_r W i (b, blk s (lg_start lg + Z.of_nat i + 1))) by (by rewrite HW, Hb).
      by eapply wrote_snoc.
  - intros t Ht. rewrite wp_ret. rewrite take_ge in Ht; [done|].
    unfold W, install_writes. rewrite length_imap. lia.
Qed.

(** The references while a commit installs its blocks, and while recovery does. *)
Lemma unpinned_drop bl i b :
  NoDup bl → bl !! i = Some b → unpinned (pins (drop i bl)) (pins (drop (S i) bl)) b.
Proof.
  intros Hnd Hb. rewrite (drop_S bl b i Hb).
  assert (Hnin : b ∉ drop (S i) bl).
  { rewrite <- (take_drop_middle bl i b Hb) in Hnd. apply NoDup_app in Hnd as (_ & _ & Hnd).
    by apply NoDup_cons in Hnd as [Hnd _]. }
  split_and!; [apply counts_pins| |].
  - intros n Hn. unfold pins at 2. rewrite fmap_cons, list_to_map_cons, lookup_insert_ne by done. done.
  - rewrite (pins_none (drop (S i) bl)), (pins_some (b :: drop (S i) bl)) by set_solver. done.
Qed.

Definition leaks (bl : list Z) : gmap Z Z := list_to_map ((λ b, (b, 2 ^ 32 - 1)) <$> bl).

Lemma leaks_lookup bl b k : leaks bl !! b = Some k ↔ b ∈ bl ∧ k = 2 ^ 32 - 1.
Proof.
  unfold leaks. induction bl as [|x bl IH]; simpl; [rewrite lookup_empty; set_solver|].
  destruct (decide (b = x)) as [->|Hne].
  - rewrite lookup_insert_eq. set_solver.
  - rewrite lookup_insert_ne, IH by done. set_solver.
Qed.

Lemma leaks_none bl b : b ∉ bl → leaks bl !! b = None.
Proof. intros H. apply eq_None_not_Some. intros [k Hk]. apply leaks_lookup in Hk. naive_solver. Qed.

Lemma size_leaks bl : (size (leaks bl) ≤ length bl)%nat.
Proof.
  induction bl as [|x bl IH]; [done|]. unfold leaks in *.
  rewrite fmap_cons, list_to_map_cons, map_size_insert. cbn [length].
  destruct (_ !! x); unfold id; lia.
Qed.

Lemma unpinned_take bl i b :
  NoDup bl → bl !! i = Some b → unpinned (leaks (take i bl)) (leaks (take (S i) bl)) b.
Proof.
  intros Hnd Hb. rewrite (take_S_r bl i b Hb).
  assert (Hnin : b ∉ take i bl).
  { rewrite <- (take_drop_middle bl i b Hb) in Hnd. apply NoDup_app in Hnd as (_ & Hnd & _).
    intros Hx. apply (Hnd b Hx). set_solver. }
  split_and!.
  - intros n k Hk. apply leaks_lookup in Hk as [_ ->]. lia.
  - intros n Hn. apply option_eq. intros k. rewrite !leaks_lookup. set_solver.
  - rewrite (leaks_none (take i bl)) by done.
    assert (E : leaks (take i bl ++ [b]) !! b = Some (2 ^ 32 - 1)) by (apply leaks_lookup; set_solver).
    by rewrite E.
Qed.

(** ** The header block *)

Lemma put_blocks_spec n i lg d :
  4 + 4 * Z.of_nat (i + n) ≤ Z.of_nat (length d) →
  length (put_blocks n i lg d) = length d ∧
  (∀ o, 0 ≤ o → o + 4 ≤ 4 + 4 * Z.of_nat i → get32 o (put_blocks n i lg d) = get32 o d) ∧
  (∀ k, (i ≤ k < i + n)%nat → get32 (4 + 4 * Z.of_nat k) (put_blocks n i lg d) = u32 (lh_at k lg)).
Proof.
  revert i d. induction n as [|n IH]; intros i d Hlen; simpl; [split_and!; [done|done|lia]|].
  set (d1 := put32 (4 + 4 * Z.of_nat i) (lh_at i lg) d).
  assert (Hl1 : length d1 = length d) by (apply length_put32; lia).
  destruct (IH (S i) d1) as (H1 & H2 & H3); [lia|]. split_and!.
  - congruence.
  - intros o Ho1 Ho2. rewrite H2 by lia. apply get32_put32_ne; lia.
  - intros k Hk. destruct (decide (k = i)) as [->|]; [|apply H3; lia].
    rewrite H2 by lia. apply get32_put32; lia.
Qed.

Lemma put_header_spec lg d :
  log_ok lg → length d = 1024%nat →
  length (put_header lg d) = 1024%nat ∧ get32 0 (put_header lg d) = lh_n lg ∧
  ∀ k, (k < Z.to_nat (lh_n lg))%nat → get32 (4 + 4 * Z.of_nat k) (put_header lg d) = lh_at k lg.
Proof.
  intros Hlo Hd. pose proof (lo_n _ Hlo) as Hn. unfold put_header.
  set (d1 := put32 0 (lh_n lg) d).
  assert (Hl1 : length d1 = 1024%nat) by (unfold d1; rewrite length_put32; lia).
  destruct (put_blocks_spec (Z.to_nat (lh_n lg)) 0 lg d1) as (H1 & H2 & H3); [consts; lia|].
  split_and!; [congruence| |].
  - rewrite H2 by lia. unfold d1. rewrite get32_put32 by lia. apply Z.mod_small. consts. lia.
  - intros k Hk. rewrite H3 by lia. apply u32_small. change (2 ^ 32) with (2 * 2 ^ 31).
    pose proof (logged_at lg k Hlo Hk) as Hb. apply list_elem_of_lookup_2 in Hb.
    destruct (proj1 (Forall_forall _ _) (lo_range _ Hlo) _ Hb) as [Hr _]. lia.
Qed.

(** ** [commit] *)

Definition empty_log (lg : log) : log := set_lh_n 0 lg.

Lemma empty_log_ok lg : log_ok lg → log_ok (empty_log lg).
Proof.
  intros [H1 H2 H3 H4 H5 H6]. split; cbn [lg_dev lg_start lh_n lh_block empty_log set_lh_n]; done || constructor.
Qed.

Lemma frame_set_log lg s t : frame scratch s t → frame scratch (set_k_log lg s) (set_k_log lg t).
Proof.
  intros (E & Hp & Hm & Hs). split_and!; [|done|done|done]. unfold core in *. ksimpl.
  injection E as -> -> -> -> -> -> -> _ -> -> -> -> -> -> -> -> -> ->. done.
Qed.

Lemma cinv_set_log p l H P lg s : cinv p l H P s → cinv p l H P (set_k_log lg s).
Proof.
  intros Hi. apply (cinv_ext p l H P s); try done. apply (quiet_eq p s); [done|done|apply (ci_quiet _ _ _ _ _ Hi)].
Qed.

(** The writes of a commit of the blocks [bl] with contents [ds], where the header
    block was [h]. *)
Definition commit_writes (lg : log) (h : list Z) (ds : list (list Z)) : list (Z * list Z) :=
  let st := lg_start lg in
  let h1 := put_header lg h in
  log_writes st ds ++ [(st, h1)] ++ zip (logged lg) ds ++ [(st, put_header (empty_log lg) h1)].

Definition commit_post p (s s' : kstate) : Prop :=
  let lg := k_log s in
  let ws := commit_writes lg (blk s (lg_start lg)) (blk s <$> logged lg) in
  (∃ l', cinv p l' ∅ ∅ s') ∧ frame scratch (set_k_log (empty_log lg) s) s' ∧
  k_disk s' = apply_writes ws (k_disk s) ∧ k_dwrites s' = k_dwrites s ++ ws ∧
  ∀ m, blk s' m = default (blk s m) (apply_writes ws ∅ !! m).

Lemma pins_bound lg : log_ok lg → (size (pins (logged lg)) < NBUF)%nat.
Proof.
  intros Hlo. pose proof (size_pins (logged lg)). rewrite logged_length in * by done.
  pose proof (lo_n _ Hlo). unfold NBUF. consts. lia.
Qed.

Lemma pins_no_log lg m : log_ok lg → in_log (lg_start lg) m → ∀ k, pins (drop k (logged lg)) !! m = None.
Proof.
  intros Hlo Hm k. apply pins_none. intros Hx.
  assert (Hx' : m ∈ logged lg) by (rewrite <- (take_drop k (logged lg)); set_solver).
  by destruct (proj1 (Forall_forall _ _) (lo_range _ Hlo) _ Hx') as [_ Hy].
Qed.

Lemma log_writes_at st ds (i : nat) d :
  ds !! i = Some d → apply_writes (log_writes st ds) ∅ !! (st + Z.of_nat i + 1) = Some d.
Proof.
  intros Hd. apply (apply_writes_hit _ _ i).
  - apply NoDup_alt. intros a b x Ha Hb. unfold log_writes in *. rewrite fmap_imap in Ha, Hb.
    apply list_lookup_imap_Some in Ha as (? & _ & ->), Hb as (? & _ & E). simpl in E. lia.
  - unfold log_writes. by rewrite list_lookup_imap, Hd.
Qed.

Lemma log_writes_nohit st ds m D : ¬ (st + 1 ≤ m < st + 1 + Z.of_nat (length ds)) →
  apply_writes (log_writes st ds) D !! m = D !! m.
Proof. intros Hm. apply apply_writes_other. by rewrite log_writes_keys. Qed.

Lemma install_zip st (f : Z → list Z) bl (ds : list (list Z)) :
  length ds = length bl → (∀ (i : nat) d, ds !! i = Some d → f (st + Z.of_nat i + 1) = d) →
  install_writes st f bl = zip bl ds.
Proof.
  intros Hl Hf. apply list_eq. intros i. unfold install_writes. rewrite list_lookup_imap.
  destruct (bl !! i) as [b|] eqn:Hb; simpl.
  - destruct (lookup_lt_is_Some_2 ds i) as [d Hd]; [rewrite Hl; by eapply lookup_lt_Some|].
    symmetry. rewrite lookup_zip_with, Hb. simpl. rewrite Hd. simpl. by rewrite (Hf i d Hd).
  - symmetry. by rewrite lookup_zip_with, Hb.
Qed.

(** The part of a commit up to the erasure of the header. *)
Lemma commit_first p l s :
  log_ok (k_log s) → cinv p l ∅ (pins (logged (k_log s))) s →
  let lg := k_log s in let ds := blk s <$> logged lg in
  wp (write_log ;;; write_head ;;; install_trans) (λ _ s', wrote_list p ∅
    (log_writes (lg_start lg) ds ++ [(lg_start lg, put_header lg (blk s (lg_start lg)))] ++ zip (logged lg) ds) s s') s.
Proof.
  intros Hlo Hi lg ds. pose proof (pins_bound _ Hlo) as Hsz.
  destruct (lo_start _ Hlo) as [Hst1 Hst2]. pose proof (lo_n _ Hlo) as Hn. fold lg in Hn, Hst1, Hst2.
  assert (Hin : in_log (lg_start lg) (lg_start lg)) by (unfold in_log; consts; lia).
  assert (Hlen : length ds = Z.to_nat (lh_n lg)) by (unfold ds; rewrite length_fmap; by apply logged_length).
  assert (Hbl : ∀ t m, (∃ l' P, cinv p l' ∅ P t) → length (blk t m) = 1024%nat)
    by (intros t m (l' & P & Ht); by apply (blk_len p l' ∅ P)).
  rewrite wp_bind. eapply wp_mono; [by apply (write_log_spec p l)|]. fold lg ds.
  intros [] t H1. pose proof H1 as ((l1 & Hi1) & Hf1 & _ & _ & Hb1). pose proof (frame_log _ _ _ Hf1) as El1. fold lg in El1.
  assert (Eh : blk t (lg_start lg) = blk s (lg_start lg))
    by (rewrite Hb1, log_writes_nohit, lookup_empty by lia; done).
  rewrite wp_bind. eapply wp_mono; [apply (write_head_spec p l1 _ t Hi1); rewrite ?El1|].
  { done. }
  { apply (lo_dev _ Hlo). }
  { consts. lia. }
  { apply (pins_no_log lg _ Hlo Hin 0). }
  { apply put_header_spec; [done|]. apply Hbl. eauto. }
  rewrite El1, Eh. intros [] u H2. pose proof (wrote_snoc _ _ _ _ _ _ _ _ _ H1 H2) as H12.
  pose proof H12 as ((l2 & Hi2) & Hf2 & _ & _ & Hb2). pose proof (frame_log _ _ _ Hf2) as El2. fold lg in El2.
  eapply wp_mono.
  { apply (install_trans_spec p l2 (λ i, pins (drop i (logged lg))) u); rewrite ?El2; [done|done|].
    intros i b Hb. split_and!; [apply unpinned_drop; [apply (lo_nodup _ Hlo)|done]| |by intros m Hm; apply pins_no_log|].
    - pose proof (size_pins (drop i (logged lg))) as Hs. rewrite length_drop, (logged_length lg Hlo) in Hs.
      unfold NBUF. consts. lia.
    - left. rewrite pins_some; [done|]. rewrite (drop_S _ _ _ Hb). set_solver. }
  rewrite El2, drop_all. intros [] v H3. change (pins []) with (∅ : gmap Z Z) in H3.
  rewrite (install_zip (lg_start lg) (blk u) (logged lg) ds) in H3.
  - rewrite app_assoc. by eapply wrote_app.
  - rewrite Hlen. by rewrite logged_length.
  - intros i d Hd. pose proof (lookup_lt_Some _ _ _ Hd). rewrite Hb2, apply_writes_app. simpl.
    rewrite lookup_insert_ne by lia. by rewrite (log_writes_at _ _ _ _ Hd).
Qed.

Lemma commit_spec p l s :
  log_ok (k_log s) → cinv p l ∅ (pins (logged (k_log s))) s → 0 < lh_n (k_log s) →
  wp commit (λ _ s', commit_post p s s') s.
Proof.
  intros Hlo Hi Hn. set (lg := k_log s). pose proof (empty_log_ok lg Hlo) as Hlo'.
  destruct (lo_start _ Hlo) as [Hst1 Hst2]. pose proof (commit_first p l s Hlo Hi) as HC. cbv zeta in HC.
  unfold commit. rewrite wp_bind, wp_gets. fold lg in HC, Hst1, Hst2, Hn |- *.
  replace (0 <? lh_n lg) with true by (symmetry; apply Z.ltb_lt; done). change (@when kstate true) with (λ c : K unit, c). cbv beta.
  rewrite wp_bind in HC |- *. eapply wp_mono; [exact HC|]. clear HC. intros [] s1 HC. cbv beta in HC.
  rewrite wp_bind in HC |- *. eapply wp_mono; [exact HC|]. clear HC. intros [] s2 HC. cbv beta in HC.
  rewrite wp_bind. eapply wp_mono; [exact HC|]. clear HC. intros [] t HC.
  destruct HC as ((l1 & Hi1) & Hf1 & Ed1 & Ew1 & Hb1).
  rewrite wp_bind. unfold upd_log. rewrite wp_modify, (frame_log _ _ _ Hf1). fold lg. fold (empty_log lg).
  set (t' := set_k_log (empty_log lg) t).
  assert (Hbt : ∀ m, blk t' m = blk t m) by (intros m; reflexivity).
  assert (Eh : blk t (lg_start lg) = put_header lg (blk s (lg_start lg))).
  { rewrite Hb1, app_assoc, apply_writes_app, apply_writes_other.
    - rewrite apply_writes_app. simpl. by rewrite lookup_insert_eq.
    - rewrite fst_zip by (by rewrite length_fmap). intros Hx.
      destruct (proj1 (Forall_forall _ _) (lo_range _ Hlo) _ Hx) as [_ Hy]. apply Hy. unfold in_log. fold lg. consts. lia. }
  eapply wp_mono.
  { apply (write_head_spec p l1 ∅ t'); [by apply cinv_set_log| | | | |].
    - unfold NBUF. rewrite map_size_empty. lia.
    - apply (lo_dev _ Hlo').
    - unfold t'. ksimpl. cbn [empty_log set_lh_n lg_start]. consts. lia.
    - apply lookup_empty.
    - apply (put_header_spec (empty_log lg) _ Hlo'). rewrite Hbt. by apply (blk_len p l1 ∅ ∅). }
  intros [] u (Hi2 & Hf2 & Ed2 & Ew2 & Hb2). rewrite Hbt in Ed2, Ew2. 
  change (lg_start (k_log t')) with (lg_start lg) in *. change (k_log t') with (empty_log lg) in *. rewrite Eh in Ed2, Ew2.
  unfold commit_post. fold lg. cbv zeta. split_and!.
  - done.
  - etrans; [|exact Hf2]. by apply frame_set_log.
  - rewrite Ed2. change (k_disk t') with (k_disk t). rewrite Ed1. unfold commit_writes. by rewrite !app_assoc, (apply_writes_app _ [_]).
  - rewrite Ew2. change (k_dwrites t') with (k_dwrites t). rewrite Ew1. unfold commit_writes. by rewrite <- !app_assoc.
  - intros m. rewrite Hb2, !Hbt, Eh, Hb1. unfold commit_writes. rewrite !app_assoc, (apply_writes_app _ [_]). cbn [apply_writes foldl fst snd].
    case_decide as E; [subst; by rewrite lookup_insert_eq|by rewrite lookup_insert_ne].
Qed.

(** ** Recovery *)

(** The header on disk. *)
Definition hdr_n (st : Z) (D : disk_t) : Z := i32 (get32 0 (at_ D st)).
Definition hdr_blocks (st : Z) (D : disk_t) : list Z :=
  (λ i, get32 (4 + 4 * Z.of_nat i) (at_ D st)) <$> seq 0 (Z.to_nat (hdr_n st D)).

(** What recovery does to a disk. *)
Definition recover_writes (st : Z) (D : disk_t) : list (Z * list Z) :=
  install_writes st (at_ D) (hdr_blocks st D) ++ [(st, put32 0 0 (at_ D st))].
Definition recover_disk (st : Z) (D : disk_t) : disk_t := apply_writes (recover_writes st D) D.

Record hdr_ok (st : Z) (D : disk_t) : Prop := mkhdr_ok {
  ho_n : 0 ≤ hdr_n st D < LOGSIZE;
  ho_nodup : NoDup (hdr_blocks st D);
  ho_range : Forall (λ b, 0 ≤ b < 2 ^ 31 ∧ ¬ in_log st b) (hdr_blocks st D)
}.

(** The log as [initlog] has it before recovery. *)
Definition log_booted (lg : log) : Prop :=
  lg_dev lg = ROOTDEV ∧ (0 ≤ lg_start lg ∧ lg_start lg + LOGSIZE < 2 ^ 31) ∧ length (lh_block lg) = 30%nat.

(** [lg'] is [lg] with a header read from [D]. *)
Definition header_read (D : disk_t) (lg lg' : log) : Prop :=
  lh_n lg' = hdr_n (lg_start lg) D ∧ logged lg' = hdr_blocks (lg_start lg) D ∧
  length (lh_block lg') = 30%nat ∧
  (lg_start lg', lg_size lg', lg_outstanding lg', lg_committing lg', lg_dev lg')
  = (lg_start lg, lg_size lg, lg_outstanding lg, lg_committing lg, lg_dev lg).

Lemma header_read_ok D lg lg' :
  log_booted lg → hdr_ok (lg_start lg) D → header_read D lg lg' → log_ok lg' ∧ lg_start lg' = lg_start lg.
Proof.
  intros (H1 & H2 & _) [H3 H4 H5] (E1 & E2 & E3 & [= E4 _ _ _ E5]).
  split; [|done]. by split; rewrite ?E1, ?E2, ?E4, ?E5.
Qed.

Lemma blk_disk p l n s : cinv p l ∅ ∅ s → blk s n = at_ (k_disk s) n.
Proof. intros Hi. rewrite (blk_clean p l ∅ ∅); [done|done|apply lookup_empty|set_solver]. Qed.

Lemma read_loop (n : nat) data lg s :
  (n ≤ 30)%nat → k_log s = lg → length (lh_block lg) = 30%nat →
  wp (for_ (R := unit) n 0 (λ i,
        upd_log (λ lg, set_lh_block (<[i := get32 (4 + 4 * Z.of_nat i) data]> (lh_block lg)) lg) ;;;
        ret None))
    (λ _ t, ∃ bl, t = set_k_log (set_lh_block bl lg) s ∧ length bl = 30%nat ∧
       take n bl = (λ i, get32 (4 + 4 * Z.of_nat i) data) <$> seq 0 n) s.
Proof.
  intros Hn Elg Hlen.
  apply (wp_for n 0 _ (λ i t, ∃ bl, t = set_k_log (set_lh_block bl lg) s ∧ length bl = 30%nat ∧
    take i bl = (λ i, get32 (4 + 4 * Z.of_nat i) data) <$> seq 0 i)).
  - exists (lh_block lg). split_and!; [|done|done]. destruct s, lg. simpl in Elg. by rewrite Elg.
  - intros i t Hi (bl & -> & Hbl & Et). rewrite wp_bind. unfold upd_log. rewrite wp_modify, wp_ret.
    exists (<[i := get32 (4 + 4 * Z.of_nat i) data]> bl). split_and!.
    + done.
    + by rewrite length_insert.
    + rewrite (take_S_r _ _ (get32 (4 + 4 * Z.of_nat i) data)) by (apply list_lookup_insert_eq; lia).
      by rewrite take_insert_ge, Et, seq_S, fmap_app by lia.
  - intros t Ht. exact Ht.
Qed.

Lemma read_head_spec p l s :
  cinv p l ∅ ∅ s → log_booted (k_log s) → hdr_ok (lg_start (k_log s)) (k_disk s) →
  wp read_head (λ _ s', ∃ lg' l', header_read (k_disk s) (k_log s) lg' ∧ cinv p l' ∅ ∅ s' ∧
    frame scratch (set_k_log lg' s) s' ∧ k_disk s' = k_disk s ∧ k_dwrites s' = k_dwrites s) s.
Proof.
  intros Hi (Hdev & Hst & Hlen) [Hn _ _]. set (lg := k_log s) in *. set (st := lg_start lg) in *.
  unfold read_head. rewrite wp_bind, wp_gets, wp_bind. fold lg st. rewrite Hdev, u32_small by (consts; lia).
  eapply wp_mono; [apply (bread_first p l ∅); [done|consts; lia|rewrite map_size_empty; unfold NBUF; lia]|].
  intros b s1 (Hlt & _ & Hi1 & Hc1 & Hd1 & Hb1 & Ho1 & Ed1 & Ew1 & Hf1). rewrite union_empty_r_L in Hi1.
  rewrite wp_bind. eapply wp_ok; [apply get_buf_eq|]. rewrite Hd1, (blk_disk p l) by done.
  set (data := at_ (k_disk s) st). change (i32 (get32 0 data)) with (hdr_n st (k_disk s)).
  set (n := hdr_n st (k_disk s)) in *.
  rewrite wp_bind. unfold upd_log at 1. rewrite wp_modify, (frame_log _ _ _ Hf1). fold lg.
  rewrite wp_bind, wp_gets. ksimpl. cbn [lh_n set_lh_n]. rewrite wp_bind.
  eapply wp_mono; [apply (read_loop _ data (set_lh_n n lg)); [consts; lia|done|done]|].
  intros r t (bl & -> & Hbl & Et). set (lg' := set_lh_block bl (set_lh_n n lg)) in *.
  set (t := set_k_log _ _).
  assert (Hft : frame scratch (set_k_log lg' s1) t) by (by split_and!).
  eapply wp_mono.
  { apply (brelse_spec p l {[b]} ∅ b); [|set_solver|].
    - apply (cinv_ext p l _ _ s1); try done.
      apply (quiet_eq p s1); [done|done|apply (ci_quiet _ _ _ _ _ Hi1)].
    - right. unfold t, disk_block. ksimpl. rewrite (proj2 Hc1), Ed1, Hd1. by apply (blk_disk p l). }
  intros [] u ((l' & Hi2) & Hf2 & Ed2 & Ew2 & Hb2 & _). exists lg', l'.
  assert (EH : {[b]} ∖ {[b]} = ∅ :> gset nat) by set_solver. rewrite EH in Hi2. split_and!.
  - by split_and!.
  - done.
  - etrans; [|exact Hf2]. etrans; [|exact Hft]. by apply frame_set_log.
  - rewrite Ed2. unfold t. ksimpl. done.
  - rewrite Ew2. unfold t. ksimpl. done.
Qed.

Definition recover_post p (s s' : kstate) : Prop :=
  let st := lg_start (k_log s) in let D := k_disk s in
  (∃ l', cinv p l' ∅ (leaks (hdr_blocks st D)) s') ∧
  k_disk s' = recover_disk st D ∧ k_dwrites s' = k_dwrites s ++ recover_writes st D ∧
  (∃ lg', header_read D (k_log s) lg' ∧ k_log s' = empty_log lg').

Lemma recover_spec p l s :
  cinv p l ∅ ∅ s → log_booted (k_log s) → hdr_ok (lg_start (k_log s)) (k_disk s) →
  wp recover_from_log (λ _ s', recover_post p s s') s.
Proof.
  intros Hi Hlb Hho. unfold recover_post. set (st := lg_start (k_log s)) in *. set (D := k_disk s) in *.
  cbv zeta. set (bl := hdr_blocks st D).
  unfold recover_from_log. rewrite wp_bind. eapply wp_mono; [by apply (read_head_spec p l)|].
  intros [] s1 (lg & l1 & Hhr & Hi1 & Hf1 & Ed1 & Ew1). fold D in Hhr, Ed1.
  destruct (header_read_ok D _ lg Hlb Hho Hhr) as [Hlo Est]. fold st in Est.
  pose proof (frame_log _ _ _ Hf1) as El1. ksimpl_in El1.
  assert (Ebl : logged lg = bl) by apply Hhr.
  assert (Hlen : (length bl < 30)%nat) by (rewrite <- Ebl, logged_length by done; pose proof (lo_n _ Hlo); consts; lia).
  assert (Hno : ∀ m k, in_log st m → leaks (take k bl) !! m = None).
  { intros m k Hm. apply leaks_none. intros Hx.
    assert (Hx' : m ∈ bl) by (rewrite <- (take_drop k bl); set_solver).
    destruct (proj1 (Forall_forall _ _) (ho_range _ _ Hho) _ Hx') as [_ Hy]. by apply Hy. }
  rewrite wp_bind. eapply wp_mono.
  { apply (install_trans_spec p l1 (λ i, leaks (take i bl)) s1); rewrite ?El1, ?Ebl, ?Est; [done|done|].
    intros i b Hb. pose proof (lookup_lt_Some _ _ _ Hb).
    assert (Hsz : (size (leaks (take i bl)) ≤ i)%nat)
      by (pose proof (size_leaks (take i bl)); rewrite length_take in *; lia).
    split_and!; [apply unpinned_take; [apply (ho_nodup _ _ Hho)|done]|unfold NBUF; lia|by intros m; apply Hno|].
    right. unfold NBUF. lia. }
  rewrite El1, Ebl, Est, take_ge by done. intros [] t ((l2 & Hi2) & Hf2 & Ed2 & Ew2 & Hb2).
  assert (Ef : install_writes st (blk s1) bl = install_writes st (at_ D) bl).
  { unfold install_writes. apply imap_ext. intros i b _. by rewrite (blk_disk p l1), Ed1 by done. }
  rewrite Ef in *. pose proof (frame_log _ _ _ Hf2) as El2. rewrite El1 in El2.
  rewrite wp_bind. unfold upd_log. rewrite wp_modify, El2. fold (empty_log lg). set (t' := set_k_log (empty_log lg) t).
  assert (Hin : in_log st st) by (unfold in_log; consts; lia).
  assert (Eh : blk t' st = at_ D st).
  { change (blk t' st) with (blk t st). rewrite Hb2, apply_writes_other, lookup_empty.
    - simpl. by rewrite (blk_disk p l1), Ed1.
    - rewrite install_writes_keys. intros Hx.
      destruct (proj1 (Forall_forall _ _) (ho_range _ _ Hho) _ Hx) as [_ Hy]. by apply Hy. }
  destruct (lo_start _ (empty_log_ok _ Hlo)) as [Hst1 Hst2]. 
  eapply wp_mono.
  { apply (write_head_spec p l2 (leaks bl) t'); [by apply cinv_set_log| |apply (lo_dev _ (empty_log_ok _ Hlo))|..];
      change (k_log t') with (empty_log lg) in *.
    - pose proof (size_leaks bl). unfold NBUF. lia.
    - consts. lia.
    - change (lg_start (empty_log lg)) with (lg_start lg). rewrite Est. rewrite <- (take_ge bl (length bl)) by done. by apply Hno.
    - apply put_header_spec; [by apply empty_log_ok|]. apply (blk_len p l2 ∅ (leaks bl)). by apply cinv_set_log. }
  change (k_log t') with (empty_log lg). change (lg_start (empty_log lg)) with (lg_start lg). rewrite Est, Eh.
  intros [] u (Hi3 & Hf3 & Ed3 & Ew3 & _). unfold recover_disk, recover_writes. fold bl.
  change (put_header (empty_log lg) (at_ D st)) with (put32 0 0 (at_ D st)) in *. split_and!.
  - done.
  - rewrite Ed3. change (k_disk t') with (k_disk t). by rewrite Ed2, Ed1, apply_writes_app.
  - rewrite Ew3. change (k_dwrites t') with (k_dwrites t). by rewrite Ew2, Ew1, app_assoc.
  - exists lg. split; [done|]. by rewrite (frame_log _ _ _ Hf3).
Qed.

(** ** Crashes *)

(** The disks agree outside the log. *)
Definition outside (st : Z) (D D' : disk_t) : Prop := ∀ m, ¬ in_log st m → at_ D m = at_ D' m.

Lemma recover_nothing st D : hdr_n st D = 0 → hdr_ok st D ∧ outside st (recover_disk st D) D.
Proof.
  intros E. assert (Eb : hdr_blocks st D = []) by (unfold hdr_blocks; by rewrite E). split.
  - split; rewrite ?E, ?Eb; [consts; lia|constructor|constructor].
  - intros m Hm. unfold recover_disk, recover_writes, at_. rewrite Eb. simpl.
    rewrite lookup_insert_ne; [done|]. intros <-. apply Hm. unfold in_log. consts. lia.
Qed.

(** The keys of the writes of a commit. *)
Lemma commit_keys lg h ds m :
  log_ok lg → length ds = length (logged lg) → ¬ in_log (lg_start lg) m → m ∉ logged lg →
  m ∉ (commit_writes lg h ds).*1.
Proof.
  intros Hlo Hl Hm Hb. pose proof (lo_n _ Hlo). pose proof (logged_length lg Hlo). unfold in_log in Hm.
  unfold commit_writes. rewrite !fmap_app, fst_zip by lia. cbn [fmap list_fmap fst].
  rewrite !not_elem_of_app, !list_elem_of_singleton, log_writes_keys. consts. split_and!; [lia|lia|done|lia].
Qed.

Section crash.
Context (lg : log) (h : list Z) (ds : list (list Z)) (D : disk_t).
Context (Hlo : log_ok lg) (Hds : length ds = length (logged lg)).
Let st := lg_start lg.
Let n := length (logged lg).
Let W := commit_writes lg h ds.
Let h1 := put_header lg h.

Lemma crash_nlog : Z.of_nat n = lh_n lg ∧ (n < 30)%nat.
Proof. unfold n. rewrite (logged_length lg Hlo). pose proof (lo_n _ Hlo). consts. lia. Qed.

Lemma st_not_logged : st ∉ logged lg.
Proof.
  intros Hx. destruct (proj1 (Forall_forall _ _) (lo_range _ Hlo) _ Hx) as [_ Hy]. apply Hy.
  unfold in_log. consts. fold st. lia.
Qed.

(** A crash before the header is written. *)
Lemma crash_before k : (k ≤ n)%nat →
  let Dk := apply_writes (take k W) D in at_ Dk st = at_ D st ∧ outside st Dk D.
Proof.
  intros Hk. destruct crash_nlog as [_ Hn].
  assert (Ew : take k W = take k (log_writes st ds)).
  { unfold W, commit_writes. rewrite take_app_le; [done|]. unfold log_writes. rewrite length_imap, Hds. done. }
  assert (Hout : ∀ m, m ∉ (log_writes st ds).*1 → at_ (apply_writes (take k W) D) m = at_ D m).
  { intros m Hm. unfold at_. rewrite Ew, apply_writes_other; [done|]. by intros ?%take_keys. }
  split; [apply Hout|intros m Hm; apply Hout]; rewrite log_writes_keys, Hds; fold n; [lia|].
  unfold in_log in Hm. consts. lia.
Qed.

(** A crash after the header is written, while the blocks are installed. *)
Lemma crash_middle k : (n < k ≤ 2 * n + 1)%nat →
  let Dk := apply_writes (take k W) D in
  at_ Dk st = h1 ∧ ∀ (i : nat) d, ds !! i = Some d → at_ Dk (st + Z.of_nat i + 1) = d.
Proof.
  intros Hk Dk. destruct crash_nlog as [_ Hn].
  assert (Ew : take k W = log_writes st ds ++ [(st, h1)] ++ take (k - n - 1) (zip (logged lg) ds)).
  { assert (Ll : length (log_writes st ds) = n) by (unfold log_writes; by rewrite length_imap, Hds).
    unfold W, commit_writes. fold st h1. rewrite take_app_ge, Ll by lia. f_equal.
    destruct (k - n)%nat as [|j] eqn:Ej; [lia|]. simpl. rewrite Nat.sub_0_r. f_equal.
    rewrite take_app_le; [done|]. rewrite length_zip_with. lia. }
  assert (Hnz : ∀ m, in_log st m → m ∉ (take (k - n - 1) (zip (logged lg) ds)).*1).
  { intros m Hm Hx%take_keys. rewrite fst_zip in Hx by lia.
    destruct (proj1 (Forall_forall _ _) (lo_range _ Hlo) _ Hx) as [_ Hy]. by apply Hy. }
  split.
  - unfold Dk, at_. rewrite Ew, !apply_writes_app, apply_writes_other by (apply Hnz; unfold in_log; consts; lia).
    simpl. by rewrite lookup_insert_eq.
  - intros i d Hd. pose proof (lookup_lt_Some _ _ _ Hd).
    unfold Dk, at_. rewrite Ew, !apply_writes_app, apply_writes_other by (apply Hnz; unfold in_log; consts; lia).
    simpl. rewrite lookup_insert_ne, apply_writes_lookup, (log_writes_at _ _ _ _ Hd) by lia. done.
Qed.

(** A crash after the header is erased, or none. *)
Lemma crash_after k : (2 * n + 1 < k)%nat →
  let Dk := apply_writes (take k W) D in
  at_ Dk st = put_header (empty_log lg) h1 ∧ ∀ m, m ∈ logged lg → Dk !! m = apply_writes (zip (logged lg) ds) D !! m.
Proof.
  intros Hk Dk. unfold Dk. rewrite take_ge.
  2:{ unfold W, commit_writes, log_writes. rewrite !length_app, length_imap, length_zip_with. simpl. lia. }
  unfold W, commit_writes. fold st h1. rewrite !app_assoc, apply_writes_app. simpl. split.
  - unfold at_. by rewrite lookup_insert_eq.
  - intros m Hm. pose proof st_not_logged. rewrite lookup_insert_ne by (intros ->; done).
    rewrite apply_writes_app. apply apply_writes_in. by rewrite fst_zip by lia.
Qed.
End crash.

Lemma put_header_hdr lg h D :
  log_ok lg → length h = 1024%nat → at_ D (lg_start lg) = put_header lg h →
  hdr_n (lg_start lg) D = lh_n lg ∧ hdr_blocks (lg_start lg) D = logged lg.
Proof.
  intros Hlo Hh E. destruct (put_header_spec lg h Hlo Hh) as (_ & E0 & Ei). pose proof (lo_n _ Hlo).
  assert (En : hdr_n (lg_start lg) D = lh_n lg) by (unfold hdr_n; rewrite E, E0; apply i32_small; consts; lia).
  split; [done|]. unfold hdr_blocks. rewrite En, E. apply list_eq. intros i.
  rewrite list_lookup_fmap. destruct (decide (i < Z.to_nat (lh_n lg))%nat) as [Hi|Hi].
  - rewrite lookup_seq_lt by done. simpl. by rewrite Ei, (logged_at lg i Hlo Hi).
  - rewrite lookup_seq_ge by lia. simpl. symmetry. apply lookup_ge_None_2. rewrite logged_length by done. lia.
Qed.

(** Recovery of a disk whose header names the blocks [bl], with contents [ds] in
    the log. *)
Lemma recover_installs st D ds :
  length ds = length (hdr_blocks st D) →
  (∀ (i : nat) d, ds !! i = Some d → at_ D (st + Z.of_nat i + 1) = d) →
  outside st (recover_disk st D) (apply_writes (zip (hdr_blocks st D) ds) D).
Proof.
  intros Hl Hf m Hm. unfold recover_disk, recover_writes, at_ at 1.
  rewrite apply_writes_app. simpl. rewrite lookup_insert_ne by (intros <-; apply Hm; unfold in_log; consts; lia).
  by rewrite (install_zip st (at_ D) (hdr_blocks st D) ds Hl Hf).
Qed.

Lemma commit_prefix lg h ds D k :
  log_ok lg → length h = 1024%nat → length ds = length (logged lg) → hdr_n (lg_start lg) D = 0 →
  let Dk := apply_writes (take k (commit_writes lg h ds)) D in
  hdr_ok (lg_start lg) Dk ∧
  outside (lg_start lg) (recover_disk (lg_start lg) Dk)
    (if decide (k ≤ length (logged lg))%nat then D else apply_writes (zip (logged lg) ds) D).
Proof.
  intros Hlo Hh Hds HD Dk. set (n := length (logged lg)). set (st := lg_start lg) in *.
  assert (Hrest : ∀ m, ¬ in_log st m → m ∉ logged lg → Dk !! m = D !! m).
  { intros m Hm Hb. apply apply_writes_other. intros Hx%take_keys. by eapply commit_keys. }
  assert (Hnew : ∀ E, (∀ m, m ∈ logged lg → E !! m = apply_writes (zip (logged lg) ds) D !! m) →
    (∀ m, ¬ in_log st m → m ∉ logged lg → E !! m = D !! m) → outside st E (apply_writes (zip (logged lg) ds) D)).
  { intros E H1 H2 m Hm. unfold at_. destruct (decide (m ∈ logged lg)); [by rewrite H1|].
    rewrite H2, (apply_writes_other (zip _ _)) by (done || by rewrite fst_zip by lia). done. }
  destruct (decide (k ≤ n)%nat) as [Hk|Hk].
  - destruct (crash_before lg h ds D Hlo Hds k Hk) as [E1 E2].
    destruct (recover_nothing st Dk) as [Hr1 Hr2]; [unfold hdr_n; fold st Dk in E1; rewrite E1; exact HD|].
    split; [done|]. intros m Hm. rewrite (Hr2 m Hm). by apply E2.
  - destruct (decide (k ≤ 2 * n + 1)%nat) as [Hk2|Hk2].
    + destruct (crash_middle lg h ds D Hlo Hds k) as [E1 E2]; [unfold n in *; lia|].
      destruct (put_header_hdr lg h Dk Hlo Hh E1) as [Eh Eb]. fold st in Eh, Eb. split.
      * split; rewrite ?Eh, ?Eb; [apply (lo_n _ Hlo)|apply (lo_nodup _ Hlo)|apply (lo_range _ Hlo)].
      * intros m Hm. rewrite (recover_installs st Dk ds) by (done || by rewrite Eb). rewrite Eb.
        revert m Hm. apply Hnew.
        -- intros m Hm. apply apply_writes_in. by rewrite fst_zip by lia.
        -- intros m Hm Hb. rewrite apply_writes_other by (by rewrite fst_zip by lia). by apply Hrest.
    + destruct (crash_after lg h ds D Hlo Hds k) as [E1 E2]; [unfold n in *; lia|].
      destruct (put_header_hdr (empty_log lg) (put_header lg h) Dk) as [Eh _]; [by apply empty_log_ok|by apply put_header_spec|done|].
      destruct (recover_nothing st Dk) as [Hr1 Hr2]; [exact Eh|].
      split; [done|]. intros m Hm. rewrite (Hr2 m Hm). revert m Hm. by apply Hnew.
Qed.

(** A crash during recovery, after [j] of its writes, and recovery again. *)
Lemma recover_prefix st D j :
  hdr_ok st D → let Dj := apply_writes (take j (recover_writes st D)) D in
  hdr_ok st Dj ∧ outside st (recover_disk st Dj) (recover_disk st D).
Proof.
  intros Hho Dj. set (bl := hdr_blocks st D). set (W := install_writes st (at_ D) bl).
  assert (HW : length W = length bl) by (unfold W, install_writes; by rewrite length_imap).
  assert (Hbl : ∀ m, m ∈ bl → ¬ in_log st m)
    by (intros m Hx; by destruct (proj1 (Forall_forall _ _) (ho_range _ _ Hho) _ Hx)).
  destruct (decide (j ≤ length bl)%nat) as [Hj|Hj].
  - assert (Ew : take j (recover_writes st D) = take j W)
      by (unfold recover_writes; fold bl W; by rewrite take_app_le by lia).
    assert (Elog : ∀ m, in_log st m → at_ Dj m = at_ D m).
    { intros m Hm. unfold Dj, at_. rewrite Ew, apply_writes_other; [done|]. intros Hx%take_keys.
      unfold W in Hx. rewrite install_writes_keys in Hx. by apply (Hbl m). }
    assert (Hst : in_log st st) by (unfold in_log; consts; lia).
    assert (Eb : hdr_blocks st Dj = bl) by (unfold bl, hdr_blocks, hdr_n; by rewrite Elog).
    assert (En : hdr_n st Dj = hdr_n st D) by (unfold hdr_n; by rewrite Elog). split.
    + split; rewrite ?En, ?Eb; apply Hho.
    + assert (EW : install_writes st (at_ Dj) bl = W).
      { unfold W, install_writes. apply imap_ext. intros i b Hb. apply lookup_lt_Some in Hb as Hlt.
        rewrite Elog; [done|]. unfold in_log. pose proof (ho_n _ _ Hho).
        unfold bl, hdr_blocks in Hlt. rewrite length_fmap, length_seq in Hlt. lia. }
      intros m Hm. unfold recover_disk, recover_writes. rewrite Eb, EW. fold bl W. clearbody W. unfold at_. rewrite !apply_writes_app. simpl.
      rewrite !(lookup_insert_ne _ st m) by (intros <-; done). f_equal.
      destruct (decide (m ∈ W.*1)) as [Hx|Hx]; [by apply apply_writes_in|].
      rewrite !apply_writes_other; try done. unfold Dj. rewrite Ew. apply apply_writes_other. by intros ?%take_keys.
  - assert (Ew : Dj = recover_disk st D).
    { unfold Dj, recover_disk. rewrite take_ge; [done|]. unfold recover_writes. rewrite length_app. fold bl W. simpl. lia. }
    rewrite Ew. apply recover_nothing. unfold hdr_n, recover_disk, recover_writes.
    rewrite apply_writes_app. unfold at_ at 1. simpl. rewrite lookup_insert_eq. simpl.
    unfold get32, put32. simpl. done.
Qed.
End log.

(** ** Properties *)

Section properties.
Context {DD : DiskDriver} {DL : DiskLaws}.

(** A kernel that boots from the disk [D] and has read the superblock. *)
Definition booted (p : nat) (st : Z) (D : disk_t) (u : kstate) : Prop :=
  (∃ l, cinv p l ∅ ∅ u) ∧ log_booted (k_log u) ∧ lg_start (k_log u) = st ∧ k_disk u = D.

(** C1. Crash atomicity of [commit]: for a transaction that [log_write] has put
    together (its blocks pinned in the cache, distinct, outside the log) and a disk
    whose log header is empty, [commit] returns after a sequence [ws] of block
    writes, and whichever prefix of [ws] reached the disk before a crash, the next
    boot's [recover_from_log] leaves on every block outside the log the content
    before the transaction (when the crash came before the write of the header) or
    else the content the transaction gave it, for all its blocks at once. *)
Theorem commit_crash_atomic p l s :
  log_ok (k_log s) → cinv p l ∅ (pins (logged (k_log s))) s → 0 < lh_n (k_log s) →
  hdr_n (lg_start (k_log s)) (k_disk s) = 0 →
  wp commit (λ _ s', ∃ ws, k_dwrites s' = k_dwrites s ++ ws ∧ k_disk s' = apply_writes ws (k_disk s) ∧
    lh_n (k_log s') = 0 ∧ (∀ m, ¬ in_log (lg_start (k_log s)) m → blk s' m = blk s m) ∧
    ∀ k u, booted p (lg_start (k_log s)) (apply_writes (take k ws) (k_disk s)) u →
      wp recover_from_log (λ _ u', ∀ m, ¬ in_log (lg_start (k_log s)) m →
        at_ (k_disk u') m = if decide (k ≤ length (logged (k_log s)))%nat then at_ (k_disk s) m else blk s m) u) s.
Proof.
  intros Hlo Hi Hn HD. set (lg := k_log s) in *. set (st := lg_start lg) in *.
  eapply wp_mono; [by apply (commit_spec p l)|]. intros [] s' (_ & Hf & Ed & Ew & Hb). fold lg st in Ed, Ew, Hb, Hf.
  set (ds := blk s <$> logged lg) in *. set (ws := commit_writes lg (blk s st) ds) in *.
  assert (Hds : length ds = length (logged lg)) by (unfold ds; by rewrite length_fmap).
  assert (Hh : length (blk s st) = 1024%nat) by (by apply (blk_len p l ∅ _ s st Hi)).
  assert (Hnew : ∀ m, at_ (apply_writes (zip (logged lg) ds) (k_disk s)) m = blk s m).
  { intros m. unfold at_. destruct (decide (m ∈ logged lg)) as [Hm|Hm].
    - apply list_elem_of_lookup in Hm as [i Hm]. rewrite (apply_writes_hit _ _ i m (blk s m)); [done| |].
      + rewrite fst_zip by lia. apply (lo_nodup _ Hlo).
      + rewrite lookup_zip_with, Hm. unfold ds. by rewrite list_lookup_fmap, Hm.
    - rewrite apply_writes_other by (by rewrite fst_zip by lia).
      symmetry. apply (blk_clean p l ∅ _ m s Hi); [by apply pins_none|set_solver]. }
  exists ws. split_and!; [done|done|by rewrite (frame_log _ _ _ Hf)| |].
  - intros m Hm. rewrite Hb. destruct (decide (m ∈ logged lg)) as [Hx|Hx].
    + unfold ws, commit_writes. fold st. rewrite !app_assoc, apply_writes_app. simpl.
      rewrite lookup_insert_ne by (intros <-; apply Hm; unfold in_log; consts; lia).
      rewrite apply_writes_app.
      apply list_elem_of_lookup in Hx as [i Hx]. rewrite (apply_writes_hit _ _ i m (blk s m)); [done| |].
      * rewrite fst_zip by lia. apply (lo_nodup _ Hlo).
      * rewrite lookup_zip_with, Hx. unfold ds. by rewrite list_lookup_fmap, Hx.
    + rewrite apply_writes_other, lookup_empty; [done|]. by apply commit_keys.
  - intros k u ((lu & Hu) & Hlb & Est & Edu). fold st in Est.
    destruct (commit_prefix lg (blk s st) ds (k_disk s) k Hlo Hh Hds HD) as [Hho Hout].
    eapply wp_mono; [apply (recover_spec p lu u Hu Hlb); rewrite Est, Edu; exact Hho|].
    intros [] u' (_ & Eu & _). intros m Hm. rewrite Eu, Est, Edu. etrans; [exact (Hout m Hm)|]. by case_decide.
Qed.

(** C3. Recovery is idempotent: if the machine crashes again while
    [recover_from_log] runs, after any prefix of its own block writes, the next
    recovery still ends with the disk that the first one was about to leave, on
    every block outside the log. *)
Theorem recovery_idempotent p st D u :
  booted p st D u → hdr_ok st D →
  wp recover_from_log (λ _ u', ∃ rs, k_dwrites u' = k_dwrites u ++ rs ∧ k_disk u' = apply_writes rs D ∧
    ∀ j v, booted p st (apply_writes (take j rs) D) v →
      wp recover_from_log (λ _ v', ∀ m, ¬ in_log st m → at_ (k_disk v') m = at_ (k_disk u') m) v) u.
Proof.
  intros ((lu & Hu) & Hlb & Est & Edu) Hho.
  eapply wp_mono; [apply (recover_spec p lu u Hu Hlb); by rewrite Est, Edu|].
  intros [] u' (_ & Eu & Ewu & _). rewrite Est, Edu in *.
  exists (recover_writes st D). split_and!; [done|done|].
  intros j v ((lv & Hv) & Hlv & Esv & Edv). destruct (recover_prefix st D j Hho) as [Hho' Hout].
  eapply wp_mono; [apply (recover_spec p lv v Hv Hlv); rewrite Esv, Edv; exact Hho'|].
  intros [] v' (_ & Ev & _) m Hm. rewrite Ev, Esv, Edv, Eu. by apply Hout.
Qed.

(** The reference leak of recovery: [install_trans] unpins every block it
    installs, but in recovery no [bpin] came before, so the buffer of each recovered
    block is left with the reference count [2^32 - 1]: [bget] can never recycle it,
    and after a recovery of 29 blocks one usable buffer is left. *)
Theorem recovery_leaks_buffers p st D u :
  booted p st D u → hdr_ok st D →
  wp recover_from_log (λ _ u', ∀ b, b ∈ hdr_blocks st D →
    ∃ i, (i < NBUF)%nat ∧ caches ROOTDEV b (nbuf i (k_bufs u')) ∧
         b_refcnt (nbuf i (k_bufs u')) = 2 ^ 32 - 1) u.
Proof.
  intros ((lu & Hu) & Hlb & Est & Edu) Hho.
  eapply wp_mono; [apply (recover_spec p lu u Hu Hlb); by rewrite Est, Edu|].
  intros [] u' ((l' & Hi) & _) b Hb. rewrite Est, Edu in Hi.
  assert (E : leaks (hdr_blocks st D) !! b = Some (2 ^ 32 - 1)) by (by apply leaks_lookup).
  destruct (ci_pin _ _ _ _ _ Hi b) as (i & Hlt & Hc); [by rewrite E|]. exists i. split_and!; [done..|].
  rewrite (bo_ref _ _ _ _ _ (ci_bufs _ _ _ _ _ Hi i Hlt)). unfold base. destruct Hc as [E1 E2].
  rewrite E1, E2, Z.eqb_refl, E. rewrite bool_decide_eq_false_2 by set_solver. done.
Qed.
End properties.

(** ** Concrete states: a transaction of one block, and the disks of its crashes *)

#[local] Existing Instance sync_disk.

Definition log1 (n : Z) : log := mkLog 2 30 0 false ROOTDEV n (50 :: replicate 29 0).
Definition disk1 : disk_t := <[50 := replicate 1024 1]> ∅.
Definition boot1 (D : disk_t) : kstate := set_k_disk D (set_k_log (log1 0) fresh_state).
Definition buf1 : buf :=
  set_b_data (replicate 1024 7) (set_b_refcnt 1 (set_b_blockno 50 (set_b_dev ROOTDEV (set_b_valid 1
    (nbuf 0 fresh_cache))))).
Definition trans1 : kstate :=
  set_k_bufs (<[0%nat := buf1]> fresh_cache) (set_k_disk disk1 (set_k_log (log1 1) fresh_state)).

Lemma fresh_nbuf i : (i < NBUF)%nat → same_content (nbuf i fresh_cache) buf0.
Proof. unfold NBUF, nbuf, fresh_cache. intros H. do 30 (destruct i as [|i]; [done|]). lia. Qed.

Lemma buf_ok_fresh P i s : (i < NBUF)%nat → @buf_ok ∅ P i (nbuf i fresh_cache) s.
Proof.
  intros Hi. destruct (fresh_nbuf i Hi) as (E1 & E2 & E3 & E4 & E5 & E6).
  assert (Hn : ¬ in_use (nbuf i fresh_cache)) by (unfold in_use; by rewrite E3).
  split; try done.
  - left. by rewrite E3.
  - unfold base. rewrite E3. rewrite E5. by rewrite bool_decide_eq_false_2 by set_solver.
  - by rewrite E6.
Qed.

Lemma cinv_boot1 D :
  map_Forall (λ _ d, length d = 1024%nat) D → cinv 0 (reverse (seq 0 NBUF)) ∅ ∅ (boot1 D).
Proof.
  intros HD. split.
  - apply (quiet_eq 0 quiet0); [done|done|apply quiet_0].
  - done.
  - exact cache_fresh.
  - intros i Hi. by apply buf_ok_fresh.
  - intros i. set_solver.
  - done.
  - intros n k Hk. by rewrite lookup_empty in Hk.
  - intros n [k Hk]. by rewrite lookup_empty in Hk.
  - exact HD.
Qed.

Lemma cinv_trans1 : cinv 0 (reverse (seq 0 NBUF)) ∅ (pins (logged (log1 1))) trans1.
Proof.
  assert (HL : (0 < length fresh_cache)%nat) by (change (length fresh_cache) with 31%nat; lia).
  split.
  - apply (quiet_eq 0 quiet0); [done|done|apply quiet_0].
  - done.
  - apply cache_update; [unfold NBUF; lia|done|done| |exact cache_fresh].
    intros _ j Hj _ E. exfalso. destruct (fresh_nbuf j Hj) as (_ & _ & E3 & _). by rewrite E3 in E.
  - intros i Hi. unfold trans1. ksimpl. rewrite nbuf_insert_case by done. destruct (decide (i = 0%nat)) as [->|].
    + split; try done; [by right|]. intros _ Hn. exfalso. by apply Hn.
    + destruct (buf_ok_fresh (pins (logged (log1 1))) i trans1 Hi). by split.
  - intros i. set_solver.
  - done.
  - apply counts_pins.
  - intros n [k Hk]. apply pins_lookup in Hk as [Hk _]. apply list_elem_of_singleton in Hk as ->.
    exists 0%nat. split; [unfold NBUF; lia|]. unfold trans1. ksimpl. by rewrite nbuf_insert.
  - intros n d. unfold trans1, disk1. ksimpl. rewrite lookup_insert_Some. intros [[_ <-]|[_ E]]; [done|].
    by rewrite lookup_empty in E.
Qed.

Lemma log_ok_1 : log_ok (log1 1).
Proof.
  split; try done.
  - apply NoDup_singleton.
  - apply Forall_singleton. split; [lia|]. unfold in_log. simpl. consts. lia.
Qed.

Lemma commit_crash_atomic_witness :
  wp commit (λ _ s', ∃ ws, k_dwrites s' = ws ∧
    ∀ k u, booted 0 2 (apply_writes (take k ws) disk1) u →
      wp recover_from_log (λ _ u', ∀ m, ¬ in_log 2 m →
        at_ (k_disk u') m = if decide (k ≤ 1)%nat then at_ disk1 m else blk trans1 m) u) trans1.
Proof.
  eapply wp_mono.
  { apply (commit_crash_atomic 0 (reverse (seq 0 NBUF)) trans1 log_ok_1 cinv_trans1); [exact eq_refl|reflexivity]. }
  intros r s' (ws & E1 & _ & _ & _ & E2). exists ws. split; [exact E1|exact E2].
Defined.

(** The disk after a crash right after the header was written. *)
Definition disk2 : disk_t :=
  <[2 := put_header (log1 1) zero_block]> (<[3 := replicate 1024 7]> disk1).

Lemma booted_disk2 : booted 0 2 disk2 (boot1 disk2).
Proof.
  split_and!; [|done..].
  exists (reverse (seq 0 NBUF)). apply cinv_boot1. unfold disk2, disk1. repeat apply map_Forall_insert_2; done.
Qed.

Lemma hdr_ok_disk2 : hdr_ok 2 disk2.
Proof.
  assert (E1 : hdr_n 2 disk2 = 1) by reflexivity. assert (E2 : hdr_blocks 2 disk2 = [50]) by reflexivity.
  split; rewrite ?E1, ?E2; [consts; lia|apply NoDup_singleton|].
  apply Forall_singleton. split; [lia|]. unfold in_log. consts. lia.
Qed.

Lemma recovery_idempotent_witness :
  wp recover_from_log (λ _ u', ∃ rs, k_disk u' = apply_writes rs disk2 ∧
    ∀ j v, booted 0 2 (apply_writes (take j rs) disk2) v →
      wp recover_from_log (λ _ v', at_ (k_disk v') 50 = at_ (k_disk u') 50) v) (boot1 disk2).
Proof.
  eapply wp_mono; [exact (recovery_idempotent 0 2 disk2 (boot1 disk2) booted_disk2 hdr_ok_disk2)|].
  intros r u' (rs & _ & E & H). exists rs. split; [exact E|]. intros j v Hv.
  eapply wp_mono; [exact (H j v Hv)|]. intros r' v' Hm. apply Hm. unfold in_log. consts. lia.
Defined.

Lemma recovery_leaks_buffers_witness :
  wp recover_from_log (λ _ u', ∃ i, (i < NBUF)%nat ∧ caches ROOTDEV 50 (nbuf i (k_bufs u')) ∧
         b_refcnt (nbuf i (k_bufs u')) = 4294967295) (boot1 disk2).
Proof.
  eapply wp_mono; [exact (recovery_leaks_buffers 0 2 disk2 (boot1 disk2) booted_disk2 hdr_ok_disk2)|].
  intros r u' H. apply (H 50). by apply list_elem_of_singleton.
Defined.
