(* ===== verification/LogOps.v ===== *)
(** * Transactions: [log_write], [begin_op] and [end_op]

    What the calls around a transaction do to the log of [kernel/log.c]:
    [log_write] adds a block to the transaction once and pins its buffer,
    [begin_op] reserves log space, and [end_op] commits when the last operation
    ends. *)

From stdpp Require Import prelude gmap strings list list_numbers fin_sets.
From Stdlib Require Import ZArith Lia.
From S2P Require Import Prelude.
From S2P Require Import Monad.
From S2P Require Import Riscv.
From S2P Require Import Types.
From S2P Require Import Spinlock.
From S2P Require Import Proc.
From S2P Require Import ProcSpec.
From S2P Require Import Sleeplock.
From S2P Require Import Virtio.
From S2P Require Import Bio.
From S2P Require Import BioSpec.
From S2P Require Import Cache.
From S2P Require Import Log.
From S2P Require Import LogSpec.

(** ** [log_write] *)

(** The log with block [n] in the transaction. *)
Definition log_add (n : Z) (lg : log) : log :=
  if decide (n ∈ logged lg) then lg
  else set_lh_n (lh_n lg + 1) (set_lh_block (<[Z.to_nat (lh_n lg) := n]> (lh_block lg)) lg).

Lemma find_block_spec n i lg bno :
  let r := find_block n i lg bno in
  (i ≤ r ≤ i + n)%nat ∧ (∀ j, (i ≤ j < r)%nat → lh_at j lg ≠ bno) ∧
  ((r < i + n)%nat → lh_at r lg = bno).
Proof.
  revert i. induction n as [|n IH]; intros i; simpl; [split_and!; lia|].
  destruct (Z.eqb_spec (lh_at i lg) bno) as [E|E]; [split_and!; lia|].
  destruct (IH (S i)) as (H1 & H2 & H3). split_and!; [lia|lia| |intros; apply H3; lia].
  intros j Hj. destruct (decide (j = i)) as [->|]; [done|]. apply H2. lia.
Qed.

Lemma find_block_in n lg :
  log_ok lg →
  let r := find_block (Z.to_nat (lh_n lg)) 0 lg n in
  (n ∈ logged lg → (r < Z.to_nat (lh_n lg))%nat ∧ lh_at r lg = n) ∧
  (n ∉ logged lg → r = Z.to_nat (lh_n lg)).
Proof.
  intros Hlo r. destruct (find_block_spec (Z.to_nat (lh_n lg)) 0 lg n) as (H1 & H2 & H3). fold r in H1, H2, H3.
  assert (Hiff : n ∈ logged lg ↔ (r < Z.to_nat (lh_n lg))%nat).
  { split.
    - intros Hin. apply list_elem_of_lookup in Hin as [j Hj]. pose proof (lookup_lt_Some _ _ _ Hj) as Hlt.
      rewrite logged_length in Hlt by done. rewrite (logged_at lg j Hlo Hlt) in Hj. injection Hj as Hj.
      destruct (decide (r < Z.to_nat (lh_n lg))%nat); [done|]. exfalso. apply (H2 j); [lia|done].
    - intros Hlt. pose proof (logged_at lg r Hlo Hlt) as Hr. rewrite H3 in Hr by lia.
      by eapply list_elem_of_lookup_2. }
  split; [intros Hin; apply Hiff in Hin; split; [done|apply H3; lia]|].
  intros Hni. rewrite Hiff in Hni. lia.
Qed.

Lemma set_lh_block_same i lg : (i < length (lh_block lg))%nat → set_lh_block (<[i := lh_at i lg]> (lh_block lg)) lg = lg.
Proof.
  intros Hi. rewrite list_insert_id; [by destruct lg|]. unfold lh_at.
  destruct (lookup_lt_is_Some_2 _ _ Hi) as [x Hx]. by rewrite (nth_lookup_Some _ _ _ _ Hx).
Qed.

(** [b] holds a block of the transaction that the log has room for. *)
Definition log_room (lg : log) : Prop := lh_n lg < lg_size lg - 1 ∧ lg_size lg ≤ LOGSIZE ∧ 1 ≤ lg_outstanding lg.

Lemma log_write_eq b s :
  cpu_ok (k_lk s) → lock_free LLog (k_lk s) → lock_free LBcache (k_lk s) →
  log_ok (k_log s) → log_room (k_log s) →
  let n := b_blockno (nbuf b (k_bufs s)) in
  log_write b s = Ok () (set_k_log (log_add n (k_log s))
    (if decide (n ∈ logged (k_log s)) then s else set_k_bufs (upd_nb b ref_buf (k_bufs s)) s)).
Proof.
  intros Hc Hf Hfb Hlo (Hr1 & Hr2 & Hr3) n. set (lg := k_log s) in *. pose proof (lo_n _ Hlo) as Hn.
  unfold log_write. run. fold lg.
  replace (LOGSIZE <=? lh_n lg) with false by (symmetry; apply Z.leb_gt; lia).
  replace (lg_size lg - 1 <=? lh_n lg) with false by (symmetry; apply Z.leb_gt; lia).
  replace (lg_outstanding lg <? 1) with false by (symmetry; apply Z.ltb_ge; lia). cbn [orb].
  run_acquire Hc Hf. run. rewrite (bind_ok _ _ _ _ _ (get_buf_eq _ _)). ksimpl. fold n lg.
  destruct (find_block_in n lg Hlo) as [Hin Hout]. set (i := find_block _ _ _ _) in *.
  assert (Hlen : length (lh_block lg) = 30%nat) by apply Hlo. unfold log_add, upd_log.
  destruct (decide (n ∈ logged lg)) as [H|H].
  - destruct (Hin H) as [Hi Ei].
    replace (Z.of_nat i =? lh_n lg) with false by (symmetry; apply Z.eqb_neq; lia).
    assert (E : set_lh_block (<[i := n]> (lh_block lg)) lg = lg).
    { pose proof (set_lh_block_same i lg) as E. rewrite Ei in E. apply E. consts. lia. }
    run. ksimpl. fold lg. rewrite E.
    erewrite release_eq; [|exact Hc|exact Hf|by ksimpl]. okeq.
  - rewrite (Hout H).
    replace (Z.of_nat (Z.to_nat (lh_n lg)) =? lh_n lg) with true by (symmetry; apply Z.eqb_eq; lia).
    run. ksimpl. erewrite bind_ok.
    2:{ erewrite bind_ok; [|apply bpin_eq; ksimpl; [by apply held_ok|by apply lock_free_held]]. run. reflexivity. }
    ksimpl. erewrite release_eq; [|exact Hc|exact Hf|by ksimpl]. subst i n lg. clear. okeq.
Qed.

Lemma log_add_logged n lg :
  log_ok lg → logged (log_add n lg) = if decide (n ∈ logged lg) then logged lg else logged lg ++ [n].
Proof.
  intros Hlo. unfold log_add. case_decide; [done|]. unfold logged. cbn [lh_n lh_block set_lh_n set_lh_block].
  pose proof (lo_n _ Hlo). pose proof (lo_len _ Hlo). consts.
  replace (Z.to_nat (lh_n lg + 1)) with (S (Z.to_nat (lh_n lg))) by lia.
  rewrite (take_S_r _ _ n) by (apply list_lookup_insert_eq; lia). by rewrite take_insert_ge by lia.
Qed.

Lemma log_add_ok n lg :
  log_ok lg → log_room lg → 0 ≤ n < 2 ^ 31 → ¬ in_log (lg_start lg) n → log_ok (log_add n lg).
Proof.
  intros Hlo (Hr & Hr2 & _) Hn Hnl. pose proof (log_add_logged n lg Hlo) as El. unfold log_add in *.
  destruct (decide (n ∈ logged lg)) as [|Hni]; [done|]. pose proof (lo_n _ Hlo).
  split; rewrite ?El; cbn [lg_dev lg_start lh_n lh_block set_lh_n set_lh_block].
  - apply Hlo.
  - apply Hlo.
  - lia.
  - rewrite length_insert. apply Hlo.
  - apply NoDup_app. split_and!; [apply Hlo|intros x Hx ->%list_elem_of_singleton; done|apply NoDup_singleton].
  - apply Forall_app. split; [apply Hlo|]. by apply Forall_singleton.
Qed.

Section spec.
Context {DD : DiskDriver} {DL : DiskLaws}.
Implicit Types (H : gset nat).

Definition log_write_post p l H b (s s' : kstate) : Prop :=
  let lg' := log_add (b_blockno (nbuf b (k_bufs s))) (k_log s) in
  k_log s' = lg' ∧ log_ok lg' ∧ cinv p l H (pins (logged lg')) s' ∧
  k_disk s' = k_disk s ∧ k_dwrites s' = k_dwrites s ∧ (∀ n, blk s' n = blk s n) ∧
  frame scratch (set_k_log lg' s) s' ∧
  ∀ i, b_blockno (nbuf i (k_bufs s')) = b_blockno (nbuf i (k_bufs s)) ∧
       b_data (nbuf i (k_bufs s')) = b_data (nbuf i (k_bufs s)).

Lemma log_write_spec p l H b s :
  cinv p l H (pins (logged (k_log s))) s → log_ok (k_log s) → log_room (k_log s) → b ∈ H →
  ¬ in_log (lg_start (k_log s)) (b_blockno (nbuf b (k_bufs s))) →
  wp (log_write b) (λ _ s', log_write_post p l H b s s') s.
Proof.
  intros Hi Hlo Hroom HbH Hnl. set (n := b_blockno (nbuf b (k_bufs s))) in *. set (lg := k_log s) in *.
  pose proof (ci_quiet _ _ _ _ _ Hi) as Hq. destruct (ci_held _ _ _ _ _ Hi b HbH) as (Hb & _ & Hu).
  assert (Hn : 0 ≤ n < 2 ^ 31) by (by apply (bo_no _ _ _ _ _ (ci_bufs _ _ _ _ _ Hi b Hb))).
  pose proof (log_add_ok n lg Hlo Hroom Hn Hnl) as Hlo'. pose proof (log_add_logged n lg Hlo) as El.
  eapply wp_ok; [apply log_write_eq; [apply Hq|by apply (q_locks _ _ Hq)..|done|done]|].
  fold n lg. unfold log_write_post. fold n lg. cbv zeta. rewrite El.
  destruct (decide (n ∈ logged lg)) as [Hin|Hin].
  - split_and!; [done|done|by apply cinv_set_log|done..|by split_and!|done].
  - assert (HL : length (k_bufs s) = S NBUF) by apply (ca_len _ _ (ci_cache _ _ _ _ _ Hi)).
    destruct (cinv_pin p l H (pins (logged lg)) (pins (logged lg ++ [n])) b ref_buf s Hi HbH) as [Hi' Hblk].
    + by left.
    + fold n. rewrite (pins_some (logged lg ++ [n])) by set_solver.
      cbn [ref_buf b_refcnt set_b_refcnt]. rewrite (bo_ref _ _ _ _ _ (ci_bufs _ _ _ _ _ Hi b Hb)).
      rewrite bool_decide_eq_true_2 by done.
      rewrite base_unpinned; [done|]. intros [_ [k Hk]]. apply pins_lookup in Hk as [Hk _]. done.
    + intros m Hm. fold n in Hm. apply option_eq. intros k. rewrite !pins_lookup, elem_of_app, list_elem_of_singleton. naive_solver.
    + apply counts_pins.
    + split_and!; [done|done|by apply cinv_set_log|done|done|exact Hblk|by split_and!|].
      intros i. unfold upd_nb. ksimpl. rewrite nbuf_insert_case by (unfold NBUF in *; lia).
      by destruct (decide (i = b)) as [->|].
Qed.
End spec.

(** ** [begin_op] and [end_op] *)

(** [begin_op] admits the operation. *)
Definition admits (lg : log) : Prop :=
  lg_committing lg = false ∧ lh_n lg + (lg_outstanding lg + 1) * MAXOPBLOCKS ≤ LOGSIZE.

Definition one_more (lg : log) : log := set_lg_outstanding (lg_outstanding lg + 1) lg.

Lemma begin_op_body_eq s l :
  cpu_ok l → lock_free LLog l → k_lk s = held LLog l → admits (k_log s) →
  begin_op_body () s = Ok (inr ()) (set_k_log (one_more (k_log s)) (set_k_lk l s)).
Proof.
  intros Hc Hf El [Ha1 Ha2]. unfold begin_op_body. run. rewrite Ha1.
  replace (LOGSIZE <? _) with false by (symmetry; apply Z.ltb_ge; lia).
  unfold upd_log. run. erewrite bind_ok; [|eapply release_eq; [exact Hc|exact Hf|by ksimpl]]. ksimpl. okeq.
Qed.

Lemma begin_op_eq s :
  cpu_ok (k_lk s) → lock_free LLog (k_lk s) → admits (k_log s) →
  begin_op s = Ok () (set_k_log (one_more (k_log s)) s).
Proof.
  intros Hc Hf Ha. unfold begin_op. run_acquire Hc Hf.
  etrans; [apply loop_inr, (begin_op_body_eq _ (k_lk s)); done|]. ksimpl. okeq.
Qed.

Lemma begin_op_busy p s :
  quiet p s → ¬ admits (k_log s) →
  ∃ k, begin_op s = Swtch (asleep ChLog p (k_lk s) s) k.
Proof.
  intros Hq Hna. pose proof (q_noff _ _ Hq) as Hn. pose proof (q_cpu _ _ Hq) as Hc. pose proof (q_locks _ _ Hq LLog I) as Hf.
  assert (Hfp : lock_free (LProc p) (k_lk s)) by (apply (q_locks _ _ Hq), (q_range _ _ Hq)).
  unfold begin_op. run_acquire Hc Hf.
  edestruct (sleep_eq ChLog LLog p (k_lk s) (set_k_lk (held LLog (k_lk s)) s)) as (k & Ek & _).
  { split_and!; ksimpl; try done. apply (q_cur _ _ Hq). }
  { done. }
  { done. }
  { ksimpl. rewrite (q_procs _ _ Hq). apply (q_range _ _ Hq). }
  assert (Eb : ∃ k', begin_op_body () (set_k_lk (held LLog (k_lk s)) s) = Swtch (asleep ChLog p (k_lk s) s) k').
  { unfold begin_op_body. run. ksimpl. destruct (lg_committing (k_log s)) eqn:E1.
    - unfold bind. rewrite Ek. cbn [obind]. eexists. reflexivity.
    - replace (LOGSIZE <? _) with true; [unfold bind; rewrite Ek; cbn [obind]; eexists; reflexivity|].
      symmetry. apply Z.ltb_lt. unfold admits in Hna. rewrite E1 in Hna. lia. }
  destruct Eb as [k' Eb]. destruct (loop_swtch _ _ _ _ _ Eb) as [k2 E2]. exists k2. exact E2.
Qed.

(** The log while the last operation commits it. *)
Definition closing (lg : log) : log := set_lg_committing true (set_lg_outstanding 0 lg).

Section end_op.
Context {DD : DiskDriver} {DL : DiskLaws}.

Lemma end_op_open p s :
  quiet p s → lg_committing (k_log s) = false → lg_outstanding (k_log s) ≠ 1 →
  end_op s = Ok () (set_k_procs (wake ChLog <$> k_procs s)
    (set_k_log (set_lg_outstanding (lg_outstanding (k_log s) - 1) (k_log s)) s)).
Proof.
  intros Hq Hcm Hne. pose proof (q_cpu _ _ Hq) as Hc. pose proof (q_locks _ _ Hq LLog I) as Hf.
  unfold end_op, upd_log. run_acquire Hc Hf. run. ksimpl. cbn [lg_committing set_lg_outstanding lg_outstanding]. rewrite Hcm.
  replace (lg_outstanding (k_log s) - 1 =? 0) with false by (symmetry; apply Z.eqb_neq; lia).
  erewrite bind_ok; [|apply wakeup_eq; ksimpl; [by apply held_ok| |apply (q_procs _ _ Hq)]].
  2:{ apply proc_locks_held; [done|]. by apply (quiet_proc_locks p). }
  ksimpl. erewrite bind_ok; [|eapply release_eq; [exact Hc|exact Hf|by ksimpl]]. run. ksimpl. okeq.
Qed.

Lemma log_ok_core lg lg' :
  lg_dev lg' = lg_dev lg → lg_start lg' = lg_start lg → lh_n lg' = lh_n lg → lh_block lg' = lh_block lg →
  log_ok lg → log_ok lg'.
Proof.
  intros E1 E2 E3 E4 [H1 H2 H3 H4 H5 H6]. unfold logged in *. split; unfold logged; rewrite ?E1, ?E2, ?E3, ?E4; done.
Qed.

(** The last operation of a transaction ends: [commit] ran, and the log is open
    again. *)
Lemma end_op_last p l s :
  cinv p l ∅ (pins (logged (k_log s))) s → log_ok (k_log s) → 0 < lh_n (k_log s) →
  lg_committing (k_log s) = false → lg_outstanding (k_log s) = 1 →
  wp end_op (λ _ s', ∃ t, commit_post p (set_k_log (closing (k_log s)) s) t ∧
    s' = set_k_procs (wake ChLog <$> k_procs t) (set_k_log (set_lg_committing false (k_log t)) t)) s.
Proof.
  intros Hi Hlo Hn Hcm Hout. pose proof (ci_quiet _ _ _ _ _ Hi) as Hq.
  pose proof (q_cpu _ _ Hq) as Hc. pose proof (q_locks _ _ Hq LLog I) as Hf. set (lg := k_log s) in *.
  set (s1 := set_k_log (closing lg) s).
  assert (E1 : end_op s = (commit ;;; acquire LLog ;;; upd_log (set_lg_committing false) ;;; wakeup ChLog ;;; release LLog) s1).
  { unfold end_op, upd_log. run_acquire Hc Hf. run. ksimpl. cbn [lg_committing set_lg_outstanding lg_outstanding]. fold lg. rewrite Hcm, Hout.
    change (1 - 1 =? 0) with true. change (1 - 1) with 0. cbv iota. run. ksimpl.
    erewrite bind_ok; [|eapply release_eq; [exact Hc|exact Hf|by ksimpl]].
    replace (set_k_lk (k_lk s) _) with s1; [done|]. unfold s1, closing, lg. clear. keq. }
  unfold wp. rewrite E1. fold (wp (commit ;;; acquire LLog ;;; upd_log (set_lg_committing false) ;;; wakeup ChLog ;;; release LLog)
    (λ _ s', ∃ t, commit_post p s1 t ∧ s' = set_k_procs (wake ChLog <$> k_procs t) (set_k_log (set_lg_committing false (k_log t)) t)) s1).
  rewrite wp_bind. eapply wp_mono.
  { apply (commit_spec p l s1); [by apply (log_ok_core lg)|by apply cinv_set_log|done]. }
  intros [] t Ht. pose proof Ht as ((lt & Hit) & _). pose proof (ci_quiet _ _ _ _ _ Hit) as Hqt.
  pose proof (q_cpu _ _ Hqt) as Hct. pose proof (q_locks _ _ Hqt LLog I) as Hft.
  apply (wp_ok _ _ _ () (set_k_procs (wake ChLog <$> k_procs t) (set_k_log (set_lg_committing false (k_log t)) t))).
  - run_acquire Hct Hft. unfold upd_log. run. ksimpl.
    erewrite bind_ok; [|apply wakeup_eq; ksimpl; [by apply held_ok| |apply (q_procs _ _ Hqt)]].
    2:{ apply proc_locks_held; [done|]. by apply (quiet_proc_locks p). }
    ksimpl. erewrite release_eq; [|exact Hct|exact Hft|by ksimpl]. clear. okeq.
  - by exists t.
Qed.
End end_op.

(** ** Properties *)

(** C28. [log_write] of a locked buffer puts its block into the running transaction
    exactly once: a block already logged is absorbed and nothing else changes; a
    new one is appended and its buffer pinned, so that the cache cannot evict it
    before the commit; no block's content and no disk block changes.  Without room
    in the log, or outside a transaction, it panics. *)
Theorem log_write_absorbs `{DL : DiskLaws} p l (H : gset nat) b s :
  cinv p l H (pins (logged (k_log s))) s → log_ok (k_log s) → lg_size (k_log s) ≤ LOGSIZE → b ∈ H →
  let n := b_blockno (nbuf b (k_bufs s)) in
  ¬ in_log (lg_start (k_log s)) n →
  (lh_n (k_log s) < lg_size (k_log s) - 1 → 1 ≤ lg_outstanding (k_log s) →
   wp (log_write b) (λ _ s',
     log_ok (k_log s') ∧ cinv p l H (pins (logged (k_log s'))) s' ∧
     logged (k_log s') = (if decide (n ∈ logged (k_log s)) then logged (k_log s) else logged (k_log s) ++ [n]) ∧
     (n ∈ logged (k_log s) → s' = s) ∧
     k_disk s' = k_disk s ∧ k_dwrites s' = k_dwrites s ∧ ∀ m, blk s' m = blk s m) s) ∧
  (lg_size (k_log s) - 1 ≤ lh_n (k_log s) → log_write b s = Panic "too big a transaction") ∧
  (lh_n (k_log s) < lg_size (k_log s) - 1 → lg_outstanding (k_log s) < 1 →
   log_write b s = Panic "log_write outside of trans").
Proof.
  intros Hi Hlo Hsz HbH n Hnl. pose proof (lo_n _ Hlo) as Hln. split_and!.
  - intros Hr1 Hr2. pose proof (log_write_spec p l H b s Hi Hlo ltac:(by split_and!) HbH Hnl) as Hw.
    pose proof (log_add_logged n (k_log s) Hlo) as El. pose proof (ci_quiet _ _ _ _ _ Hi) as Hq.
    pose proof (log_write_eq b s (q_cpu _ _ Hq) (q_locks _ _ Hq LLog I) (q_locks _ _ Hq LBcache I) Hlo ltac:(by split_and!)) as Eq.
    cbv zeta in Eq. fold n in Eq. apply (wp_eval _ _ _ _ _ Eq) in Hw. eapply wp_ok; [exact Eq|].
    destruct Hw as (E & Hlo' & Hi' & Ed & Ew & Hb & _). fold n in E, Hlo', Hi'. rewrite <- E in Hlo', Hi', El.
    split_and!; try done. intros Hin. rewrite decide_True by done. unfold log_add. rewrite decide_True by done.
    by destruct s.
  - intros Hr. unfold log_write. run.
    replace (lg_size (k_log s) - 1 <=? lh_n (k_log s)) with true by (symmetry; apply Z.leb_le; lia).
    by rewrite orb_true_r.
  - intros Hr1 Hr2. unfold log_write. run.
    replace (LOGSIZE <=? _) with false by (symmetry; apply Z.leb_gt; lia).
    replace (lg_size (k_log s) - 1 <=? lh_n (k_log s)) with false by (symmetry; apply Z.leb_gt; lia).
    replace (lg_outstanding (k_log s) <? 1) with true by (symmetry; apply Z.ltb_lt; lia). done.
Qed.

(** [begin_op] reserves log space: it returns, with one more operation
    outstanding, exactly when no commit is under way and the blocks already logged
    plus [MAXOPBLOCKS] for each outstanding operation, this one included, fit in
    [LOGSIZE]; otherwise the process sleeps on the log with the log's lock
    released. *)
Theorem begin_op_reserves p s :
  quiet p s →
  let lg := k_log s in
  (lg_committing lg = false ∧ lh_n lg + (lg_outstanding lg + 1) * MAXOPBLOCKS ≤ LOGSIZE →
   ∃ s', begin_op s = Ok () s' ∧ lg_outstanding (k_log s') = lg_outstanding lg + 1 ∧
     lh_n (k_log s') + lg_outstanding (k_log s') * MAXOPBLOCKS ≤ LOGSIZE ∧ k_lk s' = k_lk s) ∧
  (lg_committing lg = true ∨ LOGSIZE < lh_n lg + (lg_outstanding lg + 1) * MAXOPBLOCKS →
   ∃ t k, begin_op s = Swtch t k ∧ p_state (the_proc p t) = SLEEPING ∧ p_chan (the_proc p t) = ChLog ∧
     lock_free LLog (k_lk t) ∧ k_log t = lg).
Proof.
  intros Hq lg. split.
  - intros Ha. eexists. split; [apply begin_op_eq; [apply Hq|by apply (q_locks _ _ Hq)|exact Ha]|].
    ksimpl. cbn [one_more set_lg_outstanding lg_outstanding lh_n]. destruct Ha. split_and!; [done|done|done].
  - intros Hna. destruct (begin_op_busy p s Hq) as [k Ek].
    { intros [H1 H2]. destruct Hna; [fold lg in H1; congruence|]. fold lg in H2. lia. }
    assert (Hlt : (p < length (k_procs s))%nat) by (rewrite (q_procs _ _ Hq); apply (q_range _ _ Hq)).
    eexists _, k. split; [exact Ek|]. unfold asleep.
    rewrite the_proc_insert by (by ksimpl). ksimpl. split_and!; try done.
    apply lock_free_held; [done|]. by apply (q_locks _ _ Hq).
Qed.

(** C40. The reservation exceeds the log: with the log of [nlog = LOGSIZE = 30]
    blocks that [mkfs] makes, [begin_op] admits three operations of up to
    [MAXOPBLOCKS] blocks each, 30 in all, but once 29 blocks are logged
    [log_write] panics, since one of the 30 blocks is the header. *)
Theorem log_reservation_exceeds_log s :
  cpu_ok (k_lk s) → lock_free LLog (k_lk s) →
  lg_committing (k_log s) = false → lh_n (k_log s) = 0 → lg_outstanding (k_log s) = 0 → lg_size (k_log s) = LOGSIZE →
  ∃ t, (begin_op ;;; begin_op ;;; begin_op) s = Ok () t ∧ lg_outstanding (k_log t) = 3 ∧
    ∀ b u, k_log u = set_lh_n 29 (k_log t) →
      lh_n (k_log u) < lg_outstanding (k_log t) * MAXOPBLOCKS ∧ log_write b u = Panic "too big a transaction".
Proof.
  intros Hc Hf E1 E2 E3 E4. eexists. split.
  - erewrite bind_ok; [|apply begin_op_eq; [done|done|split; [done|rewrite E2, E3; done]]].
    erewrite bind_ok; [|apply begin_op_eq; [done|done|split; [done|]]; ksimpl; cbn [one_more set_lg_outstanding lh_n lg_outstanding]; rewrite E2, E3; done].
    apply begin_op_eq; [done|done|split; [done|]]. ksimpl. cbn [one_more set_lg_outstanding lh_n lg_outstanding]. by rewrite E2, E3.
  - ksimpl. cbn [one_more set_lg_outstanding lh_n lg_outstanding]. rewrite E3. split; [done|].
    intros b u Eu. split; [rewrite Eu; done|]. unfold log_write. run. rewrite Eu. cbn [lh_n lg_size set_lh_n set_lg_outstanding].
    change (lg_size (one_more _)) with (lg_size (k_log s)). by rewrite E4.
Qed.

(** *** Witnesses *)

#[local] Existing Instance sync_disk.

Definition open_log (st : kstate) : kstate := set_k_log (mkLog 2 30 0 false ROOTDEV 0 (replicate 30 0)) st.

Lemma begin_op_reserves_witness :
  (∃ s', begin_op (open_log quiet0) = Ok () s' ∧ lg_outstanding (k_log s') = 1) ∧
  (∃ t k, begin_op (set_k_log (set_lg_outstanding 3 (k_log (open_log quiet0))) (open_log quiet0)) = Swtch t k ∧
     p_chan (the_proc 0 t) = ChLog).
Proof.
  split.
  - destruct (begin_op_reserves 0 (open_log quiet0)) as [H _].
    + apply (quiet_eq 0 quiet0); [reflexivity|reflexivity|apply quiet_0].
    + destruct H as (s' & E & E' & _); [split; [reflexivity|cbn; consts; lia]|]. exists s'. split; [exact E|exact E'].
  - destruct (begin_op_reserves 0 (set_k_log (set_lg_outstanding 3 (k_log (open_log quiet0))) (open_log quiet0))) as [_ H].
    + apply (quiet_eq 0 quiet0); [reflexivity|reflexivity|apply quiet_0].
    + destruct H as (t & k & E & _ & E' & _); [right; cbn; consts; lia|]. exists t, k. split; [exact E|exact E'].
Defined.

Lemma log_reservation_exceeds_log_witness :
  ∃ t, (begin_op ;;; begin_op ;;; begin_op) (open_log quiet0) = Ok () t ∧ lg_outstanding (k_log t) = 3.
Proof.
  destruct (log_reservation_exceeds_log (open_log quiet0)) as (t & E & E' & _);
    [apply quiet_0|exact (q_locks 0 quiet0 quiet_0 LLog I)|reflexivity..|].
  exists t. split; [exact E|exact E'].
Defined.

Definition held1 : kstate :=
  put_slock (SBuf 0) (owned (SBuf 0) 0 fresh_state)
    (set_k_bufs (<[0%nat := buf1]> fresh_cache)
      (set_k_disk disk1 (set_k_log (mkLog 2 30 1 false ROOTDEV 0 (replicate 30 0)) fresh_state))).

Lemma cinv_held1 : cinv 0 (reverse (seq 0 NBUF)) {[0%nat]} (pins (logged (k_log held1))) held1.
Proof.
  assert (HL : (0 < length fresh_cache)%nat) by (change (length fresh_cache) with 31%nat; lia).
  split.
  - apply (quiet_eq 0 quiet0); [done|done|apply quiet_0].
  - done.
  - apply (ci_cache _ _ _ _ _ cinv_trans1).
  - intros i Hi. unfold held1, put_slock. ksimpl. rewrite nbuf_insert_case by done. destruct (decide (i = 0%nat)) as [->|].
    + split; try done; [by right].
    + destruct (buf_ok_fresh ∅ i held1 Hi) as [H1 H2 H3 H4 H5 H6 H7]. split; try done.
      * rewrite H4, !bool_decide_eq_false_2 by set_solver. done.
      * intros _ Hp. by apply H6.
  - intros i ->%elem_of_singleton. split_and!; [unfold NBUF; lia| |done]. done.
  - intros i Hi Hne. unfold held1, put_slock, the_slock. ksimpl. rewrite lookup_insert_ne by set_solver. done.
  - apply counts_pins.
  - intros n [k Hk]. apply pins_lookup in Hk as [Hk _]. by apply not_elem_of_nil in Hk.
  - apply (ci_disk _ _ _ _ _ cinv_trans1).
Qed.

Lemma log_write_absorbs_witness :
  wp (log_write 0) (λ _ s', logged (k_log s') = [50]) held1.
Proof.
  destruct (log_write_absorbs 0 (reverse (seq 0 NBUF)) {[0%nat]} 0 held1 cinv_held1) as (H & _).
  - apply (log_ok_core (empty_log (set_lh_block (replicate 30 0) (log1 0)))); try reflexivity.
    split; try done; constructor.
  - cbn. consts. lia.
  - by apply elem_of_singleton.
  - change (¬ in_log 2 50). unfold in_log. consts. lia.
  - eapply wp_mono; [apply H; cbn; consts; lia|]. intros r s' (_ & _ & E & _). rewrite E. reflexivity.
Defined.
