(* ===== verification/Txn.v ===== *)
(** * Blocks inside a transaction

    The file system reads and changes blocks between [begin_op] and [end_op]: [bread] gives
    a locked buffer, [log_write] puts the changed block into the transaction, [brelse]
    gives the buffer back.  [txn] is the shape of the kernel in between, with the
    buffers that are held and the number of blocks that still fit into the transaction;
    the content of the blocks is [blk]. *)

From stdpp Require Import prelude gmap strings list.
From Stdlib Require Import ZArith Lia.
From S2P Require Import Prelude.
From S2P Require Import Monad.
From S2P Require Import Riscv.
From S2P Require Import Types.
From S2P Require Import Mem.
From S2P Require Import Spinlock.
From S2P Require Import Kalloc.
From S2P Require Import Proc.
From S2P Require Import ProcSpec.
From S2P Require Import Sleeplock.
From S2P Require Import Virtio.
From S2P Require Import Bio.
From S2P Require Import BioSpec.
From S2P Require Import Cache.
From S2P Require Import Log.
From S2P Require Import LogSpec.
From S2P Require Import LogOps.

Section txn.
Context {DD : DiskDriver} {DL : DiskLaws}.

(** [H] maps the buffers that process [p] holds to their blocks; [k] more blocks fit. *)
Record txn (p : nat) (H : gmap nat Z) (k : Z) (s : kstate) : Prop := mktxn {
  tx_cache : ∃ l, cinv p l (dom H) (pins (logged (k_log s))) s;
  tx_log : log_ok (k_log s);
  tx_open : 1 ≤ lg_outstanding (k_log s);
  tx_size : lg_size (k_log s) ≤ LOGSIZE;
  tx_room : lh_n (k_log s) + k ≤ lg_size (k_log s) - 1;
  tx_few : Z.of_nat (size H) ≤ k;
  tx_held : ∀ b n, H !! b = Some n → caches ROOTDEV n (nbuf b (k_bufs s)) ∧
    (n ∈ logged (k_log s) ∨ b_data (nbuf b (k_bufs s)) = disk_block n s)
}.

(** What a step inside a transaction leaves alone. *)
Record kept (s s' : kstate) : Prop := mkkept {
  kp_frame : frame scratch (set_k_log (k_log s') s) s';
  kp_start : lg_start (k_log s') = lg_start (k_log s);
  kp_disk : k_disk s' = k_disk s;
  kp_writes : k_dwrites s' = k_dwrites s
}.

#[export] Instance kept_refl : Reflexive kept.
Proof. by intros s; split. Qed.

#[export] Instance kept_trans : Transitive kept.
Proof.
  intros s t u [A1 A2 A3 A4] [B1 B2 B3 B4]. split; try congruence.
  apply (frame_set_log (k_log u)) in A1. revert A1. ksimpl. intros A1. by etrans.
Qed.

Lemma kept_lk s s' : kept s s' → k_lk s' = k_lk s.
Proof. intros [H _ _ _]. apply (frame_lk _ _ _ H). Qed.
Lemma kept_sb s s' : kept s s' → k_sb s' = k_sb s.
Proof. intros [H _ _ _]. apply (frame_sb _ _ _ H). Qed.
Lemma kept_icache s s' : kept s s' → k_icache s' = k_icache s.
Proof. intros [H _ _ _]. apply (frame_icache _ _ _ H). Qed.
Lemma kept_mem s s' a : kept s s' → ¬ scratch a → rd (k_mem s') a = rd (k_mem s) a.
Proof. intros [(_ & _ & H & _) _ _ _]. apply H. Qed.
Lemma kept_ilock s s' i : kept s s' → the_slock (SInode i) s' = the_slock (SInode i) s.
Proof. intros [H _ _ _]. apply (frame_ilock _ _ _ _ H). Qed.
Lemma kept_procs s s' : kept s s' → procs_sim (k_procs s) (k_procs s').
Proof. by intros [(_ & H & _) _ _ _]. Qed.

Lemma frame_kept s s' :
  frame scratch s s' → k_disk s' = k_disk s → k_dwrites s' = k_dwrites s → kept s s'.
Proof.
  intros Hf Ed Ew. pose proof (frame_log _ _ _ Hf) as El. split; try done; [|by rewrite El].
  rewrite El. by replace (set_k_log (k_log s) s) with s by (by destruct s).
Qed.

(** Nothing but the bookkeeping of the cache and of the log has changed. *)
Definition same (s s' : kstate) : Prop := kept s s' ∧ ∀ m, blk s' m = blk s m.

#[export] Instance same_refl : Reflexive same.
Proof. by split. Qed.
#[export] Instance same_trans : Transitive same.
Proof. intros s t u [A1 A2] [B1 B2]. split; [by etrans|]. intros m. by rewrite B2, A2. Qed.

Lemma txn_size p H k s : txn p H k s → (size (dom H) + size (pins (logged (k_log s))) ≤ 29)%nat.
Proof.
  intros [_ Hlo _ Hs Hr Hf _]. rewrite size_dom. pose proof (size_pins (logged (k_log s))) as Hp.
  rewrite logged_length in Hp by done. pose proof (lo_n _ Hlo). consts. lia.
Qed.

Lemma txn_data p H k b n s : txn p H k s → H !! b = Some n → b_data (nbuf b (k_bufs s)) = blk s n.
Proof.
  intros Ht Hb. destruct (tx_cache _ _ _ _ Ht) as [l Hi]. destruct (tx_held _ _ _ _ Ht b n Hb) as [Hc _].
  assert (b ∈ dom H) as HbH by (by apply elem_of_dom_2 in Hb). destruct (ci_held _ _ _ _ _ Hi b HbH) as (Hlt & _).
  symmetry. apply (blk_cached l); [apply (ci_cache _ _ _ _ _ Hi)|done|done].
Qed.

Lemma txn_len p H k s n : txn p H k s → length (blk s n) = 1024%nat.
Proof. intros Ht. destruct (tx_cache _ _ _ _ Ht) as [l Hi]. by eapply blk_len. Qed.

Lemma txn_quiet p H k s : txn p H k s → quiet p s.
Proof. intros Ht. destruct (tx_cache _ _ _ _ Ht) as [l Hi]. apply (ci_quiet _ _ _ _ _ Hi). Qed.

(** Changes outside the cache and the log. *)
Lemma txn_ext p H k s s' :
  txn p H k s → quiet p s' → k_bufs s' = k_bufs s → (∀ b, the_slock (SBuf b) s' = the_slock (SBuf b) s) →
  k_disk s' = k_disk s → k_log s' = k_log s → p_pid (the_proc p s') = p_pid (the_proc p s) →
  k_vdisk s' = k_vdisk s → k_io s' = k_io s → k_kpt s' = k_kpt s →
  (∀ a, disk_uses a → rd (k_mem s') a = rd (k_mem s) a) → txn p H k s'.
Proof.
  intros [[l Hi] H1 H2 H3 H4 H5 H6] Hq Eb Es Ed El Ep Ev Eio Ek Em.
  split; rewrite ?El; try done.
  - exists l. by apply (cinv_ext p l _ _ s).
  - intros b n Hb. rewrite Eb, (disk_block_eq _ s) by done. by apply H6.
Qed.

Lemma txn_bread p H k n s :
  txn p H k s → 0 ≤ n < 2 ^ 31 → (∀ b m, H !! b = Some m → m ≠ n) → Z.of_nat (size H) + 1 ≤ k →
  wp (bread ROOTDEV n) (λ b s', H !! b = None ∧ txn p (<[b := n]> H) k s' ∧ same s s') s.
Proof.
  intros Ht Hn Hne Hk. pose proof (txn_size _ _ _ _ Ht) as Hsz. destruct Ht as [[l Hi] Hlo Ho Hs Hr Hf Hh].
  eapply wp_mono; [apply (bread_spec p l (dom H) (pins (logged (k_log s))) n); [done|done|unfold NBUF; lia| |]|].
  - intros i Hi'. unfold base. destruct (b_dev _ =? ROOTDEV); [|lia].
    destruct (pins _ !! _) as [x|] eqn:E; simpl; [|lia]. apply pins_lookup in E as [_ ->]. lia.
  - intros i [m Hm]%elem_of_dom. destruct (Hh i m Hm) as [[_ Hc] _]. rewrite Hc. by apply (Hne i).
  - intros b s' (Hb & HbH & Hi' & Hc & Hd & Hblk & Ho' & Ed & Ew & Hfr). apply not_elem_of_dom in HbH.
    split; [done|]. pose proof (frame_log _ _ _ Hfr) as El. split; [|split; [by apply frame_kept|done]].
    split; rewrite ?El; try done.
    + exists l. by rewrite dom_insert_L.
    + rewrite map_size_insert_None by done. lia.
    + intros b' m Hm. destruct (decide (b' = b)) as [->|Hne'].
      * rewrite lookup_insert_eq in Hm. simplify_eq. split; [done|].
        destruct (decide (m ∈ logged (k_log s))) as [Hin|Hin]; [by left|right]. rewrite Hd, (disk_block_eq _ s) by done.
        apply (blk_clean p l (dom H) (pins (logged (k_log s)))); [done|by apply pins_none|].
        intros i [x Hx]%elem_of_dom. destruct (Hh i x Hx) as [[_ Hc'] _]. rewrite Hc'. by apply (Hne i).
      * rewrite lookup_insert_ne in Hm by done. rewrite (Ho' b' Hne'), (disk_block_eq _ s) by done. by apply Hh.
Qed.

Lemma txn_brelse p H k b n s :
  txn p H k s → H !! b = Some n → wp (brelse b) (λ _ s', txn p (delete b H) k s' ∧ same s s') s.
Proof.
  intros Ht Hb. destruct Ht as [[l Hi] Hlo Ho Hs Hr Hf Hh]. destruct (Hh b n Hb) as [Hc Hcl].
  eapply wp_mono; [apply (brelse_spec p l (dom H) (pins (logged (k_log s))) b); [done|by apply elem_of_dom_2 in Hb|]|].
  { rewrite (proj2 Hc). destruct Hcl as [Hin|Hd]; [left; by rewrite pins_some|by right]. }
  intros [] s' ((l' & Hi') & Hfr & Ed & Ew & Hblk & Ho'). pose proof (frame_log _ _ _ Hfr) as El.
  split; [|split; [by apply frame_kept|done]]. split; rewrite ?El; try done.
  - exists l'. by rewrite dom_delete_L.
  - rewrite map_size_delete_Some by done. lia.
  - intros b' m Hm. apply lookup_delete_Some in Hm as [Hne Hm]. destruct (Hh b' m Hm) as [Hc' Hcl'].
    destruct (Ho' b' ltac:(done)) as (_ & _ & E0 & E1 & _ & E2). unfold caches. rewrite E1, E2, E0, (disk_block_eq _ s) by done. by split.
Qed.

Lemma txn_weaken p H k k' s : txn p H k s → Z.of_nat (size H) ≤ k' ≤ k → txn p H k' s.
Proof. intros [? ? ? ? ? ? ?] Hk. split; try done; lia. Qed.

(** Block [n] becomes [d]. *)
Definition wrote_block (n : Z) (d : list Z) (s s' : kstate) : Prop :=
  kept s s' ∧ ∀ m, blk s' m = if decide (m = n) then d else blk s m.

(** The buffer's data is changed and the block put into the transaction. *)
Lemma txn_put {A} p H k b n g (rest : K A) Q s :
  txn p H (k + 1) s → H !! b = Some n → length (g (blk s n)) = 1024%nat →
  ¬ in_log (lg_start (k_log s)) n → Z.of_nat (size H) ≤ k →
  (∀ s', txn p H k s' → wrote_block n (g (blk s n)) s s' → wp rest Q s') →
  wp (upd_buf b (λ bf, set_b_data (g (b_data bf)) bf) ;;; log_write b ;;; rest) Q s.
Proof.
  intros Ht Hb Hlen Hnl Hk HQ. pose proof (txn_data _ _ _ _ _ _ Ht Hb) as Hd. destruct Ht as [[l Hi] Hlo Ho Hs Hr Hf Hh].
  destruct (Hh b n Hb) as [Hc _]. assert (b ∈ dom H) as HbH by (by apply elem_of_dom_2 in Hb).
  rewrite wp_bind. eapply wp_ok; [apply upd_buf_eq|].
  set (d := g (blk s n)) in *.
  assert (E : set_k_bufs (upd_nb b (λ bf, set_b_data (g (b_data bf)) bf) (k_bufs s)) s = put_data b d s).
  { unfold put_data, upd_nb. by rewrite Hd. }
  rewrite E. destruct (put_data_spec p l (dom H) _ b d s Hi HbH Hlen) as (Hi1 & Hfr1 & Hblk1).
  pose proof (frame_log _ _ _ Hfr1) as El1. set (s1 := put_data b d s) in *.
  assert (Hn : ∀ i, b_blockno (nbuf i (k_bufs s1)) = b_blockno (nbuf i (k_bufs s)) ∧
    b_dev (nbuf i (k_bufs s1)) = b_dev (nbuf i (k_bufs s)) ∧ (i ≠ b → nbuf i (k_bufs s1) = nbuf i (k_bufs s))).
  { intros i. unfold s1. rewrite nbuf_put_data; [by case_decide; subst|]. rewrite (ca_len _ _ (ci_cache _ _ _ _ _ Hi)).
    destruct (ci_held _ _ _ _ _ Hi b HbH) as (Hlt & _). lia. }
  rewrite wp_bind. eapply wp_mono; [apply (log_write_spec p l (dom H) b); rewrite ?El1; try done|].
  { split_and!; [lia|done|done]. }
  { rewrite (proj1 (Hn b)), (proj2 Hc). done. }
  intros [] s2 Hpost. unfold log_write_post in Hpost. rewrite (proj1 (Hn b)), (proj2 Hc), El1 in Hpost.
  destruct Hpost as (El & Hlo2 & Hi2 & Ed2 & Ew2 & Hblk2 & Hfr2 & Hb2). pose proof (log_add_logged n _ Hlo) as Ell.
  assert (Hlg : lg_start (log_add n (k_log s)) = lg_start (k_log s) ∧ lg_size (log_add n (k_log s)) = lg_size (k_log s) ∧
    lg_outstanding (log_add n (k_log s)) = lg_outstanding (k_log s) ∧ lh_n (log_add n (k_log s)) ≤ lh_n (k_log s) + 1).
  { unfold log_add. case_decide; [split_and!; try done; lia|]. done. }
  destruct Hlg as (Hg1 & Hg2 & Hg3 & Hg4). apply HQ.
  - split; rewrite ?El, ?Hg2, ?Hg3; try done; try lia; [by exists l|].
    intros b' m Hm. destruct (Hh b' m Hm) as [[Hc1 Hc2] Hcl]. rewrite (disk_block_eq _ s) by done.
    destruct (Hb2 b') as [E1 E2]. destruct (Hn b') as (E3 & E4 & E5).
    assert (b_dev (nbuf b' (k_bufs s2)) = ROOTDEV) as Hdev.
    { destruct (ci_held _ _ _ _ _ Hi2 b' ltac:(by apply elem_of_dom_2 in Hm)) as (_ & _ & Hu). exact Hu. }
    split; [split; [done|congruence]|]. rewrite Ell. destruct (decide (n ∈ logged (k_log s))) as [Hin|Hin].
    + destruct Hcl as [?|Hcl]; [by left|]. destruct (decide (b' = b)) as [->|Hne]; [left; congruence|right].
      by rewrite E2, E5.
    + destruct Hcl as [?|Hcl]; [left; set_solver|]. destruct (decide (b' = b)) as [->|Hne]; [left; set_solver|right].
      by rewrite E2, E5.
  - split.
    + split; [|by rewrite El|by rewrite Ed2|by rewrite Ew2]. rewrite El. etrans; [|exact Hfr2]. by apply frame_set_log.
    + intros m. rewrite Hblk2, Hblk1, (proj2 Hc). done.
Qed.
End txn.
