(* ===== verification/Fs.v ===== *)
(** * The file system: [kernel/fs.c]

    A [struct inode *] is an index of [k_icache], [None] if null.  Structures of
    the disk are read and written at their place in the data of a buffer.  A
    local [struct dirent] passed by address lives at [stk]; a [char *name] is the
    array of its bytes, a [char *path] the bytes before the NUL. *)

From stdpp Require Import prelude gmap strings list.
From Stdlib Require Import ZArith Lia.
From S2P Require Import Prelude.
From S2P Require Import Monad.
From S2P Require Import Riscv.
From S2P Require Import Types.
From S2P Require Import Mem.
From S2P Require Import Spinlock.
From S2P Require Import Kalloc.
From S2P Require Import Vm.
From S2P Require Import Proc.
From S2P Require Import Sleeplock.
From S2P Require Import Virtio.
From S2P Require Import Bio.
From S2P Require Import Log.

Definition the_inode (i : nat) (s : kstate) : inode := nth i (k_icache s) inode0.
Definition get_inode (i : nat) : K inode := gets (the_inode i).
Definition upd_inode (i : nat) (f : inode → inode) : K unit :=
  modify (λ s, set_k_icache (<[i := f (the_inode i s)]> (k_icache s)) s).

(** The fields of the on-disk [struct superblock] and [struct dinode]. *)
Definition sb_of_bytes (l : list Z) : superblock :=
  mkSuperblock (get32 0 l) (get32 4 l) (get32 8 l) (get32 12 l)
    (get32 16 l) (get32 20 l) (get32 24 l) (get32 28 l).

(** [(struct dinode* )bp->data + inum%IPB], as an offset in the data *)
Definition dinode_off (inum : Z) : Z := (inum mod IPB) * DINODE_SIZE.

Fixpoint get_addrs (n : nat) (off : Z) (l : list Z) : list Z :=
  match n with
  | O => []
  | S n' => get32 off l :: get_addrs n' (off + 4) l
  end.
Definition dinode_of_bytes (off : Z) (l : list Z) : dinode :=
  mkDinode (i16 (get16 off l)) (i16 (get16 (off + 2) l)) (i16 (get16 (off + 4) l))
    (i16 (get16 (off + 6) l)) (get32 (off + 8) l) (get_addrs 13 (off + 12) l).
Definition bytes_of_dinode (d : dinode) : list Z :=
  le_split 2 (di_type d) ++ le_split 2 (di_major d) ++ le_split 2 (di_minor d)
  ++ le_split 2 (di_nlink d) ++ le_split 4 (di_size d)
  ++ concat (le_split 4 <$> di_addrs d).
Definition put_dinode (off : Z) (d : dinode) (l : list Z) : list Z :=
  splice (Z.to_nat off) (bytes_of_dinode d) l.

(** [a[n]] of an array of bytes *)
Definition byte_at (i : Z) (l : list Z) : Z := nth (Z.to_nat i) l 0.

Section fs.
Context {SY : Symbols} {PF : PteFormat} {DD : DiskDriver}.

Definition readsb (dev : Z) : K unit :=
  let! bp := bread dev 1 in
  let! bf := get_buf bp in
  modify (set_k_sb (sb_of_bytes (b_data bf))) ;;;
  brelse bp.

Definition fsinit (dev : Z) : K unit :=
  readsb dev ;;;
  let! sb := gets k_sb in
  if sb_magic sb <>? FSMAGIC then panic "invalid file system" else
  initlog dev sb.

Definition bzero (dev bno : Z) : K unit :=
  let! bp := bread dev bno in
  upd_buf bp (set_b_data (replicate (Z.to_nat BSIZE) 0)) ;;;
  log_write bp ;;;
  brelse bp.

(** [for(bi = 0; bi < BPB && b + bi < sb.size; bi++)]: the first free bit *)
Definition bit_mask (bi : Z) : Z := Z.shiftl 1 (bi mod 8).
Definition bit_free (data : list Z) (bi : Z) : bool :=
  Z.land (byte_at (bi / 8) data) (bit_mask bi) =? 0.
Fixpoint balloc_scan (n : nat) (bi b size : Z) (data : list Z) : option Z :=
  match n with
  | O => None
  | S n' =>
      if negb (b + bi <? size) then None
      else if bit_free data bi then Some bi
      else balloc_scan n' (bi + 1) b size data
  end.
Definition mark_used (bi : Z) (data : list Z) : list Z :=
  <[Z.to_nat (bi / 8) := Z.lor (byte_at (bi / 8) data) (bit_mask bi)]> data.
Definition mark_free (bi : Z) (data : list Z) : list Z :=
  <[Z.to_nat (bi / 8) := Z.land (byte_at (bi / 8) data) (Z.lnot (bit_mask bi))]> data.

(** [for(b = 0; b < sb.size; b += BPB)] *)
Definition balloc_body (dev : Z) (b : Z) : K (Z + option Z) :=
  let! sb := gets k_sb in
  if negb (b <? sb_size sb) then ret (inr None) else
  let! bp := bread dev (BBLOCK b sb) in
  let! bf := get_buf bp in
  match balloc_scan (Z.to_nat BPB) 0 b (sb_size sb) (b_data bf) with
  | Some bi =>
      upd_buf bp (λ bf, set_b_data (mark_used bi (b_data bf)) bf) ;;;
      log_write bp ;;;
      brelse bp ;;;
      bzero dev (b + bi) ;;;
      ret (inr (Some (b + bi)))
  | None =>
      brelse bp ;;;
      ret (inl (b + BPB))
  end.
Definition balloc (dev : Z) : K Z :=
  let! r := loop (balloc_body dev) 0 in
  match r with
  | Some b => ret b
  | None => panic "balloc: out of blocks"
  end.

Definition bfree (dev b : Z) : K unit :=
  let! sb := gets k_sb in
  let! bp := bread dev (BBLOCK b sb) in
  let bi := b mod BPB in
  let! bf := get_buf bp in
  if bit_free (b_data bf) bi then panic "freeing free block" else
  upd_buf bp (λ bf, set_b_data (mark_free bi (b_data bf)) bf) ;;;
  log_write bp ;;;
  brelse bp.

(** ** Inodes *)

Definition iinit : K unit :=
  initlock LIcache "icache" ;;;
  let! _ := for_ (R := unit) NINODE 0 (λ i,
    initsleeplock (SInode i) "inode" ;;; ret None) in
  ret ().

(** The loop of [iget]: [inl] is a cached entry, [inr] the first empty slot. *)
Fixpoint iget_scan (n i : nat) (dev inum : Z) (empty : option nat) (l : list inode) :
    nat + option nat :=
  match n with
  | O => inr empty
  | S n' =>
      let ip := nth i l inode0 in
      if (0 <? i_ref ip) && (i_dev ip =? dev) && (i_inum ip =? inum) then inl i
      else iget_scan n' (S i) dev inum
             (match empty with
              | None => if i_ref ip =? 0 then Some i else None
              | Some e => Some e
              end) l
  end.

Definition iget (dev inum : Z) : K nat :=
  acquire LIcache ;;;
  let! l := gets k_icache in
  match iget_scan NINODE 0 dev inum None l with
  | inl ip =>
      upd_inode ip (λ ip, set_i_ref (i_ref ip + 1) ip) ;;;
      release LIcache ;;;
      ret ip
  | inr None => panic "iget: no inodes"
  | inr (Some ip) =>
      upd_inode ip (set_i_dev dev) ;;;
      upd_inode ip (set_i_inum inum) ;;;
      upd_inode ip (set_i_ref 1) ;;;
      upd_inode ip (set_i_valid 0) ;;;
      release LIcache ;;;
      ret ip
  end.

(** [for(inum = 1; inum < sb.ninodes; inum++)] *)
Definition ialloc_body (dev type : Z) (inum : Z) : K (Z + option nat) :=
  let! sb := gets k_sb in
  if negb (inum <? sb_ninodes sb) then ret (inr None) else
  let! bp := bread dev (IBLOCK inum sb) in
  let! bf := get_buf bp in
  let off := dinode_off inum in
  if get16 off (b_data bf) =? 0 then
    upd_buf bp (λ bf, set_b_data
      (splice (Z.to_nat off) (le_split 2 type ++ replicate 62 0) (b_data bf)) bf) ;;;
    log_write bp ;;;
    brelse bp ;;;
    let! ip := iget dev inum in
    ret (inr (Some ip))
  else
    brelse bp ;;;
    ret (inl (inum + 1)).
Definition ialloc (dev type : Z) : K nat :=
  let! r := loop (ialloc_body dev type) 1 in
  match r with
  | Some ip => ret ip
  | None => panic "ialloc: no inodes"
  end.

Definition dinode_of_inode (ip : inode) : dinode :=
  mkDinode (i_type ip) (i_major ip) (i_minor ip) (i_nlink ip) (i_size ip) (i_addrs ip).

Definition iupdate (i : nat) : K unit :=
  let! ip := get_inode i in
  let! sb := gets k_sb in
  let! bp := bread (i_dev ip) (IBLOCK (i_inum ip) sb) in
  upd_buf bp (λ bf, set_b_data
    (put_dinode (dinode_off (i_inum ip)) (dinode_of_inode ip) (b_data bf)) bf) ;;;
  log_write bp ;;;
  brelse bp.

Definition idup (i : nat) : K nat :=
  acquire LIcache ;;;
  upd_inode i (λ ip, set_i_ref (i_ref ip + 1) ip) ;;;
  release LIcache ;;;
  ret i.

Definition load_inode (d : dinode) (ip : inode) : inode :=
  mkInode (i_dev ip) (i_inum ip) (i_ref ip) (i_valid ip) (di_type d) (di_major d) (di_minor d)
    (di_nlink d) (di_size d) (di_addrs d).

Definition ilock (o : option nat) : K unit :=
  match o with
  | None => panic "ilock"
  | Some i =>
      let! ip := get_inode i in
      if i_ref ip <? 1 then panic "ilock" else
      acquiresleep (SInode i) ;;;
      let! ip := get_inode i in
      if i_valid ip =? 0 then
        let! sb := gets k_sb in
        let! bp := bread (i_dev ip) (IBLOCK (i_inum ip) sb) in
        let! bf := get_buf bp in
        upd_inode i (load_inode (dinode_of_bytes (dinode_off (i_inum ip)) (b_data bf))) ;;;
        brelse bp ;;;
        upd_inode i (set_i_valid 1) ;;;
        let! ip := get_inode i in
        if i_type ip =? 0 then panic "ilock: no type" else ret ()
      else ret ()
  end.

Definition iunlock (o : option nat) : K unit :=
  match o with
  | None => panic "iunlock"
  | Some i =>
      let! h := holdingsleep (SInode i) in
      if negb h then panic "iunlock" else
      let! ip := get_inode i in
      if i_ref ip <? 1 then panic "iunlock" else
      releasesleep (SInode i)
  end.

(** ** Inode content *)

Definition bmap (i : nat) (bn : Z) : K Z :=
  let! ip := get_inode i in
  if bn <? NDIRECT then
    let addr := nth (Z.to_nat bn) (i_addrs ip) 0 in
    if addr =? 0 then
      let! addr := balloc (i_dev ip) in
      upd_inode i (λ ip, set_i_addrs (<[Z.to_nat bn := addr]> (i_addrs ip)) ip) ;;;
      ret addr
    else ret addr
  else
  let bn := bn - NDIRECT in
  if bn <? NINDIRECT then
    let addr := nth (Z.to_nat NDIRECT) (i_addrs ip) 0 in
    let! addr := (if addr =? 0 then
      let! addr := balloc (i_dev ip) in
      upd_inode i (λ ip, set_i_addrs (<[Z.to_nat NDIRECT := addr]> (i_addrs ip)) ip) ;;;
      ret addr
    else ret addr) in
    let! bp := bread (i_dev ip) addr in
    let! bf := get_buf bp in
    let addr := get32 (4 * bn) (b_data bf) in
    let! addr := (if addr =? 0 then
      let! addr := balloc (i_dev ip) in
      upd_buf bp (λ bf, set_b_data (put32 (4 * bn) addr (b_data bf)) bf) ;;;
      log_write bp ;;;
      ret addr
    else ret addr) in
    brelse bp ;;;
    ret addr
  else panic "bmap: out of range".

Definition itrunc (i : nat) : K unit :=
  let! _ := for_ (R := unit) (Z.to_nat NDIRECT) 0 (λ k,
    let! ip := get_inode i in
    let addr := nth k (i_addrs ip) 0 in
    when (addr <>? 0)
      (bfree (i_dev ip) addr ;;;
       upd_inode i (λ ip, set_i_addrs (<[k := 0]> (i_addrs ip)) ip)) ;;;
    ret None) in
  let! ip := get_inode i in
  let addr := nth (Z.to_nat NDIRECT) (i_addrs ip) 0 in
  when (addr <>? 0)
    (let! bp := bread (i_dev ip) addr in
     let! _ := for_ (R := unit) (Z.to_nat NINDIRECT) 0 (λ j,
       let! bf := get_buf bp in
       let a := get32 (4 * Z.of_nat j) (b_data bf) in
       when (a <>? 0) (bfree (i_dev ip) a) ;;;
       ret None) in
     brelse bp ;;;
     bfree (i_dev ip) addr ;;;
     upd_inode i (λ ip, set_i_addrs (<[Z.to_nat NDIRECT := 0]> (i_addrs ip)) ip)) ;;;
  upd_inode i (set_i_size 0) ;;;
  iupdate i.

Definition iput (i : nat) : K unit :=
  acquire LIcache ;;;
  let! ip := get_inode i in
  when ((i_ref ip =? 1) && (i_valid ip <>? 0) && (i_nlink ip =? 0))
    (acquiresleep (SInode i) ;;;
     release LIcache ;;;
     itrunc i ;;;
     upd_inode i (set_i_type 0) ;;;
     iupdate i ;;;
     upd_inode i (set_i_valid 0) ;;;
     releasesleep (SInode i) ;;;
     acquire LIcache) ;;;
  upd_inode i (λ ip, set_i_ref (i_ref ip - 1) ip) ;;;
  release LIcache.

Definition iunlockput (o : option nat) : K unit :=
  iunlock o ;;;
  let! i := deref o in
  iput i.

Definition stati (i : nat) : K stat :=
  let! ip := get_inode i in
  ret (mkStat (i_dev ip) (i_inum ip) (i_type ip) (i_nlink ip) (i_size ip)).

(** [for(tot=0; tot<n; tot+=m, off+=m, dst+=m)]: the loop variables of [readi] *)
Definition readi_body (i : nat) (user_dst : bool) (n : Z) (x : Z * Z * Z) :
    K (Z * Z * Z + Z) :=
  let '(tot, off, dst) := x in
  if negb (tot <? n) then ret (inr tot) else
  let! ip := get_inode i in
  let! addr := bmap i (off / BSIZE) in
  let! bp := bread (i_dev ip) addr in
  let m := Z.min (n - tot) (BSIZE - off mod BSIZE) in
  let! bf := get_buf bp in
  let! r := either_copyout user_dst dst
              (slice (Z.to_nat (off mod BSIZE)) (Z.to_nat m) (b_data bf)) in
  if r =? -1 then brelse bp ;;; ret (inr tot)
  else brelse bp ;;; ret (inl (u32 (tot + m), u32 (off + m), u64 (dst + m))).

Definition readi (i : nat) (user_dst : bool) (dst off n : Z) : K Z :=
  let! ip := get_inode i in
  if (i_size ip <? off) || (u32 (off + n) <? off) then ret 0 else
  let n := if i_size ip <? u32 (off + n) then u32 (i_size ip - off) else n in
  let! tot := loop (readi_body i user_dst n) (0, off, dst) in
  ret (i32 tot).

Definition writei_body (i : nat) (user_src : bool) (n : Z) (x : Z * Z * Z) :
    K (Z * Z * Z + Z) :=
  let '(tot, off, src) := x in
  if negb (tot <? n) then ret (inr off) else
  let! ip := get_inode i in
  let! addr := bmap i (off / BSIZE) in
  let! bp := bread (i_dev ip) addr in
  let m := Z.min (n - tot) (BSIZE - off mod BSIZE) in
  let! (l, r) := either_copyin user_src src m in
  upd_buf bp (λ bf, set_b_data (splice (Z.to_nat (off mod BSIZE)) l (b_data bf)) bf) ;;;
  if r =? -1 then brelse bp ;;; ret (inr off)
  else
    log_write bp ;;;
    brelse bp ;;;
    ret (inl (u32 (tot + m), u32 (off + m), u64 (src + m))).

Definition writei (i : nat) (user_src : bool) (src off n : Z) : K Z :=
  let! ip := get_inode i in
  if (i_size ip <? off) || (u32 (off + n) <? off) then ret (-1) else
  if MAXFILE * BSIZE <? u32 (off + n) then ret (-1) else
  let! off := loop (writei_body i user_src n) (0, off, src) in
  when (0 <? n)
    (let! ip := get_inode i in
     when (i_size ip <? off) (upd_inode i (set_i_size off)) ;;;
     iupdate i) ;;;
  ret (i32 n).

(** ** Directories *)

Definition namecmp (s t : list Z) : Z := strncmp (at_list s) (at_list t) DIRSIZ.

(** The [struct dirent] at [stk] *)
Definition de_inum_at (m : gmap Z Z) : Z := le_join (load_bytes m stk 2).
Definition de_name_at (m : gmap Z Z) : list Z := load_bytes m (stk + 2) 14.

(** [for(off = 0; off < dp->size; off += sizeof(de))] *)
Definition dirlookup_body (dp : nat) (name : list Z) (off : Z) : K (Z + option (nat * Z)) :=
  let! d := get_inode dp in
  if negb (off <? i_size d) then ret (inr None) else
  let! r := readi dp false stk off DIRENT_SIZE in
  if r <>? DIRENT_SIZE then panic "dirlookup read" else
  let! m := gets k_mem in
  if de_inum_at m =? 0 then ret (inl (u32 (off + DIRENT_SIZE))) else
  if namecmp name (de_name_at m) =? 0 then
    let! d := get_inode dp in
    let! ip := iget (i_dev d) (de_inum_at m) in
    ret (inr (Some (ip, off)))
  else ret (inl (u32 (off + DIRENT_SIZE))).

(** The inode found and the offset stored through [poff] *)
Definition dirlookup (dp : nat) (name : list Z) : K (option (nat * Z)) :=
  let! d := get_inode dp in
  if i_type d <>? T_DIR then panic "dirlookup not DIR" else
  loop (dirlookup_body dp name) 0.

Definition dirlink_body (dp : nat) (off : Z) : K (Z + Z) :=
  let! d := get_inode dp in
  if negb (off <? i_size d) then ret (inr off) else
  let! r := readi dp false stk off DIRENT_SIZE in
  if r <>? DIRENT_SIZE then panic "dirlink read" else
  let! m := gets k_mem in
  if de_inum_at m =? 0 then ret (inr off) else ret (inl (off + DIRENT_SIZE)).

Definition dirlink (dp : nat) (name : list Z) (inum : Z) : K Z :=
  let! r := dirlookup dp name in
  match r with
  | Some (ip, _) => iput ip ;;; ret (-1)
  | None =>
      let! off := loop (dirlink_body dp) 0 in
      upd_mem (λ m, store_bytes m (stk + 2) (strncpy (de_name_at m) (at_list name) DIRSIZ)) ;;;
      upd_mem (λ m, store_bytes m stk (le_split 2 inum)) ;;;
      let! r := writei dp false stk (u32 off) DIRENT_SIZE in
      if r <>? DIRENT_SIZE then panic "dirlink" else ret 0
  end.

(** ** Paths *)

Definition SLASH : Z := 47.

(** [while( *path == '/' ) path++;] *)
Fixpoint skip_slashes (path : list Z) : list Z :=
  match path with
  | c :: path' => if c =? SLASH then skip_slashes path' else path
  | [] => []
  end.
(** [while( *path != '/' && *path != 0 ) path++;]: the element and the rest *)
Fixpoint take_elem (path : list Z) : list Z * list Z :=
  match path with
  | c :: path' =>
      if c =? SLASH then ([], path)
      else let '(e, rest) := take_elem path' in (c :: e, rest)
  | [] => ([], [])
  end.

(** The rest of the path and the new contents of [name] *)
Definition skipelem (path name : list Z) : option (list Z * list Z) :=
  let path := skip_slashes path in
  match path with
  | [] => None
  | _ =>
      let '(s, path) := take_elem path in
      let len := Z.of_nat (length s) in
      let name := if DIRSIZ <=? len then splice 0 (take (Z.to_nat DIRSIZ) s) name
                  else <[length s := 0]> (splice 0 s name) in
      Some (skip_slashes path, name)
  end.

(** The body of the [while] of [namex]; it leaves with the inode or null, and [name]. *)
Definition namex_body (nameiparent : bool) (x : nat * list Z * list Z) :
    K (nat * list Z * list Z + option nat * list Z) :=
  let '(ip, path, name) := x in
  match skipelem path name with
  | None =>
      if nameiparent then iput ip ;;; ret (inr (None, name))
      else ret (inr (Some ip, name))
  | Some (path, name) =>
      ilock (Some ip) ;;;
      let! d := get_inode ip in
      if i_type d <>? T_DIR then iunlockput (Some ip) ;;; ret (inr (None, name)) else
      if nameiparent && bool_decide (path = []) then
        iunlock (Some ip) ;;; ret (inr (Some ip, name))
      else
      let! next := dirlookup ip name in
      match next with
      | None => iunlockput (Some ip) ;;; ret (inr (None, name))
      | Some (next, _) => iunlockput (Some ip) ;;; ret (inl (next, path, name))
      end
  end.

Definition namex (path : list Z) (nameiparent : bool) (name : list Z) :
    K (option nat * list Z) :=
  let! ip := (if nth 0 path 0 =? SLASH then iget ROOTDEV ROOTINO
              else
                let! p := curproc in
                let! pr := get_proc p in
                let! cwd := deref (p_cwd pr) in
                idup cwd) in
  loop (namex_body nameiparent) (ip, path, name).

Definition namei (path : list Z) : K (option nat) :=
  let! (ip, _) := namex path false (replicate (Z.to_nat DIRSIZ) 0) in
  ret ip.

Definition nameiparent (path name : list Z) : K (option nat * list Z) := namex path true name.
End fs.
