(* ===== verification/FsSpec.v ===== *)
(** * The block allocator and the inodes on disk

    Inside a transaction, [balloc] and [bfree] move blocks between free and used in the
    bitmap, and [iupdate] and [ilock] move an inode to the disk and back. *)

From stdpp Require Import prelude gmap strings list.
From Stdlib Require Import ZArith Lia.
From S2P Require Import Prelude.
From S2P Require Import Monad.
From S2P Require Import Riscv.
From S2P Require Import Types.
From S2P Require Import Mem.
From S2P Require Import Spinlock.
From S2P Require Import Kalloc.
From S2P Require Import Proc.
From S2P Require Import ProcSpec.
From S2P Require Import Sleeplock.
From S2P Require Import Virtio.
From S2P Require Import Bio.
From S2P Require Import BioSpec.
From S2P Require Import Cache.
From S2P Require Import Log.
From S2P Require Import LogSpec.
From S2P Require Import LogOps.
From S2P Require Import Txn.
From S2P Require Import Fs.

(** ** Bits of a bitmap block *)

(** Bit [bi] of the block. *)
Definition bit (data : list Z) (bi : Z) : bool := Z.testbit (byte_at (bi / 8) data) (bi mod 8).

Lemma bit_free_bit data bi : bit_free data bi = negb (bit data bi).
Proof.
  unfold bit_free, bit, bit_mask. rewrite Z.shiftl_1_l. set (x := byte_at _ _).
  assert (0 ≤ bi mod 8 < 8) by (apply Z.mod_pos_bound; lia).
  destruct (Z.testbit x (bi mod 8)) eqn:E; simpl.
  - apply Z.eqb_neq. intros H0. apply (f_equal (λ z, Z.testbit z (bi mod 8))) in H0.
    by rewrite Z.land_spec, E, Z.pow2_bits_true, Z.bits_0 in H0 by lia.
  - apply Z.eqb_eq. apply Z.bits_inj'. intros j Hj. rewrite Z.land_spec, Z.bits_0.
    destruct (decide (j = bi mod 8)) as [->|Hne]; [by rewrite E|]. rewrite Z.pow2_bits_false by lia. apply andb_false_r.
Qed.

Lemma byte_at_insert data i j x : 0 ≤ i → 0 ≤ j < Z.of_nat (length data) →
  byte_at i (<[Z.to_nat j := x]> data) = if decide (i = j) then x else byte_at i data.
Proof.
  intros Hi Hj. unfold byte_at. rewrite !nth_lookup. case_decide; subst.
  - by rewrite list_lookup_insert_eq by lia.
  - by rewrite list_lookup_insert_ne by lia.
Qed.

Lemma bit_index bi bj : 0 ≤ bi → 0 ≤ bj → bi / 8 = bj / 8 → bi mod 8 = bj mod 8 → bi = bj.
Proof. intros. rewrite (Z.div_mod bi 8), (Z.div_mod bj 8) by lia. lia. Qed.

Lemma bit_mark_used data bi bj : length data = 1024%nat → 0 ≤ bi < BPB → 0 ≤ bj < BPB →
  bit (mark_used bi data) bj = (bj =? bi) || bit data bj.
Proof.
  intros Hl Hi Hj. change BPB with 8192 in *. unfold bit, mark_used. rewrite byte_at_insert by mlia.
  unfold bit_mask. rewrite Z.shiftl_1_l. assert (0 ≤ bi mod 8 < 8 ∧ 0 ≤ bj mod 8 < 8) as [? ?] by (split; apply Z.mod_pos_bound; lia).
  destruct (Z.eqb_spec bj bi) as [->|Hne].
  - rewrite decide_True by done. rewrite Z.lor_spec, Z.pow2_bits_true by lia. by rewrite orb_true_r.
  - case_decide as E; [|done]. rewrite E, Z.lor_spec, Z.pow2_bits_false; [by rewrite orb_false_r|].
    intros E'. apply Hne. by apply bit_index; [lia|lia|..].
Qed.

Lemma bit_mark_free data bi bj : length data = 1024%nat → 0 ≤ bi < BPB → 0 ≤ bj < BPB →
  bit (mark_free bi data) bj = negb (bj =? bi) && bit data bj.
Proof.
  intros Hl Hi Hj. change BPB with 8192 in *. unfold bit, mark_free. rewrite byte_at_insert by mlia.
  unfold bit_mask. rewrite Z.shiftl_1_l. assert (0 ≤ bi mod 8 < 8 ∧ 0 ≤ bj mod 8 < 8) as [? ?] by (split; apply Z.mod_pos_bound; lia).
  destruct (Z.eqb_spec bj bi) as [->|Hne].
  - rewrite decide_True by done. rewrite Z.land_spec, Z.lnot_spec, Z.pow2_bits_true by lia. by rewrite andb_false_r.
  - case_decide as E; [|done]. rewrite E, Z.land_spec, Z.lnot_spec, Z.pow2_bits_false by lia || (intros E'; apply Hne; by apply bit_index; [lia|lia|..]).
    by rewrite andb_true_r.
Qed.

Lemma balloc_scan_some n bi b size data r :
  balloc_scan n bi b size data = Some r →
  bi ≤ r < bi + Z.of_nat n ∧ b + r < size ∧ bit data r = false ∧ ∀ j, bi ≤ j < r → bit data j = true.
Proof.
  revert bi. induction n as [|n IH]; intros bi; cbn [balloc_scan]; [done|]. rewrite bit_free_bit.
  destruct (Z.ltb_spec (b + bi) size); simpl; [|done]. destruct (bit data bi) eqn:E; simpl.
  - intros (H1 & H2 & H3 & H4)%IH. split_and!; try lia; try done. intros j Hj. destruct (decide (j = bi)) as [->|]; [done|]. apply H4. lia.
  - intros [= <-]. split_and!; try lia; try done.
Qed.

Lemma balloc_scan_none n bi b size data :
  balloc_scan n bi b size data = None → ∀ j, bi ≤ j < bi + Z.of_nat n → b + j < size → bit data j = true.
Proof.
  revert bi. induction n as [|n IH]; intros bi; cbn [balloc_scan]; [intros _ j; lia|]. rewrite bit_free_bit.
  destruct (Z.ltb_spec (b + bi) size) as [Hlt|Hge]; simpl; [|intros _ j Hj Hs; lia].
  destruct (bit data bi) eqn:E; simpl; [|done]. intros Hn j Hj Hs.
  destruct (decide (j = bi)) as [->|]; [done|]. apply (IH _ Hn); [lia|done].
Qed.

Section fs.
Context {DD : DiskDriver} {DL : DiskLaws}.

(** ** The block allocator *)

(** Block [b] is in use, says the bitmap. *)
Definition used (s : kstate) (b : Z) : bool := bit (blk s (BBLOCK b (k_sb s))) (b mod BPB).

(** The layout of the disk: the bitmap is not in the log, and what is free is neither in
    the log nor in the bitmap. *)
Record layout (s : kstate) : Prop := mklayout {
  ly_size : 0 < sb_size (k_sb s) < 2 ^ 31;
  ly_start : 0 ≤ sb_bmapstart (k_sb s);
  ly_end : sb_bmapstart (k_sb s) + sb_size (k_sb s) / BPB < 2 ^ 31;
  ly_bmap : ∀ b, 0 ≤ b < sb_size (k_sb s) → ¬ in_log (lg_start (k_log s)) (BBLOCK b (k_sb s));
  ly_free : ∀ b, 0 ≤ b < sb_size (k_sb s) → used s b = false →
    ¬ in_log (lg_start (k_log s)) b ∧ ∀ c, 0 ≤ c < sb_size (k_sb s) → b ≠ BBLOCK c (k_sb s)
}.

Lemma bblock_eq s b : layout s → 0 ≤ b < sb_size (k_sb s) →
  BBLOCK b (k_sb s) = b / BPB + sb_bmapstart (k_sb s) ∧ 0 ≤ BBLOCK b (k_sb s) < 2 ^ 31.
Proof.
  intros [H1 H2 H3 _ _] Hb. unfold BBLOCK. change BPB with 8192 in *.
  assert (0 ≤ b / 8192 ≤ sb_size (k_sb s) / 8192) by (split; [apply Z.div_pos; lia|apply Z.div_le_mono; lia]).
  rewrite u32_small by lia. lia.
Qed.

Lemma bblock_inj s b c : layout s → 0 ≤ b < sb_size (k_sb s) → 0 ≤ c < sb_size (k_sb s) →
  BBLOCK b (k_sb s) = BBLOCK c (k_sb s) → b mod BPB = c mod BPB → b = c.
Proof.
  intros Hl Hb Hc E Em. rewrite (proj1 (bblock_eq s b Hl Hb)), (proj1 (bblock_eq s c Hl Hc)) in E.
  rewrite (Z.div_mod b BPB), (Z.div_mod c BPB) by done. nia.
Qed.

(** The buffers that are held while a block is allocated hold neither the bitmap nor free blocks. *)
Definition held_used (H : gmap nat Z) (s : kstate) : Prop := ∀ i m, H !! i = Some m →
  (∀ c, 0 ≤ c < sb_size (k_sb s) → m ≠ BBLOCK c (k_sb s)) ∧ (0 ≤ m < sb_size (k_sb s) → used s m = true).

Lemma same_used s s' b : same s s' → used s' b = used s b.
Proof. intros [Hk Hb]. unfold used. by rewrite (kept_sb _ _ Hk), Hb. Qed.

Lemma same_layout s s' : same s s' → layout s → layout s'.
Proof.
  intros Hs [H1 H2 H3 H4 H5]. pose proof Hs as [Hk _]. pose proof (kept_sb _ _ Hk) as E. pose proof (kp_start _ _ Hk) as E2.
  split; rewrite ?E, ?E2; try done. intros b Hb. rewrite (same_used s s') by done. by apply H5.
Qed.

Lemma same_held_used H s s' : same s s' → held_used H s → held_used H s'.
Proof.
  intros Hs Hh i m Hm. rewrite (kept_sb _ _ (proj1 Hs)), (same_used s s') by done. by apply (Hh i).
Qed.

(** [r] has been allocated: its bit is set, it is zero, and no other block has changed. *)
Record allocated (r : Z) (s s' : kstate) : Prop := mkallocated {
  al_kept : kept s s';
  al_range : 0 ≤ r < sb_size (k_sb s);
  al_free : used s r = false;
  al_first : ∀ b, 0 ≤ b < r → used s b = true;
  al_used : ∀ b, 0 ≤ b < sb_size (k_sb s) → used s' b = (b =? r) || used s b;
  al_zero : blk s' r = zero_block;
  al_other : ∀ m, m ≠ r → m ≠ BBLOCK r (k_sb s) → blk s' m = blk s m
}.

Lemma wrote_used r d s s' : layout s → 0 ≤ r < sb_size (k_sb s) →
  wrote_block (BBLOCK r (k_sb s)) d s s' → (∀ bj, 0 ≤ bj < BPB → bit d bj = (bj =? r mod BPB) || bit (blk s (BBLOCK r (k_sb s))) bj) →
  ∀ b, 0 ≤ b < sb_size (k_sb s) → used s' b = (b =? r) || used s b.
Proof.
  intros Hl Hr [Hk Hb] Hd b Hbr. unfold used. rewrite (kept_sb _ _ Hk), Hb. case_decide as E.
  - rewrite Hd, E by (by apply Z.mod_pos_bound). f_equal. destruct (Z.eqb_spec b r) as [->|Hne]; [by apply Z.eqb_refl|].
    apply Z.eqb_neq. intros Em. apply Hne. by apply (bblock_inj s).
  - destruct (Z.eqb_spec b r) as [->|]; [done|]. done.
Qed.

Lemma bzero_ok p H k r s :
  txn p H (k + 1) s → 0 ≤ r < 2 ^ 31 → ¬ in_log (lg_start (k_log s)) r → (∀ b m, H !! b = Some m → m ≠ r) →
  Z.of_nat (size H) + 1 ≤ k → wp (bzero ROOTDEV r) (λ _ s', txn p H k s' ∧ wrote_block r zero_block s s') s.
Proof.
  intros Ht Hr Hnl Hne Hk. unfold bzero. rewrite wp_bind.
  eapply wp_mono; [apply (txn_bread p H (k + 1)); [done|done|done|lia]|]. intros b s1 (Hb & Ht1 & Hk1 & Hb1).
  apply (txn_put p (<[b := r]> H) k b r (λ _, zero_block)); [done|apply lookup_insert_eq|done| | |].
  { by rewrite (kp_start _ _ Hk1). } { rewrite map_size_insert_None by done. lia. }
  intros s2 Ht2 [Hk2 Hb2]. eapply wp_mono; [eapply (txn_brelse p); [exact Ht2|apply lookup_insert_eq]|].
  intros [] s3 (Ht3 & Hk3 & Hb3). rewrite delete_insert_id in Ht3 by done. split; [done|].
  split; [by do 2 (etrans; [done|])|]. intros m. rewrite Hb3, Hb2, Hb1. done.
Qed.

(** The bit of [r = b + bi] is set and [r] is zeroed. *)
Lemma balloc_found p H k s1 s2 s3 r d :
  layout s1 → held_used H s1 → 0 ≤ r < sb_size (k_sb s1) → used s1 r = false → (∀ b, 0 ≤ b < r → used s1 b = true) →
  (∀ bj, 0 ≤ bj < BPB → bit d bj = (bj =? r mod BPB) || bit (blk s1 (BBLOCK r (k_sb s1))) bj) →
  wrote_block (BBLOCK r (k_sb s1)) d s1 s2 → same s2 s3 → txn p H (k + 1) s3 → Z.of_nat (size H) + 1 ≤ k →
  wp (bzero ROOTDEV r) (λ _ s', txn p H k s' ∧ allocated r s1 s') s3.
Proof.
  intros Hl Hh Hr Hf Hfirst Hd Hw Hs Ht Hk. pose proof (ly_size _ Hl). destruct (ly_free _ Hl r Hr Hf) as [Hnl Hnb].
  pose proof Hw as [Hk2 Hb2]. pose proof Hs as [Hk3 Hb3].
  eapply wp_mono; [apply (bzero_ok p H k r); [done|lia| | |done]|].
  - by rewrite (kp_start _ _ Hk3), (kp_start _ _ Hk2).
  - intros i m Hm ->. destruct (Hh i r Hm) as [_ Hu]. rewrite Hf in Hu. by specialize (Hu Hr).
  - intros [] s4 (Ht4 & Hk4 & Hb4). split; [done|].
    assert (Hkk : kept s1 s4) by (do 2 (etrans; [done|]); done).
    split; try done.
    + intros b Hb. rewrite <- (wrote_used r d s1 s2) by done. unfold used.
      rewrite (kept_sb _ _ Hkk), (kept_sb _ _ Hk2), Hb4, Hb3. case_decide as E; [|done]. by destruct (Hnb b Hb).
    + rewrite Hb4. by rewrite decide_True.
    + intros m Hm1 Hm2. rewrite Hb4, decide_False, Hb3, Hb2, decide_False by done. done.
Qed.

Lemma balloc_ok p H k s :
  txn p H (k + 2) s → layout s → held_used H s → Z.of_nat (size H) + 1 ≤ k →
  (∃ b, 0 ≤ b < sb_size (k_sb s) ∧ used s b = false) →
  wp (balloc ROOTDEV) (λ r s', txn p H k s' ∧ allocated r s s') s.
Proof.
  intros Ht Hl Hh Hk (f & Hf & Hff). unfold balloc. rewrite wp_bind. set (sz := sb_size (k_sb s)) in *.
  pose proof (ly_size _ Hl) as Hsz. fold sz in Hsz.
  apply (wp_loop (balloc_body ROOTDEV) (λ b t, b mod BPB = 0 ∧ 0 ≤ b ∧ txn p H (k + 2) t ∧ same s t ∧
      ∀ c, 0 ≤ c < b → c < sz → used s c = true) (λ b _, Z.max 0 (2 ^ 40 - b))); [lia| | |lia].
  2:{ split_and!; try done. intros c; lia. }
  intros b t (Hbm & Hb0 & Htt & Hst & Hbefore). pose proof (kept_sb _ _ (proj1 Hst)) as Esb.
  unfold balloc_body. rewrite wp_bind, wp_gets, Esb. fold sz.
  destruct (Z.ltb_spec b sz) as [Hlt|Hge]; cbn [negb].
  2:{ rewrite (Hbefore f) in Hff by lia. done. }
  destruct (bblock_eq s b Hl) as [Ebb Hbb]; [lia|]. rewrite wp_bind.
  eapply wp_mono; [apply (txn_bread p H (k + 2)); [done|done| |lia]|].
  { intros i m Hm ->. destruct (Hh i _ Hm) as [Hn _]. by apply (Hn b); [lia|]. }
  intros bp t1 (Hbp & Ht1 & Hs1). rewrite wp_bind. eapply wp_ok; [apply get_buf_eq|].
  rewrite (txn_data p _ _ bp _ _ Ht1) by apply lookup_insert_eq.
  assert (Hs : same s t1) by (by etrans). assert (Ed : blk t1 (BBLOCK b (k_sb s)) = blk s (BBLOCK b (k_sb s))) by apply Hs.
  rewrite Ed. set (data := blk s (BBLOCK b (k_sb s))) in *. pose proof (txn_len _ _ _ _ (BBLOCK b (k_sb s)) Ht) as Hlen. fold data in Hlen.
  assert (Hsame : ∀ bi, 0 ≤ bi < BPB → b + bi < sz → BBLOCK (b + bi) (k_sb s) = BBLOCK b (k_sb s) ∧ (b + bi) mod BPB = bi).
  { intros bi Hbi Hlim. destruct (bblock_eq s (b + bi) Hl) as [E _]; [lia|]. rewrite E, Ebb. change BPB with 8192 in *. split; mlia. }
  assert (Hused : ∀ bi, 0 ≤ bi < BPB → b + bi < sz → used s (b + bi) = bit data bi).
  { intros bi Hbi Hlim. unfold used. destruct (Hsame bi Hbi Hlim) as [-> ->]. done. }
  destruct (balloc_scan (Z.to_nat BPB) 0 b sz data) as [bi|] eqn:Escan.
  - apply balloc_scan_some in Escan as (Hbi & Hlim & Hbit & Hbelow). rewrite Z2Nat.id in Hbi by done.
    destruct (Hsame bi) as [E1 E2]; [lia|done|].
    apply (txn_put p (<[bp := BBLOCK b (k_sb s)]> H) (k + 1) bp (BBLOCK b (k_sb s)) (mark_used bi));
      [by replace (k + 1 + 1) with (k + 2) by lia|apply lookup_insert_eq| | | |].
    { rewrite Ed. unfold mark_used. by rewrite length_insert. }
    { rewrite (kp_start _ _ (proj1 Hs)). apply (ly_bmap _ Hl). lia. }
    { rewrite map_size_insert_None by done. lia. }
    intros t2 Ht2 Hw2. rewrite wp_bind. eapply wp_mono; [eapply (txn_brelse p); [exact Ht2|apply lookup_insert_eq]|].
    intros [] t3 (Ht3 & Hs3). rewrite delete_insert_id in Ht3 by done. rewrite wp_bind.
    pose proof (same_layout s t1 Hs Hl) as Hl1. pose proof (kept_sb _ _ (proj1 Hs)) as Esb1.
    eapply wp_mono; [apply (balloc_found p H k t1 t2 t3 (b + bi) (mark_used bi (blk t1 (BBLOCK b (k_sb s))))); try done|].
    + by apply (same_held_used H s).
    + rewrite Esb1. fold sz. lia.
    + rewrite (same_used s t1), Hused by (done || lia). done.
    + intros c Hc. rewrite (same_used s t1) by done. destruct (decide (c < b)) as [Hcb|Hcb]; [apply Hbefore; lia|].
      replace c with (b + (c - b)) by lia. rewrite Hused by lia. apply Hbelow. lia.
    + intros bj Hbj. rewrite Esb1, E1, E2, Ed. apply bit_mark_used; [done|lia|done].
    + rewrite Esb1, E1. exact Hw2.
    + intros [] t4 (Ht4 & Ha). rewrite wp_ret. cbv iota. rewrite wp_ret. split; [done|].
      destruct Ha as [A1 A2 A3 A4 A5 A6 A7]. rewrite Esb1 in *. split; try done.
      * etrans; [apply Hs|done].
      * by rewrite (same_used s t1) in A3 by done.
      * intros c Hc. rewrite <- (same_used s t1) by done. by apply A4.
      * intros c Hc. rewrite <- (same_used s t1 c) by done. by apply A5.
      * intros m Hm1 Hm2. rewrite A7 by done. apply Hs.
  - rewrite wp_bind. eapply wp_mono; [eapply (txn_brelse p); [exact Ht1|apply lookup_insert_eq]|].
    intros [] t2 (Ht2 & Hs2). rewrite delete_insert_id in Ht2 by done. rewrite wp_ret. change BPB with 8192 in *. split; [|lia].
    split_and!; [mlia|lia|done|by etrans|]. intros c Hc Hcs. destruct (decide (c < b)) as [Hcb|Hcb]; [apply Hbefore; lia|].
    replace c with (b + (c - b)) by lia. rewrite Hused by lia. by apply (balloc_scan_none _ _ _ _ _ Escan); lia.
Qed.

Lemma bfree_ok p H k b s :
  txn p H (k + 1) s → layout s → held_used H s → Z.of_nat (size H) + 1 ≤ k →
  0 ≤ b < sb_size (k_sb s) → used s b = true →
  wp (bfree ROOTDEV b) (λ _ s', txn p H k s' ∧ kept s s' ∧
    (∀ c, 0 ≤ c < sb_size (k_sb s) → used s' c = negb (c =? b) && used s c) ∧
    (∀ m, m ≠ BBLOCK b (k_sb s) → blk s' m = blk s m)) s.
Proof.
  intros Ht Hl Hh Hk Hb Hu. unfold bfree. rewrite wp_bind, wp_gets. destruct (bblock_eq s b Hl Hb) as [Ebb Hbb].
  rewrite wp_bind. eapply wp_mono; [apply (txn_bread p H (k + 1)); [done|done| |lia]|].
  { intros i m Hm ->. destruct (Hh i _ Hm) as [Hn _]. by apply (Hn b). }
  intros bp t1 (Hbp & Ht1 & Hs1). cbv zeta. rewrite wp_bind. eapply wp_ok; [apply get_buf_eq|].
  rewrite (txn_data p _ _ bp _ _ Ht1) by apply lookup_insert_eq.
  assert (Ed : blk t1 (BBLOCK b (k_sb s)) = blk s (BBLOCK b (k_sb s))) by apply Hs1.
  rewrite Ed, bit_free_bit. unfold used in Hu. rewrite Hu. cbn [negb].
  set (data := blk s (BBLOCK b (k_sb s))) in *. pose proof (txn_len _ _ _ _ (BBLOCK b (k_sb s)) Ht) as Hlen. fold data in Hlen.
  assert (Hbm : 0 ≤ b mod BPB < BPB) by (by apply Z.mod_pos_bound).
  apply (txn_put p (<[bp := BBLOCK b (k_sb s)]> H) k bp (BBLOCK b (k_sb s)) (mark_free (b mod BPB)));
    [done|apply lookup_insert_eq| | | |].
  { rewrite Ed. unfold mark_free. by rewrite length_insert. }
  { rewrite (kp_start _ _ (proj1 Hs1)). by apply (ly_bmap _ Hl). }
  { rewrite map_size_insert_None by done. lia. }
  intros t2 Ht2 [Hk2 Hb2]. eapply wp_mono; [eapply (txn_brelse p); [exact Ht2|apply lookup_insert_eq]|].
  intros [] t3 (Ht3 & Hk3 & Hb3). rewrite delete_insert_id in Ht3 by done.
  assert (Hkk : kept s t3) by (etrans; [apply Hs1|]; etrans; [exact Hk2|exact Hk3]).
  split_and!; [done|done| |].
  - intros c Hc. unfold used. rewrite (kept_sb _ _ Hkk), Hb3, Hb2. case_decide as E.
    + rewrite Ed, bit_mark_free by (done || by apply Z.mod_pos_bound). fold data. rewrite E. fold data. f_equal. f_equal.
      destruct (Z.eqb_spec c b) as [->|Hne]; [by apply Z.eqb_refl|].
      apply Z.eqb_neq. intros Em. apply Hne. by apply (bblock_inj s).
    + rewrite (proj2 Hs1). destruct (Z.eqb_spec c b) as [->|]; done.
  - intros m Hm. rewrite Hb3, Hb2, decide_False by done. apply Hs1.
Qed.

Lemma bfree_panics p H k b s :
  txn p H k s → layout s → held_used H s → Z.of_nat (size H) + 1 ≤ k →
  0 ≤ b < sb_size (k_sb s) → used s b = false → bfree ROOTDEV b s = Panic "freeing free block".
Proof.
  intros Ht Hl Hh Hk Hb Hu. unfold bfree. run. destruct (bblock_eq s b Hl Hb) as [Ebb Hbb].
  destruct (txn_bread p H k (BBLOCK b (k_sb s)) s Ht Hbb) as (bp & t1 & E & Hbp & Ht1 & Hs1); [|lia|].
  { intros i m Hm ->. destruct (Hh i _ Hm) as [Hn _]. by apply (Hn b). }
  rewrite (bind_ok _ _ _ _ _ E). cbv zeta. rewrite (bind_ok _ _ _ _ _ (get_buf_eq _ _)).
  rewrite (txn_data p _ _ bp _ _ Ht1) by apply lookup_insert_eq.
  rewrite (proj2 Hs1), bit_free_bit. unfold used in Hu. by rewrite Hu.
Qed.

(** C11. The block allocator.  Inside a transaction with room for two more blocks, and with
    some block free, [balloc] returns the first block whose bit is clear; afterwards exactly
    that bit has been set, the block is zero, and no other block of the disk has changed.
    [bfree] of a block in use clears exactly its bit, and of a free block it panics. *)
Theorem block_allocator p H k s :
  txn p H (k + 2) s → layout s → held_used H s → Z.of_nat (size H) + 1 ≤ k →
  ((∃ b, 0 ≤ b < sb_size (k_sb s) ∧ used s b = false) →
    wp (balloc ROOTDEV) (λ r s', txn p H k s' ∧ allocated r s s') s) ∧
  ∀ b, 0 ≤ b < sb_size (k_sb s) →
    if used s b then
      wp (bfree ROOTDEV b) (λ _ s', txn p H (k + 1) s' ∧ kept s s' ∧
        (∀ c, 0 ≤ c < sb_size (k_sb s) → used s' c = negb (c =? b) && used s c) ∧
        (∀ m, m ≠ BBLOCK b (k_sb s) → blk s' m = blk s m)) s
    else bfree ROOTDEV b s = Panic "freeing free block".
Proof.
  intros Ht Hl Hh Hk. split; [by apply balloc_ok|]. intros b Hb. destruct (used s b) eqn:E.
  - apply bfree_ok; try done; [by replace (k + 1 + 1) with (k + 2) by lia|lia].
  - apply (bfree_panics p H (k + 2)); try done. lia.
Qed.

(** ** Inodes on disk *)

(** A slice of what has been written. *)
Lemma slice_splice_in (off o n : nat) (k l : list Z) :
  (off + length k ≤ length l)%nat → (o + n ≤ length k)%nat → slice (off + o) n (splice off k l) = slice o n k.
Proof.
  intros Hl Ho. apply list_eq. intros j. destruct (decide (j < n)%nat) as [Hj|Hj].
  - rewrite !lookup_slice, lookup_splice by lia. rewrite decide_True by lia. f_equal. lia.
  - rewrite !lookup_ge_None_2; [done|rewrite length_slice; lia|rewrite length_slice; [lia|]]. rewrite length_splice; lia.
Qed.

(** The values a [struct dinode] can hold. *)
Definition dinode_wf (d : dinode) : Prop :=
  Forall (λ v, - 2 ^ 15 ≤ v < 2 ^ 15) [di_type d; di_major d; di_minor d; di_nlink d] ∧
  0 ≤ di_size d < 2 ^ 32 ∧ length (di_addrs d) = 13%nat ∧ Forall (λ a, 0 ≤ a < 2 ^ 32) (di_addrs d).

Lemma bytes_of_dinode_length d : length (di_addrs d) = 13%nat → length (bytes_of_dinode d) = 64%nat.
Proof.
  intros H. unfold bytes_of_dinode. destruct d as [? ? ? ? ? a]. simpl in *.
  do 13 (destruct a as [|? a]; [done|]). by destruct a.
Qed.

Lemma i16_split v : - 2 ^ 15 ≤ v < 2 ^ 15 → i16 (le_join (le_split 2 v)) = v.
Proof.
  intros Hv. rewrite le_join_split. change (8 * Z.of_nat 2) with 16. unfold i16.
  rewrite Zplus_mod_idemp_l, Z.mod_small; lia.
Qed.

Lemma dinode_roundtrip_bytes off d l :
  dinode_wf d → 0 ≤ off → off + 64 ≤ Z.of_nat (length l) →
  dinode_of_bytes off (put_dinode off d l) = d.
Proof.
  intros (H1 & H2 & H3 & H4) H0 Hl. pose proof (bytes_of_dinode_length d H3) as HL.
  assert (E : ∀ (o : Z) (n : nat), 0 ≤ o → o + Z.of_nat n ≤ 64 →
    slice (Z.to_nat (off + o)) n (put_dinode off d l) = slice (Z.to_nat o) n (bytes_of_dinode d)).
  { intros o n Ho Hn. rewrite Z2Nat.inj_add by lia. apply slice_splice_in; lia. }
  unfold dinode_of_bytes, get16, get32. cbn [get_addrs]. unfold get32.
  rewrite <- !Z.add_assoc. cbn [Z.add Pos.add Pos.succ].
  pose proof (E 0 2%nat) as E0. rewrite Z.add_0_r in E0. rewrite E0, !E by lia.
  repeat match goal with |- context [Z.to_nat ?z] => let n := eval vm_compute in (Z.to_nat z) in change (Z.to_nat z) with n end.
  clear E E0 HL. destruct d as [ty mj mn nl sz a]. cbn [di_type di_major di_minor di_nlink di_size di_addrs] in *.
  do 13 (destruct a as [|? a]; [done|]). destruct a; [|done].
  repeat match goal with H : Forall _ (_ :: _) |- _ => apply Forall_cons in H as [? H] end. unfold bytes_of_dinode. cbn [di_type di_major di_minor di_nlink di_size di_addrs fmap list_fmap concat].
  unfold slice. cbn [le_split app drop take].
  repeat match goal with |- context [le_join (?x mod 256 :: ?x / 256 mod 256 :: [])] =>
    change (x mod 256 :: x / 256 mod 256 :: []) with (le_split 2 x) end.
  repeat match goal with |- context [le_join (?x mod 256 :: ?x / 256 mod 256 :: ?x / 256 / 256 mod 256 :: ?x / 256 / 256 / 256 mod 256 :: [])] =>
    change (x mod 256 :: x / 256 mod 256 :: x / 256 / 256 mod 256 :: x / 256 / 256 / 256 mod 256 :: []) with (le_split 4 x) end.
  rewrite !i16_split by done. repeat match goal with |- context [le_join (le_split 4 ?x)] => rewrite (le_join_split_small 4 x) by (change (2 ^ (8 * Z.of_nat 4)) with (2 ^ 32); done) end. done.
Qed.

Lemma dinode_other off off' d l :
  length (di_addrs d) = 13%nat → 0 ≤ off → 0 ≤ off' → off + 64 ≤ Z.of_nat (length l) →
  off + 64 ≤ off' ∨ off' + 64 ≤ off → dinode_of_bytes off' (put_dinode off d l) = dinode_of_bytes off' l.
Proof.
  intros H3 H0 H0' Hl Hd. pose proof (bytes_of_dinode_length d H3) as HL.
  assert (E : ∀ o : Z, ∀ n : nat, 0 ≤ o → o + Z.of_nat n ≤ 64 →
    slice (Z.to_nat (off' + o)) n (put_dinode off d l) = slice (Z.to_nat (off' + o)) n l).
  { intros o n Ho Hn. apply slice_splice_ne; lia. }
  unfold dinode_of_bytes, get16, get32. cbn [get_addrs]. unfold get32. rewrite <- !Z.add_assoc. cbn [Z.add Pos.add Pos.succ].
  pose proof (E 0 2%nat) as E0. rewrite Z.add_0_r in E0.
  by rewrite E0, !E by lia.
Qed.

Definition dinode_at (s : kstate) (inum : Z) : dinode :=
  dinode_of_bytes (dinode_off inum) (blk s (IBLOCK inum (k_sb s))).

(** The inode blocks lie outside the log. *)
Record inodes_laid (s : kstate) : Prop := mkinodes_laid {
  il_start : 0 ≤ sb_inodestart (k_sb s);
  il_num : 0 ≤ sb_ninodes (k_sb s);
  il_end : sb_inodestart (k_sb s) + sb_ninodes (k_sb s) / IPB < 2 ^ 31;
  il_log : ∀ j, 0 ≤ j < sb_ninodes (k_sb s) → ¬ in_log (lg_start (k_log s)) (IBLOCK j (k_sb s))
}.

Lemma iblock_eq s j : inodes_laid s → 0 ≤ j < sb_ninodes (k_sb s) →
  IBLOCK j (k_sb s) = j / IPB + sb_inodestart (k_sb s) ∧ 0 ≤ IBLOCK j (k_sb s) < 2 ^ 31.
Proof.
  intros [H1 H2 H3 _] Hj. unfold IBLOCK. change IPB with 16 in *.
  assert (0 ≤ j / 16 ≤ sb_ninodes (k_sb s) / 16) by (split; [apply Z.div_pos; lia|apply Z.div_le_mono; lia]).
  rewrite u32_small by lia. lia.
Qed.

Lemma dinode_off_range j : 0 ≤ dinode_off j ∧ dinode_off j + 64 ≤ 1024.
Proof. unfold dinode_off. change IPB with 16. change DINODE_SIZE with 64. pose proof (Z.mod_pos_bound j 16). lia. Qed.

(** Two inodes do not overlap. *)
Lemma dinode_apart s i j : inodes_laid s → 0 ≤ i < sb_ninodes (k_sb s) → 0 ≤ j < sb_ninodes (k_sb s) → i ≠ j →
  IBLOCK i (k_sb s) = IBLOCK j (k_sb s) → dinode_off i + 64 ≤ dinode_off j ∨ dinode_off j + 64 ≤ dinode_off i.
Proof.
  intros Hl Hi Hj Hne E. rewrite (proj1 (iblock_eq s i Hl Hi)), (proj1 (iblock_eq s j Hl Hj)) in E.
  unfold dinode_off. change IPB with 16 in *. change DINODE_SIZE with 64. mlia.
Qed.

Lemma iupdate_ok p H k i ip s :
  txn p H (k + 1) s → inodes_laid s → the_inode i s = ip → i_dev ip = ROOTDEV → 0 ≤ i_inum ip < sb_ninodes (k_sb s) →
  dinode_wf (dinode_of_inode ip) → (∀ b m, H !! b = Some m → m ≠ IBLOCK (i_inum ip) (k_sb s)) → Z.of_nat (size H) + 1 ≤ k →
  wp (iupdate i) (λ _ s', txn p H k s' ∧ kept s s' ∧ dinode_at s' (i_inum ip) = dinode_of_inode ip ∧
    (∀ j, 0 ≤ j < sb_ninodes (k_sb s) → j ≠ i_inum ip → dinode_at s' j = dinode_at s j) ∧
    (∀ m, m ≠ IBLOCK (i_inum ip) (k_sb s) → blk s' m = blk s m)) s.
Proof.
  intros Ht Hl Eip Hdev Hin Hwf Hne Hk. unfold iupdate, get_inode. rewrite wp_bind, wp_gets, Eip, wp_bind, wp_gets, Hdev.
  destruct (iblock_eq s _ Hl Hin) as [_ Hib]. set (n := IBLOCK (i_inum ip) (k_sb s)) in *. rewrite wp_bind.
  eapply wp_mono; [apply (txn_bread p H (k + 1)); [done|done|done|lia]|]. intros bp t1 (Hbp & Ht1 & Hs1).
  assert (Hoff := dinode_off_range (i_inum ip)). pose proof (txn_len _ _ _ _ n Ht) as Hlen.
  pose proof (bytes_of_dinode_length (dinode_of_inode ip) ltac:(apply Hwf)) as HL.
  assert (Ed : blk t1 n = blk s n) by apply Hs1.
  apply (txn_put p (<[bp := n]> H) k bp n (put_dinode (dinode_off (i_inum ip)) (dinode_of_inode ip)));
    [done|apply lookup_insert_eq| | | |].
  { rewrite Ed. unfold put_dinode. rewrite length_splice; lia. }
  { rewrite (kp_start _ _ (proj1 Hs1)). by apply (il_log _ Hl). }
  { rewrite map_size_insert_None by done. lia. }
  intros t2 Ht2 [Hk2 Hb2]. eapply wp_mono; [eapply (txn_brelse p); [exact Ht2|apply lookup_insert_eq]|].
  intros [] t3 (Ht3 & Hk3 & Hb3). rewrite delete_insert_id in Ht3 by done.
  assert (Hkk : kept s t3) by (etrans; [apply Hs1|]; etrans; [exact Hk2|exact Hk3]).
  assert (Eb : ∀ m, blk t3 m = if decide (m = n) then put_dinode (dinode_off (i_inum ip)) (dinode_of_inode ip) (blk s n) else blk s m).
  { intros m. rewrite Hb3, Hb2, Ed. by rewrite (proj2 Hs1). }
  split_and!; [done|done| | |].
  - unfold dinode_at. rewrite (kept_sb _ _ Hkk), Eb. fold n. rewrite decide_True by done.
    apply dinode_roundtrip_bytes; [done|lia|lia].
  - intros j Hj Hji. unfold dinode_at. rewrite (kept_sb _ _ Hkk), Eb. case_decide as E; [|done]. rewrite E.
    apply dinode_other; [apply Hwf|lia|apply dinode_off_range|lia|]. by apply (dinode_apart s); [| | |intros ?; by apply Hji|].
  - intros m Hm. rewrite Eb. by rewrite decide_False.
Qed.

(** ** Locking an inode *)

Definition at_inode (i : nat) (ip : inode) (s : kstate) : kstate := set_k_icache (<[i := ip]> (k_icache s)) s.

Lemma the_inode_at i ip s : (i < length (k_icache s))%nat → the_inode i (at_inode i ip s) = ip.
Proof. intros H. unfold the_inode, at_inode. ksimpl. by rewrite nth_lookup, list_lookup_insert_eq. Qed.

Lemma at_inode_twice i x y s : at_inode i y (at_inode i x s) = at_inode i y s.
Proof. unfold at_inode. ksimpl. by rewrite list_insert_insert_eq. Qed.

Lemma upd_inode_at i f s : upd_inode i f s = Ok () (at_inode i (f (the_inode i s)) s).
Proof. done. Qed.

Lemma txn_inode p H k i ip s : txn p H k s → txn p H k (at_inode i ip s).
Proof.
  intros Ht. apply (txn_ext p H k s); try done. apply (quiet_eq p s); [done|done|by eapply txn_quiet].
Qed.

Lemma txn_ilock p H k i v s : txn p H k s → txn p H k (put_slock (SInode i) v s).
Proof.
  intros Ht. apply (txn_ext p H k s); try done.
  - apply (quiet_eq p s); [done|done|by eapply txn_quiet].
  - intros b. unfold the_slock, put_slock. ksimpl. by rewrite lookup_insert_ne.
Qed.

Lemma blk_inode i ip s n : blk (at_inode i ip s) n = blk s n.
Proof. by apply blk_same. Qed.

Lemma dinode_inode i ip s j : dinode_at (at_inode i ip s) j = dinode_at s j.
Proof. unfold dinode_at. by rewrite blk_inode. Qed.

(** The inode is locked and its fields are those of the disk. *)
Record locked_inode (p i : nat) (ip : inode) (s s' : kstate) : Prop := mklocked_inode {
  li_inode : the_inode i s' = ip;
  li_blocks : ∀ m, blk s' m = blk s m;
  li_kept : kept (at_inode i ip (put_slock (SInode i) (owned (SInode i) p s) s)) s'
}.

Lemma ilock_ok p H k i ip s :
  txn p H k s → inodes_laid s → (i < NINODE)%nat → length (k_icache s) = NINODE → the_inode i s = ip →
  1 ≤ i_ref ip → i_valid ip = 0 → i_dev ip = ROOTDEV → 0 ≤ i_inum ip < sb_ninodes (k_sb s) →
  slk_locked (the_slock (SInode i) s) = 0 → di_type (dinode_at s (i_inum ip)) ≠ 0 →
  (∀ b m, H !! b = Some m → m ≠ IBLOCK (i_inum ip) (k_sb s)) → Z.of_nat (size H) + 1 ≤ k →
  wp (ilock (Some i)) (λ _ s', txn p H k s' ∧
    locked_inode p i (set_i_valid 1 (load_inode (dinode_at s (i_inum ip)) ip)) s s') s.
Proof.
  intros Ht Hl Hi Hlen Eip Href Hval Hdev Hin Hunl Hty Hne Hk. pose proof (txn_quiet _ _ _ _ Ht) as Hq.
  unfold ilock, get_inode. rewrite wp_bind, wp_gets, Eip. zdec. rewrite wp_bind.
  eapply wp_ok; [apply (acquiresleep_eq (SInode i) p); [apply Hq|by apply (q_locks _ _ Hq)|apply Hq|done]|].
  set (s0 := put_slock _ _ s). assert (E0 : the_inode i s0 = ip) by done.
  pose proof (txn_ilock p H k i (owned (SInode i) p s) s Ht) as Ht0. fold s0 in Ht0.
  rewrite wp_bind, wp_gets, E0, Hval. change (0 =? 0) with true. cbv iota. rewrite wp_bind, wp_gets, Hdev, wp_bind.
  change (k_sb s0) with (k_sb s). destruct (iblock_eq s _ Hl Hin) as [_ Hib].
  eapply wp_mono; [apply (txn_bread p H k); [done|done|done|lia]|]. intros bp t1 (Hbp & Ht1 & Hs1).
  rewrite wp_bind. eapply wp_ok; [apply get_buf_eq|]. rewrite (txn_data p _ _ bp _ _ Ht1) by apply lookup_insert_eq.
  assert (Ed : ∀ m, blk t1 m = blk s m) by (intros m; rewrite (proj2 Hs1); by apply blk_same).
  assert (Eic : k_icache t1 = k_icache s) by apply (kept_icache _ _ (proj1 Hs1)).
  assert (E1 : the_inode i t1 = ip) by (unfold the_inode; by rewrite Eic).
  rewrite Ed. fold (dinode_at s (i_inum ip)). set (d := dinode_at s (i_inum ip)) in *.
  rewrite wp_bind. eapply wp_ok; [apply upd_inode_at|]. rewrite E1. set (t2 := at_inode i _ t1).
  assert (Ht2 : txn p (<[bp := IBLOCK (i_inum ip) (k_sb s)]> H) k t2) by (by apply txn_inode).
  rewrite wp_bind. eapply wp_mono; [eapply (txn_brelse p); [exact Ht2|apply lookup_insert_eq]|].
  intros [] t3 (Ht3 & Hs3). rewrite delete_insert_id in Ht3 by done.
  assert (E3 : k_icache t3 = k_icache t2) by apply (kept_icache _ _ (proj1 Hs3)).
  assert (Hlt : (i < length (k_icache t1))%nat) by (rewrite Eic; lia).
  rewrite wp_bind. eapply wp_ok; [apply upd_inode_at|].
  assert (E3i : the_inode i t3 = load_inode d ip).
  { unfold the_inode. rewrite E3. by apply (the_inode_at i _ t1). }
  rewrite E3i, wp_bind, wp_gets, the_inode_at by (rewrite E3; unfold t2, at_inode; ksimpl; by rewrite length_insert).
  change (i_type (set_i_valid 1 (load_inode d ip))) with (di_type d). rewrite (proj2 (Z.eqb_neq _ _) Hty), wp_ret.
  split; [by apply txn_inode|]. split.
  - apply the_inode_at. rewrite E3. unfold t2, at_inode. ksimpl. by rewrite length_insert.
  - intros m. rewrite blk_inode, (proj2 Hs3). unfold t2. by rewrite blk_inode, Ed.
  - fold s0. set (ip' := set_i_valid 1 (load_inode d ip)).
    assert (kept_at : ∀ x a b, kept a b → kept (at_inode i x a) (at_inode i x b)).
    { intros x a b [(Ec & Ep & Em & Es) K2 K3 K4]. split; [|done..]. split_and!; [|done|done|done].
      revert Ec. unfold core, at_inode. ksimpl. intros [= -> -> -> -> -> -> -> -> -> -> -> -> -> -> -> -> ->]. done. }
    rewrite <- (at_inode_twice i (load_inode d ip) ip' s0). apply kept_at. etrans; [|apply Hs3]. unfold t2. apply kept_at, Hs1.
Qed.

End fs.

(** ** A small file system: blocks 0 to 47 in use, 48 to 99 free *)

#[local] Existing Instance sync_disk.

Definition bitmap0 : list Z := replicate 6 255 ++ replicate 1018 0.
Definition sb0 : superblock := mkSuperblock FSMAGIC 100 40 200 30 2 33 46.
Definition ip0 : inode := mkInode ROOTDEV 1 1 1 2 0 0 1 5 (48 :: replicate 12 0).
Definition fs_with (D : disk_t) (l : list inode) : kstate :=
  set_k_sb sb0 (set_k_icache l (set_k_log (mkLog 2 30 1 false ROOTDEV 0 (replicate 30 0)) (boot1 D))).
Definition fs0 : kstate := fs_with {[46 := bitmap0]} (<[0%nat := ip0]> (replicate 50 inode0)).

Lemma cinv_fs D l : map_Forall (λ _ d, length d = 1024%nat) D → cinv 0 (reverse (seq 0 NBUF)) ∅ ∅ (fs_with D l).
Proof.
  intros HD. apply (cinv_ext 0 _ ∅ ∅ (boot1 D)); try done; [by apply cinv_boot1|].
  apply (quiet_eq 0 quiet0); [done|done|apply quiet_0].
Qed.

Lemma cinv_fs0 : cinv 0 (reverse (seq 0 NBUF)) ∅ ∅ fs0.
Proof. apply cinv_fs, map_Forall_singleton. reflexivity. Qed.

Lemma txn_fs D l k : map_Forall (λ _ d, length d = 1024%nat) D → 0 ≤ k ≤ 29 → txn 0 ∅ k (fs_with D l).
Proof.
  intros HD Hk. split.
  - exists (reverse (seq 0 NBUF)). by apply cinv_fs.
  - split; try done; simpl; try (consts; lia); constructor.
  - done.
  - simpl. consts. lia.
  - simpl. lia.
  - rewrite map_size_empty. lia.
  - intros b n Hb. by rewrite lookup_empty in Hb.
Qed.

Lemma txn_fs0 k : 0 ≤ k ≤ 29 → txn 0 ∅ k fs0.
Proof. apply txn_fs, map_Forall_singleton. reflexivity. Qed.

Lemma laid_fs D l : inodes_laid (fs_with D l).
Proof.
  split; change (k_sb (fs_with D l)) with sb0; try done. intros j Hj. change (lg_start (k_log (fs_with D l))) with 2.
  change (sb_ninodes sb0) with 200 in Hj. unfold IBLOCK, in_log. change IPB with 16. change (sb_inodestart sb0) with 33.
  assert (0 ≤ j / 16 < 13) by mlia. rewrite u32_small by lia. consts. lia.
Qed.

Lemma used_fs0 b : 0 ≤ b < 100 → used fs0 b = bit bitmap0 b.
Proof.
  intros Hb. unfold used. rewrite (blk_disk 0 _ _ _ cinv_fs0). change (k_sb fs0) with sb0.
  assert (BBLOCK b sb0 = 46) as ->.
  { unfold BBLOCK. change BPB with 8192. rewrite Z.div_small by lia. done. }
  change BPB with 8192. rewrite Z.mod_small by lia. reflexivity.
Qed.

Lemma bitmap0_low b : 0 ≤ b < 48 → bit bitmap0 b = true.
Proof.
  intros Hb. assert (E : forallb (λ n, bit bitmap0 (Z.of_nat n)) (seq 0 48) = true) by (vm_compute; reflexivity).
  rewrite forallb_forall in E. rewrite <- (Z2Nat.id b) by lia. apply E. apply in_seq. lia.
Qed.

Lemma layout_fs0 : layout fs0.
Proof.
  assert (E46 : ∀ b, 0 ≤ b < 100 → BBLOCK b sb0 = 46).
  { intros b Hb. unfold BBLOCK. change BPB with 8192. rewrite Z.div_small by lia. done. }
  split; change (k_sb fs0) with sb0; change (sb_size sb0) with 100; change (lg_start (k_log fs0)) with 2; try done.
  - intros b Hb. rewrite E46 by done. unfold in_log. consts. lia.
  - intros b Hb Hu. assert (48 ≤ b).
    { destruct (decide (b < 48)); [|lia]. by rewrite used_fs0, bitmap0_low in Hu by lia. }
    split; [unfold in_log; consts; lia|]. intros c Hc. rewrite E46 by done. lia.
Qed.

Lemma block_allocator_witness :
  wp (@balloc sync_disk ROOTDEV) (λ r s', r = 48 ∧ used s' 48 = true ∧ used s' 49 = false) fs0.
Proof.
  destruct (block_allocator 0 ∅ 1 fs0 (txn_fs0 3 ltac:(lia)) layout_fs0) as [H _]; [intros i m Hm; by rewrite lookup_empty in Hm|rewrite map_size_empty; lia|].
  eapply wp_mono; [apply H; exists 48; split; [done|by rewrite used_fs0]|].
  intros r s' (_ & [A1 A2 A3 A4 A5 A6 A7]). assert (r = 48) as ->.
  { change (sb_size (k_sb fs0)) with 100 in A2. destruct (decide (r < 48)).
    - by rewrite used_fs0, bitmap0_low in A3 by lia.
    - destruct (decide (r = 48)); [done|]. specialize (A4 48 ltac:(lia)). by rewrite used_fs0 in A4 by lia. }
  split; [done|]. rewrite !A5 by done. rewrite !used_fs0 by lia. done.
Defined.

