(* ===== verification/InodeSpec.v ===== *)
(** * The contents of files

    A file is the bytes of the blocks that its inode names, directly and through the indirect
    block.  [bmap] finds those blocks and [readi] delivers those bytes. *)

From stdpp Require Import prelude gmap strings list.
From Stdlib Require Import ZArith Lia.
From S2P Require Import Prelude.
From S2P Require Import Monad.
From S2P Require Import Riscv.
From S2P Require Import Types.
From S2P Require Import Mem.
From S2P Require Import Spinlock.
From S2P Require Import Kalloc.
From S2P Require Import Vm.
From S2P Require Import VmSpec.
From S2P Require Import Proc.
From S2P Require Import ProcSpec.
From S2P Require Import Sleeplock.
From S2P Require Import Virtio.
From S2P Require Import Bio.
From S2P Require Import BioSpec.
From S2P Require Import Cache.
From S2P Require Import Log.
From S2P Require Import LogSpec.
From S2P Require Import LogOps.
From S2P Require Import Txn.
From S2P Require Import Fs.
From S2P Require Import FsSpec.

Section content.
Context {DD : DiskDriver} {DL : DiskLaws} {PF : PteFormat}.

(** The block with the bytes [bn * BSIZE] and on of the file. *)
Definition addr_of (s : kstate) (ip : inode) (bn : Z) : Z :=
  if bn <? NDIRECT then nth (Z.to_nat bn) (i_addrs ip) 0
  else get32 (4 * (bn - NDIRECT)) (blk s (nth (Z.to_nat NDIRECT) (i_addrs ip) 0)).

Definition file_byte (s : kstate) (ip : inode) (o : Z) : Z := byte_at (o mod BSIZE) (blk s (addr_of s ip (o / BSIZE))).

(** Every block of the file is allocated. *)
Record file_ok (s : kstate) (ip : inode) : Prop := mkfile_ok {
  fo_dev : i_dev ip = ROOTDEV;
  fo_size : 0 ≤ i_size ip ≤ MAXFILE * BSIZE;
  fo_direct : ∀ bn, 0 ≤ bn → bn * BSIZE < i_size ip → 0 < addr_of s ip bn < 2 ^ 31;
  fo_indirect : NDIRECT * BSIZE < i_size ip → 0 < nth (Z.to_nat NDIRECT) (i_addrs ip) 0 < 2 ^ 31
}.

Lemma bmap_mapped p H k i ip bn s :
  txn p H k s → the_inode i s = ip → file_ok s ip → 0 ≤ bn → bn * BSIZE < i_size ip →
  (∀ b m, H !! b = Some m → m ≠ nth (Z.to_nat NDIRECT) (i_addrs ip) 0) → Z.of_nat (size H) + 1 ≤ k →
  wp (bmap i bn) (λ r s', r = addr_of s ip bn ∧ txn p H k s' ∧ same s s') s.
Proof.
  intros Ht Eip Hf Hbn Hlt Hne Hk. pose proof (fo_direct _ _ Hf bn Hbn Hlt) as Ha. pose proof (fo_size _ _ Hf) as Hsz.
  unfold bmap, get_inode. rewrite wp_bind, wp_gets, Eip. unfold addr_of in *.
  change BSIZE with 1024 in *. change NDIRECT with 12 in *. change MAXFILE with 268 in *.
  destruct (Z.ltb_spec bn 12) as [Hd|Hd].
  { cbv zeta. rewrite (proj2 (Z.eqb_neq _ 0)) by lia. rewrite wp_ret. done. }
  pose proof (fo_indirect _ _ Hf) as Hi. change (NDIRECT * BSIZE) with 12288 in Hi. specialize (Hi ltac:(lia)).
  change (Z.to_nat NDIRECT) with (Z.to_nat 12) in Hi. cbv zeta. change NINDIRECT with 256. zdec.
  set (ind := nth (Z.to_nat 12) (i_addrs ip) 0) in *. rewrite wp_bind, wp_ret, (fo_dev _ _ Hf), wp_bind.
  eapply wp_mono; [apply (txn_bread p H k); [done|lia|done|done]|]. intros bp t1 (Hbp & Ht1 & Hs1).
  rewrite wp_bind. eapply wp_ok; [apply get_buf_eq|]. rewrite (txn_data p _ _ bp _ _ Ht1) by apply lookup_insert_eq.
  rewrite (proj2 Hs1), (proj2 (Z.eqb_neq _ 0)) by lia. rewrite wp_bind, wp_ret, wp_bind.
  eapply wp_mono; [eapply (txn_brelse p); [exact Ht1|apply lookup_insert_eq]|].
  intros [] t2 (Ht2 & Hs2). rewrite delete_insert_id in Ht2 by done. rewrite wp_ret. split_and!; [done|done|by etrans].
Qed.

(** ** [readi] into kernel memory *)

(** [a] is not used by the disk driver. *)
Definition plain_mem (a : Z) : Prop := ¬ scratch a ∧ ¬ disk_uses a.

(** Nothing but memory has changed. *)
Definition kept_but_mem (s s' : kstate) : Prop := kept (set_k_mem (k_mem s') s) s'.

Lemma kept_but_mem_step s t m u : kept_but_mem s t → kept (set_k_mem m t) u → kept_but_mem s (set_k_mem (k_mem u) u).
Proof.
  unfold kept_but_mem. intros [(E1 & P1 & _ & S1) K2 K3 K4] [(F1 & Q1 & _ & S2) L2 L3 L4]. revert E1 P1 K2 K3 K4 F1 Q1 L2 L3 L4.
  unfold core. ksimpl. intros E1 P1 K2 K3 K4 F1 Q1 L2 L3 L4. split; ksimpl; try congruence.
  split_and!; [|by etrans|done|intros i; etrans; [apply (S2 i)|apply (S1 i)]]. unfold core. ksimpl.
  injection F1 as -> -> -> -> -> -> -> -> -> -> -> -> -> -> -> -> ->.
  injection E1 as -> -> -> -> -> -> -> -> -> -> -> -> -> -> -> -> ->. done.
Qed.

Lemma txn_store p H k a l s :
  txn p H k s → (∀ b, a ≤ b < a + Z.of_nat (length l) → plain_mem b) →
  txn p H k (set_k_mem (store_bytes (k_mem s) a l) s).
Proof.
  intros Ht Hp. apply (txn_ext p H k s); try done.
  - apply (quiet_eq p s); [done|done|by eapply txn_quiet].
  - intros b Hb. ksimpl. rewrite rd_store_bytes. case_decide as E; [|done]. by destruct (Hp b E).
Qed.

Lemma same_file s s' ip : same s s' → ∀ bn, addr_of s' ip bn = addr_of s ip bn.
Proof. intros [_ Hb] bn. unfold addr_of. by rewrite Hb. Qed.

Lemma file_byte_ext s s' ip o : (∀ m, blk s' m = blk s m) → file_byte s' ip o = file_byte s ip o.
Proof. intros Hb. unfold file_byte, addr_of. by rewrite !Hb. Qed.

Lemma file_ok_ext s s' ip : (∀ m, blk s' m = blk s m) → file_ok s ip → file_ok s' ip.
Proof.
  intros Hb [H1 H2 H3 H4]. split; try done. intros bn. unfold addr_of. rewrite Hb. apply H3.
Qed.

(** The bytes [0 .. tot) of a read of the file at [off] have been delivered to [dst]. *)
Record delivered (p : nat) (H : gmap nat Z) (k : Z) (ip : inode) (dst off tot : Z) (s t : kstate) : Prop := mkdelivered {
  dl_txn : txn p H k t;
  dl_kept : kept_but_mem s t;
  dl_blk : ∀ m, blk t m = blk s m;
  dl_mem : ∀ a, ¬ scratch a → rd (k_mem t) a =
    if decide (dst ≤ a < dst + tot) then u8 (file_byte s ip (off + (a - dst))) else rd (k_mem s) a
}.

Lemma kept_but_mem_same s t u : kept_but_mem s t → same t u → kept_but_mem s u.
Proof.
  intros H [Hk _]. pose proof (kept_but_mem_step s t (k_mem t) u H) as HH.
  replace (set_k_mem (k_mem t) t) with t in HH by (by destruct t).
  replace (set_k_mem (k_mem u) u) with u in HH by (by destruct u). by apply HH.
Qed.

Lemma kept_but_mem_store s t m : kept_but_mem s t → kept_but_mem s (set_k_mem m t).
Proof. intros H. pose proof (kept_but_mem_step s t m (set_k_mem m t) H) as HH. ksimpl_in HH. by apply HH. Qed.

Lemma kept_but_mem_icache s t : kept_but_mem s t → k_icache t = k_icache s.
Proof. intros H. apply (kept_icache _ _ H). Qed.

Lemma delivered_same p H H' k ip dst off tot s t u :
  delivered p H k ip dst off tot s t → same t u → txn p H' k u → delivered p H' k ip dst off tot s u.
Proof.
  intros [D1 D2 D3 D4] Hs Ht. split; [done|by eapply kept_but_mem_same|intros m; rewrite (proj2 Hs); apply D3|].
  intros a Ha. rewrite (kept_mem t u a (proj1 Hs) Ha). by apply D4.
Qed.

(** A piece of one block is stored behind what has been delivered. *)
Lemma delivered_more p H k ip dst off tot m s t (d : list Z) :
  delivered p H k ip dst off tot s t → 0 ≤ tot → 0 ≤ off → 0 ≤ m → (off + tot) mod BSIZE + m ≤ BSIZE →
  d = slice (Z.to_nat ((off + tot) mod BSIZE)) (Z.to_nat m) (blk s (addr_of s ip ((off + tot) / BSIZE))) →
  (∀ a, dst + tot ≤ a < dst + tot + m → plain_mem a) →
  delivered p H k ip dst off (tot + m) s (set_k_mem (store_bytes (k_mem t) (dst + tot) d) t).
Proof.
  intros [D1 D2 D3 D4] Ht0 Ho Hm Hfit Hd Hplain. set (t' := set_k_mem _ t). change BSIZE with 1024 in *.
  pose proof (txn_len _ _ _ _ (addr_of s ip ((off + tot) / 1024)) D1) as Hlen. rewrite D3 in Hlen.
  pose proof (Z.mod_pos_bound (off + tot) 1024) as Hmod. set (o := (off + tot) mod 1024) in *.
  assert (Ld : length d = Z.to_nat m) by (rewrite Hd, length_slice; lia).
  split.
  - apply txn_store; [done|]. intros b Hb. apply Hplain. lia.
  - by apply kept_but_mem_store.
  - intros x. unfold t'. rewrite <- D3. by apply blk_same.
  - intros a Ha. unfold t'. ksimpl. rewrite rd_store_bytes, Ld, Z2Nat.id by lia. case_decide as E.
    + rewrite decide_True by lia. f_equal. unfold file_byte, byte_at. change BSIZE with 1024.
      rewrite nth_lookup, Hd, lookup_slice by lia. rewrite nth_lookup. f_equal. f_equal.
      * unfold o in *. mlia.
      * f_equal. f_equal. unfold o in *. mlia.
    + rewrite D4 by done. destruct (decide (dst ≤ a < dst + tot)); [by rewrite decide_True by lia|by rewrite decide_False by lia].
Qed.

Lemma readi_step p k i ip dst off n tot s t :
  the_inode i s = ip → file_ok s ip → 1 ≤ k → 0 ≤ off → 0 ≤ tot < n → off + n ≤ i_size ip →
  0 ≤ dst → dst + n < 2 ^ 64 → (∀ a, dst ≤ a < dst + n → plain_mem a) →
  delivered p ∅ k ip dst off tot s t →
  let m := Z.min (n - tot) (BSIZE - (off + tot) mod BSIZE) in
  wp (readi_body i false n (tot, off + tot, dst + tot)) (λ r t', r = inl (tot + m, off + (tot + m), dst + (tot + m)) ∧
    delivered p ∅ k ip dst off (tot + m) s t') t.
Proof.
  intros Eip Hf Hk Ho Htot Hsize Hd0 Hd1 Hplain Hdel m. pose proof (fo_size _ _ Hf) as Hsz.
  pose proof (Z.mod_pos_bound (off + tot) BSIZE ltac:(done)) as Hmod.
  assert (Hm : 0 ≤ m ≤ n - tot ∧ (off + tot) mod BSIZE + m ≤ BSIZE) by (unfold m; lia).
  pose proof Hdel as [D1 D2 D3 D4]. unfold readi_body, get_inode. zdec.
  assert (Et : the_inode i t = ip) by (unfold the_inode; by rewrite (kept_but_mem_icache s t)).
  set (bn := (off + tot) / BSIZE). assert (Hbn : 0 ≤ bn ∧ bn * BSIZE < i_size ip) by (unfold bn; change BSIZE with 1024; split; mlia).
  assert (Hempty : ∀ n0 b m0, (∅ : gmap nat Z) !! b = Some m0 → m0 ≠ n0) by (intros ? ? ?; by rewrite lookup_empty).
  rewrite wp_bind, wp_gets, Et, wp_bind.
  eapply wp_mono; [apply (bmap_mapped p ∅ k i ip bn); [done|done|by apply (file_ok_ext s)|lia|lia|done|rewrite map_size_empty; lia]|].
  intros a t1 (-> & Ht1 & Hs1). rewrite (fo_dev _ _ Hf).
  assert (Ea : addr_of t ip bn = addr_of s ip bn) by (unfold addr_of; by rewrite D3). rewrite Ea.
  pose proof (fo_direct _ _ Hf bn (proj1 Hbn) (proj2 Hbn)) as Ha. rewrite wp_bind.
  eapply wp_mono; [apply (txn_bread p ∅ k (addr_of s ip bn)); [done|lia|done|rewrite map_size_empty; lia]|].
  intros bp t2 (Hbp & Ht2 & Hs2). cbv zeta. fold m. rewrite wp_bind. eapply wp_ok; [apply get_buf_eq|].
  rewrite (txn_data p _ _ bp _ _ Ht2) by apply lookup_insert_eq.
  rewrite (proj2 Hs2), (proj2 Hs1), D3. assert (Hs12 : same t t2) by (by etrans).
  pose proof (delivered_same _ _ _ _ _ _ _ _ _ _ _ Hdel Hs12 Ht2) as Hdel2.
  unfold either_copyout, upd_mem. rewrite !wp_bind, wp_myproc by apply (txn_quiet _ _ _ _ Ht2). rewrite wp_bind, wp_modify, wp_ret.
  change (0 =? -1) with false. cbv iota. rewrite wp_bind.
  eapply (delivered_more _ _ _ _ _ _ _ m) in Hdel2; [|lia|lia|lia|lia|reflexivity|intros x Hx; apply Hplain; lia].
  eapply wp_mono; [eapply (txn_brelse p); [apply Hdel2|apply lookup_insert_eq]|].
  intros [] t3 (Ht3 & Hs3). rewrite delete_insert_id in Ht3 by done. rewrite wp_ret. split; [|by eapply delivered_same].
  change (MAXFILE * BSIZE) with 274432 in Hsz. rewrite !u32_small, u64_small by lia. by rewrite <- !Z.add_assoc.
Qed.

Lemma readi_ok p k i ip dst off n s :
  txn p ∅ k s → the_inode i s = ip → file_ok s ip → 1 ≤ k → 0 ≤ off ≤ i_size ip → 0 ≤ n → off + n < 2 ^ 32 →
  let tot := Z.min n (i_size ip - off) in
  0 ≤ dst → dst + tot < 2 ^ 64 → (∀ a, dst ≤ a < dst + tot → plain_mem a) →
  wp (readi i false dst off n) (λ r t, r = tot ∧ delivered p ∅ k ip dst off tot s t) s.
Proof.
  intros Ht Eip Hf Hk Hoff Hn Hon tot Hd0 Hd1 Hplain. pose proof (fo_size _ _ Hf) as Hsz. change (MAXFILE * BSIZE) with 274432 in Hsz.
  unfold readi, get_inode. rewrite wp_bind, wp_gets, Eip. rewrite (u32_small (off + n)) by lia. zdec.
  assert (En : (if i_size ip <? off + n then u32 (i_size ip - off) else n) = tot).
  { unfold tot. destruct (Z.ltb_spec (i_size ip) (off + n)); [rewrite u32_small by lia|]; lia. }
  cbv zeta. rewrite En. clear En. rewrite wp_bind.
  apply (wp_loop (readi_body i false tot) (λ x t, ∃ d, 0 ≤ d ≤ tot ∧ x = (d, off + d, dst + d) ∧ delivered p ∅ k ip dst off d s t)
    (λ x _, tot - x.1.1)).
  - intros x t (d & Hd & -> & _). simpl. lia.
  - intros x t (d & Hd & -> & Hdel). destruct (decide (d = tot)) as [->|Hne].
    + unfold readi_body. zdec. rewrite !wp_ret. split; [|done]. apply i32_small. lia.
    + eapply wp_mono; [apply (readi_step p k i ip dst off tot d s t); try done; lia|].
      intros r t' (-> & Hdel'). set (m := Z.min (tot - d) (BSIZE - (off + d) mod BSIZE)) in *. assert (0 < m ≤ tot - d).
      { unfold m. pose proof (Z.mod_pos_bound (off + d) BSIZE ltac:(done)). lia. }
      split; [|simpl; lia]. exists (d + m). split_and!; [lia|lia|done|done].
  - exists 0. rewrite !Z.add_0_r. split_and!; [lia|lia|done|]. split; try done.
    intros a Ha. rewrite decide_False by lia. done.
  - simpl. lia.
Qed.

(** C10. Reading a file returns its contents.  For an inode whose blocks are all allocated,
    [readi] of [n] bytes at [off] into kernel memory copies the bytes of the file, through the
    direct addresses and the indirect block and across block boundaries, up to the end of the
    file: afterwards each byte of the destination is the byte of the file at that
    offset, the bytes around it are as before, the number of bytes is returned, no block
    has changed and no buffer is held any more.  An offset past the end, or one
    with which the count wraps around, returns 0. *)
Theorem readi_contents p k i ip dst off n s :
  txn p ∅ k s → the_inode i s = ip → file_ok s ip → 1 ≤ k → 0 ≤ off < 2 ^ 32 → 0 ≤ n < 2 ^ 32 →
  let tot := Z.min n (i_size ip - off) in
  0 ≤ dst → dst + n < 2 ^ 64 → (∀ a, dst ≤ a < dst + n → plain_mem a) →
  if bool_decide (off ≤ i_size ip ∧ off + n < 2 ^ 32) then
    wp (readi i false dst off n) (λ r t, r = tot ∧ delivered p ∅ k ip dst off tot s t) s
  else readi i false dst off n s = Ok 0 s.
Proof.
  intros Ht Eip Hf Hk Hoff Hn tot Hd0 Hd1 Hplain. case_bool_decide as E.
  - apply readi_ok; try done; try lia. intros a Ha. apply Hplain. lia.
  - unfold readi, get_inode. run. rewrite Eip. destruct (Z.ltb_spec (i_size ip) off) as [|Hle]; [done|]. cbn [orb].
    assert (u32 (off + n) < off) as Hlt; [|by rewrite (proj2 (Z.ltb_lt _ _) Hlt)].
    unfold u32. assert (2 ^ 32 ≤ off + n) by lia. rewrite <- (Z.mod_add _ (-1)) by lia. rewrite Z.mod_small; lia.
Qed.
End content.

#[local] Existing Instance sync_disk.

Lemma file_ok_fs0 : file_ok fs0 ip0.
Proof.
  split; change (i_size ip0) with 5; change BSIZE with 1024; change MAXFILE with 268; change NDIRECT with 12; try done; try lia.
  intros bn H1 H2. assert (bn = 0) as -> by lia. vm_compute. done.
Qed.

Lemma readi_contents_witness :
  wp (@readi sv39_pte2pa sync_disk 0 false 0x80050000 2 100) (λ r t, r = 3 ∧ rd (k_mem t) 0x80050001 = 0) fs0.
Proof.
  pose proof (@readi_contents _ _ sv39_pte2pa 0 5 0 ip0 0x80050000 2 100 fs0 (txn_fs0 5 ltac:(lia)) eq_refl file_ok_fs0) as H.
  rewrite bool_decide_eq_true_2 in H by (change (i_size ip0) with 5; lia).
  eapply wp_mono; [apply H; try lia; intros a _; split; intros []|]. intros r t (-> & [_ _ _ Hm]). split; [reflexivity|].
  rewrite Hm by (intros []). rewrite decide_True by (change (i_size ip0) with 5; lia).
  unfold file_byte. rewrite (blk_disk 0 _ _ _ cinv_fs0). reflexivity.
Defined.
