(* ===== verification/DirSpec.v ===== *)
(** * The inode cache and directory lookup

    [iget] keeps one cache entry per inode; [dirlookup] finds the first entry of a directory
    with a name and gives the inode it names. *)

From stdpp Require Import prelude gmap strings list.
From Stdlib Require Import ZArith Lia.
From S2P Require Import Prelude.
From S2P Require Import Monad.
From S2P Require Import Riscv.
From S2P Require Import Types.
From S2P Require Import Mem.
From S2P Require Import Spinlock.
From S2P Require Import Kalloc.
From S2P Require Import Vm.
From S2P Require Import VmSpec.
From S2P Require Import Proc.
From S2P Require Import ProcSpec.
From S2P Require Import Sleeplock.
From S2P Require Import Virtio.
From S2P Require Import Bio.
From S2P Require Import BioSpec.
From S2P Require Import Cache.
From S2P Require Import Log.
From S2P Require Import LogSpec.
From S2P Require Import LogOps.
From S2P Require Import Txn.
From S2P Require Import Fs.
From S2P Require Import FsSpec.
From S2P Require Import InodeSpec.

(** ** The inode cache *)

Definition names (dev inum : Z) (ip : inode) : Prop := 0 < i_ref ip ∧ i_dev ip = dev ∧ i_inum ip = inum.

#[export] Instance names_dec dev inum ip : Decision (names dev inum ip).
Proof. unfold names. apply _. Defined.

(** An inode has at most one entry in use. *)
Record icache_ok (l : list inode) : Prop := mkicache_ok {
  ic_len : length l = NINODE;
  ic_ref : ∀ i ip, l !! i = Some ip → 0 ≤ i_ref ip;
  ic_uniq : ∀ i j x y dev inum, l !! i = Some x → l !! j = Some y → names dev inum x → names dev inum y → i = j
}.

(** What the scan of [iget] looks for. *)
Definition iget_target (dev inum : Z) (l : list inode) : option (nat * bool) :=
  match list_find (names dev inum) l with
  | Some (i, _) => Some (i, true)
  | None => match list_find (λ ip, i_ref ip = 0) l with Some (i, _) => Some (i, false) | None => None end
  end.

Lemma iget_scan_found n i dev inum e l : (i + n = length l)%nat →
  match list_find (names dev inum) (drop i l) with
  | Some (j, _) => iget_scan n i dev inum e l = inl (i + j)%nat
  | None => iget_scan n i dev inum e l = inr (match e with Some x => Some x | None => (λ x, (i + x.1)%nat) <$> list_find (λ ip, i_ref ip = 0) (drop i l) end)
  end.
Proof.
  revert i e. induction n as [|n IH]; intros i e Hn; cbn [iget_scan].
  - rewrite drop_ge by lia. simpl. by destruct e.
  - destruct (lookup_lt_is_Some_2 l i) as [ip Hip]; [lia|]. rewrite (nth_lookup_Some _ _ _ _ Hip), (drop_S _ _ _ Hip).
    cbn [list_find]. specialize (IH (S i)). cbn [list_find].
    assert (Eb : (0 <? i_ref ip) && (i_dev ip =? dev) && (i_inum ip =? inum) = bool_decide (names dev inum ip)).
    { apply Bool.eq_true_iff_eq. rewrite bool_decide_eq_true, !andb_true_iff, Z.ltb_lt, !Z.eqb_eq. unfold names. tauto. }
    rewrite Eb. destruct (decide (names dev inum ip)) as [Hm|Hm].
    { rewrite bool_decide_eq_true_2 by done. f_equal. lia. }
    rewrite bool_decide_eq_false_2 by done.
    specialize (IH (match e with None => if i_ref ip =? 0 then Some i else None | Some e0 => Some e0 end) ltac:(lia)).
    destruct (list_find (names dev inum) (drop (S i) l)) as [[j x]|]; cbn [fmap option_fmap option_map prod_map].
    + rewrite IH. f_equal. simpl. lia.
    + rewrite IH. f_equal. destruct e as [e|]; [done|]. destruct (Z.eqb_spec (i_ref ip) 0) as [E|E].
      * rewrite decide_True by done. simpl. f_equal. lia.
      * rewrite decide_False by done. destruct (list_find _ (drop (S i) l)) as [[j x]|]; simpl; [|done]. f_equal. lia.
Qed.

(** The entry that [iget] hands out. *)
Definition taken_entry (dev inum : Z) (hit : bool) (ip : inode) : inode :=
  if hit then set_i_ref (i_ref ip + 1) ip else set_i_valid 0 (set_i_ref 1 (set_i_inum inum (set_i_dev dev ip))).

Lemma iget_eq p dev inum s : quiet p s → length (k_icache s) = NINODE →
  iget dev inum s = match iget_target dev inum (k_icache s) with
  | Some (i, hit) => Ok i (at_inode i (taken_entry dev inum hit (the_inode i s)) s)
  | None => Panic "iget: no inodes"
  end.
Proof.
  intros Hq Hlen. pose proof (q_cpu _ _ Hq) as Hc. assert (Hf : lock_free LIcache (k_lk s)) by (by apply (q_locks _ _ Hq)).
  unfold iget. rewrite (bind_ok _ _ _ _ _ (acquire_eq _ _ Hc Hf)). run. ksimpl.
  pose proof (iget_scan_found NINODE 0 dev inum None (k_icache s) ltac:(simpl; lia)) as Hscan. rewrite drop_0 in Hscan.
  unfold iget_target. destruct (list_find (names dev inum) (k_icache s)) as [[i x]|] eqn:Ef.
  - rewrite Hscan. simpl Nat.add. unfold upd_inode. run. ksimpl.
    erewrite bind_ok; [|apply (release_eq LIcache _ (k_lk s)); [done|done|by ksimpl]].
    unfold ret, at_inode, taken_entry. change (the_inode i (set_k_lk _ s)) with (the_inode i s). okeq.
  - rewrite Hscan. destruct (list_find (λ ip, i_ref ip = 0) (k_icache s)) as [[i x]|] eqn:Ee; [|done].
    change ((λ y : nat * inode, (0 + y.1)%nat) <$> Some (i, x)) with (Some i). cbv iota. apply list_find_Some in Ee as (Hi & _). apply lookup_lt_Some in Hi.
    do 4 (rewrite (bind_ok _ _ _ _ _ (upd_inode_at _ _ _))).
    rewrite !the_inode_at by (unfold at_inode; ksimpl; rewrite ?length_insert; done). rewrite !at_inode_twice.
    erewrite bind_ok; [|apply (release_eq LIcache _ (k_lk s)); [done|done|unfold at_inode; by ksimpl]].
    unfold ret, at_inode, taken_entry. change (the_inode i (set_k_lk _ s)) with (the_inode i s). okeq.
Qed.

Lemma iget_target_spec dev inum l :
  match iget_target dev inum l with
  | Some (i, true) => ∃ ip, l !! i = Some ip ∧ names dev inum ip
  | Some (i, false) => ∃ ip, l !! i = Some ip ∧ i_ref ip = 0 ∧ Forall (λ ip, ¬ names dev inum ip) l ∧ Forall (λ ip, i_ref ip ≠ 0) (take i l)
  | None => Forall (λ ip, ¬ names dev inum ip ∧ i_ref ip ≠ 0) l
  end.
Proof.
  unfold iget_target. destruct (list_find (names dev inum) l) as [[i x]|] eqn:E1.
  { apply list_find_Some in E1 as (? & ? & _). by exists x. }
  apply list_find_None in E1. destruct (list_find (λ ip, i_ref ip = 0) l) as [[i x]|] eqn:E2.
  - apply list_find_Some in E2 as (E2 & Hx & Hb). exists x. split_and!; try done.
    apply Forall_lookup. intros j y Hj. apply lookup_take_Some in Hj as [Hj ?]. by eapply Hb.
  - apply list_find_None in E2. by apply Forall_and.
Qed.

(** [iget] leaves one entry per inode in use. *)
Lemma taken_ok dev inum l i hit ip :
  icache_ok l → iget_target dev inum l = Some (i, hit) → l !! i = Some ip →
  icache_ok (<[i := taken_entry dev inum hit ip]> l) ∧ names dev inum (taken_entry dev inum hit ip).
Proof.
  intros [L R U] Ht Hip. pose proof (iget_target_spec dev inum l) as Hs. rewrite Ht in Hs. apply lookup_lt_Some in Hip as Hi.
  assert (Hn : names dev inum (taken_entry dev inum hit ip) ∧ ∀ j y, l !! j = Some y → names dev inum y → j = i).
  { destruct hit.
    - destruct Hs as (x & Hx & (? & ? & ?)). simplify_eq. split; [split_and!; simpl; [lia|done|done]|intros j y Hj Hy; by eapply U].
    - destruct Hs as (x & Hx & Hr & Hall & _). split; [by split_and!|].
      intros j y Hj Hy. rewrite Forall_lookup in Hall. destruct (Hall j y Hj Hy). }
  destruct Hn as [Hn Hu]. split; [|done]. set (e := taken_entry dev inum hit ip) in *.
  assert (Hself : ∀ d n, names d n e → d = dev ∧ n = inum) by (intros d n (_ & <- & <-); destruct Hn as (_ & -> & ->); done).
  split; [by rewrite length_insert| |].
  - intros j y Hj. destruct (decide (j = i)) as [->|]; [|rewrite list_lookup_insert_ne in Hj by done; by eapply R].
    rewrite list_lookup_insert_eq in Hj by done. simplify_eq. destruct Hn as (? & _). lia.
  - intros a b x y d n Ha Hb Hx Hy. destruct (decide (a = i)) as [->|Na], (decide (b = i)) as [->|Nb]; [done| | |];
      repeat match goal with
      | H : <[i := e]> l !! i = _ |- _ => rewrite list_lookup_insert_eq in H by done; injection H as <-
      | H : <[i := e]> l !! ?c = _, N : ?c ≠ i |- _ => rewrite list_lookup_insert_ne in H by done
      end.
    + destruct (Hself d n Hx) as [-> ->]. symmetry. by eapply Hu.
    + destruct (Hself d n Hy) as [-> ->]. by eapply Hu.
    + by eapply U.
Qed.

(** C15. The inode cache holds each inode once.  Called with no lock held on a cache in
    which no two entries in use are for the same inode, [iget] panics exactly when the inode is
    absent and no entry is free; otherwise the entry it returns is in use for that inode: the
    present one with one more reference, keeping its lock state and contents, or the first free
    one with one reference and marked as not yet read from disk.  Every other
    entry is unchanged, no two entries in use are for the same inode afterwards, and no lock is
    held. *)
Theorem iget_unique p dev inum s :
  quiet p s → icache_ok (k_icache s) →
  match iget dev inum s with
  | Ok i s' =>
      icache_ok (k_icache s') ∧ names dev inum (the_inode i s') ∧
      s' = set_k_icache (<[i := the_inode i s']> (k_icache s)) s ∧
      (names dev inum (the_inode i s) ∧ the_inode i s' = set_i_ref (i_ref (the_inode i s) + 1) (the_inode i s) ∨
       Forall (λ ip, ¬ names dev inum ip) (k_icache s) ∧ i_ref (the_inode i s) = 0 ∧
       Forall (λ ip, i_ref ip ≠ 0) (take i (k_icache s)) ∧
       i_ref (the_inode i s') = 1 ∧ i_valid (the_inode i s') = 0)
  | Panic _ => Forall (λ ip, ¬ names dev inum ip ∧ i_ref ip ≠ 0) (k_icache s)
  | _ => False
  end.
Proof.
  intros Hq Hok. rewrite (iget_eq p) by (done || apply Hok). pose proof (iget_target_spec dev inum (k_icache s)) as Hs.
  destruct (iget_target dev inum (k_icache s)) as [[i hit]|] eqn:Et; [|done].
  destruct (lookup_lt_is_Some_2 (k_icache s) i) as [ip Hip]; [destruct hit, Hs as (x & Hx & _); by apply lookup_lt_Some in Hx|].
  assert (Eip : the_inode i s = ip) by (unfold the_inode; by rewrite nth_lookup, Hip).
  apply lookup_lt_Some in Hip as Hi. rewrite the_inode_at, Eip by done.
  destruct (taken_ok _ _ _ _ _ _ Hok Et Hip) as [H1 H2]. split_and!; [done|done|done|].
  destruct hit; [left|right].
  - destruct Hs as (x & Hx & Hn). by simplify_eq.
  - destruct Hs as (x & Hx & Hr & Hall & Hb). by simplify_eq.
Qed.

(** ** Names *)

(** The name in a [char] array: the bytes before a zero, and at most [n]. *)
Fixpoint cname (n : nat) (l : list Z) : list Z :=
  match n, l with
  | S n', c :: l' => if c =? 0 then [] else c :: cname n' l'
  | _, _ => []
  end.

Definition names_equal (s t : list Z) : Prop := cname (Z.to_nat DIRSIZ) s = cname (Z.to_nat DIRSIZ) t.

#[export] Instance names_equal_dec s t : Decision (names_equal s t).
Proof. unfold names_equal. apply _. Defined.

Lemma cname_nil n l : cname (S n) l = [] ↔ nth 0 l 0 = 0.
Proof. destruct l as [|c l]; [done|]. simpl. destruct (Z.eqb_spec c 0); by subst. Qed.

Lemma cname_cons n l : nth 0 l 0 ≠ 0 → cname (S n) l = nth 0 l 0 :: cname n (tail l).
Proof. destruct l as [|c l]; [done|]. simpl. intros H. by rewrite (proj2 (Z.eqb_neq _ _) H). Qed.

Lemma nth_tail (l : list Z) k : nth k (tail l) 0 = nth (S k) l 0.
Proof. destruct l; simpl; [by destruct k|done]. Qed.

Lemma cname_eq n s t : cname n s = cname n t ↔
  ∀ k, (k < n)%nat → (∀ j, (j < k)%nat → nth j s 0 ≠ 0) → nth k s 0 = nth k t 0.
Proof.
  revert s t. induction n as [|n IH]; intros s t; [split; [lia|done]|].
  destruct (decide (nth 0 s 0 = 0)) as [E|E].
  - rewrite (proj2 (cname_nil n s) E). split.
    + intros H%eq_sym%cname_nil [|k] _ Hj; [congruence|]. by destruct (Hj 0%nat ltac:(lia)).
    + intros H. symmetry. apply cname_nil. rewrite <- (H 0%nat); [done|lia|lia].
  - rewrite (cname_cons n s) by done. split.
    + intros H [|k] Hk Hj.
      * destruct (decide (nth 0 t 0 = 0)) as [Et|Et]; [by rewrite (proj2 (cname_nil n t) Et) in H|].
        rewrite cname_cons in H by done. by injection H.
      * destruct (decide (nth 0 t 0 = 0)) as [Et|Et]; [by rewrite (proj2 (cname_nil n t) Et) in H|].
        rewrite cname_cons in H by done. injection H as _ H. rewrite <- !nth_tail. apply (proj1 (IH _ _) H); [lia|].
        intros j ?. rewrite nth_tail. apply Hj. lia.
    + intros H. pose proof (H 0%nat ltac:(lia) ltac:(lia)) as H0. rewrite cname_cons by congruence. rewrite H0. f_equal.
      apply IH. intros k Hk Hj. rewrite !nth_tail. apply H; [lia|]. intros [|j] ?; [done|]. rewrite <- nth_tail. apply Hj. lia.
Qed.

(** [namecmp] compares the names. *)
Lemma namecmp_names s t : Forall is_byte s → Forall is_byte t → namecmp s t = 0 ↔ names_equal s t.
Proof.
  intros Hs Ht. unfold namecmp, strncmp, names_equal.
  rewrite strncmp_loop_zero by (by apply at_list_byte). rewrite cname_eq. unfold at_list. split; intros H k Hk Hj.
  - specialize (H (Z.of_nat k)). rewrite Nat2Z.id in H. apply H; [lia|]. intros j ?. apply Hj. lia.
  - apply H; [lia|]. intros j ?. specialize (Hj (Z.of_nat j)). rewrite Nat2Z.id in Hj. apply Hj. lia.
Qed.

(** ** Directories *)

Section dirs.
Context {DD : DiskDriver} {DL : DiskLaws} {PF : PteFormat} {SY : Symbols}.

(** Entry [e] of the directory [d], from the bytes of the file. *)
Definition entry_bytes (s : kstate) (d : inode) (e : Z) (o : Z) (n : nat) : list Z :=
  (λ j, u8 (file_byte s d (e * DIRENT_SIZE + o + Z.of_nat j))) <$> seq 0 n.
Definition entry_inum (s : kstate) (d : inode) (e : Z) : Z := le_join (entry_bytes s d e 0 2).
Definition entry_name (s : kstate) (d : inode) (e : Z) : list Z := entry_bytes s d e 2 14.

(** Entry [e] is in use with this name. *)
Definition has_name (s : kstate) (d : inode) (name : list Z) (e : Z) : Prop :=
  entry_inum s d e ≠ 0 ∧ names_equal name (entry_name s d e).

(** Nothing has happened since [s] but reads of the directory into the [struct dirent]. *)
Record looked (p : nat) (k : Z) (s t : kstate) : Prop := mklooked {
  lk_txn : txn p ∅ k t;
  lk_kept : kept_but_mem s t;
  lk_blk : ∀ m, blk t m = blk s m;
  lk_mem : ∀ a, ¬ scratch a → ¬ (stk ≤ a < stk + DIRENT_SIZE) → rd (k_mem t) a = rd (k_mem s) a
}.

Lemma load_delivered p k d e o n s t :
  delivered p ∅ k d stk (e * DIRENT_SIZE) DIRENT_SIZE s t → 0 ≤ o → o + Z.of_nat n ≤ DIRENT_SIZE →
  (∀ a, stk ≤ a < stk + DIRENT_SIZE → plain_mem a) →
  load_bytes (k_mem t) (stk + o) n = entry_bytes s d e o n.
Proof.
  intros [_ _ _ Hm] Ho Hn Hp. apply list_eq_same_length with n; [by unfold entry_bytes; rewrite length_fmap, length_seq|by rewrite length_load_bytes|].
  intros i x y Hi. rewrite lookup_load_bytes by done. unfold entry_bytes. rewrite list_lookup_fmap, lookup_seq_lt by done. simpl.
  intros [= <-] [= <-]. assert (stk ≤ stk + o + Z.of_nat i < stk + DIRENT_SIZE) by lia.
  rewrite Hm by (by apply Hp). rewrite decide_True by done. f_equal. f_equal. lia.
Qed.

Lemma entry_bytes_ok s d e o n : Forall is_byte (entry_bytes s d e o n).
Proof. apply Forall_fmap, Forall_true. intros j. apply u8_range. Qed.

Lemma looked_delivered p k d off s t t' : looked p k s t → delivered p ∅ k d stk off DIRENT_SIZE t t' → looked p k s t'.
Proof.
  intros [L1 L2 L3 L4] [D1 D2 D3 D4]. split; [done| |intros m; by rewrite D3|].
  - pose proof (kept_but_mem_step s t (k_mem t') t' L2 D2) as H. by replace (set_k_mem (k_mem t') t') with t' in H by (by destruct t').
  - intros a Ha Hn. rewrite D4 by done. rewrite decide_False by done. by apply L4.
Qed.

Lemma has_name_ext s t d name e : (∀ m, blk t m = blk s m) → has_name t d name e ↔ has_name s d name e.
Proof.
  intros Hb. unfold has_name, entry_inum, entry_name.
  assert (E : ∀ o n, entry_bytes t d e o n = entry_bytes s d e o n).
  { intros o n. apply list_fmap_ext. intros i x _. f_equal. by apply file_byte_ext. }
  by rewrite !E.
Qed.

Section lookup.
Context (p : nat) (k : Z) (dp : nat) (d : inode) (s : kstate).
Context (Ht : txn p ∅ k s) (Hd : the_inode dp s = d) (Hf : file_ok s d) (Hk : 1 ≤ k).
Context (Htype : i_type d = T_DIR) (Hsize : i_size d mod DIRENT_SIZE = 0).
Context (Hstk : 0 ≤ stk ∧ stk + DIRENT_SIZE < 2 ^ 64) (Hplain : ∀ a, stk ≤ a < stk + DIRENT_SIZE → plain_mem a).

(** One entry is read. *)
Lemma read_entry e t : looked p k s t → 0 ≤ e → (e + 1) * DIRENT_SIZE ≤ i_size d →
  wp (readi dp false stk (e * DIRENT_SIZE) DIRENT_SIZE) (λ r t', r = DIRENT_SIZE ∧ looked p k s t' ∧
    de_inum_at (k_mem t') = entry_inum s d e ∧ de_name_at (k_mem t') = entry_name s d e) t.
Proof.
  intros Hl He Hlt. pose proof Hl as [L1 L2 L3 L4]. pose proof (fo_size _ _ Hf) as Hsz. change (MAXFILE * BSIZE) with 274432 in Hsz.
  change DIRENT_SIZE with 16 in *.
  assert (Hmin : Z.min 16 (i_size d - e * 16) = 16) by lia.
  eapply wp_mono; [apply (readi_ok p k dp d stk (e * 16) 16 t); rewrite ?Hmin; try done; try lia|].
  - unfold the_inode. rewrite (kept_but_mem_icache s t) by done. done.
  - by apply (file_ok_ext s).
  - intros r t' (-> & Hdel). rewrite Hmin in Hdel |- *. split_and!; [done|by eapply looked_delivered| |].
    + unfold de_inum_at. rewrite <- (Z.add_0_r stk). rewrite (load_delivered _ _ _ _ _ _ _ _ Hdel) by (done || lia).
      unfold entry_inum, entry_bytes. f_equal. apply list_fmap_ext. intros i x _. f_equal. by apply file_byte_ext.
    + unfold de_name_at. rewrite (load_delivered _ _ _ _ _ _ _ _ Hdel) by (done || lia).
      apply list_fmap_ext. intros i x _. f_equal. by apply file_byte_ext.
Qed.

Lemma looked_refl : looked p k s s.
Proof. by split. Qed.

(** What [dirlookup] does to the state when it finds an inode. *)
Record found (name : list Z) (ip : nat) (e : Z) (t : kstate) : Prop := mkfound {
  fd_range : 0 ≤ e < i_size d / DIRENT_SIZE;
  fd_name : has_name s d name e;
  fd_first : ∀ e', 0 ≤ e' < e → ¬ has_name s d name e';
  fd_inode : names (i_dev d) (entry_inum s d e) (the_inode ip t);
  fd_icache : icache_ok (k_icache t);
  fd_state : ∃ u, looked p k s u ∧ iget (i_dev d) (entry_inum s d e) u = Ok ip t
}.

Lemma iget_found name e t :
  looked p k s t → icache_ok (k_icache s) → Exists (λ ip, i_ref ip = 0) (k_icache s) →
  0 ≤ e < i_size d / DIRENT_SIZE → has_name s d name e → (∀ e', 0 ≤ e' < e → ¬ has_name s d name e') →
  wp (iget (i_dev d) (entry_inum s d e)) (λ ip t', found name ip e t') t.
Proof.
  intros Hl Hok Hfree He Hn Hfirst. pose proof Hl as [L1 L2 L3 L4].
  pose proof (kept_but_mem_icache s t L2) as Ei. set (n := entry_inum s d e).
  pose proof (iget_target_spec (i_dev d) n (k_icache t)) as Hs. rewrite Ei in Hs.
  pose proof (iget_eq p (i_dev d) n t (txn_quiet _ _ _ _ L1)) as E. rewrite Ei in E. specialize (E (ic_len _ Hok)).
  destruct (iget_target (i_dev d) n (k_icache s)) as [[i hit]|] eqn:Et.
  - assert (Hi : ∃ x, k_icache s !! i = Some x) by (destruct hit, Hs as (x & Hx & _); by exists x). destruct Hi as [x Hx].
    assert (Ex : the_inode i t = x) by (unfold the_inode; by rewrite Ei, nth_lookup, Hx). rewrite Ex in E.
    eapply wp_ok; [exact E|].
    apply lookup_lt_Some in Hx as Hlt. destruct (taken_ok _ _ _ _ _ _ Hok Et Hx) as [H1 H2].
    split; rewrite ?the_inode_at by (by rewrite Ei); try done; [unfold at_inode; ksimpl; by rewrite Ei|by exists t].
  - rewrite Forall_forall in Hs. apply Exists_exists in Hfree as (x & Hx & Hr). by destruct (Hs x Hx).
Qed.

Lemma dirlookup_ok name :
  Forall is_byte name → icache_ok (k_icache s) → Exists (λ ip, i_ref ip = 0) (k_icache s) →
  wp (dirlookup dp name) (λ r t, match r with
    | None => (∀ e, 0 ≤ e < i_size d / DIRENT_SIZE → ¬ has_name s d name e) ∧ looked p k s t
    | Some (ip, off) => ∃ e, off = e * DIRENT_SIZE ∧ found name ip e t
    end) s.
Proof.
  intros Hname Hok Hfree. pose proof (fo_size _ _ Hf) as Hsz. change (MAXFILE * BSIZE) with 274432 in Hsz.
  change DIRENT_SIZE with 16 in *. unfold dirlookup, get_inode. rewrite wp_bind, wp_gets, Hd, Htype. simpl negb. cbv iota.
  apply (wp_loop (dirlookup_body dp name)
    (λ off t, ∃ e, off = e * 16 ∧ 0 ≤ e ≤ i_size d / 16 ∧ (∀ e', 0 ≤ e' < e → ¬ has_name s d name e') ∧ looked p k s t)
    (λ off _, i_size d - off)).
  - intros off t (e & -> & He & _). mlia.
  - intros off t (e & -> & He & Hno & Hl). pose proof Hl as [L1 L2 L3 L4]. unfold dirlookup_body, get_inode.
    assert (Ed : the_inode dp t = d) by (unfold the_inode; by rewrite (kept_but_mem_icache s t)).
    rewrite wp_bind, wp_gets, Ed. destruct (decide (e = i_size d / 16)) as [->|Hne].
    { assert (i_size d / 16 * 16 = i_size d) as -> by mlia. zdec. rewrite wp_ret. done. }
    assert (Hlt : (e + 1) * 16 ≤ i_size d) by mlia. zdec. rewrite wp_bind.
    eapply wp_mono; [apply (read_entry e t Hl (proj1 He) Hlt)|]. intros r t' (-> & Hl' & E1 & E2). change DIRENT_SIZE with 16. simpl negb. cbv iota.
    rewrite wp_bind, wp_gets, E1, E2.
    assert (Ed' : the_inode dp t' = d) by (unfold the_inode; by rewrite (kept_but_mem_icache s t') by apply Hl').
    assert (Hnext : ¬ has_name s d name e → wp (ret (inl (u32 (e * 16 + 16)))) (λ r t0, match r with
      | inl off => (∃ e, off = e * 16 ∧ 0 ≤ e ≤ i_size d / 16 ∧ (∀ e', 0 ≤ e' < e → ¬ has_name s d name e') ∧ looked p k s t0) ∧ i_size d - off < i_size d - e * 16
      | inr None => (∀ e, 0 ≤ e < i_size d / 16 → ¬ has_name s d name e) ∧ looked p k s t0
      | inr (Some (ip, off)) => ∃ e, off = e * 16 ∧ found name ip e t0 end) t').
    { intros Hn. rewrite wp_ret, u32_small by lia. split; [|lia]. exists (e + 1). split_and!; [lia|lia|mlia| |done].
      intros e' He'. destruct (decide (e' = e)) as [->|]; [done|]. apply Hno. lia. }
    destruct (Z.eqb_spec (entry_inum s d e) 0) as [E0|E0]; [by apply Hnext; intros [? _]|].
    destruct (Z.eqb_spec (namecmp name (entry_name s d e)) 0) as [En|En].
    + rewrite namecmp_names in En by (done || apply entry_bytes_ok). rewrite wp_bind, wp_gets, Ed', wp_bind.
      eapply wp_mono; [apply (iget_found name e); try done; change DIRENT_SIZE with 16; lia|].
      intros ip t2 Hfd. rewrite wp_ret. by exists e.
    + apply Hnext. intros [_ Hne']. apply En. by apply namecmp_names; [|apply entry_bytes_ok|].
  - exists 0. split_and!; [lia|lia|mlia|lia|apply looked_refl].
  - lia.
Qed.
End lookup.
End dirs.

#[local] Existing Instance sync_disk.

Lemma icache_ok_fs0 : icache_ok (k_icache fs0).
Proof.
  change (k_icache fs0) with (ip0 :: replicate 49 inode0).
  assert (H : ∀ i x, (ip0 :: replicate 49 inode0) !! i = Some x → i = 0%nat ∧ x = ip0 ∨ x = inode0).
  { intros [|i] x; [intros [= <-]; by left|change (replicate 49 inode0 !! i = Some x → S i = 0%nat ∧ x = ip0 ∨ x = inode0)]. intros [-> _]%lookup_replicate. by right. }
  split; [done| |].
  - intros i x [[_ ->]| ->]%H; done.
  - intros i j x y dev inum Hi Hj Hx Hy. apply H in Hi as [[-> _]| ->], Hj as [[-> _]| ->]; try done; by destruct Hx, Hy.
Qed.

Lemma iget_unique_witness :
  match iget ROOTDEV 1 fs0 with Ok i s' => i = 0%nat ∧ i_ref (the_inode i s') = 2 ∧ icache_ok (k_icache s') | _ => False end.
Proof.
  pose proof (iget_unique 0 ROOTDEV 1 fs0 (txn_quiet _ _ _ _ (txn_fs0 5 ltac:(lia))) icache_ok_fs0) as H.
  assert (E : match iget ROOTDEV 1 fs0 with Ok i s' => Some (i, i_ref (the_inode i s')) | _ => None end = Some (0%nat, 2))
    by (vm_compute; reflexivity).
  destruct (iget ROOTDEV 1 fs0) as [i s'| | | |]; try discriminate E. injection E as -> E. split_and!; [done|done|apply H].
Defined.
