(* ===== verification/PathSpec.v ===== *)
(** * Path names

    [namex] walks the directory tree: [skipelem] cuts the path into its elements, and each
    element is looked up in the directory reached so far.  The walk is compared with [resolve],
    which is defined on the contents of the disk alone. *)

From stdpp Require Import prelude gmap strings list.
From Stdlib Require Import ZArith Lia.
From S2P Require Import Prelude.
From S2P Require Import Monad.
From S2P Require Import Riscv.
From S2P Require Import Types.
From S2P Require Import Mem.
From S2P Require Import Spinlock.
From S2P Require Import Kalloc.
From S2P Require Import Vm.
From S2P Require Import VmSpec.
From S2P Require Import Proc.
From S2P Require Import ProcSpec.
From S2P Require Import Sleeplock.
From S2P Require Import Virtio.
From S2P Require Import Bio.
From S2P Require Import BioSpec.
From S2P Require Import Cache.
From S2P Require Import Log.
From S2P Require Import LogSpec.
From S2P Require Import LogOps.
From S2P Require Import Txn.
From S2P Require Import Fs.
From S2P Require Import FsSpec.
From S2P Require Import InodeSpec.
From S2P Require Import DirSpec.

(** ** The elements of a path *)

(** The pieces between slashes. *)
Fixpoint pieces (path : list Z) : list (list Z) :=
  match path with
  | [] => [[]]
  | c :: path' =>
      if c =? SLASH then [] :: pieces path'
      else match pieces path' with e :: es => (c :: e) :: es | [] => [[c]] end
  end.
Definition elements (path : list Z) : list (list Z) := filter (λ e, e ≠ []) (pieces path).

Lemma pieces_take path : pieces path = (take_elem path).1 ::
  match (take_elem path).2 with [] => [] | _ :: rest => pieces rest end.
Proof.
  induction path as [|c path IH]; [done|]. simpl. destruct (c =? SLASH); [done|]. rewrite IH.
  by destruct (take_elem path) as [e rest].
Qed.

Lemma take_elem_slash path c rest : (take_elem path).2 = c :: rest → c = SLASH.
Proof.
  induction path as [|x path IH]; [done|]. simpl. destruct (Z.eqb_spec x SLASH) as [E|]; [by intros [= <- _]|].
  by destruct (take_elem path).
Qed.

Lemma elements_skip path : elements (skip_slashes path) = elements path.
Proof.
  induction path as [|c path IH]; [done|]. cbn [skip_slashes]. destruct (c =? SLASH) eqn:E; [|done].
  rewrite IH. unfold elements. cbn [pieces]. by rewrite E.
Qed.

Lemma skip_slashes_head path : match skip_slashes path with [] => True | c :: _ => c ≠ SLASH end.
Proof. induction path as [|c path IH]; [done|]. cbn [skip_slashes]. by destruct (Z.eqb_spec c SLASH). Qed.

Lemma skip_slashes_length path : (length (skip_slashes path) ≤ length path)%nat.
Proof. induction path as [|c path IH]; [done|]. simpl. destruct (c =? SLASH); simpl; lia. Qed.

Lemma take_elem_app path : (take_elem path).1 ++ (take_elem path).2 = path.
Proof.
  induction path as [|c path IH]; [done|]. simpl. destruct (c =? SLASH); [done|].
  destruct (take_elem path) as [e rest]. simpl in *. by rewrite IH.
Qed.

(** A path that does not begin with a slash begins with its first element. *)
Lemma elements_take path : (match path with [] => False | c :: _ => c ≠ SLASH end) →
  elements path = (take_elem path).1 :: elements (take_elem path).2 ∧ (take_elem path).1 ≠ [].
Proof.
  intros Hc. assert (Hne : (take_elem path).1 ≠ []).
  { destruct path as [|c path]; [done|]. simpl. rewrite (proj2 (Z.eqb_neq _ _) Hc). by destruct (take_elem path). }
  split; [|done]. unfold elements. rewrite pieces_take, filter_cons_True by done. f_equal.
  destruct (take_elem path).2 as [|c rest] eqn:E; [done|]. apply take_elem_slash in E as ->. done.
Qed.

Lemma elements_nil path : elements path = [] ↔ skip_slashes path = [].
Proof.
  rewrite <- elements_skip. pose proof (skip_slashes_head path) as H. split; [|by intros ->].
  intros E. destruct (skip_slashes path) as [|c rest] eqn:Es; [done|].
  destruct (elements_take (c :: rest)) as [Et _]; [done|]. by rewrite Et in E.
Qed.

(** The buffer [name] after it has been given an element. *)
Lemma cname_stored (e name : list Z) :
  length name = Z.to_nat DIRSIZ → Forall (λ c, c ≠ 0) e →
  cname (Z.to_nat DIRSIZ) (if DIRSIZ <=? Z.of_nat (length e) then splice 0 (take (Z.to_nat DIRSIZ) e) name
    else <[length e := 0]> (splice 0 e name)) = take (Z.to_nat DIRSIZ) e.
Proof.
  assert (Hall : ∀ n l t, Forall (λ c, c ≠ 0) l → length l = n → cname n (l ++ t) = l).
  { intros n. induction n as [|n IH]; intros [|c l] t Hl E; try done. inversion Hl; subst. simpl.
    rewrite (proj2 (Z.eqb_neq c 0)) by done. f_equal. apply IH; [done|by injection E]. }
  assert (Hcut : ∀ l n t, Forall (λ c, c ≠ 0) l → (length l < n)%nat → cname n (l ++ 0 :: t) = l).
  { intros l. induction l as [|c l IH]; intros [|n] t Hl E; try done; simpl in *; try lia. inversion Hl; subst.
    rewrite (proj2 (Z.eqb_neq c 0)) by done. f_equal. apply IH; [done|lia]. }
  intros Hn He. change DIRSIZ with 14 in *. destruct (Z.leb_spec 14 (Z.of_nat (length e))) as [Hl|Hl].
  - unfold splice. rewrite take_0. simpl app at 1. apply Hall; [by apply Forall_take|]. rewrite length_take. lia.
  - rewrite (take_ge e) by lia. unfold splice. rewrite take_0. simpl app at 1.
    rewrite insert_app_r_alt by lia. rewrite Nat.sub_diag.
    destruct (drop (length e) name) as [|x t] eqn:E; [apply (f_equal length) in E; rewrite length_drop in E; simpl in E; lia|].
    apply Hcut; [done|lia].
Qed.

(** [skipelem] takes the first element off the path. *)
Lemma skipelem_elements path name : Forall (λ c, c ≠ 0) path → length name = Z.to_nat DIRSIZ →
  match skipelem path name with
  | None => elements path = []
  | Some (path', name') => ∃ e, elements path = e :: elements path' ∧ cname (Z.to_nat DIRSIZ) name' = take (Z.to_nat DIRSIZ) e ∧
      (path' = [] ↔ elements path' = []) ∧ length name' = Z.to_nat DIRSIZ ∧ Forall (λ c, c ≠ 0) path' ∧ Forall (λ c, c ≠ 0) e ∧
      (length path' < length path)%nat
  end.
Proof.
  intros Hz Hn. unfold skipelem. destruct (skip_slashes path) as [|c r] eqn:Es; [by apply elements_nil|].
  assert (Hz' : Forall (λ c, c ≠ 0) (c :: r)).
  { rewrite <- Es. clear Es. induction Hz as [|x path' Hx Hp IH]; [done|]. simpl. destruct (x =? SLASH); [done|by constructor]. }
  pose proof (skip_slashes_head path) as Hh. rewrite Es in Hh. destruct (elements_take (c :: r) Hh) as [E1 E2].
  pose proof (take_elem_app (c :: r)) as Ha. destruct (take_elem (c :: r)) as [e rest]. simpl in E1, E2, Ha.
  rewrite <- Ha in Hz'. apply Forall_app in Hz' as [He Hr]. exists e. split_and!; [|by apply cname_stored| | | |done|].
  - by rewrite <- elements_skip, Es, E1, elements_skip.
  - rewrite elements_skip, elements_nil. done.
  - case_match eqn:El.
    + rewrite length_splice; [done|]. rewrite length_take. change DIRSIZ with 14 in *. lia.
    + rewrite length_insert, length_splice; [done|]. apply Z.leb_gt in El. lia.
  - clear -Hr. induction Hr as [|x p Hx Hp IH]; [done|]. simpl. destruct (x =? SLASH); [done|by constructor].
  - pose proof (skip_slashes_length rest). pose proof (skip_slashes_length path) as Hl. rewrite Es, <- Ha, length_app in Hl.
    destruct e; [done|]. simpl in Hl. lia.
Qed.

(** ** The tree on the disk *)

Section tree.
Context {DD : DiskDriver} {DL : DiskLaws}.

(** Two states with the same file system. *)
Record view (s t : kstate) : Prop := mkview {
  vw_blk : ∀ m, blk t m = blk s m;
  vw_sb : k_sb t = k_sb s;
  vw_start : lg_start (k_log t) = lg_start (k_log s)
}.

#[export] Instance view_equiv : Equivalence view.
Proof.
  split.
  - by split.
  - intros s t [H1 H2 H3]. split; congruence.
  - intros s t u [A1 A2 A3] [B1 B2 B3]. split; congruence.
Qed.

#[export] Instance k_sb_proper : Proper (view ==> eq) k_sb.
Proof. intros s t H. symmetry. apply H. Qed.

#[export] Instance dinode_at_proper : Proper (view ==> eq ==> eq) dinode_at.
Proof. intros s t [H1 H2 H3] n ? <-. unfold dinode_at. by rewrite H1, H2. Qed.

#[export] Instance file_byte_proper : Proper (view ==> eq ==> eq ==> eq) file_byte.
Proof. intros s t H d ? <- o ? <-. symmetry. apply file_byte_ext, H. Qed.

#[export] Instance file_ok_proper : Proper (view ==> eq ==> iff) file_ok.
Proof.
  intros s t H d ? <-. split; apply file_ok_ext; [apply H|]. intros m. symmetry. apply H.
Qed.

#[export] Instance entry_bytes_proper : Proper (view ==> eq ==> eq ==> eq ==> eq ==> eq) entry_bytes.
Proof.
  intros s t H d ? <- e ? <- o ? <- n ? <-. apply list_fmap_ext. intros i x _. f_equal. by rewrite H.
Qed.

#[export] Instance has_name_proper : Proper (view ==> eq ==> eq ==> eq ==> iff) has_name.
Proof. intros s t H d ? <- name ? <- e ? <-. unfold has_name, entry_inum, entry_name. by rewrite H. Qed.

#[export] Instance inodes_laid_proper : Proper (view ==> iff) inodes_laid.
Proof. 
  assert (HH : ∀ s t, view s t → inodes_laid s → inodes_laid t).
  { intros s t [V1 V2 V3] [H1 H2 H3 H4]. split; rewrite ?V2, ?V3; done. }
  intros s t H. split; apply HH; [done|by symmetry].
Qed.

#[export] Instance has_name_dec s d name e : Decision (has_name s d name e).
Proof. unfold has_name. apply _. Defined.

(** An inode as it is on the disk. *)
Definition disk_inode (s : kstate) (n : Z) : inode := load_inode (dinode_at s n) (mkInode ROOTDEV n 1 1 0 0 0 0 0 []).

(** The inode that a directory gives for a name: that of its first entry with the name. *)
Definition dir_lookup (s : kstate) (n : Z) (name : list Z) : option Z :=
  let d := disk_inode s n in
  (λ x, entry_inum s d x.2) <$> list_find (has_name s d name) (seqZ 0 (i_size d / DIRENT_SIZE)).

(** Where a path leads from inode [n]: every element but the last is to be a
    directory; for the parent, so is the inode where the last element is looked up. *)
Fixpoint resolve (s : kstate) (parent : bool) (n : Z) (es : list (list Z)) : option Z :=
  match es with
  | [] => if parent then None else Some n
  | e :: es' =>
      if di_type (dinode_at s n) =? T_DIR then
        if parent && bool_decide (es' = []) then Some n
        else match dir_lookup s n e with None => None | Some m => resolve s parent m es' end
      else None
  end.

(** An inode in use, with a link to it. *)
Definition live (s : kstate) (n : Z) : Prop :=
  0 ≤ n < sb_ninodes (k_sb s) ∧ di_type (dinode_at s n) ≠ 0 ∧ di_nlink (dinode_at s n) ≠ 0.

(** A directory is a file of whole entries, and they name live inodes. *)
Record dir_ok (s : kstate) (n : Z) : Prop := mkdir_ok {
  do_file : file_ok s (disk_inode s n);
  do_size : i_size (disk_inode s n) mod DIRENT_SIZE = 0;
  do_live : ∀ e, 0 ≤ e < i_size (disk_inode s n) / DIRENT_SIZE → entry_inum s (disk_inode s n) e ≠ 0 →
    live s (entry_inum s (disk_inode s n) e)
}.

#[export] Instance disk_inode_proper : Proper (view ==> eq ==> eq) disk_inode.
Proof. intros s t H n ? <-. unfold disk_inode. by rewrite H. Qed.

#[export] Instance entry_inum_proper : Proper (view ==> eq ==> eq ==> eq) entry_inum.
Proof. intros s t H d ? <- e ? <-. unfold entry_inum. by rewrite H. Qed.

#[export] Instance live_proper : Proper (view ==> eq ==> iff) live.
Proof. intros s t H n ? <-. unfold live. by rewrite H. Qed.

#[export] Instance dir_ok_proper : Proper (view ==> eq ==> iff) dir_ok.
Proof.
  assert (HH : ∀ s t n, view s t → dir_ok s n → dir_ok t n).
  { intros s t n H [H1 H2 H3]. split; rewrite <- ?H; try done. intros e. rewrite <- !H. apply H3. }
  intros s t H n ? <-. split; apply HH; [done|by symmetry].
Qed.

#[export] Instance dir_lookup_proper : Proper (view ==> eq ==> eq ==> eq) dir_lookup.
Proof.
  intros s t H n ? <- name ? <-. unfold dir_lookup.
  pose proof (disk_inode_proper s t H n n eq_refl) as E. rewrite <- E. set (d := disk_inode s n).
  assert (El : list_find (has_name t d name) (seqZ 0 (i_size d / DIRENT_SIZE)) = list_find (has_name s d name) (seqZ 0 (i_size d / DIRENT_SIZE))).
  { apply list_find_ext. intros e. by rewrite H. }
  rewrite El. clear El. destruct (list_find _ _) as [[i e]|]; [|done]. simpl. by rewrite H.
Qed.

#[export] Instance resolve_proper : Proper (view ==> eq ==> eq ==> eq ==> eq) resolve.
Proof.
  intros s t H pr ? <- n ? <- es ? <-. revert n. induction es as [|e es IH]; intros n; [done|]. cbn [resolve].
  rewrite (dinode_at_proper s t H n n eq_refl), (dir_lookup_proper s t H n n eq_refl e e eq_refl).
  destruct (_ =? T_DIR); [|done]. destruct (pr && _); [done|]. by destruct (dir_lookup t n e).
Qed.
End tree.

(** ** The file system between two operations of a process *)

Section walk.
Context {DD : DiskDriver} {DL : DiskLaws}.

(** A cache entry in use is for a live inode and holds its contents if it is valid. *)
Definition entry_ok (s : kstate) (x : inode) : Prop :=
  0 < i_ref x → i_dev x = ROOTDEV ∧ live s (i_inum x) ∧ (i_valid x ≠ 0 → dinode_of_inode x = dinode_at s (i_inum x)).

(** Process [p] holds the lock of the inode [L], and no other inode is locked. *)
Definition only_locked (p : nat) (L : option nat) (s : kstate) : Prop :=
  ∀ i, (i < NINODE)%nat →
    if decide (L = Some i) then slk_locked (the_slock (SInode i) s) ≠ 0 ∧ slk_pid (the_slock (SInode i) s) = p_pid (the_proc p s)
    else slk_locked (the_slock (SInode i) s) = 0.

Record fsinv (p : nat) (k : Z) (L : option nat) (s : kstate) : Prop := mkfsinv {
  fi_txn : txn p ∅ k s;
  fi_room : 1 ≤ k;
  fi_laid : inodes_laid s;
  fi_cache : icache_ok (k_icache s);
  fi_entry : ∀ i, entry_ok s (the_inode i s);
  fi_locks : only_locked p L s;
  fi_held : ∀ i, L = Some i → 0 < i_ref (the_inode i s) ∧ i_valid (the_inode i s) ≠ 0;
  fi_dirs : ∀ n, live s n → di_type (dinode_at s n) = T_DIR → dir_ok s n
}.

(** The references to the cache entries have changed by [f]. *)
Definition refs_by (f : nat → Z) (s t : kstate) : Prop :=
  ∀ j, i_ref (the_inode j t) = i_ref (the_inode j s) + f j ∧
    (0 < i_ref (the_inode j s) → i_dev (the_inode j t) = i_dev (the_inode j s) ∧ i_inum (the_inode j t) = i_inum (the_inode j s)).
Definition none : nat → Z := λ _, 0.
Definition one (i : nat) : nat → Z := λ j, if decide (j = i) then 1 else 0.

Lemma used_range i s : 0 < i_ref (the_inode i s) → (i < length (k_icache s))%nat.
Proof.
  intros H. destruct (decide (i < length (k_icache s))%nat); [done|]. unfold the_inode in H. by rewrite nth_overflow in H by lia.
Qed.

Lemma the_inode_lookup i s x : k_icache s !! i = Some x → the_inode i s = x.
Proof. intros H. unfold the_inode. by rewrite nth_lookup, H. Qed.

Lemma the_inode_some i s : (i < length (k_icache s))%nat → k_icache s !! i = Some (the_inode i s).
Proof. intros [x Hx]%lookup_lt_is_Some_2. by rewrite (the_inode_lookup _ _ _ Hx). Qed.

Lemma the_inode_upd i j x s t : k_icache t = <[i := x]> (k_icache s) → (i < length (k_icache s))%nat →
  the_inode j t = if decide (j = i) then x else the_inode j s.
Proof.
  intros E Hi. unfold the_inode. rewrite E, !nth_lookup. case_decide as Ej; [subst; by rewrite list_lookup_insert_eq|].
  by rewrite list_lookup_insert_ne.
Qed.

(** An entry is replaced by one for the same inode. *)
Lemma icache_ok_upd l i x y : icache_ok l → l !! i = Some x → i_dev y = i_dev x → i_inum y = i_inum x → 0 ≤ i_ref y →
  (0 < i_ref y → 0 < i_ref x) → icache_ok (<[i := y]> l).
Proof.
  intros [L R U] Hx Ed En Hr Hp. apply lookup_lt_Some in Hx as Hi.
  assert (Hl : ∀ a z, <[i := y]> l !! a = Some z → ∃ w, l !! a = Some w ∧ ∀ d n, names d n z → names d n w).
  { intros a z Ha. destruct (decide (a = i)) as [->|]; [|rewrite list_lookup_insert_ne in Ha by done; by exists z].
    rewrite list_lookup_insert_eq in Ha by done. injection Ha as <-. exists x. split; [done|].
    intros d n (? & <- & <-). split_and!; [by apply Hp|done|done]. }
  split; [by rewrite length_insert| |].
  - intros a z Ha. destruct (decide (a = i)) as [->|]; [|rewrite list_lookup_insert_ne in Ha by done; by eapply R].
    rewrite list_lookup_insert_eq in Ha by done. by injection Ha as <-.
  - intros a b z1 z2 d n Ha Hb H1 H2. destruct (Hl _ _ Ha) as (w1 & Hw1 & F1), (Hl _ _ Hb) as (w2 & Hw2 & F2).
    eapply U; [exact Hw1|exact Hw2|by apply F1|by apply F2].
Qed.

(** One entry of the cache, and the locks, may change. *)
Lemma fsinv_upd p k L L' i x s t :
  fsinv p k L s → txn p ∅ k t → view s t → k_icache t = <[i := x]> (k_icache s) → (i < NINODE)%nat →
  icache_ok (<[i := x]> (k_icache s)) → entry_ok s x → only_locked p L' t →
  (∀ j, L' = Some j → 0 < i_ref (the_inode j t) ∧ i_valid (the_inode j t) ≠ 0) → fsinv p k L' t.
Proof.
  intros [F1 F2 F3 F4 F5 F6 F7 F8] Ht Hv Ei Hi Hok Hx Hl Hh. pose proof (ic_len _ F4) as HL.
  assert (He : ∀ y, entry_ok s y → entry_ok t y) by (intros y; unfold entry_ok; by rewrite <- Hv).
  split; try done.
  - by rewrite <- Hv.
  - by rewrite Ei.
  - intros j. apply He. rewrite (the_inode_upd i j x s t) by (done || lia). by case_decide.
  - intros n. rewrite <- Hv. apply F8.
Qed.

(** Nothing of the file system changes, but the locks may. *)
Lemma fsinv_same p k L L' s t :
  fsinv p k L s → txn p ∅ k t → view s t → k_icache t = k_icache s → only_locked p L' t →
  (∀ j, L' = Some j → 0 < i_ref (the_inode j s) ∧ i_valid (the_inode j s) ≠ 0) → fsinv p k L' t.
Proof.
  intros Hf Ht Hv Ei Hl Hh. pose proof (fi_cache _ _ _ _ Hf) as Hc. pose proof (ic_len _ Hc) as HL.
  assert (H0 : k_icache s !! 0%nat = Some (the_inode 0 s)) by (apply the_inode_some; unfold NINODE in *; lia).
  assert (Eid : <[0%nat := the_inode 0 s]> (k_icache s) = k_icache s) by (by apply list_insert_id).
  apply (fsinv_upd p k L L' 0 (the_inode 0 s) s t); try done.
  - by rewrite Eid.
  - unfold NINODE. lia.
  - by rewrite Eid.
  - apply (fi_entry _ _ _ _ Hf).
  - intros j Hj. unfold the_inode. rewrite Ei. by apply Hh.
Qed.

Lemma refs_by_same s t : k_icache t = k_icache s → refs_by none s t.
Proof. intros E j. unfold the_inode, none. rewrite E. split; [lia|done]. Qed.

Lemma refs_by_trans f g s t u : (∀ j, 0 ≤ f j) → refs_by f s t → refs_by g t u → refs_by (λ j, f j + g j) s u.
Proof.
  intros Hf H1 H2 j. destruct (H1 j) as [E1 K1], (H2 j) as [E2 K2]. specialize (Hf j). split; [lia|].
  intros Hp. destruct (K1 Hp) as [-> ->] || destruct (K1 Hp) as [<- <-]. apply K2. lia.
Qed.

Lemma refs_by_ext f g s t : (∀ j, f j = g j) → refs_by f s t → refs_by g s t.
Proof. intros E H j. rewrite <- E. apply H. Qed.

Lemma refs_by_upd i x s t : k_icache t = <[i := x]> (k_icache s) → (i < length (k_icache s))%nat →
  (0 < i_ref (the_inode i s) → i_dev x = i_dev (the_inode i s) ∧ i_inum x = i_inum (the_inode i s)) →
  refs_by (λ j, (i_ref x - i_ref (the_inode i s)) * one i j) s t.
Proof.
  intros E Hi Hk j. rewrite (the_inode_upd i j x s t) by done. unfold one. case_decide as Ej; [subst|]; split; try lia; done.
Qed.

(** [ilock] locks the inode and has its contents read. *)
Lemma ilock_walk p k i s : fsinv p k None s → 0 < i_ref (the_inode i s) →
  wp (ilock (Some i)) (λ _ t, fsinv p k (Some i) t ∧ view s t ∧ refs_by none s t) s.
Proof.
  intros Hf Hr. pose proof Hf as [F1 F2 F3 F4 F5 F6 F7 F8]. pose proof (used_range i s Hr) as Hi. pose proof (ic_len _ F4) as HL.
  rewrite HL in Hi. destruct (F5 i Hr) as (Hdev & Hlive & Hdata). pose proof Hlive as (Hn & Hty & _). pose proof (txn_quiet _ _ _ _ F1) as Hq.
  pose proof (F6 i Hi) as Hunl. simpl in Hunl. set (ip := the_inode i s) in *.
  assert (Hlk : ∀ t, (∀ j, the_slock (SInode j) t = if decide (j = i) then owned (SInode i) p s else the_slock (SInode j) s) →
    p_pid (the_proc p t) = p_pid (the_proc p s) → only_locked p (Some i) t).
  { intros t Hs Hp j Hj. rewrite Hs, Hp. specialize (F6 j Hj). simpl in F6. destruct (decide (Some i = Some j)) as [E|E].
    - injection E as ->. by rewrite decide_True.
    - by rewrite decide_False by congruence. }
  assert (Hown : ∀ j, the_slock (SInode j) (put_slock (SInode i) (owned (SInode i) p s) s) =
    if decide (j = i) then owned (SInode i) p s else the_slock (SInode j) s).
  { intros j. unfold put_slock. case_decide as E; [subst; apply the_slock_insert|apply the_slock_insert_ne; congruence]. }
  destruct (decide (i_valid ip = 0)) as [Hv|Hv].
  - eapply wp_mono; [apply (ilock_ok p ∅ k i ip); try done; try lia|].
    intros [] t (Ht & [L1 L2 L3]). set (x := set_i_valid 1 (load_inode (dinode_at s (i_inum ip)) ip)) in *.
    pose proof (kept_icache _ _ L3) as Ei. change (k_icache t = <[i := x]> (k_icache s)) in Ei.
    assert (V : view s t) by (split; [done|apply (kept_sb _ _ L3)|apply (kp_start _ _ L3)]).
    split_and!; [|done|].
    + apply (fsinv_upd p k None (Some i) i x s t); try done.
      * apply (icache_ok_upd _ i ip); try done; [apply the_inode_some; lia|simpl; lia].
      * apply Hlk; [|apply (frame_pid _ _ _ _ (kp_frame _ _ L3))]. intros j. rewrite (kept_ilock _ _ _ L3). apply Hown.
      * intros j [= <-]. rewrite L1. simpl. done.
    + eapply refs_by_ext; [|apply (refs_by_upd i x s t Ei); [lia|done]]. intros j. unfold none. fold ip. simpl. lia.
  - unfold ilock, get_inode. rewrite wp_bind, wp_gets. fold ip. zdec. rewrite wp_bind.
    eapply wp_ok; [apply (acquiresleep_eq (SInode i) p); [apply Hq|by apply (q_locks _ _ Hq)|apply Hq|done]|].
    rewrite wp_bind, wp_gets. change (the_inode i (put_slock _ _ s)) with ip. rewrite (proj2 (Z.eqb_neq _ _) Hv), wp_ret.
    set (t := put_slock _ _ s). assert (V : view s t) by (split; [intros m; by apply blk_same|done|done]).
    split_and!; [|done|by apply refs_by_same].
    apply (fsinv_same p k None (Some i) s t); try done; [by apply txn_ilock|by apply Hlk|by intros j [= <-]].
Qed.

(** [iunlock] gives the lock up. *)
Lemma iunlock_walk p k i s : fsinv p k (Some i) s →
  wp (iunlock (Some i)) (λ _ t, fsinv p k None t ∧ view s t ∧ k_icache t = k_icache s) s.
Proof.
  intros Hf. pose proof Hf as [F1 F2 F3 F4 F5 F6 F7 F8]. destruct (F7 i eq_refl) as [Hr Hv].
  pose proof (used_range i s Hr) as Hi. rewrite (ic_len _ F4) in Hi. pose proof (txn_quiet _ _ _ _ F1) as Hq.
  pose proof (F6 i Hi) as Hl. rewrite decide_True in Hl by done. destruct Hl as [Hl Hpid].
  unfold iunlock, get_inode. rewrite wp_bind.
  eapply wp_ok; [apply (holdingsleep_eq (SInode i) p); [apply Hq|by apply (q_locks _ _ Hq)|apply Hq]|].
  rewrite Hpid, Z.eqb_refl, (proj2 (Z.eqb_neq _ _) Hl). cbn [negb andb]. rewrite wp_bind, wp_gets. zdec.
  eapply wp_ok; [apply releasesleep_eq; [apply Hq|by apply (q_locks _ _ Hq)|by eapply quiet_proc_locks|apply Hq]|].
  set (t := set_k_procs _ _). assert (V : view s t) by (split; [intros m; by apply blk_same|done|done]).
  assert (Hpids : p_pid (the_proc p t) = p_pid (the_proc p s)) by (apply procs_sim_pid, wake_sim).
  assert (Hs : ∀ l, the_slock l t = if decide (l = SInode i) then unowned (SInode i) s else the_slock l s).
  { intros l. unfold t, put_slock, the_slock. ksimpl. case_decide as E; [subst; by rewrite lookup_insert_eq|by rewrite lookup_insert_ne]. }
  split_and!; [|done|done]. apply (fsinv_same p k (Some i) None s t); try done.
  - apply (txn_ext p ∅ k s); try done.
    apply (quiet_eq p s); [done|unfold t; ksimpl; by rewrite length_fmap|done].
  - intros j Hj. simpl. rewrite Hs. specialize (F6 j Hj). destruct (decide (SInode j = SInode i)) as [E|E]; [done|].
    rewrite decide_False in F6 by congruence. done.
Qed.

(** [iput] of a reference that is not the last one to an inode without links. *)
Lemma iput_walk p k i s : fsinv p k None s → 0 < i_ref (the_inode i s) →
  wp (iput i) (λ _ t, fsinv p k None t ∧ view s t ∧ refs_by (λ j, - one i j) s t) s.
Proof.
  intros Hf Hr. pose proof Hf as [F1 F2 F3 F4 F5 F6 F7 F8]. pose proof (used_range i s Hr) as Hi. pose proof (ic_len _ F4) as HL.
  rewrite HL in Hi. destruct (F5 i Hr) as (Hdev & Hlive & Hdata). pose proof (txn_quiet _ _ _ _ F1) as Hq.
  assert (Hfree : lock_free LIcache (k_lk s)) by (by apply (q_locks _ _ Hq)). set (ip := the_inode i s) in *.
  unfold iput, get_inode. rewrite wp_bind. eapply wp_ok; [apply (acquire_eq LIcache); [apply Hq|done]|].
  rewrite wp_bind, wp_gets. change (the_inode i (set_k_lk _ s)) with ip.
  assert (Hc : (i_ref ip =? 1) && (i_valid ip <>? 0) && (i_nlink ip =? 0) = false).
  { destruct (Z.eqb_spec (i_valid ip) 0) as [|Hv]; [by rewrite andb_false_r|]. destruct (Z.eqb_spec (i_nlink ip) 0) as [E0|]; [|by rewrite andb_false_r].
    destruct Hlive as (_ & _ & Hnl). rewrite <- (Hdata Hv) in Hnl. by destruct Hnl. }
  rewrite Hc. unfold when. rewrite wp_bind, wp_ret, wp_bind. eapply wp_ok; [apply upd_inode_at|].
  change (the_inode i (set_k_lk _ s)) with ip. set (x := set_i_ref (i_ref ip - 1) ip).
  eapply wp_ok; [apply (release_eq LIcache _ (k_lk s)); [apply Hq|done|unfold at_inode; by ksimpl]|].
  assert (E : set_k_lk (k_lk s) (at_inode i x (set_k_lk (held LIcache (k_lk s)) s)) = at_inode i x s) by (unfold at_inode; keq).
  rewrite E. clear E. set (t := at_inode i x s). assert (V : view s t) by (split; [intros m; apply blk_inode|done|done]).
  assert (Ei : k_icache t = <[i := x]> (k_icache s)) by done. split_and!; [|done|].
  - apply (fsinv_upd p k None None i x s t); try done; [by apply txn_inode|].
    apply (icache_ok_upd _ i ip); try done; [apply the_inode_some; lia|simpl; lia..].
  - eapply refs_by_ext; [|apply (refs_by_upd i x s t Ei); [lia|done]]. intros j. fold ip. simpl. lia.
Qed.

(** [iget] adds a reference to the entry for the inode. *)
Lemma iget_walk p k L n j s : fsinv p k L s → live s n → (j < NINODE)%nat → i_ref (the_inode j s) = 0 →
  wp (iget ROOTDEV n) (λ i t, fsinv p k L t ∧ view s t ∧ refs_by (one i) s t ∧ names ROOTDEV n (the_inode i t)) s.
Proof.
  intros Hf Hn Hj Hr. pose proof Hf as [F1 F2 F3 F4 F5 F6 F7 F8]. pose proof (ic_len _ F4) as HL.
  pose proof (iget_target_spec ROOTDEV n (k_icache s)) as Hs. pose proof (txn_quiet _ _ _ _ F1) as Hq.
  pose proof (iget_eq p ROOTDEV n s Hq HL) as E.
  destruct (iget_target ROOTDEV n (k_icache s)) as [[i hit]|] eqn:Et.
  - assert (Hi : ∃ y, k_icache s !! i = Some y) by (destruct hit, Hs as (y & Hy & _); by exists y). destruct Hi as [y Hy].
    pose proof (the_inode_lookup _ _ _ Hy) as Ey. apply lookup_lt_Some in Hy as Hi. destruct (taken_ok _ _ _ _ _ _ F4 Et Hy) as [Hok Hnm].
    eapply wp_ok; [exact E|]. rewrite Ey. set (x := taken_entry ROOTDEV n hit y) in *. set (t := at_inode i x s).
    assert (V : view s t) by (split; [intros m; apply blk_inode|done|done]). assert (Ei : k_icache t = <[i := x]> (k_icache s)) by done.
    assert (Hx : i_ref x = i_ref y + 1 ∧ (0 < i_ref y → hit = true)).
    { destruct hit, Hs as (z & Hz & Hs); simplify_eq; [done|]. destruct Hs as (Hz0 & _). simpl. lia. }
    assert (Hsame : 0 < i_ref y → i_dev x = i_dev y ∧ i_inum x = i_inum y ∧ i_valid x = i_valid y ∧ dinode_of_inode x = dinode_of_inode y).
    { intros Hp. destruct Hx as [_ Hh]. unfold x. by rewrite (Hh Hp). }
    split_and!; [|done| |unfold t; by rewrite the_inode_at].
    + apply (fsinv_upd p k L L i x s t); try done; [by apply txn_inode|lia| |].
      * intros _. destruct Hnm as (_ & -> & ->). split_and!; [done|done|]. intros Hv.
        destruct hit; [|done]. destruct Hs as (z & Hz & Hp & _ & Hnn). assert (z = y) as -> by congruence.
        pose proof (F5 i) as He. rewrite Ey in He. destruct (He Hp) as (_ & _ & Hdata). rewrite <- Hnn. by apply Hdata.
      * intros l Hl. destruct (F7 l Hl) as [G1 G2]. rewrite (the_inode_upd i l x s t) by done. case_decide as El; [|done].
        subst l. rewrite Ey in G1, G2. destruct (Hsame G1) as (_ & _ & -> & _). split; [lia|done].
    + eapply refs_by_ext; [|apply (refs_by_upd i x s t Ei Hi)]; rewrite Ey; [intros l; lia|]. intros Hp. by destruct (Hsame Hp) as (? & ? & _).
  - rewrite Forall_lookup in Hs. destruct (Hs j (the_inode j s)) as [_ []]; [apply the_inode_some; lia|done].
Qed.

(** [idup] adds a reference. *)
Lemma idup_walk p k i s : fsinv p k None s → 0 < i_ref (the_inode i s) →
  wp (idup i) (λ r t, r = i ∧ fsinv p k None t ∧ view s t ∧ refs_by (one i) s t) s.
Proof.
  intros Hf Hr. pose proof Hf as [F1 F2 F3 F4 F5 F6 F7 F8]. pose proof (used_range i s Hr) as Hi. pose proof (ic_len _ F4) as HL.
  pose proof (txn_quiet _ _ _ _ F1) as Hq. assert (Hfree : lock_free LIcache (k_lk s)) by (by apply (q_locks _ _ Hq)).
  set (ip := the_inode i s) in *. set (x := set_i_ref (i_ref ip + 1) ip). set (t := at_inode i x s).
  assert (E : idup i s = Ok i t).
  { unfold idup. rewrite (bind_ok _ _ _ _ _ (acquire_eq _ _ (q_cpu _ _ Hq) Hfree)).
    rewrite (bind_ok _ _ _ _ _ (upd_inode_at _ _ _)). change (the_inode i (set_k_lk _ s)) with ip. fold x.
    erewrite bind_ok; [|apply (release_eq LIcache _ (k_lk s)); [apply Hq|done|unfold at_inode; by ksimpl]].
    unfold ret, t, at_inode. okeq. }
  eapply wp_ok; [exact E|]. assert (V : view s t) by (split; [intros m; apply blk_inode|done|done]).
  assert (Ei : k_icache t = <[i := x]> (k_icache s)) by done. split_and!; [done| |done|].
  - apply (fsinv_upd p k None None i x s t); try done; [by apply txn_inode|lia| |].
    + apply (icache_ok_upd _ i ip); try done; [by apply the_inode_some|simpl; lia..].
    + intros _. by apply (F5 i).
  - eapply refs_by_ext; [|apply (refs_by_upd i x s t Ei Hi); done]. intros j. fold ip. simpl. lia.
Qed.

Context {PF : PteFormat} {SY : Symbols}.
Context (Hstk : 0 ≤ stk ∧ stk + DIRENT_SIZE < 2 ^ 64) (Hplain : ∀ a, stk ≤ a < stk + DIRENT_SIZE → plain_mem a).

(** Reading a directory changes nothing of the file system. *)
Lemma looked_walk p k L s u : fsinv p k L s → looked p k s u → fsinv p k L u ∧ view s u ∧ k_icache u = k_icache s.
Proof.
  intros Hf [L1 L2 L3 L4]. pose proof Hf as [F1 F2 F3 F4 F5 F6 F7 F8]. pose proof (kept_but_mem_icache _ _ L2) as Ei.
  assert (V : view s u) by (split; [done|apply (kept_sb _ _ L2)|apply (kp_start _ _ L2)]).
  split_and!; [|done|done]. apply (fsinv_same p k L L s u); try done. intros i Hi.
  rewrite (kept_ilock _ _ i L2). change (the_slock (SInode i) (set_k_mem (k_mem u) s)) with (the_slock (SInode i) s).
  pose proof (frame_pid _ _ _ p (kp_frame _ _ L2)) as Ep. change (p_pid (the_proc p u) = p_pid (the_proc p s)) in Ep.
  rewrite Ep. by apply F6.
Qed.

Lemma entry_bytes_addrs s d d' e o n : i_addrs d = i_addrs d' → entry_bytes s d e o n = entry_bytes s d' e o n.
Proof. intros E. apply list_fmap_ext. intros i x _. f_equal. unfold file_byte, addr_of. by rewrite E. Qed.

Lemma dirlookup_walk p k i n name j s :
  fsinv p k (Some i) s → i_inum (the_inode i s) = n → i_type (the_inode i s) = T_DIR → Forall is_byte name →
  (j < NINODE)%nat → i_ref (the_inode j s) = 0 →
  wp (dirlookup i name) (λ r t, fsinv p k (Some i) t ∧ view s t ∧ match r with
    | None => dir_lookup s n name = None ∧ refs_by none s t
    | Some (ip, _) => ∃ m, dir_lookup s n name = Some m ∧ refs_by (one ip) s t ∧ names ROOTDEV m (the_inode ip t)
    end) s.
Proof.
  intros Hf En Hty Hname Hj Hfree. pose proof Hf as [F1 F2 F3 F4 F5 F6 F7 F8]. destruct (F7 i eq_refl) as [Hr Hv].
  destruct (F5 i Hr) as (Hdev & Hlive & Hdata). specialize (Hdata Hv). rewrite En in Hlive, Hdata.
  set (d := the_inode i s) in *. set (d' := disk_inode s n).
  assert (E : i_size d = i_size d' ∧ i_addrs d = i_addrs d' ∧ di_type (dinode_at s n) = T_DIR).
  { unfold d', disk_inode. rewrite <- Hdata. done. }
  destruct E as (Esz & Ead & Edir). destruct (F8 n Hlive Edir) as [D1 D2 D3]. fold d' in D1, D2, D3.
  assert (Hfo : file_ok s d).
  { destruct D1 as [G1 G2 G3 G4]. unfold addr_of in *. split; unfold addr_of; rewrite ?Esz, ?Ead; done. }
  assert (Eb : ∀ e o m, entry_bytes s d e o m = entry_bytes s d' e o m) by (intros; by apply entry_bytes_addrs).
  assert (Hnm : ∀ e, has_name s d name e ↔ has_name s d' name e) by (intros e; unfold has_name, entry_inum, entry_name; by rewrite !Eb).
  assert (Hex : Exists (λ ip, i_ref ip = 0) (k_icache s)).
  { apply Exists_exists. exists (the_inode j s). split; [|done]. eapply list_elem_of_lookup_2, the_inode_some. rewrite (ic_len _ F4). lia. }
  eapply wp_mono; [apply (dirlookup_ok p k i d s); try done; by rewrite Esz|]. intros r t Hpost.
  unfold dir_lookup. fold d'. rewrite <- Esz. destruct r as [[ip off]|].
  - destruct Hpost as (e & -> & [R1 R2 R3 R4 R5 (u & Hlu & Eg)]). destruct (looked_walk _ _ _ _ _ Hf Hlu) as (Hfu & Vu & Eu).
    assert (Hm : live s (entry_inum s d e)).
    { unfold entry_inum. rewrite Eb. apply D3; [by rewrite <- Esz|]. exact (proj1 (proj1 (Hnm e) R2)). }
    pose proof (iget_walk p k (Some i) (entry_inum s d e) j u Hfu) as Hw. rewrite Hdev in Eg.
    destruct Hw as (ip' & t' & Eg' & W1 & W2 & W3 & W4); [by rewrite <- Vu|done|by unfold the_inode; rewrite Eu|].
    rewrite Eg in Eg'. injection Eg' as <- <-. split_and!; [done|by etrans|].
    exists (entry_inum s d e). split_and!; [| |done].
    + assert (El : list_find (has_name s d' name) (seqZ 0 (i_size d / DIRENT_SIZE)) = Some (Z.to_nat e, e)).
      { apply list_find_Some. rewrite lookup_seqZ. split_and!; [lia|lia|exact (proj1 (Hnm e) R2)|].
        intros l y Hl Hlt. apply lookup_seqZ in Hl as [-> Hl]. rewrite <- Hnm. apply R3. lia. }
      rewrite El. simpl. f_equal. unfold entry_inum. by rewrite Eb.
    + apply (refs_by_ext (λ l, none l + one ip l)); [by intros l; unfold none|].
      eapply refs_by_trans; [unfold none; lia|by apply refs_by_same|done].
  - destruct Hpost as [Hno Hlu]. destruct (looked_walk _ _ _ _ _ Hf Hlu) as (Hfu & Vu & Eu).
    split_and!; [done|done| |by apply refs_by_same].
    assert (El : list_find (has_name s d' name) (seqZ 0 (i_size d / DIRENT_SIZE)) = None).
    { apply list_find_None, Forall_forall. intros e He. apply elem_of_seqZ in He. rewrite <- Hnm. apply Hno. lia. }
    by rewrite El.
Qed.

Lemma iunlockput_walk p k i s : fsinv p k (Some i) s →
  wp (iunlockput (Some i)) (λ _ t, fsinv p k None t ∧ view s t ∧ refs_by (λ j, - one i j) s t) s.
Proof.
  intros Hf. unfold iunlockput. rewrite wp_bind. eapply wp_mono; [by apply (iunlock_walk p k)|].
  intros [] t (Ht & V & Ei). unfold deref. rewrite wp_bind, wp_ret.
  destruct (fi_held _ _ _ _ Hf i eq_refl) as [Hr _].
  eapply wp_mono; [apply (iput_walk p k); [done|unfold the_inode; by rewrite Ei]|].
  intros [] u (Hu & V' & Hrf). split_and!; [done|by etrans|].
  apply (refs_by_ext (λ j, none j + - one i j)); [by intros j; unfold none|].
  eapply refs_by_trans; [unfold none; lia|by apply refs_by_same|done].
Qed.

Lemma cname_nonzero n l : Forall (λ c, c ≠ 0) l → cname n l = take n l.
Proof.
  intros H. revert n. induction H as [|c l Hc Hl IH]; intros [|n]; try done. simpl.
  rewrite (proj2 (Z.eqb_neq c 0)) by done. by rewrite IH.
Qed.

Lemma dir_lookup_name s n a b : names_equal a b → dir_lookup s n a = dir_lookup s n b.
Proof.
  intros H. unfold dir_lookup. f_equal. apply list_find_ext. intros e. unfold has_name, names_equal in *. by rewrite H.
Qed.

Lemma skip_slashes_Forall (P : Z → Prop) path : Forall P path → Forall P (skip_slashes path).
Proof. intros H. induction H as [|x p Hx Hp IH]; [done|]. simpl. destruct (x =? SLASH); [done|by constructor]. Qed.

Lemma skipelem_Forall (P : Z → Prop) path name path' name' : P 0 → Forall P path → Forall P name →
  skipelem path name = Some (path', name') → Forall P path' ∧ Forall P name'.
Proof.
  intros H0 Hp Hn. apply skip_slashes_Forall in Hp. unfold skipelem. destruct (skip_slashes path) as [|c r]; [done|].
  pose proof (take_elem_app (c :: r)) as Ha. destruct (take_elem (c :: r)) as [e rest]. simpl in Ha.
  rewrite <- Ha in Hp. apply Forall_app in Hp as [He Hr]. intros [= <- <-]. split; [by apply skip_slashes_Forall|].
  unfold splice. case_match; [|apply Forall_insert; [|done]];
    rewrite ?Forall_app; split_and?; auto using Forall_take, Forall_drop.
Qed.

(** What [namex] has reached. *)
Record reached (p : nat) (k : Z) (s : kstate) (ip : nat) (n : Z) (t : kstate) : Prop := mkreached {
  rc_inv : fsinv p k None t;
  rc_view : view s t;
  rc_refs : refs_by (one ip) s t;
  rc_inode : names ROOTDEV n (the_inode ip t)
}.

(** Two entries of the cache are free. *)
Definition two_free (s : kstate) : Prop :=
  ∃ a b, a ≠ b ∧ (a < NINODE)%nat ∧ (b < NINODE)%nat ∧ i_ref (the_inode a s) = 0 ∧ i_ref (the_inode b s) = 0.

Lemma free_left i s t : two_free s → refs_by (one i) s t → ∃ j, (j < NINODE)%nat ∧ i_ref (the_inode j t) = 0.
Proof.
  intros (a & b & Hab & Ha & Hb & Fa & Fb) Hr. destruct (decide (a = i)) as [->|].
  - exists b. destruct (Hr b) as [E _]. rewrite E, Fb. unfold one. by rewrite decide_False.
  - exists a. destruct (Hr a) as [E _]. rewrite E, Fa. unfold one. by rewrite decide_False.
Qed.

(** The same with the inode locked. *)
Record inside (p : nat) (k : Z) (s : kstate) (ip : nat) (n : Z) (u : kstate) : Prop := mkinside {
  is_inv : fsinv p k (Some ip) u;
  is_view : view s u;
  is_refs : refs_by (one ip) s u;
  is_inode : names ROOTDEV n (the_inode ip u);
  is_type : i_type (the_inode ip u) = di_type (dinode_at s n)
}.

Lemma one_pos i j : 0 ≤ one i j.
Proof. unfold one. case_decide; lia. Qed.

Lemma names_kept f d n i s t : refs_by f s t → names d n (the_inode i s) → 0 < i_ref (the_inode i s) + f i → names d n (the_inode i t).
Proof. intros Hr (P1 & P2 & P3) Hp. destruct (Hr i) as [E K]. destruct (K P1) as [K1 K2]. split_and!; [lia|congruence|congruence]. Qed.

Lemma refs_then f g h s t u : (∀ j, 0 ≤ f j) → (∀ j, h j = f j + g j) → refs_by f s t → refs_by g t u → refs_by h s u.
Proof. intros Hf E H1 H2. apply (refs_by_ext (λ j, f j + g j)); [done|]. by apply (refs_by_trans f g s t u). Qed.

Lemma inside_intro p k s ip n u : fsinv p k (Some ip) u → view s u → refs_by (one ip) s u → names ROOTDEV n (the_inode ip u) → inside p k s ip n u.
Proof.
  intros Hu V Hr Hn. split; try done. destruct (fi_held _ _ _ _ Hu ip eq_refl) as [Hp Hv].
  destruct (fi_entry _ _ _ _ Hu ip Hp) as (_ & _ & Hdata). destruct Hn as (_ & _ & Hn).
  rewrite (dinode_at_proper s u V n n eq_refl), <- Hn, <- (Hdata Hv). done.
Qed.

Lemma ilock_reached p k s ip n t : reached p k s ip n t → wp (ilock (Some ip)) (λ _ u, inside p k s ip n u) t.
Proof.
  intros [R1 R2 R3 R4]. eapply wp_mono; [apply (ilock_walk p k); [done|apply R4]|]. intros [] u (Hu & V & Hrf).
  apply inside_intro; [done|by etrans| |].
  - apply (refs_then (one ip) none _ s t u); [apply one_pos|intros j; unfold none; lia|done|done].
  - apply (names_kept none _ _ _ t); [done|done|]. unfold none. destruct R4 as [? _]. lia.
Qed.

Lemma iunlock_inside p k s ip n u : inside p k s ip n u → wp (iunlock (Some ip)) (λ _ v, reached p k s ip n v) u.
Proof.
  intros [I1 I2 I3 I4 I5]. eapply wp_mono; [by apply (iunlock_walk p k)|]. intros [] v (Hv & V & Ei).
  split; [done|by etrans| |unfold the_inode; by rewrite Ei].
  apply (refs_then (one ip) none _ s u v); [apply one_pos|intros j; unfold none; lia|done|by apply refs_by_same].
Qed.

Lemma iunlockput_inside p k s ip n u : inside p k s ip n u →
  wp (iunlockput (Some ip)) (λ _ v, fsinv p k None v ∧ view s v ∧ refs_by none s v) u.
Proof.
  intros [I1 I2 I3 I4 I5]. eapply wp_mono; [by apply (iunlockput_walk p k)|]. intros [] v (Hv & V & Hr).
  split_and!; [done|by etrans|]. apply (refs_then (one ip) (λ j, - one ip j) _ s u v); [apply one_pos|intros j; unfold none; lia|done|done].
Qed.

(** The next inode is reached once the directory is given up. *)
Lemma iunlockput_next p k s ip next m u :
  fsinv p k (Some ip) u → view s u → refs_by (λ j, one ip j + one next j) s u → names ROOTDEV m (the_inode next u) →
  (∀ j, 0 ≤ i_ref (the_inode j s)) → wp (iunlockput (Some ip)) (λ _ v, reached p k s next m v) u.
Proof.
  intros Hu V Hr Hm Hpos. eapply wp_mono; [by apply (iunlockput_walk p k)|]. intros [] v (Hv & V' & Hr').
  split; [done|by etrans| |].
  - apply (refs_then (λ j, one ip j + one next j) (λ j, - one ip j) _ s u v); [|intros j; lia|done|done].
    intros j. pose proof (one_pos ip j). pose proof (one_pos next j). lia.
  - apply (names_kept _ _ _ _ _ _ Hr' Hm). destruct (Hr next) as [E _]. rewrite E. specialize (Hpos next).
    unfold one at 2. rewrite decide_True by done. lia.
Qed.

Lemma dirlookup_inside p k s ip n name u :
  two_free s → inside p k s ip n u → di_type (dinode_at s n) = T_DIR → Forall is_byte name →
  wp (dirlookup ip name) (λ r v, match r with
    | None => dir_lookup s n name = None ∧ inside p k s ip n v
    | Some (next, _) => ∃ m, dir_lookup s n name = Some m ∧ fsinv p k (Some ip) v ∧ view s v ∧
        refs_by (λ j, one ip j + one next j) s v ∧ names ROOTDEV m (the_inode next v)
    end) u.
Proof.
  intros H2 [I1 I2 I3 I4 I5] Hd Hname. destruct (free_left _ _ _ H2 I3) as (j & Hj & Fj).
  eapply wp_mono; [apply (dirlookup_walk p k ip n name j); try done; [apply I4|congruence]|].
  intros r v (Hv & V & Hpost). rewrite (dir_lookup_proper s u I2 n n eq_refl name name eq_refl).
  assert (Vs : view s v) by (by etrans). destruct r as [[next off]|].
  - destruct Hpost as (m & E & Hr & Hm). exists m. split_and!; try done.
    apply (refs_then (one ip) (one next) _ s u v); [apply one_pos|done|done|done].
  - destruct Hpost as [E Hr]. split; [done|]. apply inside_intro; [done|done| |].
    + apply (refs_then (one ip) none _ s u v); [apply one_pos|intros l; unfold none; lia|done|done].
    + apply (names_kept none _ _ _ u); [done|done|]. unfold none. destruct I4 as [? _]. lia.
Qed.

(** What is known of a path, and of the buffer for its elements. *)
Definition path_ok (path name : list Z) : Prop :=
  Forall (λ c, c ≠ 0) path ∧ Forall is_byte path ∧ length name = Z.to_nat DIRSIZ ∧ Forall is_byte name.

(** [namex] has come to the path [path] from inode [n0] with the elements [es] left. *)
Definition walking (p : nat) (k : Z) (s : kstate) (parent : bool) (n0 : Z) (es : list (list Z))
    (x : nat * list Z * list Z) (t : kstate) : Prop :=
  let '(ip, path, name) := x in ∃ n, reached p k s ip n t ∧ path_ok path name ∧
    resolve s parent n (elements path) = resolve s parent n0 es ∧
    (elements path ≠ [] → last (elements path) = last es).

(** What [namex] ends with. *)
Definition walked (p : nat) (k : Z) (s : kstate) (parent : bool) (n0 : Z) (es : list (list Z))
    (r : option nat * list Z) (t : kstate) : Prop :=
  fsinv p k None t ∧ view s t ∧
  match r.1 with
  | None => resolve s parent n0 es = None ∧ refs_by none s t
  | Some ip => ∃ n, resolve s parent n0 es = Some n ∧ names ROOTDEV n (the_inode ip t) ∧ refs_by (one ip) s t ∧
      (parent = true → ∃ e, last es = Some e ∧ cname (Z.to_nat DIRSIZ) r.2 = take (Z.to_nat DIRSIZ) e)
  end.

(** The path is at its end. *)
Lemma namex_end p k s parent n0 es ip path name t :
  walking p k s parent n0 es (ip, path, name) t → elements path = [] →
  wp (A := nat * list Z * list Z + option nat * list Z) (if parent then iput ip ;;; ret (inr (None, name)) else ret (inr (Some ip, name)))
    (λ r u, match r with inl _ => False | inr y => walked p k s parent n0 es y u end) t.
Proof.
  intros (n & [R1 R2 R3 R4] & Hp & Hres & _) Ee. rewrite Ee in Hres. destruct parent; simpl in Hres.
  - rewrite wp_bind. eapply wp_mono; [apply (iput_walk p k); [done|apply R4]|]. intros [] u (Hu & V & Hr). rewrite wp_ret.
    split_and!; [done|by etrans|]. split; [done|].
    apply (refs_then (one ip) (λ j, - one ip j) _ s t u); [apply one_pos|intros j; unfold none; lia|done|done].
  - rewrite wp_ret. split_and!; [done|done|]. exists n. by split_and!.
Qed.

(** The next element. *)
Lemma namex_elem p k s parent n0 es ip path name path' name' t :
  two_free s → (∀ j, 0 ≤ i_ref (the_inode j s)) → walking p k s parent n0 es (ip, path, name) t →
  skipelem path name = Some (path', name') →
  wp (ilock (Some ip) ;;;
      let! d := get_inode ip in
      if i_type d <>? T_DIR then iunlockput (Some ip) ;;; ret (inr (None, name')) else
      if parent && bool_decide (path' = []) then iunlock (Some ip) ;;; ret (inr (Some ip, name')) else
      let! next := dirlookup ip name' in
      match next with
      | None => iunlockput (Some ip) ;;; ret (inr (None, name'))
      | Some (next, _) => iunlockput (Some ip) ;;; ret (inl (next, path', name'))
      end)
    (λ r u, match r with
     | inl x => walking p k s parent n0 es x u ∧ (length x.1.2 < length path)%nat
     | inr y => walked p k s parent n0 es y u
     end) t.
Proof.
  intros H2 Hpos (n & HR & (P1 & P2 & P3 & P4) & Hres & Hlast) Es. pose proof (skipelem_elements path name P1 P3) as He. rewrite Es in He.
  destruct He as (e & E1 & E2 & E3 & E4 & E5 & E6 & E7). destruct (skipelem_Forall is_byte _ _ _ _ ltac:(done) P2 P4 Es) as [P2' P4'].
  rewrite E1 in Hres, Hlast. specialize (Hlast ltac:(done)). cbn [resolve] in Hres.
  rewrite wp_bind. eapply wp_mono; [by apply (ilock_reached p k s ip n)|]. intros [] u Hin.
  unfold get_inode. rewrite wp_bind, wp_gets, (is_type _ _ _ _ _ _ Hin). revert Hres.
  destruct (Z.eqb_spec (di_type (dinode_at s n)) T_DIR) as [Hd|Hd]; cbn [negb]; intros Hres.
  2: { rewrite wp_bind. eapply wp_mono; [by apply (iunlockput_inside p k s ip n)|]. intros [] v (Hv & V & Hr). by rewrite wp_ret. }
  assert (Eb : bool_decide (path' = []) = bool_decide (elements path' = [])) by (by apply bool_decide_ext).
  rewrite Eb. revert Hres. destruct (parent && bool_decide (elements path' = [])) eqn:Ep; intros Hres.
  { apply andb_true_iff in Ep as [-> Ep%bool_decide_eq_true]. rewrite Ep in Hlast.
    rewrite wp_bind. eapply wp_mono; [by apply (iunlock_inside p k s ip n)|]. intros [] v [R1 R2 R3 R4]. rewrite wp_ret.
    split_and!; [done|done|]. exists n. split_and!; [done|done|done|]. intros _. exists e. split; [by rewrite <- Hlast|done]. }
  rewrite wp_bind. eapply wp_mono; [by apply (dirlookup_inside p k s ip n name')|]. intros r v Hpost.
  rewrite (dir_lookup_name s n e name') in Hres by (unfold names_equal; by rewrite E2, cname_nonzero).
  destruct r as [[next off]|].
  - destruct Hpost as (m & Em & Hv & V & Hr & Hm). rewrite Em in Hres. rewrite wp_bind.
    eapply wp_mono; [by apply (iunlockput_next p k s ip next m)|]. intros [] w Hw. rewrite wp_ret. split; [|done].
    exists m. split_and!; [done|done|done|]. intros Hne. rewrite <- Hlast. by destruct (elements path').
  - destruct Hpost as [Em Hin']. rewrite Em in Hres. rewrite wp_bind.
    eapply wp_mono; [by apply (iunlockput_inside p k s ip n)|]. intros [] w (Hw & V & Hr). by rewrite wp_ret.
Qed.

Lemma namex_loop p k s parent n0 es x t :
  two_free s → (∀ j, 0 ≤ i_ref (the_inode j s)) → walking p k s parent n0 es x t → Z.of_nat (length x.1.2) < 2 ^ 64 →
  wp (loop (namex_body parent) x) (walked p k s parent n0 es) t.
Proof.
  intros H2 Hpos Hw Hlen.
  apply (wp_loop (namex_body parent) (walking p k s parent n0 es) (λ x _, Z.of_nat (length x.1.2))); [intros; lia| |done|done].
  intros [[ip path] name] u Hu. unfold namex_body. destruct (skipelem path name) as [[path' name']|] eqn:Es.
  - eapply wp_mono; [by apply (namex_elem p k s parent n0 es ip path name)|]. intros [y|y] v Hv; [|done]. split; [apply Hv|].
    destruct Hv as [_ Hl]. simpl in *. lia.
  - pose proof Hu as (n & _ & (P1 & _ & P3 & _) & _). pose proof (skipelem_elements path name P1 P3) as He. rewrite Es in He.
    eapply wp_mono; [by apply (namex_end p k s parent n0 es ip path name)|]. by intros [y|y] v Hv.
Qed.

(** Where the walk begins: at the root, or in the current directory of the process. *)
Definition starts (p : nat) (s : kstate) (path : list Z) (n0 : Z) : Prop :=
  if nth 0 path 0 =? SLASH then n0 = ROOTINO ∧ live s ROOTINO
  else ∃ c, p_cwd (the_proc p s) = Some c ∧ 0 < i_ref (the_inode c s) ∧ i_inum (the_inode c s) = n0.

(** C9. Path lookup.  In a file system whose directories name live inodes, with the
    cache coherent, no inode locked and two entries of the inode cache free, [namex] finds
    what the path denotes.  The elements of a path are its non-empty pieces between
    slashes, compared in their first 14 bytes; from the root or the current directory,
    each one is looked up in the directory reached so far, and the first entry with the name
    counts.  [namex] returns the inode at the end, or in front of the last element together
    with that element in [name], and null exactly when the path leads nowhere: an element that
    is absent, one that is looked up in something that is no directory, or an empty path
    of which the parent is wanted.  It returns on every path; afterwards the caller
    has one more reference to the inode found and every other reference count is as
    before, no inode is locked, and the file system is unchanged. *)
Theorem namex_resolves p k parent path name n0 s :
  fsinv p k None s → two_free s → path_ok path name → Z.of_nat (length path) < 2 ^ 64 → starts p s path n0 →
  wp (namex path parent name) (walked p k s parent n0 (elements path)) s.
Proof.
  intros Hf H2 Hp Hlen Hst. pose proof (txn_quiet _ _ _ _ (fi_txn _ _ _ _ Hf)) as Hq. pose proof (fi_cache _ _ _ _ Hf) as Hc.
  assert (Hpos : ∀ j, 0 ≤ i_ref (the_inode j s)).
  { intros j. destruct (decide (0 < i_ref (the_inode j s))); [lia|]. unfold the_inode. rewrite nth_lookup.
    destruct (k_icache s !! j) eqn:E; [|done]. by apply (ic_ref _ Hc j). }
  assert (Hstart : ∀ ip t, fsinv p k None t → view s t → refs_by (one ip) s t → names ROOTDEV n0 (the_inode ip t) →
    wp (loop (namex_body parent) (ip, path, name)) (walked p k s parent n0 (elements path)) t).
  { intros ip t Ht V Hr Hn. apply namex_loop; try done. exists n0. by split_and!. }
  unfold namex, starts in *. rewrite wp_bind. destruct (nth 0 path 0 =? SLASH).
  - destruct Hst as [-> Hlive]. destruct H2 as (a & b & _ & Ha & _ & Fa & _).
    eapply wp_mono; [by apply (iget_walk p k None ROOTINO a)|]. intros ip t (Ht & V & Hr & Hn). by apply Hstart.
  - destruct Hst as (c & Ec & Hr & En). rewrite wp_bind. eapply wp_ok; [apply (curproc_eq p); apply Hq|].
    unfold get_proc. rewrite wp_bind, wp_gets, Ec, wp_bind. unfold deref. rewrite wp_ret.
    eapply wp_mono; [by apply (idup_walk p k)|]. intros ip t (-> & Ht & V & Hrf). apply Hstart; try done.
    destruct (fi_entry _ _ _ _ Hf c Hr) as (Hd & _). apply (names_kept _ _ _ _ _ _ Hrf); [done|].
    pose proof (one_pos c c). lia.
Qed.
End walk.

(** ** A small tree: [/d/f] *)

#[local] Existing Instance sync_disk.

Definition block_of (l : list Z) : list Z := l ++ replicate (1024 - length l) 0.
Definition dirent_of (n : Z) (name : list Z) : list Z := le_split 2 n ++ name ++ replicate (14 - length name) 0.
Definition dir1 : dinode := mkDinode 1 0 0 1 32 (48 :: replicate 12 0).
Definition dir2 : dinode := mkDinode 1 0 0 1 16 (49 :: replicate 12 0).
Definition file3 : dinode := mkDinode 2 0 0 1 0 (replicate 13 0).
Definition tree_disk : disk_t :=
  {[33 := block_of (replicate 64 0 ++ bytes_of_dinode dir1 ++ bytes_of_dinode dir2 ++ bytes_of_dinode file3);
    48 := block_of (dirent_of 1 [46] ++ dirent_of 2 [100]); 49 := block_of (dirent_of 3 [102])]}.
Definition tree0 : kstate := fs_with tree_disk (replicate 50 inode0).

Lemma tree_disk_ok : map_Forall (λ _ d, length d = 1024%nat) tree_disk.
Proof. unfold tree_disk. apply map_Forall_insert_2; [done|]. apply map_Forall_insert_2; [done|]. by apply map_Forall_singleton. Qed.

Lemma blk_tree0 n : blk tree0 n = default zero_block (tree_disk !! n).
Proof. unfold tree0. by rewrite (blk_disk 0 _ _ _ (cinv_fs tree_disk _ tree_disk_ok)). Qed.

Lemma tree_live n : live tree0 n → n = 1 ∨ n = 2 ∨ n = 3.
Proof.
  intros (Hn & Hty & _). change (k_sb tree0) with sb0 in Hn. change (sb_ninodes sb0) with 200 in Hn. revert Hty.
  unfold dinode_at. rewrite blk_tree0. change (k_sb tree0) with sb0.
  set (f := λ n, di_type (dinode_of_bytes (dinode_off n) (default zero_block (tree_disk !! IBLOCK n sb0)))).
  change (f n ≠ 0 → n = 1 ∨ n = 2 ∨ n = 3).
  assert (E : forallb (λ n, (f (Z.of_nat n) =? 0) || (1 <=? Z.of_nat n) && (Z.of_nat n <=? 3)) (seq 0 200) = true) by (vm_compute; reflexivity).
  rewrite forallb_forall in E. specialize (E (Z.to_nat n)). rewrite Z2Nat.id in E by lia. intros Hty.
  rewrite (proj2 (Z.eqb_neq _ _) Hty) in E. specialize (E ltac:(apply in_seq; lia)). rewrite orb_false_l in E.
  apply andb_true_iff in E as [E1%Z.leb_le E2%Z.leb_le]. lia.
Qed.

Lemma tree_dir d n e : disk_inode tree0 n = d → i_size d = 16 * e → 0 < e ≤ 64 → i_dev d = ROOTDEV → 0 < nth 0 (i_addrs d) 0 < 2 ^ 31 → file_ok tree0 d.
Proof.
  intros <- Hs He Hd Ha. split; try done; rewrite ?Hs; change MAXFILE with 268; change BSIZE with 1024; change NDIRECT with 12; try lia.
  intros bn H1 H2. assert (bn = 0) as -> by lia. exact Ha.
Qed.

Lemma tree_free i : the_inode i tree0 = inode0.
Proof.
  unfold the_inode. change (k_icache tree0) with (replicate 50 inode0). rewrite nth_lookup.
  destruct (replicate 50 inode0 !! i) as [x|] eqn:E; [|done]. apply lookup_replicate in E as [-> _]. done.
Qed.

Lemma tree_fsinv : fsinv 0 5 None tree0.
Proof.
  assert (D1 : dinode_at tree0 1 = dir1) by (unfold dinode_at; rewrite blk_tree0; vm_compute; reflexivity).
  assert (D2 : dinode_at tree0 2 = dir2) by (unfold dinode_at; rewrite blk_tree0; vm_compute; reflexivity).
  assert (D3 : dinode_at tree0 3 = file3) by (unfold dinode_at; rewrite blk_tree0; vm_compute; reflexivity).
  assert (Hlive : ∀ n, 0 ≤ n < 200 → di_type (dinode_at tree0 n) ≠ 0 → di_nlink (dinode_at tree0 n) ≠ 0 → live tree0 n) by (intros n H1 H2 H3; exact (conj H1 (conj H2 H3))).
  assert (L2 : live tree0 2) by (apply Hlive; [lia|by rewrite D2..]). assert (L3 : live tree0 3) by (apply Hlive; [lia|by rewrite D3..]).
  assert (L1 : live tree0 1) by (apply Hlive; [lia|by rewrite D1..]).
  split.
  - apply txn_fs; [apply tree_disk_ok|lia].
  - lia.
  - apply laid_fs.
  - split; [done| |].
    + intros i x [-> _]%lookup_replicate. done.
    + intros i j x y d n [-> _]%lookup_replicate _ [? _]. done.
  - intros i. rewrite tree_free. intros ?. done.
  - intros i _. reflexivity.
  - done.
  - intros n [-> |[-> | ->]]%tree_live Hty; [| |by rewrite D3 in Hty].
    + assert (Ed : disk_inode tree0 1 = mkInode ROOTDEV 1 1 1 1 0 0 1 32 (48 :: replicate 12 0)) by (unfold disk_inode; by rewrite D1).
      split; rewrite Ed; [exact (tree_dir _ 1 2 Ed eq_refl ltac:(lia) eq_refl ltac:(simpl; lia))|reflexivity|]. change (i_size _ / _) with 2. intros e He _.
      unfold entry_inum, entry_bytes, file_byte. assert (e = 0 ∨ e = 1) as [-> | ->] by lia; simpl; unfold addr_of; simpl; rewrite blk_tree0; done.
    + assert (Ed : disk_inode tree0 2 = mkInode ROOTDEV 2 1 1 1 0 0 1 16 (49 :: replicate 12 0)) by (unfold disk_inode; by rewrite D2).
      split; rewrite Ed; [exact (tree_dir _ 2 1 Ed eq_refl ltac:(lia) eq_refl ltac:(simpl; lia))|reflexivity|]. change (i_size _ / _) with 1. intros e He _.
      unfold entry_inum, entry_bytes, file_byte. assert (e = 0) as -> by lia. simpl. unfold addr_of. simpl. rewrite blk_tree0. done.
Qed.

Lemma namex_resolves_witness :
  wp (@namex symbols0 sv39_pte2pa sync_disk [47; 47; 100; 47; 102] false (replicate 14 0))
    (λ r t, ∃ ip, r.1 = Some ip ∧ i_inum (the_inode ip t) = 3 ∧ i_ref (the_inode ip t) = 1) tree0.
Proof.
  eapply wp_mono.
  - apply (@namex_resolves _ _ sv39_pte2pa symbols0 ltac:(by split; vm_compute) ltac:(by intros; split; intros []) 0 5 false _ _ 1 tree0 tree_fsinv).
    + exists 0%nat, 1%nat. repeat split; unfold NINODE; lia || done.
    + repeat split; repeat first [apply List.Forall_nil | apply List.Forall_cons; [first [done | unfold is_byte; lia]|]].
    + simpl. lia.
    + split; [done|]. unfold live, dinode_at. rewrite blk_tree0. done.
  - intros r t (_ & _ & Hr).
    assert (E : resolve tree0 false 1 (elements [47; 47; 100; 47; 102]) = Some 3).
    { vm_compute. reflexivity. }
    rewrite E in Hr. destruct r.1 as [ip|]; [|destruct Hr as [Hr _]; discriminate Hr].
    destruct Hr as (n & [= <-] & (_ & _ & Hn) & Hrf & _). exists ip. split_and!; [done|done|].
    destruct (Hrf ip) as [-> _]. rewrite tree_free. unfold one. by rewrite decide_True.
Defined.
