(* ===== verification/Pipe.v ===== *)
(** * Pipes: [kernel/pipe.c]

    A [struct pipe *] is the address of the page that holds it; the pipe itself
    is [k_pipes] at that address.  [pipealloc], which allocates files, is in
    [File.v]. *)

From stdpp Require Import prelude gmap strings list.
From Stdlib Require Import ZArith Lia.
From S2P Require Import Prelude.
From S2P Require Import Monad.
From S2P Require Import Riscv.
From S2P Require Import Types.
From S2P Require Import Mem.
From S2P Require Import Spinlock.
From S2P Require Import Kalloc.
From S2P Require Import Vm.
From S2P Require Import Proc.

(** The page of a pipe that has been freed holds no pipe. *)
Definition pipe0 : pipe := mkPipe (replicate 512 0) 0 0 0 0.
Definition the_pipe (pi : Z) (s : kstate) : pipe := default pipe0 (k_pipes s !! pi).
Definition get_pipe (pi : Z) : K pipe := gets (the_pipe pi).
Definition upd_pipe (pi : Z) (f : pipe → pipe) : K unit :=
  modify (λ s, set_k_pipes (<[pi := f (the_pipe pi s)]> (k_pipes s)) s).

Section pipe.
Context {SY : Symbols} {PF : PteFormat}.

Definition pipeclose (pi : Z) (writable : bool) : K unit :=
  acquire (LPipe pi) ;;;
  (if writable then
     upd_pipe pi (set_pi_writeopen 0) ;;; wakeup (ChPipeR pi)
   else
     upd_pipe pi (set_pi_readopen 0) ;;; wakeup (ChPipeW pi)) ;;;
  let! p := get_pipe pi in
  if (pi_readopen p =? 0) && (pi_writeopen p =? 0) then
    release (LPipe pi) ;;;
    modify (λ s, set_k_pipes (delete pi (k_pipes s)) s) ;;;
    kfree pi
  else release (LPipe pi).

(** [while(pi->nwrite == pi->nread + PIPESIZE)]: [true] for the [return -1]. *)
Definition pipewrite_wait (pi : Z) (pr : nat) (_ : unit) : K (unit + bool) :=
  let! p := get_pipe pi in
  if pi_nwrite p =? u32 (pi_nread p + PIPESIZE) then
    let! proc := get_proc pr in
    if (pi_readopen p =? 0) || (p_killed proc <>? 0) then
      release (LPipe pi) ;;; ret (inr true)
    else
      wakeup (ChPipeR pi) ;;;
      sleep (ChPipeW pi) (LPipe pi) ;;;
      ret (inl ())
  else ret (inr false).

(** [pi->data[pi->nwrite++ % PIPESIZE] = ch] *)
Definition pipe_put (ch : Z) (p : pipe) : pipe :=
  set_pi_nwrite (u32 (pi_nwrite p + 1))
    (set_pi_data (<[Z.to_nat (pi_nwrite p mod PIPESIZE) := ch]> (pi_data p)) p).

(** [for(i = 0; i < n; i++)]: [None] for the early return. *)
Definition pipewrite_body (pi : Z) (pr : nat) (addr n : Z) (i : Z) : K (Z + option Z) :=
  if negb (i <? n) then ret (inr (Some i)) else
  let! failed := loop (pipewrite_wait pi pr) () in
  if failed then ret (inr None) else
  let! proc := get_proc pr in
  let! (l, r) := copyin (p_pagetable proc) (u64 (addr + i)) 1 in
  if r =? -1 then ret (inr (Some i)) else
  upd_pipe pi (pipe_put (nth 0 l 0)) ;;;
  ret (inl (i + 1)).

Definition pipewrite (pi addr n : Z) : K Z :=
  let! pr := curproc in
  acquire (LPipe pi) ;;;
  let! r := loop (pipewrite_body pi pr addr n) 0 in
  match r with
  | None => ret (-1)
  | Some i =>
      wakeup (ChPipeR pi) ;;;
      release (LPipe pi) ;;;
      ret i
  end.

(** [while(pi->nread == pi->nwrite && pi->writeopen)]: [true] for the [return -1]. *)
Definition piperead_wait (pi : Z) (pr : nat) (_ : unit) : K (unit + bool) :=
  let! p := get_pipe pi in
  if (pi_nread p =? pi_nwrite p) && (pi_writeopen p <>? 0) then
    let! proc := get_proc pr in
    if p_killed proc <>? 0 then release (LPipe pi) ;;; ret (inr true)
    else sleep (ChPipeR pi) (LPipe pi) ;;; ret (inl ())
  else ret (inr false).

Definition piperead_body (pi : Z) (pr : nat) (addr n : Z) (i : Z) : K (Z + Z) :=
  if negb (i <? n) then ret (inr i) else
  let! p := get_pipe pi in
  if pi_nread p =? pi_nwrite p then ret (inr i) else
  let ch := nth (Z.to_nat (pi_nread p mod PIPESIZE)) (pi_data p) 0 in
  upd_pipe pi (λ p, set_pi_nread (u32 (pi_nread p + 1)) p) ;;;
  let! proc := get_proc pr in
  let! r := copyout (p_pagetable proc) (u64 (addr + i)) [ch] in
  if r =? -1 then ret (inr i) else ret (inl (i + 1)).

Definition piperead (pi addr n : Z) : K Z :=
  let! pr := curproc in
  acquire (LPipe pi) ;;;
  let! failed := loop (piperead_wait pi pr) () in
  if failed then ret (-1) else
  let! i := loop (piperead_body pi pr addr n) 0 in
  wakeup (ChPipeW pi) ;;;
  release (LPipe pi) ;;;
  ret i.
End pipe.
