(* ===== verification/PipeSpec.v ===== *)
(** * Pipes are bounded queues

    A pipe is the bytes that have been written and not yet read; [pipewrite] moves bytes
    of the writer's memory to its end, [piperead] moves bytes from its front to the
    reader's memory, and each of them sleeps exactly when it can do nothing. *)

From stdpp Require Import prelude gmap strings list.
From Stdlib Require Import ZArith Lia.
From S2P Require Import Prelude.
From S2P Require Import Ring.
From S2P Require Import Monad.
From S2P Require Import Riscv.
From S2P Require Import Types.
From S2P Require Import Mem.
From S2P Require Import Spinlock.
From S2P Require Import Kalloc.
From S2P Require Import Vm.
From S2P Require Import VmSpec.
From S2P Require Import Proc.
From S2P Require Import ProcSpec.
From S2P Require Import UserMem.
From S2P Require Import Pipe.

Record pipe_holds (pp : pipe) (q : list Z) : Prop := mkpipe_holds {
  ph_len : length (pi_data pp) = 512%nat;
  ph_room : (length q ≤ 512)%nat;
  ph_r : 0 ≤ pi_nread pp < 2 ^ 32;
  ph_w : pi_nwrite pp = u32 (pi_nread pp + Z.of_nat (length q));
  ph_bytes : ring_holds 512 (pi_data pp) (pi_nread pp) q
}.

Lemma pipe_empty_test pp q : pipe_holds pp q →
  (pi_nread pp =? pi_nwrite pp) = (Z.of_nat (length q) =? 0).
Proof.
  intros [H1 H2 H3 H4 H5]. rewrite H4, <- (u32_small (pi_nread pp)) at 1 by done.
  rewrite <- (Z.add_0_r (pi_nread pp)) at 1. rewrite u32_eq_add by lia. apply Z.eqb_sym.
Qed.

Lemma pipe_full_test pp q : pipe_holds pp q →
  (pi_nwrite pp =? u32 (pi_nread pp + PIPESIZE)) = (Z.of_nat (length q) =? 512).
Proof. intros [H1 H2 H3 H4 H5]. rewrite H4. by rewrite u32_eq_add by (change PIPESIZE with 512; lia). Qed.

Lemma pipe_put_ok pp q x : pipe_holds pp q → (length q < 512)%nat → pipe_holds (pipe_put x pp) (q ++ [x]).
Proof.
  intros [H1 H2 H3 H4 H5] Hq. unfold pipe_put. split; ksimpl; rewrite ?length_insert, ?length_app; simpl; try done; try lia.
  - rewrite H4, u32_add_idemp. f_equal. lia.
  - change PIPESIZE with 512. apply ring_push; [done|lia|lia| |done]. by rewrite H4, u32_mod_ring.
Qed.

Lemma pipe_take_ok pp x q : pipe_holds pp (x :: q) →
  nth (Z.to_nat (pi_nread pp mod PIPESIZE)) (pi_data pp) 0 = x ∧
  pipe_holds (set_pi_nread (u32 (pi_nread pp + 1)) pp) q.
Proof.
  intros [H1 H2 H3 H4 H5]. apply ring_pop in H5 as [Hx H5]. split; [exact Hx|]. simpl in *.
  split; ksimpl; try done; try lia.
  - apply u32_range.
  - rewrite H4, u32_add_idemp. f_equal. lia.
  - eapply ring_holds_mod; [|exact H5]. by rewrite u32_mod_ring.
Qed.

Section pipe.
Context {SY : Symbols} {PF : PteFormat}.
Context (G : gmap_pt) (fl : list Z) (root : Z) (p : nat) (pi : Z).

(** Process [p] runs with no lock held and may use the pipe. *)
Record pipe_user (s : kstate) : Prop := mkpipe_user {
  pu_quiet : quiet p s;
  pu_lock : lock_free (LPipe pi) (k_lk s);
  pu_space : uspace G fl root s;
  pu_root : p_pagetable (the_proc p s) = root
}.

(** The kernel in the middle of a transfer. *)
Definition at_pipe (pp : pipe) (m : gmap Z Z) (s : kstate) : kstate :=
  set_k_mem m (set_k_pipes (<[pi := pp]> (k_pipes s)) s).

Lemma the_pipe_insert pp P s : the_pipe pi (set_k_pipes (<[pi := pp]> P) s) = pp.
Proof. unfold the_pipe. ksimpl. by rewrite lookup_insert_eq. Qed.

Lemma the_pipe_at pp m s : the_pipe pi (at_pipe pp m s) = pp.
Proof. unfold at_pipe, the_pipe. ksimpl. by rewrite lookup_insert_eq. Qed.

Lemma at_pipe_put pp pp' m s :
  set_k_pipes (<[pi := pp']> (k_pipes (at_pipe pp m s))) (at_pipe pp m s) = at_pipe pp' m s.
Proof. unfold at_pipe. ksimpl. rewrite insert_insert_eq. keq. Qed.

Lemma at_pipe_mem pp m m' s : set_k_mem m' (at_pipe pp m s) = at_pipe pp m' s.
Proof. unfold at_pipe. by ksimpl. Qed.

Lemma the_proc_at j pp m s : the_proc j (at_pipe pp m s) = the_proc j s.
Proof. reflexivity. Qed.

Lemma uspace_at pp m s : uspace G fl root (at_pipe pp m s) ↔ uspace G fl root (set_k_mem m s).
Proof.
  split; intros H; pose proof H as [[Hc Hf _ _ _] _]; (eapply uspace_ext; [| | | |exact H]); try done; try (by ksimpl_in Hc); by ksimpl_in Hf.
Qed.

(** ** Writing *)

Lemma pipewrite_step pr s addr bs n q i pp :
  uspace G fl root s → p_pagetable (the_proc pr s) = root → 0 ≤ addr → addr + n < 2 ^ 64 →
  uread (uva (k_mem s) root) (k_mem s) addr (Z.to_nat n) = (bs, true) → (length q + length bs ≤ 512)%nat →
  (i < length bs)%nat → pipe_holds pp (q ++ take i bs) →
  ∃ b, bs !! i = Some b ∧
  pipewrite_body pi pr addr n (Z.of_nat i) (at_pipe pp (k_mem s) s) =
    Ok (inl (Z.of_nat (S i))) (at_pipe (pipe_put b pp) (k_mem s) s) ∧ pipe_holds (pipe_put b pp) (q ++ take (S i) bs).
Proof.
  intros Hsp Hroot Ha Han Hbs Hroom Hi Hp. destruct (lookup_lt_is_Some_2 bs i Hi) as [b Hb].
  exists b. split; [done|]. pose proof (uread_length _ _ _ _ _ Hbs) as Hlen.
  destruct (uread_lookup _ _ _ _ _ _ _ Hbs Hb) as (pa & Hpa & Hrd).
  assert (Hl : length (q ++ take i bs) = (length q + i)%nat) by (rewrite length_app, length_take; lia).
  split.
  - unfold pipewrite_body. zdec. rewrite (bind_ok _ _ _ false (at_pipe pp (k_mem s) s)).
    2:{ apply loop_inr. unfold pipewrite_wait, get_pipe. run. rewrite the_pipe_at, (pipe_full_test _ _ Hp), Hl. zdec. done. }
    unfold get_proc. run. rewrite the_proc_at, Hroot, u64_small by lia.
    erewrite bind_ok; [|apply (copyin_byte G fl root _ _ pa)]; [| |lia|exact Hpa].
    2:{ apply uspace_at. by replace (set_k_mem (k_mem s) s) with s by (by destruct s). }
    change (k_mem (at_pipe pp (k_mem s) s)) with (k_mem s). rewrite Hrd. change (0 =? -1) with false. cbv iota.
    unfold upd_pipe. run. rewrite the_pipe_at, at_pipe_put. simpl nth. unfold ret. do 2 f_equal. lia.
  - rewrite (take_S_r _ _ b Hb), (assoc_L (++)). apply pipe_put_ok; [done|]. lia.
Qed.

Lemma pipewrite_loop pr s addr bs n q pp :
  uspace G fl root s → p_pagetable (the_proc pr s) = root → 0 ≤ n → 0 ≤ addr → addr + n < 2 ^ 64 →
  uread (uva (k_mem s) root) (k_mem s) addr (Z.to_nat n) = (bs, true) → (length q + length bs ≤ 512)%nat →
  pipe_holds pp q →
  wp (loop (pipewrite_body pi pr addr n) 0) (λ r t, r = Some n ∧ ∃ pp', pipe_holds pp' (q ++ bs) ∧
    pi_readopen pp' = pi_readopen pp ∧ pi_writeopen pp' = pi_writeopen pp ∧ t = at_pipe pp' (k_mem s) s)
    (at_pipe pp (k_mem s) s).
Proof.
  intros Hsp Hroot Hn Ha Han Hbs Hroom Hp. pose proof (uread_length _ _ _ _ _ Hbs) as Hlen.
  apply (wp_loop_ghost (pipewrite_body pi pr addr n) (λ k x t, ∃ i pp', x = Z.of_nat i ∧ (i + k = length bs)%nat ∧
    pipe_holds pp' (q ++ take i bs) ∧ pi_readopen pp' = pi_readopen pp ∧ pi_writeopen pp' = pi_writeopen pp ∧
    t = at_pipe pp' (k_mem s) s)) with (n := length bs).
  - intros k x t (i & pp' & -> & Hik & Hp' & Hr & Hw & ->). destruct k as [|k].
    + unfold pipewrite_body. zdec. rewrite wp_ret. split; [f_equal; lia|]. exists pp'.
      rewrite take_ge in Hp' by lia. done.
    + destruct (pipewrite_step pr s addr bs n q i pp') as (b & _ & E & Hb); try done; [lia|].
      eapply wp_ok; [exact E|]. exists k. split; [lia|]. exists (S i), (pipe_put b pp'). split_and!; try done; lia.
  - exists 0%nat, pp. rewrite app_nil_r. split_and!; done || lia.
  - lia.
Qed.

(** ** Reading *)

Lemma piperead_step pr s addr n q m' i pp m :
  p_pagetable (the_proc pr s) = root → 0 ≤ addr → addr + n < 2 ^ 64 →
  uwrite (uva (k_mem s) root) (k_mem s) addr (take (Z.to_nat n) q) = (m', true) →
  Z.of_nat i < n → (i < length q)%nat → pipe_holds pp (drop i q) →
  uwrite (uva (k_mem s) root) (k_mem s) addr (take i q) = (m, true) →
  uspace G fl root (set_k_mem m s) → (∀ va, uva m root va = uva (k_mem s) root va) →
  ∃ m1, piperead_body pi pr addr n (Z.of_nat i) (at_pipe pp m s) =
    Ok (inl (Z.of_nat (S i))) (at_pipe (set_pi_nread (u32 (pi_nread pp + 1)) pp) m1 s) ∧
  pipe_holds (set_pi_nread (u32 (pi_nread pp + 1)) pp) (drop (S i) q) ∧
  uwrite (uva (k_mem s) root) (k_mem s) addr (take (S i) q) = (m1, true) ∧
  uspace G fl root (set_k_mem m1 s) ∧ (∀ va, uva m1 root va = uva (k_mem s) root va).
Proof.
  intros Hroot Ha Han Hw Hin Hi Hp Hm Hsp Htr. destruct (lookup_lt_is_Some_2 q i Hi) as [b Hb].
  assert (Hbn : take (Z.to_nat n) q !! i = Some b) by (rewrite lookup_take_lt by lia; done).
  destruct (uwrite_mapped _ _ _ _ _ _ _ Hw Hbn) as [pa Hpa].
  rewrite (drop_S _ b _ Hb) in Hp. pose proof Hp as [Ex Hp']%pipe_take_ok.
  pose proof (uwrite_snoc _ _ _ _ b _ Hm) as Hsn. rewrite length_take, Nat.min_l, Hpa in Hsn by lia.
  rewrite <- (take_S_r _ _ _ Hb) in Hsn.
  set (pp' := set_pi_nread (u32 (pi_nread pp + 1)) pp) in *.
  destruct (copyout_byte G fl root (at_pipe pp' m s) (addr + Z.of_nat i) pa b) as (E & Hsp' & Htr').
  { by apply uspace_at. } { lia. } { change (k_mem (at_pipe pp' m s)) with m. by rewrite Htr. }
  change (k_mem (at_pipe pp' m s)) with m in *. rewrite at_pipe_mem in E, Hsp'. apply (uspace_at pp' (wr m pa b) s) in Hsp'.
  exists (wr m pa b). split_and!; try done; [|intros va; by rewrite Htr', Htr].
  unfold piperead_body, get_pipe. zdec. run. rewrite the_pipe_at, (pipe_empty_test _ _ Hp). cbn [length].
  rewrite (proj2 (Z.eqb_neq _ 0)) by lia. rewrite Ex. unfold upd_pipe. run. rewrite the_pipe_at, at_pipe_put. fold pp'.
  unfold get_proc. run. rewrite the_proc_at, Hroot, u64_small by lia. rewrite (bind_ok _ _ _ _ _ E).
  change (0 =? -1) with false. unfold ret. do 2 f_equal. lia.
Qed.

Lemma piperead_loop pr s addr n q m' pp :
  p_pagetable (the_proc pr s) = root → uspace G fl root s → 0 ≤ n → 0 ≤ addr → addr + n < 2 ^ 64 →
  uwrite (uva (k_mem s) root) (k_mem s) addr (take (Z.to_nat n) q) = (m', true) → pipe_holds pp q →
  wp (loop (piperead_body pi pr addr n) 0) (λ r t, r = Z.of_nat (length (take (Z.to_nat n) q)) ∧
    ∃ pp', pipe_holds pp' (drop (Z.to_nat n) q) ∧ pi_readopen pp' = pi_readopen pp ∧
      pi_writeopen pp' = pi_writeopen pp ∧ t = at_pipe pp' m' s) (at_pipe pp (k_mem s) s).
Proof.
  intros Hroot Hsp Hn Ha Han Hw Hp. pose proof (ph_room _ _ Hp) as Hroom.
  apply (wp_loop_ghost (piperead_body pi pr addr n) (λ k x t, ∃ i pp' m, x = Z.of_nat i ∧
    (i + k = length (take (Z.to_nat n) q))%nat ∧ pipe_holds pp' (drop i q) ∧
    pi_readopen pp' = pi_readopen pp ∧ pi_writeopen pp' = pi_writeopen pp ∧
    uwrite (uva (k_mem s) root) (k_mem s) addr (take i q) = (m, true) ∧
    uspace G fl root (set_k_mem m s) ∧ (∀ va, uva m root va = uva (k_mem s) root va) ∧ t = at_pipe pp' m s))
    with (n := length (take (Z.to_nat n) q)).
  - intros k x t (i & pp' & m & -> & Hik & Hp' & Hr & Hwo & Hm & Hs & Htr & ->). rewrite length_take in Hik |- *.
    destruct k as [|k].
    + assert (m = m' ∧ drop i q = drop (Z.to_nat n) q) as [-> Hdr].
      { destruct (decide (Z.to_nat n ≤ length q)%nat) as [Hle|Hgt].
        - assert (i = Z.to_nat n) as -> by lia. split; [congruence|done].
        - rewrite (take_ge q (Z.to_nat n)) in Hw by lia. rewrite (take_ge q i) in Hm by lia. rewrite !drop_ge by lia. split; [congruence|done]. }
      assert (piperead_body pi pr addr n (Z.of_nat i) (at_pipe pp' m' s) = Ok (inr (Z.of_nat i)) (at_pipe pp' m' s)) as E.
      { unfold piperead_body, get_pipe. destruct (Z.ltb_spec (Z.of_nat i) n); [|done]. cbn [negb]. run.
        rewrite the_pipe_at, (pipe_empty_test _ _ Hp'), length_drop. zdec. done. }
      eapply wp_ok; [exact E|]. split; [lia|]. exists pp'. by rewrite <- Hdr.
    + destruct (piperead_step pr s addr n q m' i pp' m) as (m1 & E & H1 & H2 & H3 & H4); try done; [lia|lia|].
      eapply wp_ok; [exact E|]. exists k. split; [lia|]. eexists (S i), _, m1.
      split_and!; [done|lia|exact H1|done|done|done|done|done|done].
  - exists 0%nat, pp, (k_mem s). replace (set_k_mem (k_mem s) s) with s by (by destruct s).
    rewrite drop_0. split_and!; done.
  - rewrite length_take. lia.
Qed.

(** ** The calls *)

Definition same_ends (pp pp' : pipe) : Prop :=
  pi_readopen pp' = pi_readopen pp ∧ pi_writeopen pp' = pi_writeopen pp.

(** The kernel after a transfer: the other side is woken. *)
Definition moved (ch : chan) (pp : pipe) (m : gmap Z Z) (s : kstate) : kstate :=
  set_k_procs (wake ch <$> k_procs s) (at_pipe pp m s).

Definition locked (s : kstate) : kstate := set_k_lk (held (LPipe pi) (k_lk s)) s.

Lemma at_pipe_id pp s : k_pipes s !! pi = Some pp → at_pipe pp (k_mem s) s = s.
Proof. intros H. unfold at_pipe. rewrite insert_id by done. by destruct s. Qed.

Lemma the_pipe_some pp s : k_pipes s !! pi = Some pp → the_pipe pi s = pp.
Proof. intros H. unfold the_pipe. by rewrite H. Qed.

Lemma wake_locked ch pp m s (v : Z) : pipe_user s →
  (wakeup ch ;;; release (LPipe pi) ;;; ret v) (at_pipe pp m (locked s)) = Ok v (moved ch pp m s).
Proof.
  intros [Hq Hf _ _]. pose proof (q_cpu _ _ Hq) as Hc. unfold locked, at_pipe.
  erewrite bind_ok; [|apply wakeup_eq; ksimpl; [by apply held_ok|apply proc_locks_held; [done|by eapply quiet_proc_locks]|apply Hq]].
  erewrite bind_ok; [|apply (release_eq _ _ (k_lk s)); [done|done|by ksimpl]]. unfold moved, at_pipe. okeq.
Qed.

Lemma pipe_enter s : pipe_user s →
  cpu_ok (k_lk (locked s)) ∧ acquire (LPipe pi) s = Ok () (locked s) ∧ curproc s = Ok p s ∧
  uspace G fl root (locked s) ∧ p_pagetable (the_proc p (locked s)) = root.
Proof.
  intros [Hq Hf Hsp Hr]. pose proof (q_cpu _ _ Hq) as Hc. split_and!.
  - unfold locked. ksimpl. by apply held_ok.
  - by apply acquire_eq.
  - apply curproc_eq; apply Hq.
  - by apply uspace_held.
  - done.
Qed.

Lemma pipewrite_ok s pp q addr n bs :
  pipe_user s → k_pipes s !! pi = Some pp → pipe_holds pp q → 0 ≤ n → 0 ≤ addr → addr + n < 2 ^ 64 →
  uread (uva (k_mem s) root) (k_mem s) addr (Z.to_nat n) = (bs, true) → (length q + length bs ≤ 512)%nat →
  wp (pipewrite pi addr n) (λ r s', r = n ∧ ∃ pp', pipe_holds pp' (q ++ bs) ∧ same_ends pp pp' ∧
    s' = moved (ChPipeR pi) pp' (k_mem s) s) s.
Proof.
  intros Hu Hpi Hp Hn Ha Han Hbs Hroom. destruct (pipe_enter s Hu) as (Hc & Eacq & Ecur & Hsp & Hroot).
  unfold pipewrite. rewrite wp_bind. eapply wp_ok; [exact Ecur|]. rewrite wp_bind. eapply wp_ok; [exact Eacq|].
  rewrite wp_bind, <- (at_pipe_id pp (locked s)) at 1 by done.
  eapply wp_mono; [by apply (pipewrite_loop p (locked s) addr bs n q pp)|].
  intros r t (-> & pp' & H1 & H2 & H3 & ->). eapply wp_ok; [by apply wake_locked|].
  split; [done|]. by exists pp'.
Qed.

Lemma piperead_ok s pp q addr n m' :
  pipe_user s → k_pipes s !! pi = Some pp → pipe_holds pp q → 0 ≤ n → 0 ≤ addr → addr + n < 2 ^ 64 →
  uwrite (uva (k_mem s) root) (k_mem s) addr (take (Z.to_nat n) q) = (m', true) → q ≠ [] ∨ pi_writeopen pp = 0 →
  wp (piperead pi addr n) (λ r s', r = Z.of_nat (length (take (Z.to_nat n) q)) ∧ ∃ pp',
    pipe_holds pp' (drop (Z.to_nat n) q) ∧ same_ends pp pp' ∧ s' = moved (ChPipeW pi) pp' m' s) s.
Proof.
  intros Hu Hpi Hp Hn Ha Han Hw Hready. destruct (pipe_enter s Hu) as (Hc & Eacq & Ecur & Hsp & Hroot).
  unfold piperead. rewrite wp_bind. eapply wp_ok; [exact Ecur|]. rewrite wp_bind. eapply wp_ok; [exact Eacq|].
  rewrite wp_bind. eapply wp_ok.
  { apply (loop_inr _ _ _ false (locked s)). unfold piperead_wait, get_pipe. run.
    rewrite (the_pipe_some pp), (pipe_empty_test _ _ Hp) by done.
    destruct Hready as [Hne| ->]; [|by rewrite andb_false_r].
    rewrite (proj2 (Z.eqb_neq _ 0)); [done|]. destruct q; [done|]. simpl. lia. }
  cbv iota. rewrite wp_bind, <- (at_pipe_id pp (locked s)) at 1 by done.
  eapply wp_mono; [by apply (piperead_loop p (locked s) addr n q m' pp)|].
  intros r t (-> & pp' & H1 & H2 & H3 & ->). eapply wp_ok; [by apply wake_locked|].
  split; [done|]. by exists pp'.
Qed.

(** C25. A pipe is a queue between two address spaces.  With the bytes [q] in a pipe, in a
    circular buffer of 512 places whose counters wrap at 2^32: [pipewrite] of [n] bytes for
    which there is room puts exactly the [n] bytes of the writer's memory behind [q], wakes
    the readers and returns [n]; [piperead] of up to [n] bytes, when there are some or no
    writer is left, moves the first [n] of [q] into the reader's memory, leaves the others,
    wakes the writers and returns how many it moved, 0 at the end.  Nothing else changes. *)
Theorem pipe_fifo s pp q addr n :
  pipe_user s → k_pipes s !! pi = Some pp → pipe_holds pp q → 0 ≤ n → 0 ≤ addr → addr + n < 2 ^ 64 →
  (∀ bs, uread (uva (k_mem s) root) (k_mem s) addr (Z.to_nat n) = (bs, true) → (length q + length bs ≤ 512)%nat →
    wp (pipewrite pi addr n) (λ r s', r = n ∧ ∃ pp', pipe_holds pp' (q ++ bs) ∧ same_ends pp pp' ∧
      s' = moved (ChPipeR pi) pp' (k_mem s) s) s) ∧
  (∀ m', uwrite (uva (k_mem s) root) (k_mem s) addr (take (Z.to_nat n) q) = (m', true) → q ≠ [] ∨ pi_writeopen pp = 0 →
    wp (piperead pi addr n) (λ r s', r = Z.of_nat (length (take (Z.to_nat n) q)) ∧ ∃ pp',
      pipe_holds pp' (drop (Z.to_nat n) q) ∧ same_ends pp pp' ∧ s' = moved (ChPipeW pi) pp' m' s) s).
Proof. intros. split; intros; [by apply pipewrite_ok|by apply piperead_ok]. Qed.

(** ** Waiting *)

Lemma pipe_sleep ch s s1 (X : Type) (x : X) :
  pipe_user s → k_lk s1 = k_lk (locked s) → length (k_procs s1) = length (k_procs s) →
  ∃ k, (sleep ch (LPipe pi) ;;; ret x) s1 = Swtch (asleep ch p (k_lk s) s1) k.
Proof.
  intros [Hq Hf _ _] Elk El. destruct (sleep_eq ch (LPipe pi) p (k_lk s) s1) as (k & E & _).
  - split_and!; [apply Hq|exact Elk|apply Hq|apply Hq|done].
  - done.
  - apply (q_locks _ _ Hq). apply Hq.
  - rewrite El, (q_procs _ _ Hq). apply Hq.
  - eexists. by apply bind_swtch.
Qed.

Lemma pipewrite_wait_full s pp q :
  k_pipes s !! pi = Some pp → pipe_holds pp q → length q = 512%nat →
  pipewrite_wait pi p () (locked s) = if (pi_readopen pp =? 0) || (p_killed (the_proc p s) <>? 0)
    then (release (LPipe pi) ;;; ret (inr true)) (locked s)
    else (wakeup (ChPipeR pi) ;;; sleep (ChPipeW pi) (LPipe pi) ;;; ret (inl ())) (locked s).
Proof.
  intros Hpi Hp Hfull. unfold pipewrite_wait, get_pipe, get_proc. run.
  rewrite (the_pipe_some pp), (pipe_full_test _ _ Hp) by done. zdec. run.
  change (the_proc p (locked s)) with (the_proc p s). by destruct (_ || _).
Qed.

Lemma piperead_wait_empty s pp :
  k_pipes s !! pi = Some pp → pipe_holds pp [] → pi_writeopen pp ≠ 0 →
  piperead_wait pi p () (locked s) = if p_killed (the_proc p s) <>? 0
    then (release (LPipe pi) ;;; ret (inr true)) (locked s)
    else (sleep (ChPipeR pi) (LPipe pi) ;;; ret (inl ())) (locked s).
Proof.
  intros Hpi Hp Hwo. unfold piperead_wait, get_pipe, get_proc. run.
  rewrite (the_pipe_some pp), (pipe_empty_test _ _ Hp) by done.
  change (Z.of_nat (length []) =? 0) with true. zdec. run. change (the_proc p (locked s)) with (the_proc p s).
  by destruct (p_killed (the_proc p s) =? 0).
Qed.

(** A write of the first byte that has to wait. *)
Lemma pipewrite_waits addr n s s' k :
  pipe_user s → 0 < n → pipewrite_wait pi p () (locked s) = Swtch s' k → ∃ k', pipewrite pi addr n s = Swtch s' k'.
Proof.
  intros Hu Hn E. destruct (pipe_enter s Hu) as (Hc & Eacq & Ecur & _).
  unfold pipewrite. rewrite (bind_ok _ _ _ _ _ Ecur), (bind_ok _ _ _ _ _ Eacq).
  destruct (loop_swtch _ _ _ _ _ E) as [k1 E1].
  assert (∃ k2, pipewrite_body pi p addr n 0 (locked s) = Swtch s' k2) as [k2 E2].
  { unfold pipewrite_body. zdec. eexists. by apply bind_swtch. }
  destruct (loop_swtch _ _ _ _ _ E2) as [k3 E3]. eexists. by apply bind_swtch.
Qed.

(** C26. A transfer waits exactly when it can do nothing.  On a full pipe a writer wakes the
    readers and sleeps; on an empty pipe with a writer left a reader sleeps; in both cases
    the pipe's lock is released while the process sleeps on the side of the pipe that
    the other end wakes, so that no wakeup is lost.  A killed process does not wait,
    and neither does a writer when nobody can read: the calls return -1 with the lock released
    and nothing changed. *)
Theorem pipe_blocks s pp q addr n :
  pipe_user s → k_pipes s !! pi = Some pp → pipe_holds pp q → 0 < n →
  let killed := negb (p_killed (the_proc p s) =? 0) in
  (length q = 512%nat →
    if (pi_readopen pp =? 0) || killed then pipewrite pi addr n s = Ok (-1) s
    else ∃ k, pipewrite pi addr n s =
      Swtch (asleep (ChPipeW pi) p (k_lk s) (set_k_procs (wake (ChPipeR pi) <$> k_procs s) (locked s))) k) ∧
  (q = [] → pi_writeopen pp ≠ 0 →
    if killed then piperead pi addr n s = Ok (-1) s
    else ∃ k, piperead pi addr n s = Swtch (asleep (ChPipeR pi) p (k_lk s) (locked s)) k).
Proof.
  intros Hu Hpi Hp Hn killed. destruct (pipe_enter s Hu) as (Hc & Eacq & Ecur & _).
  pose proof (pu_quiet _ Hu) as Hq. pose proof (pu_lock _ Hu) as Hf.
  assert (Erel : ∀ A (x : A), (release (LPipe pi) ;;; ret x) (locked s) = Ok x s).
  { intros A x. erewrite bind_ok; [|apply (release_eq _ _ (k_lk s)); [apply Hq|done|done]]. unfold locked. okeq. }
  split.
  - intros Hfull. unfold killed.
    pose proof (pipewrite_wait_full s pp q Hpi Hp Hfull) as Ew.
    destruct ((pi_readopen pp =? 0) || (p_killed (the_proc p s) <>? 0)) eqn:Eb.
    + rewrite Erel in Ew. unfold pipewrite. rewrite (bind_ok _ _ _ _ _ Ecur), (bind_ok _ _ _ _ _ Eacq).
      rewrite (bind_ok _ _ _ None s); [done|]. apply loop_inr. unfold pipewrite_body. zdec.
      by rewrite (bind_ok _ _ _ _ _ (loop_inr _ _ _ _ _ Ew)).
    + destruct (pipe_sleep (ChPipeW pi) s (set_k_procs (wake (ChPipeR pi) <$> k_procs s) (locked s)) (() + bool) (inl ())) as [k Ek];
        [done|done|by ksimpl; rewrite length_fmap|].
      eapply (pipewrite_waits _ _ _ _ k); [done|done|]. rewrite Ew.
      erewrite bind_ok; [exact Ek|]. rewrite wakeup_eq; [done|done| |apply Hq].
      apply proc_locks_held; [done|by eapply quiet_proc_locks].
  - intros -> Hwo. unfold killed.
    pose proof (piperead_wait_empty s pp Hpi Hp Hwo) as Ew.
    unfold piperead. rewrite (bind_ok _ _ _ _ _ Ecur), (bind_ok _ _ _ _ _ Eacq).
    destruct (p_killed (the_proc p s) <>? 0) eqn:Eb.
    + rewrite Erel in Ew. by rewrite (bind_ok _ _ _ _ _ (loop_inr _ _ _ _ _ Ew)).
    + destruct (pipe_sleep (ChPipeR pi) s (locked s) (() + bool) (inl ())) as [k Ek]; [done|done|done|]. rewrite Ek in Ew.
      destruct (loop_swtch _ _ _ _ _ Ew) as [k1 E1]. eexists. by apply bind_swtch.
Qed.
End pipe.

(** ** A pipe with one byte in it *)

Definition P0 : Z := 0x80040000.
Definition byte_pipe : pipe := mkPipe (<[0%nat := 120]> (replicate 512 0)) 0 1 1 1.
Definition piped0 (pp : pipe) : kstate :=
  set_k_pipes {[P0 := pp]} (set_k_lk (put_lock (LPipe P0) (mkSpinlock 0 "pipe" None) (k_lk user0)) user0).

(** [pipealloc] adds a pipe and initialises its lock. *)
Lemma pipe_user_new {SY : Symbols} {PF : PteFormat} G fl root p pi pp s :
  quiet p s → uspace G fl root s → p_pagetable (the_proc p s) = root →
  pipe_user G fl root p pi
    (set_k_pipes {[pi := pp]} (set_k_lk (put_lock (LPipe pi) (mkSpinlock 0 "pipe" None) (k_lk s)) s)).
Proof.
  intros [H1 H2 H3 H4 H5 H6] Hsp Hroot.
  assert (Hl : ∀ lk, boot_lock lk → lock_free lk (put_lock (LPipe pi) (mkSpinlock 0 "pipe" None) (k_lk s))).
  { intros lk H. destruct (H4 lk H) as [nm E]. exists nm. unfold put_lock. ksimpl.
    rewrite lookup_insert_ne; [done|]. by intros <-. }
  assert (Hc : cpu_ok (put_lock (LPipe pi) (mkSpinlock 0 "pipe" None) (k_lk s))) by (by apply set_locks_ok).
  split; [split|..]; ksimpl; try done.
  - exists "pipe". unfold put_lock. ksimpl. apply lookup_insert_eq.
  - apply uspace_ext with s; ksimpl; try done. by apply Hl.
Qed.

Lemma pipe_user0 pp : @pipe_user symbols0 sv39_pte2pa G0 [] R0 0 P0 (piped0 pp).
Proof. apply pipe_user_new; [apply quiet_user0|apply uspace_user0|reflexivity]. Qed.

Lemma byte_pipe_holds : pipe_holds byte_pipe [120].
Proof. split; try reflexivity; simpl; try lia. intros [|i] x Hi; simpl in Hi; by simplify_eq. Qed.

Lemma pipe_fifo_witness :
  wp (@pipewrite sv39_pte2pa P0 0 2) (λ r s', r = 2 ∧ ∃ pp', pipe_holds pp' [120; 0; 0]) (piped0 byte_pipe) ∧
  wp (@piperead sv39_pte2pa P0 0 2) (λ r s', r = 1 ∧ rd (k_mem s') D0 = 120) (piped0 byte_pipe).
Proof.
  destruct (@pipe_fifo symbols0 sv39_pte2pa G0 [] R0 0 P0 (piped0 byte_pipe) byte_pipe [120] 0 2 (pipe_user0 _)
    (lookup_singleton_eq _ _) byte_pipe_holds) as [H1 H2]; [lia|lia|lia|].
  split.
  - eapply wp_mono; [apply (H1 [0; 0]); [vm_compute; reflexivity|simpl; lia]|].
    intros r s' (-> & pp' & H & _). split; [reflexivity|]. by exists pp'.
  - eapply wp_mono; [apply (H2 (wr mem0 D0 120)); [vm_compute; reflexivity|by left]|].
    intros r s' (-> & pp' & _ & _ & ->). split; [reflexivity|]. vm_compute. reflexivity.
Defined.

Definition idle_pipe : pipe := mkPipe (replicate 512 0) 0 0 1 1.

Lemma pipe_blocks_witness :
  ∃ k, @piperead sv39_pte2pa P0 0 2 (piped0 idle_pipe) =
    Swtch (asleep (ChPipeR P0) 0 (k_lk (piped0 idle_pipe)) (locked P0 (piped0 idle_pipe))) k.
Proof.
  destruct (@pipe_blocks symbols0 sv39_pte2pa G0 [] R0 0 P0 (piped0 idle_pipe) idle_pipe [] 0 2 (pipe_user0 _)
    (lookup_singleton_eq _ _)) as [_ H].
  - split; try reflexivity; simpl; try lia. apply ring_holds_nil.
  - lia.
  - by apply H.
Defined.
