(* ===== verification/File.v ===== *)
(** * Open files: [kernel/file.c], and [pipealloc] of [kernel/pipe.c]

    A [struct file *] is an index of [k_ftable]. *)

From stdpp Require Import prelude gmap strings list.
From Stdlib Require Import ZArith Lia.
From S2P Require Import Prelude.
From S2P Require Import Monad.
From S2P Require Import Riscv.
From S2P Require Import Types.
From S2P Require Import Mem.
From S2P Require Import Spinlock.
From S2P Require Import Kalloc.
From S2P Require Import Vm.
From S2P Require Import Proc.
From S2P Require Import Console.
From S2P Require Import Bio.
From S2P Require Import Log.
From S2P Require Import Fs.
From S2P Require Import Pipe.

Definition the_file (i : nat) (s : kstate) : file := nth i (k_ftable s) file0.
Definition get_file (i : nat) : K file := gets (the_file i).
Definition upd_file (i : nat) (f : file → file) : K unit :=
  modify (λ s, set_k_ftable (<[i := f (the_file i s)]> (k_ftable s)) s).

(** The bytes of [struct stat]; four bytes of padding follow [nlink]. *)
Definition bytes_of_stat (st : stat) : list Z :=
  le_split 4 (st_dev st) ++ le_split 4 (st_ino st) ++ le_split 2 (st_type st)
  ++ le_split 2 (st_nlink st) ++ replicate 4 0 ++ le_split 8 (st_size st).

Definition fileinit : K unit := initlock LFtable "ftable".

Definition filealloc : K (option nat) :=
  acquire LFtable ;;;
  let! r := for_ NFILE 0 (λ i,
    let! f := get_file i in
    if f_ref f =? 0 then
      upd_file i (set_f_ref 1) ;;;
      release LFtable ;;;
      ret (Some i)
    else ret None) in
  match r with
  | Some i => ret (Some i)
  | None => release LFtable ;;; ret None
  end.

Definition filedup (i : nat) : K nat :=
  acquire LFtable ;;;
  let! f := get_file i in
  if f_ref f <? 1 then panic "filedup" else
  upd_file i (λ f, set_f_ref (f_ref f + 1) f) ;;;
  release LFtable ;;;
  ret i.

Section file.
Context {SY : Symbols} {PF : PteFormat} {DD : DiskDriver}.

Definition fileclose (i : nat) : K unit :=
  acquire LFtable ;;;
  let! f := get_file i in
  if f_ref f <? 1 then panic "fileclose" else
  upd_file i (λ f, set_f_ref (f_ref f - 1) f) ;;;
  let! ff := get_file i in
  if 0 <? f_ref ff then release LFtable else
  upd_file i (set_f_ref 0) ;;;
  upd_file i (set_f_type FD_NONE) ;;;
  release LFtable ;;;
  match f_type ff with
  | FD_PIPE => pipeclose (f_pipe ff) (f_writable ff)
  | FD_INODE | FD_DEVICE =>
      begin_op ;;;
      let! ip := deref (f_ip ff) in
      iput ip ;;;
      end_op
  | FD_NONE => ret ()
  end.

Definition filestat (i : nat) (addr : Z) : K Z :=
  let! p := curproc in
  let! f := get_file i in
  match f_type f with
  | FD_INODE | FD_DEVICE =>
      ilock (f_ip f) ;;;
      let! ip := deref (f_ip f) in
      let! st := stati ip in
      iunlock (f_ip f) ;;;
      let! pr := get_proc p in
      let! r := copyout (p_pagetable pr) addr (bytes_of_stat st) in
      if r <? 0 then ret (-1) else ret 0
  | _ => ret (-1)
  end.

(** [devsw[major].read] and [devsw[major].write], null if out of range *)
Definition devsw_at (major : Z) (s : kstate) : option devfn * option devfn :=
  if (major <? 0) || (NDEV <=? major) then (None, None)
  else nth (Z.to_nat major) (k_devsw s) (None, None).
Definition call_dev (fn : devfn) (addr n : Z) : K Z :=
  match fn with
  | CONSOLEREAD => consoleread true addr n
  | CONSOLEWRITE => consolewrite true addr n
  end.

Definition fileread (i : nat) (addr n : Z) : K Z :=
  let! f := get_file i in
  if negb (f_readable f) then ret (-1) else
  match f_type f with
  | FD_PIPE => piperead (f_pipe f) addr n
  | FD_DEVICE =>
      let! d := gets (devsw_at (f_major f)) in
      match fst d with
      | None => ret (-1)
      | Some fn => call_dev fn addr n
      end
  | FD_INODE =>
      ilock (f_ip f) ;;;
      let! ip := deref (f_ip f) in
      let! f := get_file i in
      let! r := readi ip true addr (f_off f) (u32 n) in
      when (0 <? r) (upd_file i (λ f, set_f_off (u32 (f_off f + r)) f)) ;;;
      iunlock (f_ip f) ;;;
      ret r
  | FD_NONE => panic "fileread"
  end.

(** [((MAXOPBLOCKS-1-1-2) / 2) * BSIZE] *)
Definition filewrite_max : Z := ((MAXOPBLOCKS - 1 - 1 - 2) / 2) * BSIZE.

(** [while(i < n)]: one chunk, in a transaction of its own *)
Definition filewrite_body (fd : nat) (addr n : Z) (i : Z) : K (Z + Z) :=
  if negb (i <? n) then ret (inr i) else
  let n1 := Z.min (n - i) filewrite_max in
  begin_op ;;;
  let! f := get_file fd in
  ilock (f_ip f) ;;;
  let! ip := deref (f_ip f) in
  let! f := get_file fd in
  let! r := writei ip true (u64 (addr + i)) (f_off f) n1 in
  when (0 <? r) (upd_file fd (λ f, set_f_off (u32 (f_off f + r)) f)) ;;;
  iunlock (f_ip f) ;;;
  end_op ;;;
  if r <? 0 then ret (inr i) else
  if r <>? n1 then panic "short filewrite" else
  ret (inl (i + r)).

Definition filewrite (i : nat) (addr n : Z) : K Z :=
  let! f := get_file i in
  if negb (f_writable f) then ret (-1) else
  match f_type f with
  | FD_PIPE => pipewrite (f_pipe f) addr n
  | FD_DEVICE =>
      let! d := gets (devsw_at (f_major f)) in
      match snd d with
      | None => ret (-1)
      | Some fn => call_dev fn addr n
      end
  | FD_INODE =>
      let! r := loop (filewrite_body i addr n) 0 in
      ret (if r =? n then n else -1)
  | FD_NONE => panic "filewrite"
  end.

(** ** [pipealloc] *)

(** The exit [bad]. *)
Definition pipealloc_bad (f0 f1 : option nat) : K (option (nat * nat)) :=
  match f0 with Some f => fileclose f | None => ret () end ;;;
  match f1 with Some f => fileclose f | None => ret () end ;;;
  ret None.

(** The two files, [None] for -1.  The bytes of a new page are 5. *)
Definition pipealloc : K (option (nat * nat)) :=
  let! r0 := filealloc in
  match r0 with
  | None => pipealloc_bad None None
  | Some f0 =>
    let! r1 := filealloc in
    match r1 with
    | None => pipealloc_bad (Some f0) None
    | Some f1 =>
      let! pi := kalloc in
      if pi =? 0 then pipealloc_bad (Some f0) (Some f1) else
      modify (λ s, set_k_pipes (<[pi := mkPipe (replicate 512 5) 0 0 1 1]> (k_pipes s)) s) ;;;
      initlock (LPipe pi) "pipe" ;;;
      upd_file f0 (λ f, set_f_pipe pi (set_f_writable false (set_f_readable true (set_f_type FD_PIPE f)))) ;;;
      upd_file f1 (λ f, set_f_pipe pi (set_f_writable true (set_f_readable false (set_f_type FD_PIPE f)))) ;;;
      ret (Some (f0, f1))
    end
  end.
End file.
