(* ===== verification/ProcLife.v ===== *)
(** * Creation, exit and reaping of processes: the rest of [kernel/proc.c] *)

From stdpp Require Import prelude gmap strings list.
From Stdlib Require Import ZArith Lia.
From S2P Require Import Prelude.
From S2P Require Import Monad.
From S2P Require Import Riscv.
From S2P Require Import Types.
From S2P Require Import Mem.
From S2P Require Import Spinlock.
From S2P Require Import Kalloc.
From S2P Require Import Vm.
From S2P Require Import Proc.
From S2P Require Import Bio.
From S2P Require Import Log.
From S2P Require Import Fs.
From S2P Require Import File.

(** Fields of [p->trapframe], which is null for an unused process. *)
Definition tf_ptr (p : nat) : K Z :=
  let! pr := get_proc p in
  deref (if p_trapframe pr =? 0 then None else Some (p_trapframe pr)).
Definition tf_get (p : nat) (off : Z) : K Z :=
  let! tf := tf_ptr p in
  ld64 (tf + off).
Definition tf_set (p : nat) (off v : Z) : K unit :=
  let! tf := tf_ptr p in
  st64 (tf + off) (u64 v).

Section life.
Context {SY : Symbols} {PF : PteFormat} {DD : DiskDriver}.

Definition proc_pagetable (p : nat) : K Z :=
  let! pagetable := uvmcreate in
  if pagetable =? 0 then ret 0 else
  let! r := mappages pagetable TRAMPOLINE PGSIZE trampoline (Z.lor PTE_R PTE_X) in
  if r <? 0 then uvmfree pagetable 0 ;;; ret 0 else
  let! pr := get_proc p in
  let! r := mappages pagetable TRAPFRAME PGSIZE (p_trapframe pr) (Z.lor PTE_R PTE_W) in
  if r <? 0 then
    uvmunmap pagetable TRAMPOLINE 1 false ;;;
    uvmfree pagetable 0 ;;;
    ret 0
  else ret pagetable.

Definition proc_freepagetable (pagetable sz : Z) : K unit :=
  uvmunmap pagetable TRAMPOLINE 1 false ;;;
  uvmunmap pagetable TRAPFRAME 1 false ;;;
  uvmfree pagetable sz.

Definition freeproc (p : nat) : K unit :=
  let! pr := get_proc p in
  when (p_trapframe pr <>? 0) (kfree (p_trapframe pr)) ;;;
  upd_proc p (set_p_trapframe 0) ;;;
  let! pr := get_proc p in
  when (p_pagetable pr <>? 0) (proc_freepagetable (p_pagetable pr) (p_sz pr)) ;;;
  upd_proc p (set_p_pagetable 0) ;;;
  upd_proc p (set_p_sz 0) ;;;
  upd_proc p (set_p_pid 0) ;;;
  upd_proc p (set_p_parent None) ;;;
  upd_proc p (λ pr, set_p_name (<[0%nat := 0]> (p_name pr)) pr) ;;;
  upd_proc p (set_p_chan ChNull) ;;;
  upd_proc p (set_p_killed 0) ;;;
  upd_proc p (set_p_xstate 0) ;;;
  upd_proc p (set_p_state UNUSED).

(** The search loop of [allocproc]: returns with the lock of the process held. *)
Definition allocproc_find (p : nat) : K (option nat) :=
  acquire (LProc p) ;;;
  let! pr := get_proc p in
  if decide (p_state pr = UNUSED) then ret (Some p)
  else release (LProc p) ;;; ret None.

(** From the label [found] on. *)
Definition allocproc_found (p : nat) : K (option nat) :=
  let! pid := allocpid in
  upd_proc p (set_p_pid pid) ;;;
  let! tf := kalloc in
  upd_proc p (set_p_trapframe tf) ;;;
  if tf =? 0 then release (LProc p) ;;; ret None else
  let! pagetable := proc_pagetable p in
  upd_proc p (set_p_pagetable pagetable) ;;;
  if pagetable =? 0 then freeproc p ;;; release (LProc p) ;;; ret None else
  upd_proc p (set_p_context context0) ;;;
  upd_proc p (λ pr, set_p_context (set_ctx_ra forkret_addr (p_context pr)) pr) ;;;
  upd_proc p (λ pr, set_p_context (set_ctx_sp (p_kstack pr + PGSIZE) (p_context pr)) pr) ;;;
  ret (Some p).

Definition allocproc : K (option nat) :=
  let! r := for_ NPROC 0 allocproc_find in
  match r with
  | None => ret None
  | Some p => allocproc_found p
  end.

Definition initcode : list Z :=
  [0x17; 0x05; 0x00; 0x00; 0x13; 0x05; 0x45; 0x02;
   0x97; 0x05; 0x00; 0x00; 0x93; 0x85; 0x35; 0x02;
   0x93; 0x08; 0x70; 0x00; 0x73; 0x00; 0x00; 0x00;
   0x93; 0x08; 0x20; 0x00; 0x73; 0x00; 0x00; 0x00;
   0xef; 0xf0; 0x9f; 0xff; 0x2f; 0x69; 0x6e; 0x69;
   0x74; 0x00; 0x00; 0x24; 0x00; 0x00; 0x00; 0x00;
   0x00; 0x00; 0x00; 0x00].

Definition userinit : K unit :=
  let! r := allocproc in
  modify (set_k_initproc r) ;;;
  let! p := deref r in
  let! pr := get_proc p in
  uvminit (p_pagetable pr) initcode ;;;
  upd_proc p (set_p_sz PGSIZE) ;;;
  tf_set p TF_epc 0 ;;;
  tf_set p TF_sp PGSIZE ;;;
  upd_proc p (λ pr, set_p_name (safestrcpy (p_name pr) (at_list (bytes_of "initcode")) 16) pr) ;;;
  let! cwd := namei (bytes_of "/") in
  upd_proc p (set_p_cwd cwd) ;;;
  upd_proc p (set_p_state RUNNABLE) ;;;
  release (LProc p).

(** [sz] is a 32-bit [uint]: sizes are cut to 32 bits. *)
Definition growproc (n : Z) : K Z :=
  let! p := curproc in
  let! pr := get_proc p in
  let sz := u32 (p_sz pr) in
  if 0 <? n then
    let! r := uvmalloc (p_pagetable pr) sz (u32 (sz + n)) in
    let sz := u32 r in
    if sz =? 0 then ret (-1) else
    upd_proc p (set_p_sz sz) ;;; ret 0
  else if n <? 0 then
    let! r := uvmdealloc (p_pagetable pr) sz (u32 (sz + n)) in
    upd_proc p (set_p_sz (u32 r)) ;;; ret 0
  else
    upd_proc p (set_p_sz sz) ;;; ret 0.

(** [for (i = 0; i < NOFILE; i++) if (p->ofile[i]) np->ofile[i] = filedup(p->ofile[i]);] *)
Definition fork_file (p np : nat) (i : nat) : K (option unit) :=
  let! pr := get_proc p in
  match nth i (p_ofile pr) None with
  | None => ret None
  | Some f =>
      let! f := filedup f in
      upd_proc np (λ pr, set_p_ofile (<[i := Some f]> (p_ofile pr)) pr) ;;;
      ret None
  end.

Definition fork : K Z :=
  let! p := curproc in
  let! r := allocproc in
  match r with
  | None => ret (-1)
  | Some np =>
      let! pr := get_proc p in
      let! npr := get_proc np in
      let! r := uvmcopy (p_pagetable pr) (p_pagetable npr) (p_sz pr) in
      if r <? 0 then
        freeproc np ;;;
        release (LProc np) ;;;
        ret (-1)
      else
      upd_proc np (set_p_sz (p_sz pr)) ;;;
      upd_proc np (set_p_parent (Some p)) ;;;
      let! ntf := tf_ptr np in
      let! ptf := tf_ptr p in
      upd_mem (λ m, memmove m ntf ptf TF_SIZE) ;;;
      tf_set np TF_a0 0 ;;;
      let! _ := for_ NOFILE 0 (fork_file p np) in
      let! pr := get_proc p in
      let! cwd := deref (p_cwd pr) in
      let! cwd := idup cwd in
      upd_proc np (set_p_cwd (Some cwd)) ;;;
      upd_proc np (λ npr, set_p_name (safestrcpy (p_name npr) (at_list (p_name pr)) 16) npr) ;;;
      let! npr := get_proc np in
      upd_proc np (set_p_state RUNNABLE) ;;;
      release (LProc np) ;;;
      ret (p_pid npr)
  end.

Definition reparent_body (p : nat) (pp : nat) : K (option unit) :=
  let! pr := get_proc pp in
  when (bool_decide (p_parent pr = Some p))
    (acquire (LProc pp) ;;;
     let! initproc := gets k_initproc in
     upd_proc pp (set_p_parent initproc) ;;;
     release (LProc pp)) ;;;
  ret None.
Definition reparent (p : nat) : K unit :=
  let! _ := for_ NPROC 0 (reparent_body p) in
  ret ().

Definition exit_close (p : nat) (fd : nat) : K (option unit) :=
  let! pr := get_proc p in
  match nth fd (p_ofile pr) None with
  | None => ret None
  | Some f =>
      fileclose f ;;;
      upd_proc p (λ pr, set_p_ofile (<[fd := None]> (p_ofile pr)) pr) ;;;
      ret None
  end.

Definition exit (status : Z) : K unit :=
  let! p := curproc in
  let! initproc := gets k_initproc in
  if decide (Some p = initproc) then panic "init exiting" else
  let! _ := for_ NOFILE 0 (exit_close p) in
  begin_op ;;;
  let! pr := get_proc p in
  let! cwd := deref (p_cwd pr) in
  iput cwd ;;;
  end_op ;;;
  upd_proc p (set_p_cwd None) ;;;
  let! initproc := deref initproc in
  acquire (LProc initproc) ;;;
  wakeup1 initproc ;;;
  release (LProc initproc) ;;;
  acquire (LProc p) ;;;
  let! pr := get_proc p in
  let! original_parent := deref (p_parent pr) in
  release (LProc p) ;;;
  acquire (LProc original_parent) ;;;
  acquire (LProc p) ;;;
  reparent p ;;;
  wakeup1 original_parent ;;;
  upd_proc p (set_p_xstate status) ;;;
  upd_proc p (set_p_state ZOMBIE) ;;;
  release (LProc original_parent) ;;;
  sched ;;;
  panic "zombie exit".

(** The scan of [wait] over the process table: [inl] is a return value, [inr] is
    [havekids] at the end of the scan. *)
Fixpoint wait_scan (p : nat) (addr : Z) (n np : nat) (havekids : bool) : K (Z + bool) :=
  match n with
  | O => ret (inr havekids)
  | S n' =>
      let! npr := get_proc np in
      if bool_decide (p_parent npr = Some p) then
        acquire (LProc np) ;;;
        let! npr := get_proc np in
        if bool_decide (p_state npr = ZOMBIE) then
          let pid := p_pid npr in
          let! pr := get_proc p in
          let! r := (if addr =? 0 then ret 0
                     else copyout (p_pagetable pr) addr (le_split 4 (p_xstate npr))) in
          if r <? 0 then
            release (LProc np) ;;; release (LProc p) ;;; ret (inl (-1))
          else
            freeproc np ;;;
            release (LProc np) ;;;
            release (LProc p) ;;;
            ret (inl pid)
        else
          release (LProc np) ;;;
          wait_scan p addr n' (S np) true
      else wait_scan p addr n' (S np) havekids
  end.

Definition wait_body (p : nat) (addr : Z) (_ : unit) : K (unit + Z) :=
  let! r := wait_scan p addr NPROC 0 false in
  match r with
  | inl v => ret (inr v)
  | inr havekids =>
      let! pr := get_proc p in
      if negb havekids || (p_killed pr <>? 0) then
        release (LProc p) ;;; ret (inr (-1))
      else sleep (ChProc p) (LProc p) ;;; ret (inl ())
  end.
Definition wait (addr : Z) : K Z :=
  let! p := curproc in
  acquire (LProc p) ;;;
  loop (wait_body p addr) ().
End life.
