(* ===== verification/FileSpec.v ===== *)
(** * The table of open files, and waiting for children

    What [filealloc], [filedup] and [fileclose] do to the reference counts, and which child
    [wait] takes. *)

From stdpp Require Import prelude gmap strings list.
From Stdlib Require Import ZArith Lia.
From S2P Require Import Prelude.
From S2P Require Import Monad.
From S2P Require Import Riscv.
From S2P Require Import Types.
From S2P Require Import Spinlock.
From S2P Require Import Kalloc.
From S2P Require Import Vm.
From S2P Require Import VmSpec.
From S2P Require Import Proc.
From S2P Require Import ProcSpec.
From S2P Require Import Bio.
From S2P Require Import BioSpec.
From S2P Require Import Cache.
From S2P Require Import Log.
From S2P Require Import Fs.
From S2P Require Import Pipe.
From S2P Require Import File.
From S2P Require Import ProcLife.

(** ** The file table *)

Definition at_file (i : nat) (f : file) (s : kstate) : kstate := set_k_ftable (<[i := f]> (k_ftable s)) s.

Lemma the_file_at i f s : (i < length (k_ftable s))%nat → the_file i (at_file i f s) = f.
Proof. intros H. unfold the_file, at_file. ksimpl. by rewrite nth_lookup, list_lookup_insert_eq. Qed.

Lemma at_file_twice i x y s : at_file i y (at_file i x s) = at_file i y s.
Proof. unfold at_file. ksimpl. by rewrite list_insert_insert_eq. Qed.

Lemma upd_file_at i f s : upd_file i f s = Ok () (at_file i (f (the_file i s)) s).
Proof. done. Qed.

Lemma filealloc_eq p s : quiet p s → length (k_ftable s) = NFILE →
  filealloc s = match list_find (λ f, f_ref f = 0) (k_ftable s) with
    | Some (i, f) => Ok (Some i) (at_file i (set_f_ref 1 f) s)
    | None => Ok None s
    end.
Proof.
  intros Hq Hlen. assert (Hf : lock_free LFtable (k_lk s)) by (by apply (q_locks _ _ Hq)). pose proof (q_cpu _ _ Hq) as Hc.
  set (r := list_find (λ f, f_ref f = 0) (k_ftable s)). set (s1 := set_k_lk (held LFtable (k_lk s)) s).
  set (out := match r with Some (i, f) => Ok (Some i) (at_file i (set_f_ref 1 f) s) | None => Ok None s end).
  assert (Hout : wp filealloc (λ v t, Ok v t = out) s); [|destruct Hout as (v & t & -> & <-); done].
  unfold filealloc. rewrite wp_bind. eapply wp_ok; [by apply acquire_eq|]. fold s1. rewrite wp_bind.
  apply (wp_for NFILE 0 _ (λ i t, t = s1 ∧ ∀ j f, (j < i)%nat → k_ftable s !! j = Some f → f_ref f ≠ 0)).
  - split; [done|lia].
  - intros i t Hi (-> & Hno). destruct (lookup_lt_is_Some_2 (k_ftable s) i) as [f Hfi]; [lia|].
    assert (Ef : the_file i s1 = f) by (unfold the_file; change (k_ftable s1) with (k_ftable s); by rewrite nth_lookup, Hfi).
    unfold get_file. rewrite wp_bind, wp_gets, Ef. destruct (Z.eqb_spec (f_ref f) 0) as [E0|E0].
    + assert (Er : r = Some (i, f)) by (apply list_find_Some; split_and!; [done|done|intros j y Hj Hlt; by eapply Hno]).
      rewrite wp_bind. eapply wp_ok; [apply upd_file_at|]. rewrite Ef, wp_bind.
      eapply wp_ok; [apply (release_eq LFtable _ (k_lk s)); [done|done|unfold at_file; by ksimpl]|]. rewrite !wp_ret.
      unfold out. rewrite Er. unfold at_file, s1. okeq.
    + rewrite wp_ret. split; [done|]. intros j y Hj Hy. destruct (decide (j = i)) as [->|]; [congruence|]. apply (Hno j y); [lia|done].
  - intros t (-> & Hno). assert (Er : r = None).
    { apply list_find_None, Forall_lookup. intros j f Hj. apply (Hno j f); [|done]. apply lookup_lt_Some in Hj. lia. }
    rewrite wp_bind. eapply wp_ok; [apply (release_eq LFtable _ (k_lk s)); [done|done|done]|]. rewrite wp_ret.
    unfold out. rewrite Er. unfold s1. okeq.
Qed.

Lemma filedup_eq p i s : quiet p s →
  filedup i s = if f_ref (the_file i s) <? 1 then Panic "filedup"
    else Ok i (at_file i (set_f_ref (f_ref (the_file i s) + 1) (the_file i s)) s).
Proof.
  intros Hq. assert (Hf : lock_free LFtable (k_lk s)) by (by apply (q_locks _ _ Hq)). pose proof (q_cpu _ _ Hq) as Hc.
  unfold filedup, get_file. rewrite (bind_ok _ _ _ _ _ (acquire_eq _ _ Hc Hf)). run.
  change (the_file i (set_k_lk _ s)) with (the_file i s). destruct (f_ref (the_file i s) <? 1); [done|].
  rewrite (bind_ok _ _ _ _ _ (upd_file_at _ _ _)).
  erewrite bind_ok; [|apply (release_eq LFtable _ (k_lk s)); [done|done|unfold at_file; by ksimpl]].
  unfold ret, at_file. change (the_file i (set_k_lk _ s)) with (the_file i s). okeq.
Qed.

Section close.
Context {SY : Symbols} {PF : PteFormat} {DD : DiskDriver}.

(** What the last close of a file does with what it stands for. *)
Definition last_close (f : file) : K unit :=
  match f_type f with
  | FD_PIPE => pipeclose (f_pipe f) (f_writable f)
  | FD_INODE | FD_DEVICE => begin_op ;;; let! ip := deref (f_ip f) in iput ip ;;; end_op
  | FD_NONE => ret ()
  end.

Lemma fileclose_eq p i s : quiet p s → (i < length (k_ftable s))%nat →
  let f := the_file i s in
  fileclose i s =
    if f_ref f <? 1 then Panic "fileclose"
    else if 1 <? f_ref f then Ok () (at_file i (set_f_ref (f_ref f - 1) f) s)
    else last_close f (at_file i (set_f_type FD_NONE (set_f_ref 0 f)) s).
Proof.
  intros Hq Hi f. assert (Hf : lock_free LFtable (k_lk s)) by (by apply (q_locks _ _ Hq)). pose proof (q_cpu _ _ Hq) as Hc.
  unfold fileclose, get_file. rewrite (bind_ok _ _ _ _ _ (acquire_eq _ _ Hc Hf)). run.
  change (the_file i (set_k_lk _ s)) with f. destruct (Z.ltb_spec (f_ref f) 1) as [|H1]; [done|].
  rewrite (bind_ok _ _ _ _ _ (upd_file_at _ _ _)). change (the_file i (set_k_lk _ s)) with f. run.
  rewrite the_file_at by done. change (f_ref (set_f_ref (f_ref f - 1) f)) with (f_ref f - 1).
  destruct (Z.ltb_spec 1 (f_ref f)) as [H2|H2].
  - rewrite (proj2 (Z.ltb_lt 0 _)) by lia. rewrite (release_eq LFtable _ (k_lk s)); [|done|done|unfold at_file; by ksimpl].
    unfold at_file. okeq.
  - rewrite (proj2 (Z.ltb_ge 0 _)) by lia. do 2 (rewrite (bind_ok _ _ _ _ _ (upd_file_at _ _ _))).
    rewrite !the_file_at by (unfold at_file; ksimpl; by rewrite ?length_insert). rewrite !at_file_twice.
    erewrite bind_ok; [|apply (release_eq LFtable _ (k_lk s)); [done|done|unfold at_file; by ksimpl]].
    change (f_type (set_f_ref (f_ref f - 1) f)) with (f_type f).
    assert (E : set_k_lk (k_lk s) (at_file i (set_f_type FD_NONE (set_f_ref 0 (set_f_ref (f_ref f - 1) f))) (set_k_lk (held LFtable (k_lk s)) s)) =
      at_file i (set_f_type FD_NONE (set_f_ref 0 f)) s) by (unfold at_file; keq).
    rewrite E. unfold last_close. by destruct (f_type f).
Qed.

(** C19. The reference counts of open files.  With no lock held, [filealloc] gives the
    first unused entry a count of one, or fails and changes nothing when all are in use;
    [filedup] adds one and [fileclose] takes one away, and both panic on an entry that
    is not in use.  Only the close that takes the last reference frees the entry, and what
    the file stands for is given up exactly then and after that: a pipe end is closed, an inode is put
    inside a transaction of its own.  No other entry changes and the lock is free again. *)
Theorem file_references p i s :
  quiet p s → length (k_ftable s) = NFILE → (i < NFILE)%nat →
  let f := the_file i s in
  filealloc s = match list_find (λ f, f_ref f = 0) (k_ftable s) with
    | Some (j, f) => Ok (Some j) (at_file j (set_f_ref 1 f) s)
    | None => Ok None s
    end ∧
  filedup i s = (if f_ref f <? 1 then Panic "filedup" else Ok i (at_file i (set_f_ref (f_ref f + 1) f) s)) ∧
  fileclose i s = (if f_ref f <? 1 then Panic "fileclose"
    else if 1 <? f_ref f then Ok () (at_file i (set_f_ref (f_ref f - 1) f) s)
    else last_close f (at_file i (set_f_type FD_NONE (set_f_ref 0 f)) s)).
Proof.
  intros Hq Hlen Hi f. split_and!; [by apply (filealloc_eq p)|by apply (filedup_eq p)|apply (fileclose_eq p); [done|lia]].
Qed.
End close.

Lemma file_references_witness :
  filealloc quiet0 = Ok (Some 0%nat) (at_file 0 (set_f_ref 1 file0) quiet0) ∧
  @fileclose symbols0 sync_disk 4 quiet0 = Panic "fileclose".
Proof.
  destruct (@file_references symbols0 sync_disk 0 4 quiet0 quiet_0 eq_refl ltac:(unfold NFILE; lia)) as (E1 & _ & E3).
  split; [exact E1|exact E3].
Defined.

(** ** [wait] *)

Section waiting.
Context {SY : Symbols} {PF : PteFormat}.

Definition child_of (p : nat) (s : kstate) (i : nat) : Prop := p_parent (the_proc i s) = Some p.
Definition zombie_of (p : nat) (s : kstate) (i : nat) : Prop := child_of p s i ∧ p_state (the_proc i s) = ZOMBIE.

#[export] Instance child_of_dec p s i : Decision (child_of p s i).
Proof. unfold child_of. apply _. Defined.
#[export] Instance zombie_of_dec p s i : Decision (zombie_of p s i).
Proof. unfold zombie_of. apply _. Defined.

(** What [wait] does with the child [np] once it holds both locks: it copies the exit
    status out, frees the slot and returns the pid, or returns [-1] and keeps the child. *)
Definition reap (p : nat) (addr : Z) (np : nat) : K (Z + bool) :=
  let! npr := get_proc np in
  let pid := p_pid npr in
  let! pr := get_proc p in
  let! r := (if addr =? 0 then ret 0 else copyout (p_pagetable pr) addr (le_split 4 (p_xstate npr))) in
  if r <? 0 then release (LProc np) ;;; release (LProc p) ;;; ret (inl (-1))
  else freeproc np ;;; release (LProc np) ;;; release (LProc p) ;;; ret (inl pid).

(** The state in which [wait] scans the table. *)
Definition scanning (p : nat) (s : kstate) : kstate := set_k_lk (held (LProc p) (k_lk s)) s.
Definition reaping (p np : nat) (s : kstate) : kstate := set_k_lk (held (LProc np) (held (LProc p) (k_lk s))) s.

Lemma scan_lock p np s : quiet p s → (np < NPROC)%nat → np ≠ p →
  acquire (LProc np) (scanning p s) = Ok () (reaping p np s) ∧ release (LProc np) (reaping p np s) = Ok () (scanning p s).
Proof.
  intros Hq Hn Hne. pose proof (held_ok (LProc p) _ (q_cpu _ _ Hq)) as Hc.
  assert (Hf : lock_free (LProc np) (held (LProc p) (k_lk s))) by (apply lock_free_held; [congruence|by apply (q_locks _ _ Hq)]).
  split.
  - rewrite acquire_eq by done. unfold scanning, reaping. okeq.
  - rewrite (release_eq _ _ (held (LProc p) (k_lk s))) by done. unfold scanning, reaping. okeq.
Qed.

Lemma wait_scan_ok p addr n np hk s : quiet p s → ¬ child_of p s p → (np + n = NPROC)%nat →
  wait_scan p addr n np hk (scanning p s) =
  match list_find (zombie_of p s) (seq np n) with
  | Some (_, c) => reap p addr c (reaping p c s)
  | None => Ok (inr (hk || bool_decide (Exists (child_of p s) (seq np n)))) (scanning p s)
  end.
Proof.
  intros Hq Hself. revert np hk. induction n as [|n IH]; intros np hk Hn.
  { cbn [seq list_find wait_scan]. rewrite bool_decide_eq_false_2, orb_false_r by (by intros ?%Exists_nil). done. }
  cbn [seq list_find wait_scan]. unfold get_proc at 1. run. change (the_proc np (scanning p s)) with (the_proc np s).
  destruct (decide (child_of p s np)) as [Hc|Hc].
  - assert (Hne : np ≠ p) by (by intros ->). destruct (scan_lock p np s Hq ltac:(lia) Hne) as [Ea Er].
    rewrite bool_decide_eq_true_2 by done. rewrite (bind_ok _ _ _ _ _ Ea).
    destruct (decide (zombie_of p s np)) as [Hz|Hz].
    + unfold reap, get_proc. run. change (the_proc np (reaping p np s)) with (the_proc np s).
      rewrite bool_decide_eq_true_2 by apply Hz. done.
    + unfold get_proc at 1. run. change (the_proc np (reaping p np s)) with (the_proc np s).
      rewrite bool_decide_eq_false_2 by (by intros ?; apply Hz). rewrite (bind_ok _ _ _ _ _ Er), IH by lia.
      destruct (list_find (zombie_of p s) (seq (S np) n)) as [[k c]|]; [done|].
      cbn [fmap option_fmap option_map]. rewrite (bool_decide_eq_true_2 (Exists _ (np :: _))) by (by apply Exists_cons_hd).
      by rewrite orb_true_r.
  - rewrite bool_decide_eq_false_2 by done. rewrite decide_False by (by intros [? _]). rewrite IH by lia.
    destruct (list_find (zombie_of p s) (seq (S np) n)) as [[k c]|]; [done|]. cbn [fmap option_fmap option_map].
    do 3 f_equal. apply bool_decide_ext. rewrite Exists_cons. tauto.
Qed.

(** A process that sleeps on a channel under its own lock keeps that lock across the switch. *)
Lemma sleep_own_eq ch p l s :
  only_lock (LProc p) p l s → (p < length (k_procs s))%nat →
  ∃ k, sleep ch (LProc p) s = Swtch (asleep ch p l s) k ∧
    ∀ l' s', only_lock (LProc p) p l' s' →
      k s' = Ok () (awake (LProc p) p (restore (intr_get (cs_hart l)) l') s').
Proof.
  intros (Hc & El & Hn & Hp & Hf) Hlen. unfold sleep.
  assert (Es : set_k_lk (held (LProc p) l) s = s) by (rewrite <- El; by destruct s).
  erewrite bind_ok; [|apply curproc_eq; rewrite El; [by apply held_ok|by rewrite held_proc]].
  rewrite bool_decide_eq_false_2 by (by intros []). cbn [when].
  unfold upd_proc at 1 2. run. unfold the_proc at 1. ksimpl.
  rewrite list_insert_insert_eq, nth_lookup, list_lookup_insert_eq by done. cbn [default].
  unfold bind at 1. rewrite (sched_eq p l).
  - cbn [obind]. eexists. split; [unfold asleep; rewrite Es; reflexivity|].
    intros l' s' (Hc' & El' & Hn' & Hp' & Hf'). unfold upd_lk, modify. cbn [obind].
    rewrite El', held_restore by done. unfold upd_proc. run. unfold awake. okeq.
  - split_and!; ksimpl; done.
  - unfold the_proc. ksimpl. rewrite nth_lookup, list_lookup_insert_eq by done. done.
Qed.

(** The first zombie child of [p], in the order of the process table. *)
Definition first_zombie (p : nat) (s : kstate) : option nat := snd <$> list_find (zombie_of p s) (seq 0 NPROC).
Definition has_child (p : nat) (s : kstate) : Prop := Exists (child_of p s) (seq 0 NPROC).

(** The state a process resumed by the scheduler in [s'] would be in without its own lock. *)
Definition resumed (p : nat) (l : cpust) (s' : kstate) : kstate :=
  set_k_procs (<[p := set_p_chan ChNull (the_proc p s')]> (k_procs s')) (set_k_lk l s').

Lemma wait_body_ok p addr s : quiet p s → ¬ child_of p s p →
  match first_zombie p s with
  | Some c => ∀ v t, reap p addr c (reaping p c s) = Ok (inl v) t → wait_body p addr () (scanning p s) = Ok (inr v) t
  | None =>
      if bool_decide (has_child p s) && (p_killed (the_proc p s) =? 0)
      then ∃ k, wait_body p addr () (scanning p s) = Swtch (asleep (ChProc p) p (k_lk s) s) k ∧
             ∀ l' s', only_lock (LProc p) p l' s' →
               k s' = Ok (inl ()) (scanning p (resumed p (restore (intr_get (cs_hart (k_lk s))) l') s'))
      else wait_body p addr () (scanning p s) = Ok (inr (-1)) s
  end.
Proof.
  intros Hq Hself. pose proof (wait_scan_ok p addr NPROC 0 false s Hq Hself eq_refl) as E. unfold first_zombie, has_child, wait_body.
  destruct (list_find (zombie_of p s) (seq 0 NPROC)) as [[k c]|]; cbn [fmap option_fmap option_map snd].
  { intros v t Hr. rewrite Hr in E. by rewrite (bind_ok _ _ _ _ _ E). }
  rewrite (bind_ok _ _ _ _ _ E), orb_false_l. unfold get_proc. run. change (the_proc p (scanning p s)) with (the_proc p s).
  assert (Hf : lock_free (LProc p) (k_lk s)) by (apply (q_locks _ _ Hq), (q_range _ _ Hq)).
  assert (Er : (release (LProc p) ;;; ret (inr (-1) : unit + Z)) (scanning p s) = Ok (inr (-1)) s).
  { erewrite bind_ok; [|apply (release_eq _ _ (k_lk s)); [apply (q_cpu _ _ Hq)|done|done]]. unfold scanning. okeq. }
  destruct (bool_decide (Exists _ _)); cbn [negb orb andb]; [|exact Er].
  destruct (p_killed (the_proc p s) =? 0); cbn [negb]; [|exact Er].
  destruct (sleep_own_eq (ChProc p) p (k_lk s) (scanning p s)) as (k & Ek & Hk).
  { split_and!; [apply (q_cpu _ _ Hq)|done|apply (q_noff _ _ Hq)|apply (q_cur _ _ Hq)|done]. }
  { unfold scanning. ksimpl. rewrite (q_procs _ _ Hq). apply (q_range _ _ Hq). }
  eexists. split; [apply bind_swtch; rewrite Ek; f_equal; unfold asleep, scanning; keq|].
  intros l' s' Ho. cbv beta. rewrite (Hk l' s' Ho). cbn [obind]. unfold ret, awake, scanning, resumed. okeq.
Qed.

(** C18. [wait] takes the first zombie child in the order of the process table: it locks
    that child, and no other, while it copies the status out, frees the slot and
    returns the pid.  Without a zombie it fails and changes nothing when the process has no
    children or was killed; otherwise it goes to sleep on its own process, still holding
    its own lock, so that an exiting child's wakeup cannot fall between the scan and
    the sleep; and when the scheduler resumes it and a child has become a zombie,
    that call returns what reaping the first one gives. *)
Theorem wait_first_zombie p addr s :
  quiet p s → ¬ child_of p s p →
  match first_zombie p s with
  | Some c => ∀ v t, reap p addr c (reaping p c s) = Ok (inl v) t → wait addr s = Ok v t
  | None =>
      if bool_decide (has_child p s) && (p_killed (the_proc p s) =? 0)
      then ∃ k, wait addr s = Swtch (asleep (ChProc p) p (k_lk s) s) k ∧
             ∀ l' s' c v t, let s2 := resumed p (restore (intr_get (cs_hart (k_lk s))) l') s' in
               only_lock (LProc p) p l' s' → quiet p s2 → ¬ child_of p s2 p →
               first_zombie p s2 = Some c → reap p addr c (reaping p c s2) = Ok (inl v) t → k s' = Ok v t
      else wait addr s = Ok (-1) s
  end.
Proof.
  intros Hq Hself. assert (Hf : lock_free (LProc p) (k_lk s)) by (apply (q_locks _ _ Hq), (q_range _ _ Hq)).
  assert (Ew : wait addr s = loop (wait_body p addr) () (scanning p s)).
  { unfold wait. rewrite (bind_ok _ _ _ _ _ (curproc_eq p s (q_cpu _ _ Hq) (q_cur _ _ Hq))).
    by rewrite (bind_ok _ _ _ _ _ (acquire_eq _ _ (q_cpu _ _ Hq) Hf)). }
  pose proof (wait_body_ok p addr s Hq Hself) as Hb. rewrite Ew. destruct (first_zombie p s) as [c|].
  { intros v t Hr. by apply loop_inr, Hb. }
  destruct (_ && _); [|by apply loop_inr]. destruct Hb as (k & Ek & Hk).
  destruct (loop_swtch_resume _ _ _ _ _ Ek) as (k' & Ek' & Hk'). exists k'. split; [done|].
  intros l' s' c v t s2 Ho Hq2 Hs2 Hz Hr. eapply Hk'; [by apply Hk|]. fold s2.
  pose proof (wait_body_ok p addr s2 Hq2 Hs2) as Hb2. rewrite Hz in Hb2. by apply Hb2.
Qed.
End waiting.

(** Process 9, a child of process 0, has exited in slot 3; slot 2 holds a child that runs. *)
Definition family0 : kstate :=
  set_k_procs (<[3%nat := set_p_parent (Some 0%nat) (set_p_pid 9 (set_p_state ZOMBIE proc0))]>
    (<[2%nat := set_p_parent (Some 0%nat) (set_p_pid 8 (set_p_state RUNNABLE proc0))]> (k_procs quiet0))) quiet0.

Lemma quiet_family0 : quiet 0 family0.
Proof. destruct quiet_0 as [H1 H2 H3 H4 H5 H6]. by split. Qed.

Lemma wait_first_zombie_witness :
  ∃ t, @wait symbols0 sv39_pte2pa 0 family0 = Ok 9 t ∧ p_state (the_proc 3 t) = UNUSED ∧ p_pid (the_proc 2 t) = 8.
Proof.
  pose proof (@wait_first_zombie symbols0 sv39_pte2pa 0 0 family0 quiet_family0 ltac:(discriminate)) as H.
  assert (E : first_zombie 0 family0 = Some 3%nat) by (vm_compute; reflexivity). rewrite E in H.
  assert (R : match @reap symbols0 sv39_pte2pa 0 0 3 (reaping 0 3 family0) with
    | Ok (inl v) t => v = 9 ∧ p_state (the_proc 3 t) = UNUSED ∧ p_pid (the_proc 2 t) = 8 | _ => False end).
  { vm_compute. repeat split. }
  destruct (reap 0 0 3 (reaping 0 3 family0)) as [[v|] t| | | |]; try done.
  destruct R as (-> & R). exists t. split; [by apply H|exact R].
Defined.
