(* ===== verification/Exec.v ===== *)
(** * Program loading: [kernel/exec.c] and [kernel/elf.h]

    The local [struct elfhdr] and [struct proghdr] are read at [stk]. *)

From stdpp Require Import prelude gmap strings list.
From Stdlib Require Import ZArith Lia.
From S2P Require Import Prelude.
From S2P Require Import Monad.
From S2P Require Import Riscv.
From S2P Require Import Types.
From S2P Require Import Mem.
From S2P Require Import Spinlock.
From S2P Require Import Kalloc.
From S2P Require Import Vm.
From S2P Require Import Proc.
From S2P Require Import Bio.
From S2P Require Import Log.
From S2P Require Import Fs.
From S2P Require Import File.
From S2P Require Import ProcLife.

Definition ELF_MAGIC : Z := 0x464C457F.
Definition ELF_PROG_LOAD : Z := 1.

Record elfhdr := mkElfhdr { e_magic : Z; e_entry : Z; e_phoff : Z; e_phnum : Z }.
Definition sizeof_elfhdr : Z := 64.
Definition elfhdr_of_bytes (l : list Z) : elfhdr :=
  mkElfhdr (get32 0 l) (get64 24 l) (get64 32 l) (get16 56 l).

Record proghdr := mkProghdr {
  ph_type : Z; ph_off : Z; ph_vaddr : Z; ph_filesz : Z; ph_memsz : Z }.
Definition sizeof_proghdr : Z := 56.
Definition proghdr_of_bytes (l : list Z) : proghdr :=
  mkProghdr (get32 0 l) (get64 8 l) (get64 16 l) (get64 32 l) (get64 40 l).

(** [for(last=s=path; *s; s++) if( *s == '/' ) last = s+1;] *)
Fixpoint last_elem (s last : list Z) : list Z :=
  match s with
  | [] => last
  | c :: s' => last_elem s' (if c =? SLASH then s' else last)
  end.

Section exec.
Context {SY : Symbols} {PF : PteFormat} {DD : DiskDriver}.

Definition loadseg_body (pagetable va : Z) (ip : nat) (offset sz : Z) (i : Z) : K (Z + Z) :=
  if negb (i <? sz) then ret (inr 0) else
  let! pa := walkaddr pagetable (u64 (va + i)) in
  if pa =? 0 then panic "loadseg: address should exist" else
  let n := if sz - i <? PGSIZE then sz - i else PGSIZE in
  let! r := readi ip false pa (u32 (offset + i)) n in
  if u32 r <>? n then ret (inr (-1)) else ret (inl (u32 (i + PGSIZE))).
Definition loadseg (pagetable va : Z) (ip : nat) (offset sz : Z) : K Z :=
  if va mod PGSIZE <>? 0 then panic "loadseg: va must be page aligned" else
  loop (loadseg_body pagetable va ip offset sz) 0.

(** The loop over the program headers, from header [i] at [off]; it ends with
    the size reached and whether to go to [bad]. *)
Definition exec_load_body (pagetable : Z) (ip : nat) (phnum : Z) (x : Z * Z * Z) :
    K (Z * Z * Z + Z * bool) :=
  let '(i, off, sz) := x in
  if negb (i <? phnum) then ret (inr (sz, false)) else
  let! r := readi ip false stk (u32 off) sizeof_proghdr in
  if r <>? sizeof_proghdr then ret (inr (sz, true)) else
  let! m := gets k_mem in
  let ph := proghdr_of_bytes (load_bytes m stk (Z.to_nat sizeof_proghdr)) in
  let next := i32 (off + sizeof_proghdr) in
  if ph_type ph <>? ELF_PROG_LOAD then ret (inl (i + 1, next, sz)) else
  if ph_memsz ph <? ph_filesz ph then ret (inr (sz, true)) else
  if u64 (ph_vaddr ph + ph_memsz ph) <? ph_vaddr ph then ret (inr (sz, true)) else
  let! sz1 := uvmalloc pagetable sz (u64 (ph_vaddr ph + ph_memsz ph)) in
  if sz1 =? 0 then ret (inr (sz, true)) else
  let sz := sz1 in
  if ph_vaddr ph mod PGSIZE <>? 0 then ret (inr (sz, true)) else
  let! r := loadseg pagetable (ph_vaddr ph) ip (u32 (ph_off ph)) (u32 (ph_filesz ph)) in
  if r <? 0 then ret (inr (sz, true)) else ret (inl (i + 1, next, sz)).

(** [for(argc = 0; argv[argc]; argc++)]: the stack pointers pushed so far and [sp];
    [None] to go to [bad].  [argv] is the array of string addresses. *)
Fixpoint exec_args (pagetable stackbase : Z) (argv : list Z) (ustack : list Z) (sp : Z) :
    K (option (list Z * Z)) :=
  match argv with
  | [] => ret (Some (ustack, sp))
  | a :: argv' =>
      if a =? 0 then ret (Some (ustack, sp)) else
      if (MAXARG <=? length ustack)%nat then ret None else
      let! m := gets k_mem in
      match strlen_mem m a with
      | None => nofuel
      | Some len =>
          let sp := u64 (sp - (len + 1)) in
          let sp := sp - sp mod 16 in
          if sp <? stackbase then ret None else
          let! r := copyout pagetable sp (load_bytes m a (Z.to_nat (len + 1))) in
          if r <? 0 then ret None else
          exec_args pagetable stackbase argv' (ustack ++ [sp]) sp
      end
  end.

(** The exit [bad]. *)
Definition exec_bad (pagetable sz : Z) (ip : option nat) : K Z :=
  when (pagetable <>? 0) (proc_freepagetable pagetable sz) ;;;
  (match ip with
   | None => ret ()
   | Some _ => iunlockput ip ;;; end_op
   end) ;;;
  ret (-1).

(** From the allocation of the user stack on. *)
Definition exec_stack (p : nat) (path argv : list Z) (elf : elfhdr) (pagetable sz : Z) : K Z :=
  let! pr := get_proc p in
  let oldsz := p_sz pr in
  let sz := PGROUNDUP sz in
  let! sz1 := uvmalloc pagetable sz (u64 (sz + 2 * PGSIZE)) in
  if sz1 =? 0 then exec_bad pagetable sz None else
  let sz := sz1 in
  uvmclear pagetable (u64 (sz - 2 * PGSIZE)) ;;;
  let sp := sz in
  let stackbase := u64 (sp - PGSIZE) in
  let! r := exec_args pagetable stackbase argv [] sp in
  match r with
  | None => exec_bad pagetable sz None
  | Some (ustack, sp) =>
      let argc := Z.of_nat (length ustack) in
      let ustack := ustack ++ [0] in
      let sp := u64 (sp - (argc + 1) * 8) in
      let sp := sp - sp mod 16 in
      if sp <? stackbase then exec_bad pagetable sz None else
      let! r := copyout pagetable sp (concat (le_split 8 <$> ustack)) in
      if r <? 0 then exec_bad pagetable sz None else
      tf_set p TF_a1 sp ;;;
      upd_proc p (λ pr, set_p_name
        (safestrcpy (p_name pr) (at_list (last_elem path path)) 16) pr) ;;;
      let! pr := get_proc p in
      let oldpagetable := p_pagetable pr in
      upd_proc p (set_p_pagetable pagetable) ;;;
      upd_proc p (set_p_sz sz) ;;;
      tf_set p TF_epc (e_entry elf) ;;;
      tf_set p TF_sp sp ;;;
      proc_freepagetable oldpagetable oldsz ;;;
      ret (i32 argc)
  end.

Definition exec (path argv : list Z) : K Z :=
  let! p := curproc in
  begin_op ;;;
  let! r := namei path in
  match r with
  | None => end_op ;;; ret (-1)
  | Some ip =>
      ilock (Some ip) ;;;
      let! r := readi ip false stk 0 sizeof_elfhdr in
      if r <>? sizeof_elfhdr then exec_bad 0 0 (Some ip) else
      let! m := gets k_mem in
      let elf := elfhdr_of_bytes (load_bytes m stk (Z.to_nat sizeof_elfhdr)) in
      if e_magic elf <>? ELF_MAGIC then exec_bad 0 0 (Some ip) else
      let! pagetable := proc_pagetable p in
      if pagetable =? 0 then exec_bad 0 0 (Some ip) else
      let! (sz, bad) := loop (exec_load_body pagetable ip (e_phnum elf)) (0, i32 (e_phoff elf), 0) in
      if bad then exec_bad pagetable sz (Some ip) else
      iunlockput (Some ip) ;;;
      end_op ;;;
      let! p := curproc in
      exec_stack p path argv elf pagetable sz
  end.
End exec.
