(* ===== verification/Sysfile.v ===== *)
(** * System calls: [kernel/syscall.c], [kernel/sysproc.c] and [kernel/sysfile.c]

    A C string fetched from user space is the list of bytes delivered to the
    kernel buffer.  System calls return the C value; [syscall] stores it as a
    64-bit word. *)

From stdpp Require Import prelude gmap strings list.
From Stdlib Require Import ZArith Lia.
From S2P Require Import Prelude.
From S2P Require Import Monad.
From S2P Require Import Riscv.
From S2P Require Import Types.
From S2P Require Import Mem.
From S2P Require Import Spinlock.
From S2P Require Import Kalloc.
From S2P Require Import Vm.
From S2P Require Import Proc.
From S2P Require Import Printf.
From S2P Require Import Bio.
From S2P Require Import Log.
From S2P Require Import Fs.
From S2P Require Import Pipe.
From S2P Require Import File.
From S2P Require Import ProcLife.
From S2P Require Import Exec.

Section args.
Context {PF : PteFormat}.

(** [None] for -1, else the word stored through [ip] *)
Definition fetchaddr (addr : Z) : K (option Z) :=
  let! p := curproc in
  let! pr := get_proc p in
  if (p_sz pr <=? addr) || (p_sz pr <? u64 (addr + 8)) then ret None else
  let! (l, r) := copyin (p_pagetable pr) addr 8 in
  if r <>? 0 then ret None else ret (Some (le_join l)).

(** The bytes delivered to [buf] and the return value *)
Definition fetchstr (addr max : Z) : K (list Z * Z) :=
  let! p := curproc in
  let! pr := get_proc p in
  let! (l, err) := copyinstr (p_pagetable pr) addr (u64 max) in
  if err <? 0 then ret (l, err) else ret (l, strlen_list l).

Definition argraw (n : Z) : K Z :=
  let! p := curproc in
  if n =? 0 then tf_get p TF_a0
  else if n =? 1 then tf_get p TF_a1
  else if n =? 2 then tf_get p TF_a2
  else if n =? 3 then tf_get p TF_a3
  else if n =? 4 then tf_get p TF_a4
  else if n =? 5 then tf_get p TF_a5
  else panic "argraw".

(** [argint] and [argaddr] always return 0; the result is what they store. *)
Definition argint (n : Z) : K Z := let! x := argraw n in ret (i32 x).
Definition argaddr (n : Z) : K Z := argraw n.
Definition argstr (n max : Z) : K (list Z * Z) :=
  let! addr := argaddr n in
  fetchstr addr max.

(** The string argument of a call that fails when [argstr] does. *)
Definition argpath (n : Z) : K (option (list Z)) :=
  let! (l, r) := argstr n MAXPATH in
  ret (if r <? 0 then None else Some (cstr l)).

(** The descriptor and the file, [None] for -1 *)
Definition argfd (n : Z) : K (option (Z * nat)) :=
  let! fd := argint n in
  if (fd <? 0) || (Z.of_nat NOFILE <=? fd) then ret None else
  let! p := curproc in
  let! pr := get_proc p in
  ret (match nth (Z.to_nat fd) (p_ofile pr) None with
       | None => None
       | Some f => Some (fd, f)
       end).
End args.

Definition fdalloc_body (p f : nat) (fd : nat) : K (option nat) :=
  let! pr := get_proc p in
  match nth fd (p_ofile pr) None with
  | None =>
      upd_proc p (λ pr, set_p_ofile (<[fd := Some f]> (p_ofile pr)) pr) ;;;
      ret (Some fd)
  | Some _ => ret None
  end.
Definition fdalloc (f : nat) : K Z :=
  let! p := curproc in
  let! r := for_ NOFILE 0 (fdalloc_body p f) in
  ret (match r with Some fd => Z.of_nat fd | None => -1 end).

Section syscalls.
Context {SY : Symbols} {PF : PteFormat} {DD : DiskDriver}.

(** ** [sysproc.c] *)

Definition sys_exit : K Z :=
  let! n := argint 0 in
  exit n ;;;
  ret 0.

Definition sys_getpid : K Z :=
  let! p := curproc in
  let! pr := get_proc p in
  ret (p_pid pr).

Definition sys_fork : K Z := fork.

Definition sys_wait : K Z :=
  let! p := argaddr 0 in
  wait p.

Definition sys_sbrk : K Z :=
  let! n := argint 0 in
  let! p := curproc in
  let! pr := get_proc p in
  let addr := i32 (p_sz pr) in
  let! r := growproc n in
  if r <? 0 then ret (-1) else ret addr.

(** [while(ticks - ticks0 < n)]: the comparison is unsigned *)
Definition sys_sleep_body (ticks0 n : Z) (_ : unit) : K (unit + Z) :=
  let! ticks := gets k_ticks in
  if negb (u32 (ticks - ticks0) <? u32 n) then release LTicks ;;; ret (inr 0) else
  let! p := curproc in
  let! pr := get_proc p in
  if p_killed pr <>? 0 then release LTicks ;;; ret (inr (-1)) else
  sleep ChTicks LTicks ;;;
  ret (inl ()).
Definition sys_sleep : K Z :=
  let! n := argint 0 in
  acquire LTicks ;;;
  let! ticks0 := gets k_ticks in
  loop (sys_sleep_body ticks0 n) ().

Definition sys_kill : K Z :=
  let! pid := argint 0 in
  kill pid.

Definition sys_uptime : K Z :=
  acquire LTicks ;;;
  let! xticks := gets k_ticks in
  release LTicks ;;;
  ret xticks.

(** ** [sysfile.c] *)

Definition sys_dup : K Z :=
  let! r := argfd 0 in
  match r with
  | None => ret (-1)
  | Some (_, f) =>
      let! fd := fdalloc f in
      if fd <? 0 then ret (-1) else
      let! _ := filedup f in
      ret fd
  end.

Definition sys_read : K Z :=
  let! r := argfd 0 in
  match r with
  | None => ret (-1)
  | Some (_, f) =>
      let! n := argint 2 in
      let! p := argaddr 1 in
      fileread f p n
  end.

Definition sys_write : K Z :=
  let! r := argfd 0 in
  match r with
  | None => ret (-1)
  | Some (_, f) =>
      let! n := argint 2 in
      let! p := argaddr 1 in
      filewrite f p n
  end.

Definition sys_close : K Z :=
  let! r := argfd 0 in
  match r with
  | None => ret (-1)
  | Some (fd, f) =>
      let! p := curproc in
      upd_proc p (λ pr, set_p_ofile (<[Z.to_nat fd := None]> (p_ofile pr)) pr) ;;;
      fileclose f ;;;
      ret 0
  end.

Definition sys_fstat : K Z :=
  let! r := argfd 0 in
  match r with
  | None => ret (-1)
  | Some (_, f) =>
      let! st := argaddr 1 in
      filestat f st
  end.

Definition name0 : list Z := replicate (Z.to_nat DIRSIZ) 0.

Definition sys_link_bad (ip : nat) : K Z :=
  ilock (Some ip) ;;;
  upd_inode ip (λ ip, set_i_nlink (i16 (i_nlink ip - 1)) ip) ;;;
  iupdate ip ;;;
  iunlockput (Some ip) ;;;
  end_op ;;;
  ret (-1).

Definition sys_link : K Z :=
  let! old := argpath 0 in
  match old with
  | None => ret (-1)
  | Some old =>
    let! new := argpath 1 in
    match new with
    | None => ret (-1)
    | Some new =>
      begin_op ;;;
      let! r := namei old in
      match r with
      | None => end_op ;;; ret (-1)
      | Some ip =>
        ilock (Some ip) ;;;
        let! ino := get_inode ip in
        if i_type ino =? T_DIR then
          iunlockput (Some ip) ;;; end_op ;;; ret (-1)
        else
        upd_inode ip (λ ip, set_i_nlink (i16 (i_nlink ip + 1)) ip) ;;;
        iupdate ip ;;;
        iunlock (Some ip) ;;;
        let! (r, name) := nameiparent new name0 in
        match r with
        | None => sys_link_bad ip
        | Some dp =>
          ilock (Some dp) ;;;
          let! d := get_inode dp in
          let! ino := get_inode ip in
          let! r := (if i_dev d <>? i_dev ino then ret (-1) else dirlink dp name (i_inum ino)) in
          if r <? 0 then
            iunlockput (Some dp) ;;; sys_link_bad ip
          else
            iunlockput (Some dp) ;;;
            iput ip ;;;
            end_op ;;;
            ret 0
        end
      end
    end
  end.

(** [for(off=2*sizeof(de); off<dp->size; off+=sizeof(de))] *)
Definition isdirempty_body (dp : nat) (off : Z) : K (Z + bool) :=
  let! d := get_inode dp in
  if negb (off <? i_size d) then ret (inr true) else
  let! r := readi dp false stk off DIRENT_SIZE in
  if r <>? DIRENT_SIZE then panic "isdirempty: readi" else
  let! m := gets k_mem in
  if de_inum_at m <>? 0 then ret (inr false) else ret (inl (off + DIRENT_SIZE)).
Definition isdirempty (dp : nat) : K bool := loop (isdirempty_body dp) (2 * DIRENT_SIZE).

Definition sys_unlink_bad (dp : nat) : K Z :=
  iunlockput (Some dp) ;;;
  end_op ;;;
  ret (-1).

Definition sys_unlink : K Z :=
  let! path := argpath 0 in
  match path with
  | None => ret (-1)
  | Some path =>
    begin_op ;;;
    let! (r, name) := nameiparent path name0 in
    match r with
    | None => end_op ;;; ret (-1)
    | Some dp =>
      ilock (Some dp) ;;;
      if (namecmp name (bytes_of ".") =? 0) || (namecmp name (bytes_of "..") =? 0)
      then sys_unlink_bad dp else
      let! r := dirlookup dp name in
      match r with
      | None => sys_unlink_bad dp
      | Some (ip, off) =>
        ilock (Some ip) ;;;
        let! ino := get_inode ip in
        if i_nlink ino <? 1 then panic "unlink: nlink < 1" else
        let! full := (if i_type ino =? T_DIR then
                        let! e := isdirempty ip in ret (negb e)
                      else ret false) in
        if full then iunlockput (Some ip) ;;; sys_unlink_bad dp else
        upd_mem (λ m, store_bytes m stk (replicate 16 0)) ;;;
        let! r := writei dp false stk off DIRENT_SIZE in
        if r <>? DIRENT_SIZE then panic "unlink: writei" else
        let! ino := get_inode ip in
        when (i_type ino =? T_DIR)
          (upd_inode dp (λ dp, set_i_nlink (i16 (i_nlink dp - 1)) dp) ;;;
           iupdate dp) ;;;
        iunlockput (Some dp) ;;;
        upd_inode ip (λ ip, set_i_nlink (i16 (i_nlink ip - 1)) ip) ;;;
        iupdate ip ;;;
        iunlockput (Some ip) ;;;
        end_op ;;;
        ret 0
      end
    end
  end.

(** From the allocation of the inode on. *)
Definition create_new (dp : nat) (name : list Z) (type major minor : Z) : K (option nat) :=
  let! d := get_inode dp in
  let! ip := ialloc (i_dev d) type in
  ilock (Some ip) ;;;
  upd_inode ip (set_i_major (i16 major)) ;;;
  upd_inode ip (set_i_minor (i16 minor)) ;;;
  upd_inode ip (set_i_nlink 1) ;;;
  iupdate ip ;;;
  let! ino := get_inode ip in
  when (type =? T_DIR)
    (upd_inode dp (λ dp, set_i_nlink (i16 (i_nlink dp + 1)) dp) ;;;
     iupdate dp ;;;
     let! r := dirlink ip (bytes_of ".") (i_inum ino) in
     if r <? 0 then panic "create dots" else
     let! d := get_inode dp in
     let! r := dirlink ip (bytes_of "..") (i_inum d) in
     if r <? 0 then panic "create dots" else ret ()) ;;;
  let! r := dirlink dp name (i_inum ino) in
  if r <? 0 then panic "create: dirlink" else
  iunlockput (Some dp) ;;;
  ret (Some ip).

Definition create (path : list Z) (type major minor : Z) : K (option nat) :=
  let! (r, name) := nameiparent path name0 in
  match r with
  | None => ret None
  | Some dp =>
    ilock (Some dp) ;;;
    let! r := dirlookup dp name in
    match r with
    | Some (ip, _) =>
        iunlockput (Some dp) ;;;
        ilock (Some ip) ;;;
        let! ino := get_inode ip in
        if (type =? T_FILE) && ((i_type ino =? T_FILE) || (i_type ino =? T_DEVICE))
        then ret (Some ip)
        else iunlockput (Some ip) ;;; ret None
    | None => create_new dp name type major minor
    end
  end.

Definition open_fail (ip : nat) : K Z :=
  iunlockput (Some ip) ;;;
  end_op ;;;
  ret (-1).

(** From the check of the device number on. *)
Definition open_inode (ip : nat) (omode : Z) : K Z :=
  let! ino := get_inode ip in
  if (i_type ino =? T_DEVICE) && ((i_major ino <? 0) || (NDEV <=? i_major ino))
  then open_fail ip else
  let! r := filealloc in
  match r with
  | None => open_fail ip
  | Some f =>
    let! fd := fdalloc f in
    if fd <? 0 then fileclose f ;;; open_fail ip else
    (if i_type ino =? T_DEVICE then
       upd_file f (set_f_type FD_DEVICE) ;;; upd_file f (set_f_major (i_major ino))
     else
       upd_file f (set_f_type FD_INODE) ;;; upd_file f (set_f_off 0)) ;;;
    upd_file f (set_f_ip (Some ip)) ;;;
    upd_file f (set_f_readable (negb (has omode O_WRONLY))) ;;;
    upd_file f (set_f_writable (has omode O_WRONLY || has omode O_RDWR)) ;;;
    when (has omode O_TRUNC && (i_type ino =? T_FILE)) (itrunc ip) ;;;
    iunlock (Some ip) ;;;
    end_op ;;;
    ret fd
  end.

Definition sys_open : K Z :=
  let! path := argpath 0 in
  match path with
  | None => ret (-1)
  | Some path =>
    let! omode := argint 1 in
    begin_op ;;;
    if has omode O_CREATE then
      let! r := create path T_FILE 0 0 in
      match r with
      | None => end_op ;;; ret (-1)
      | Some ip => open_inode ip omode
      end
    else
      let! r := namei path in
      match r with
      | None => end_op ;;; ret (-1)
      | Some ip =>
        ilock (Some ip) ;;;
        let! ino := get_inode ip in
        if (i_type ino =? T_DIR) && (omode <>? O_RDONLY) then open_fail ip
        else open_inode ip omode
      end
  end.

Definition sys_mkdir : K Z :=
  begin_op ;;;
  let! path := argpath 0 in
  let! r := match path with None => ret None | Some path => create path T_DIR 0 0 end in
  match r with
  | None => end_op ;;; ret (-1)
  | Some ip => iunlockput (Some ip) ;;; end_op ;;; ret 0
  end.

Definition sys_mknod : K Z :=
  begin_op ;;;
  let! path := argpath 0 in
  let! r := match path with
            | None => ret None
            | Some path =>
                let! major := argint 1 in
                let! minor := argint 2 in
                create path T_DEVICE (i16 major) (i16 minor)
            end in
  match r with
  | None => end_op ;;; ret (-1)
  | Some ip => iunlockput (Some ip) ;;; end_op ;;; ret 0
  end.

Definition sys_chdir : K Z :=
  let! p := curproc in
  begin_op ;;;
  let! path := argpath 0 in
  let! r := match path with None => ret None | Some path => namei path end in
  match r with
  | None => end_op ;;; ret (-1)
  | Some ip =>
      ilock (Some ip) ;;;
      let! ino := get_inode ip in
      if i_type ino <>? T_DIR then
        iunlockput (Some ip) ;;; end_op ;;; ret (-1)
      else
        iunlock (Some ip) ;;;
        let! pr := get_proc p in
        let! cwd := deref (p_cwd pr) in
        iput cwd ;;;
        end_op ;;;
        upd_proc p (set_p_cwd (Some ip)) ;;;
        ret 0
  end.

(** [for(i = 0; i < NELEM(argv) && argv[i] != 0; i++) kfree(argv[i]);] *)
Fixpoint free_args (argv : list Z) : K unit :=
  match argv with
  | [] => ret ()
  | a :: argv' => if a =? 0 then ret () else kfree a ;;; free_args argv'
  end.

(** [for(i=0;; i++)]: the pages of [argv] filled so far, and whether to go to [bad] *)
Definition fetch_args_body (uargv : Z) (argv : list Z) : K (list Z + list Z * bool) :=
  let i := length argv in
  if (MAXARG <=? i)%nat then ret (inr (argv, true)) else
  let! r := fetchaddr (u64 (uargv + 8 * Z.of_nat i)) in
  match r with
  | None => ret (inr (argv, true))
  | Some uarg =>
      if uarg =? 0 then ret (inr (argv, false)) else
      let! page := kalloc in
      if page =? 0 then ret (inr (argv, true)) else
      let! (l, r) := fetchstr uarg PGSIZE in
      upd_mem (λ m, store_bytes m page l) ;;;
      if r <? 0 then ret (inr (argv ++ [page], true))
      else ret (inl (argv ++ [page]))
  end.

Definition sys_exec : K Z :=
  let! path := argpath 0 in
  match path with
  | None => ret (-1)
  | Some path =>
      let! uargv := argaddr 1 in
      let! (argv, bad) := loop (fetch_args_body uargv) [] in
      if bad then free_args argv ;;; ret (-1) else
      let! r := exec path argv in
      free_args argv ;;;
      ret r
  end.

Definition set_ofile (p : nat) (fd : Z) (f : option nat) : K unit :=
  upd_proc p (λ pr, set_p_ofile (<[Z.to_nat fd := f]> (p_ofile pr)) pr).

Definition sys_pipe : K Z :=
  let! p := curproc in
  let! fdarray := argaddr 0 in
  let! r := pipealloc in
  match r with
  | None => ret (-1)
  | Some (rf, wf) =>
      let! fd0 := fdalloc rf in
      if fd0 <? 0 then fileclose rf ;;; fileclose wf ;;; ret (-1) else
      let! fd1 := fdalloc wf in
      if fd1 <? 0 then
        set_ofile p fd0 None ;;; fileclose rf ;;; fileclose wf ;;; ret (-1)
      else
      let! pr := get_proc p in
      let! r := copyout (p_pagetable pr) fdarray (le_split 4 fd0) in
      let! r := (if r <? 0 then ret r
                 else copyout (p_pagetable pr) (u64 (fdarray + 4)) (le_split 4 fd1)) in
      if r <? 0 then
        set_ofile p fd0 None ;;;
        set_ofile p fd1 None ;;;
        fileclose rf ;;;
        fileclose wf ;;;
        ret (-1)
      else ret 0
  end.

(** ** [syscall.c] *)

(** The table [syscalls], with the numbers of [syscall.h] *)
Definition syscalls : list (option (K Z)) :=
  [None; Some sys_fork; Some sys_exit; Some sys_wait; Some sys_pipe; Some sys_read;
   Some sys_kill; Some sys_exec; Some sys_fstat; Some sys_chdir; Some sys_dup; Some sys_getpid;
   Some sys_sbrk; Some sys_sleep; Some sys_uptime; Some sys_open; Some sys_write;
   Some sys_mknod; Some sys_unlink; Some sys_link; Some sys_mkdir; Some sys_close].

Definition syscall : K unit :=
  let! p := curproc in
  let! a7 := tf_get p TF_a7 in
  let num := i32 a7 in
  match (if (0 <? num) && (num <? Z.of_nat (length syscalls))
         then nth (Z.to_nat num) syscalls None else None) with
  | Some f =>
      let! r := f in
      tf_set p TF_a0 r
  | None =>
      let! pr := get_proc p in
      printf (Some (bytes_of "%d %s: unknown sys call %d" ++ [10]))
        [PNum (p_pid pr); PStr (Some (cstr (p_name pr))); PNum num] ;;;
      tf_set p TF_a0 (-1)
  end.
End syscalls.
