(* ===== verification/Trap.v ===== *)
(** * Traps, interrupts and boot: [kernel/trap.c], [kernel/plic.c],
      [kernel/start.c], [kernel/main.c], and [forkret] of [kernel/proc.c]

    Jumping to user space ends a kernel path: [usertrapret] returns the [satp]
    value it passes to the trampoline. *)

From stdpp Require Import prelude gmap strings list.
From Stdlib Require Import ZArith Lia.
From S2P Require Import Prelude.
From S2P Require Import Monad.
From S2P Require Import Riscv.
From S2P Require Import Types.
From S2P Require Import Mem.
From S2P Require Import Spinlock.
From S2P Require Import Kalloc.
From S2P Require Import Vm.
From S2P Require Import Proc.
From S2P Require Import Uart.
From S2P Require Import Printf.
From S2P Require Import Console.
From S2P Require Import Virtio.
From S2P Require Import Bio.
From S2P Require Import Log.
From S2P Require Import Fs.
From S2P Require Import File.
From S2P Require Import ProcLife.
From S2P Require Import Sysfile.

Definition the_hart (s : kstate) : hart := cs_hart (k_lk s).

(** ** [plic.c] *)

Definition plicinit : K unit :=
  io_write (PLIC + UART0_IRQ * 4) 1 ;;;
  io_write (PLIC + VIRTIO0_IRQ * 4) 1.

Definition plicinithart : K unit :=
  let! hart := cpuid in
  io_write (PLIC_SENABLE (Z.of_nat hart)) (Z.lor (Z.shiftl 1 UART0_IRQ) (Z.shiftl 1 VIRTIO0_IRQ)) ;;;
  io_write (PLIC_SPRIORITY (Z.of_nat hart)) 0.

(** The PLIC hands out the interrupts of the environment's list, then 0. *)
Definition plic_claim : K Z :=
  let! l := gets (λ s, io_claims (k_io s)) in
  match l with
  | [] => ret 0
  | irq :: l' => upd_io (set_io_claims l') ;;; ret (i32 irq)
  end.

Definition plic_complete (irq : Z) : K unit :=
  let! hart := cpuid in
  io_write (PLIC_SCLAIM (Z.of_nat hart)) (u32 irq).

Section trap.
Context {SY : Symbols} {PF : PteFormat} {DD : DiskDriver}.

(** ** [trap.c] *)

Definition trapinit : K unit := initlock LTicks "time".

Definition trapinithart : K unit := upd_lk (upd_hart (w_stvec kernelvec)).

Definition clockintr : K unit :=
  acquire LTicks ;;;
  modify (λ s, set_k_ticks (u32 (k_ticks s + 1)) s) ;;;
  wakeup ChTicks ;;;
  release LTicks.

Definition devintr : K Z :=
  let! scause := gets (λ s, r_scause (the_hart s)) in
  if (Z.land scause 0x8000000000000000 <>? 0) && (Z.land scause 0xff =? 9) then
    let! irq := plic_claim in
    (if irq =? UART0_IRQ then uartintr
     else if irq =? VIRTIO0_IRQ then virtio_disk_intr
     else if irq <>? 0 then
       printf (Some (bytes_of "unexpected interrupt irq=%d" ++ [10])) [PNum irq]
     else ret ()) ;;;
    when (irq <>? 0) (plic_complete irq) ;;;
    ret 1
  else if scause =? 0x8000000000000001 then
    let! id := cpuid in
    when (id =? 0)%nat clockintr ;;;
    upd_lk (upd_hart (λ h, w_sip (Z.land (r_sip h) (lnot64 2)) h)) ;;;
    ret 2
  else ret 0.

Definition usertrapret : K Z :=
  let! p := curproc in
  upd_lk (upd_hart intr_off) ;;;
  upd_lk (upd_hart (w_stvec (u64 (TRAMPOLINE + (uservec - trampoline))))) ;;;
  let! satp := gets (λ s, r_satp (the_hart s)) in
  tf_set p TF_kernel_satp satp ;;;
  let! pr := get_proc p in
  tf_set p TF_kernel_sp (p_kstack pr + PGSIZE) ;;;
  tf_set p TF_kernel_trap usertrap_addr ;;;
  let! tp := gets (λ s, r_tp (the_hart s)) in
  tf_set p TF_kernel_hartid tp ;;;
  upd_lk (upd_hart (λ h,
    w_sstatus (Z.lor (Z.land (r_sstatus h) (lnot64 SSTATUS_SPP)) SSTATUS_SPIE) h)) ;;;
  let! epc := tf_get p TF_epc in
  upd_lk (upd_hart (w_sepc epc)) ;;;
  let! pr := get_proc p in
  ret (MAKE_SATP (p_pagetable pr)).

Definition usertrap : K Z :=
  let! sstatus := gets (λ s, r_sstatus (the_hart s)) in
  if has sstatus SSTATUS_SPP then panic "usertrap: not from user mode" else
  upd_lk (upd_hart (w_stvec kernelvec)) ;;;
  let! p := curproc in
  let! sepc := gets (λ s, r_sepc (the_hart s)) in
  tf_set p TF_epc sepc ;;;
  let! scause := gets (λ s, r_scause (the_hart s)) in
  let! which_dev := (
    if scause =? 8 then
      let! pr := get_proc p in
      when (p_killed pr <>? 0) (exit (-1)) ;;;
      let! epc := tf_get p TF_epc in
      tf_set p TF_epc (epc + 4) ;;;
      upd_lk (upd_hart intr_on) ;;;
      syscall ;;;
      ret 0
    else
      let! which_dev := devintr in
      when (which_dev =? 0)
        (let! pr := get_proc p in
         let! h := gets the_hart in
         printf (Some (bytes_of "usertrap(): unexpected scause %p pid=%d" ++ [10]))
           [PNum (r_scause h); PNum (p_pid pr)] ;;;
         printf (Some (bytes_of "            sepc=%p stval=%p" ++ [10]))
           [PNum (r_sepc h); PNum (r_stval h)] ;;;
         upd_proc p (set_p_killed 1)) ;;;
      ret which_dev) in
  let! pr := get_proc p in
  when (p_killed pr <>? 0) (exit (-1)) ;;;
  when (which_dev =? 2) yield ;;;
  usertrapret.

Definition kerneltrap : K unit :=
  let! h := gets the_hart in
  let sepc := r_sepc h in
  let sstatus := r_sstatus h in
  let scause := r_scause h in
  if negb (has sstatus SSTATUS_SPP) then panic "kerneltrap: not from supervisor mode" else
  if intr_get h then panic "kerneltrap: interrupts enabled" else
  let! which_dev := devintr in
  if which_dev =? 0 then
    printf (Some (bytes_of "scause %p" ++ [10])) [PNum scause] ;;;
    let! h := gets the_hart in
    printf (Some (bytes_of "sepc=%p stval=%p" ++ [10])) [PNum (r_sepc h); PNum (r_stval h)] ;;;
    panic "kerneltrap"
  else
  (if which_dev =? 2 then
     let! p := myproc in
     match p with
     | None => ret ()
     | Some _ =>
         let! p := curproc in
         let! pr := get_proc p in
         when (bool_decide (p_state pr = RUNNING)) yield
     end
   else ret ()) ;;;
  upd_lk (upd_hart (w_sepc sepc)) ;;;
  upd_lk (upd_hart (w_sstatus sstatus)).

Definition forkret : K Z :=
  let! p := curproc in
  release (LProc p) ;;;
  let! first := gets k_first in
  when first
    (modify (set_k_first false) ;;;
     fsinit ROOTDEV) ;;;
  usertrapret.

(** ** [start.c] *)

Definition timerinit : K unit :=
  let! h := gets the_hart in
  let id := i32 (r_mhartid h) in
  let interval := 1000000 in
  let! mtime := gets (λ s, default 0 (io_regs (k_io s) !! CLINT_MTIME)) in
  io_write (CLINT_MTIMECMP id) (u64 (mtime + interval)) ;;;
  let scratch := mscratch0 + 8 * (32 * id) in
  st64 (scratch + 8 * 4) (CLINT_MTIMECMP id) ;;;
  st64 (scratch + 8 * 5) interval ;;;
  upd_lk (upd_hart (w_mscratch scratch)) ;;;
  upd_lk (upd_hart (w_mtvec timervec)) ;;;
  upd_lk (upd_hart (λ h, w_mstatus (Z.lor (r_mstatus h) MSTATUS_MIE) h)) ;;;
  upd_lk (upd_hart (λ h, w_mie (Z.lor (r_mie h) MIE_MTIE) h)).

(** [mret] then continues in [main], in supervisor mode. *)
Definition start : K unit :=
  upd_lk (upd_hart (λ h,
    w_mstatus (Z.lor (Z.land (r_mstatus h) (lnot64 MSTATUS_MPP_MASK)) MSTATUS_MPP_S) h)) ;;;
  upd_lk (upd_hart (w_mepc main_addr)) ;;;
  upd_lk (upd_hart (w_satp 0)) ;;;
  upd_lk (upd_hart (w_medeleg 0xffff)) ;;;
  upd_lk (upd_hart (w_mideleg 0xffff)) ;;;
  upd_lk (upd_hart (λ h,
    w_sie (Z.lor (Z.lor (Z.lor (r_sie h) SIE_SEIE) SIE_STIE) SIE_SSIE) h)) ;;;
  timerinit ;;;
  upd_lk (upd_hart (λ h, w_tp (i32 (r_mhartid h)) h)).

(** ** [main.c], up to the call of [scheduler] *)

Definition wait_started (_ : unit) : K (unit + unit) :=
  let! started := gets k_started in
  if started then ret (inr ()) else spin.

Definition main_init : K unit :=
  let! id := cpuid in
  if (id =? 0)%nat then
    consoleinit ;;;
    printfinit ;;;
    printf (Some [10]) [] ;;;
    printf (Some (bytes_of "xv6 kernel is booting" ++ [10])) [] ;;;
    printf (Some [10]) [] ;;;
    kinit ;;;
    kvminit ;;;
    kvminithart ;;;
    procinit ;;;
    trapinit ;;;
    trapinithart ;;;
    plicinit ;;;
    plicinithart ;;;
    binit ;;;
    iinit ;;;
    fileinit ;;;
    virtio_disk_init ;;;
    userinit ;;;
    modify (set_k_started true)
  else
    loop wait_started () ;;;
    printf (Some (bytes_of "hart %d starting" ++ [10])) [PNum (Z.of_nat id)] ;;;
    kvminithart ;;;
    trapinithart ;;;
    plicinithart.

Definition main (start_thread : thread) (turns : nat) : K (gmap Z thread) :=
  main_init ;;;
  scheduler start_thread turns.
End trap.
