(* ===== verification/Asm.v ===== *)
(** * The assembly code: [kernel/entry.S], [kernel/swtch.S], [kernel/trampoline.S],
      [kernel/kernelvec.S], [user/initcode.S], and the stubs [user/usys.pl] generates

    An instruction acts on the 32 registers, the control and status registers of
    the hart ([hart] of [Riscv.v]) and byte memory.  In machine mode addresses are physical;
    otherwise they go through [xlate], the translation the hardware makes under
    the page table that [satp] selects.  A doubleword access must be aligned.
    Instruction fetch is not modelled: the code is the list of instructions, in order. *)

From stdpp Require Import prelude gmap strings list.
From Stdlib Require Import ZArith Lia.
From S2P Require Import Prelude.
From S2P Require Import Riscv.
From S2P Require Import Types.
From S2P Require Import Mem.

(** ** The machine *)

Inductive reg :=
| zero | ra | sp | gp | tp | t0 | t1 | t2 | s0 | s1
| a0 | a1 | a2 | a3 | a4 | a5 | a6 | a7
| s2 | s3 | s4 | s5 | s6 | s7 | s8 | s9 | s10 | s11
| t3 | t4 | t5 | t6.

Inductive csr := satp | sscratch | mscratch | sip | mhartid.

Inductive priv := User | Supervisor | Machine.

#[export] Instance reg_eq_dec : EqDecision reg.
Proof. solve_decision. Defined.

Inductive instr :=
| sd (rs : reg) (off : Z) (base : reg)      (** [sd rs, off(base)] *)
| ld (rd : reg) (off : Z) (base : reg)      (** [ld rd, off(base)] *)
| addi (rd rs : reg) (imm : Z)
| add (rd rs1 rs2 : reg)
| mul (rd rs1 rs2 : reg)
| li (rd : reg) (imm : Z)
| la (rd : reg) (sym : Z)                   (** the address of a symbol *)
| csrr (rd : reg) (c : csr)
| csrw (c : csr) (rs : reg)
| csrrw (rd : reg) (c : csr) (rs : reg)
| sfence_vma (rs1 rs2 : reg)
| jr (rs : reg)
| ret
| call (f : string)
| j_self                                    (** [spin: j spin] *)
| ecall
| sret
| mret.

Record machine := mkMachine {
  m_x : reg → Z;
  m_hart : hart;
  m_mem : gmap Z Z;
  m_priv : priv
}.

Definition set_m_x (v : reg → Z) (m : machine) : machine := mkMachine v (m_hart m) (m_mem m) (m_priv m).
Definition set_m_hart (v : hart) (m : machine) : machine := mkMachine (m_x m) v (m_mem m) (m_priv m).
Definition set_m_mem (v : gmap Z Z) (m : machine) : machine := mkMachine (m_x m) (m_hart m) v (m_priv m).
Definition set_m_priv (v : priv) (m : machine) : machine := mkMachine (m_x m) (m_hart m) (m_mem m) v.

(** Register [zero] reads as 0 and ignores writes. *)
Definition get_x (f : reg → Z) (r : reg) : Z := if decide (r = zero) then 0 else f r.
Definition put_x (r : reg) (v : Z) (f : reg → Z) : reg → Z := λ q, if decide (q = r) then v else f q.
Definition x (r : reg) (m : machine) : Z := get_x (m_x m) r.
Definition set_x (r : reg) (v : Z) (m : machine) : machine := set_m_x (put_x r v (m_x m)) m.

Definition csr_get (c : csr) (h : hart) : Z :=
  match c with
  | satp => r_satp h | sscratch => r_sscratch h | mscratch => r_mscratch h | sip => r_sip h | mhartid => r_mhartid h
  end.
Definition csr_set (c : csr) (v : Z) (h : hart) : hart :=
  match c with
  | satp => w_satp v h | sscratch => w_sscratch v h | mscratch => w_mscratch v h | sip => w_sip v h | mhartid => h
  end.

(** How a piece of code goes on. *)
Inductive outcome :=
| Next (m : machine)                (** with the next instruction *)
| Goto (pc : Z) (m : machine)       (** at an address *)
| Gone (f : string) (m : machine)   (** in a C function that does not return here *)
| Spinning                          (** in the same place, for ever *)
| Ecall (m : machine)               (** in the kernel, by a system call *)
| Stuck.                            (** an access that is not mapped or not aligned *)

Definition SSTATUS_SPP_bit : Z := 8.
Definition SPIE_bit : Z := 5.
Definition SIE_bit : Z := 1.
Definition set_bit (i : Z) (b : bool) (v : Z) : Z := if b then Z.lor v (2 ^ i) else Z.land v (lnot64 (2 ^ i)).

(** [sret]: to [sepc], in the mode of SPP, with the interrupt enable of SPIE. *)
Definition do_sret (m : machine) : outcome :=
  let h := m_hart m in
  let st := r_sstatus h in
  let st' := set_bit SSTATUS_SPP_bit false (set_bit SPIE_bit true (set_bit SIE_bit (Z.testbit st SPIE_bit) st)) in
  Goto (r_sepc h) (set_m_priv (if Z.testbit st SSTATUS_SPP_bit then Supervisor else User) (set_m_hart (w_sstatus st' h) m)).

(** [mret]: to [mepc], in the mode of MPP (bits 12 and 11), with the interrupt enable of MPIE. *)
Definition do_mret (m : machine) : outcome :=
  let h := m_hart m in
  let st := r_mstatus h in
  let pr := match Z.land (Z.shiftr st 11) 3 with 0 => User | 1 => Supervisor | _ => Machine end in
  let st' := set_bit 12 false (set_bit 11 false (set_bit 7 true (set_bit 3 (Z.testbit st 7) st))) in
  Goto (r_mepc h) (set_m_priv pr (set_m_hart (w_mstatus st' h) m)).

(** ** Execution *)

Section exec.
Context (xlate : Z → Z → option Z).             (** of a value of [satp] and a virtual address *)
Context (ext : string → machine → option machine).  (** the C functions that are called *)

Definition addr (va : Z) (m : machine) : option Z :=
  if va mod 8 =? 0 then
    match m_priv m with Machine => Some va | _ => xlate (r_satp (m_hart m)) va end
  else None.

Definition step_instr (i : instr) (m : machine) : outcome :=
  match i with
  | sd rs off base =>
      match addr (u64 (x base m + off)) m with
      | Some pa => Next (set_m_mem (store64 (m_mem m) pa (x rs m)) m)
      | None => Stuck
      end
  | ld rd off base =>
      match addr (u64 (x base m + off)) m with
      | Some pa => Next (set_x rd (load64 (m_mem m) pa) m)
      | None => Stuck
      end
  | addi rd rs imm => Next (set_x rd (u64 (x rs m + imm)) m)
  | add rd r1 r2 => Next (set_x rd (u64 (x r1 m + x r2 m)) m)
  | mul rd r1 r2 => Next (set_x rd (u64 (x r1 m * x r2 m)) m)
  | li rd imm => Next (set_x rd (u64 imm) m)
  | la rd sym => Next (set_x rd (u64 sym) m)
  | csrr rd c => Next (set_x rd (csr_get c (m_hart m)) m)
  | csrw c rs => Next (set_m_hart (csr_set c (x rs m) (m_hart m)) m)
  | csrrw rd c rs =>
      Next (set_x rd (csr_get c (m_hart m)) (set_m_hart (csr_set c (x rs m) (m_hart m)) m))
  | sfence_vma _ _ => Next m
  | jr rs => Goto (x rs m) m
  | ret => Goto (x ra m) m
  | call f => match ext f m with Some m' => Next m' | None => Gone f m end
  | j_self => Spinning
  | ecall => Ecall m
  | sret => do_sret m
  | mret => do_mret m
  end.

Fixpoint exec (code : list instr) (m : machine) : outcome :=
  match code with
  | [] => Next m
  | i :: c => match step_instr i m with Next m' => exec c m' | o => o end
  end.
End exec.

(** ** The code *)

Section code.
Context (stack0 : Z).   (** the address of [stack0] of [start.c] *)

(** [_entry] and [spin] *)
Definition entry : list instr :=
  [ la sp stack0; li a0 (1024*4); csrr a1 mhartid; addi a1 a1 1; mul a0 a0 a1; add sp sp a0;
    call "start"; j_self ].
End code.

(** [swtch(old, new)] *)
Definition swtch : list instr :=
  [ sd ra 0 a0; sd sp 8 a0; sd s0 16 a0; sd s1 24 a0; sd s2 32 a0; sd s3 40 a0; sd s4 48 a0;
    sd s5 56 a0; sd s6 64 a0; sd s7 72 a0; sd s8 80 a0; sd s9 88 a0; sd s10 96 a0;
    sd s11 104 a0; ld ra 0 a1; ld sp 8 a1; ld s0 16 a1; ld s1 24 a1; ld s2 32 a1;
    ld s3 40 a1; ld s4 48 a1; ld s5 56 a1; ld s6 64 a1; ld s7 72 a1; ld s8 80 a1;
    ld s9 88 a1; ld s10 96 a1; ld s11 104 a1; ret ].

(** Traps from user space start here. *)
Definition uservec : list instr :=
  [ csrrw a0 sscratch a0; sd ra 40 a0; sd sp 48 a0; sd gp 56 a0; sd tp 64 a0; sd t0 72 a0;
    sd t1 80 a0; sd t2 88 a0; sd s0 96 a0; sd s1 104 a0; sd a1 120 a0; sd a2 128 a0;
    sd a3 136 a0; sd a4 144 a0; sd a5 152 a0; sd a6 160 a0; sd a7 168 a0; sd s2 176 a0;
    sd s3 184 a0; sd s4 192 a0; sd s5 200 a0; sd s6 208 a0; sd s7 216 a0; sd s8 224 a0;
    sd s9 232 a0; sd s10 240 a0; sd s11 248 a0; sd t3 256 a0; sd t4 264 a0; sd t5 272 a0;
    sd t6 280 a0; csrr t0 sscratch; sd t0 112 a0; ld sp 8 a0; ld tp 32 a0; ld t0 16 a0;
    ld t1 0 a0; csrw satp t1; sfence_vma zero zero; jr t0 ].

(** [userret(TRAPFRAME, pagetable)] *)
Definition userret : list instr :=
  [ csrw satp a1; sfence_vma zero zero; ld t0 112 a0; csrw sscratch t0; ld ra 40 a0;
    ld sp 48 a0; ld gp 56 a0; ld tp 64 a0; ld t0 72 a0; ld t1 80 a0; ld t2 88 a0;
    ld s0 96 a0; ld s1 104 a0; ld a1 120 a0; ld a2 128 a0; ld a3 136 a0; ld a4 144 a0;
    ld a5 152 a0; ld a6 160 a0; ld a7 168 a0; ld s2 176 a0; ld s3 184 a0; ld s4 192 a0;
    ld s5 200 a0; ld s6 208 a0; ld s7 216 a0; ld s8 224 a0; ld s9 232 a0; ld s10 240 a0;
    ld s11 248 a0; ld t3 256 a0; ld t4 264 a0; ld t5 272 a0; ld t6 280 a0;
    csrrw a0 sscratch a0; sret ].

(** Interrupts and exceptions in supervisor mode. *)
Definition kernelvec : list instr :=
  [ addi sp sp (-256); sd ra 0 sp; sd sp 8 sp; sd gp 16 sp; sd tp 24 sp; sd t0 32 sp;
    sd t1 40 sp; sd t2 48 sp; sd s0 56 sp; sd s1 64 sp; sd a0 72 sp; sd a1 80 sp;
    sd a2 88 sp; sd a3 96 sp; sd a4 104 sp; sd a5 112 sp; sd a6 120 sp; sd a7 128 sp;
    sd s2 136 sp; sd s3 144 sp; sd s4 152 sp; sd s5 160 sp; sd s6 168 sp; sd s7 176 sp;
    sd s8 184 sp; sd s9 192 sp; sd s10 200 sp; sd s11 208 sp; sd t3 216 sp; sd t4 224 sp;
    sd t5 232 sp; sd t6 240 sp; call "kerneltrap"; ld ra 0 sp; ld sp 8 sp; ld gp 16 sp;
    ld t0 32 sp; ld t1 40 sp; ld t2 48 sp; ld s0 56 sp; ld s1 64 sp; ld a0 72 sp;
    ld a1 80 sp; ld a2 88 sp; ld a3 96 sp; ld a4 104 sp; ld a5 112 sp; ld a6 120 sp;
    ld a7 128 sp; ld s2 136 sp; ld s3 144 sp; ld s4 152 sp; ld s5 160 sp; ld s6 168 sp;
    ld s7 176 sp; ld s8 184 sp; ld s9 192 sp; ld s10 200 sp; ld s11 208 sp; ld t3 216 sp;
    ld t4 224 sp; ld t5 232 sp; ld t6 240 sp; addi sp sp 256; sret ].

(** The machine-mode timer interrupt. *)
Definition timervec : list instr :=
  [ csrrw a0 mscratch a0; sd a1 0 a0; sd a2 8 a0; sd a3 16 a0; ld a1 32 a0; ld a2 40 a0;
    ld a3 0 a1; add a3 a3 a2; sd a3 0 a1; li a1 2; csrw sip a1; ld a3 16 a0; ld a2 8 a0;
    ld a1 0 a0; csrrw a0 mscratch a0; mret ].


(** The registers of [struct context] and of [struct trapframe] of [proc.h], with their
    offsets. *)
Definition context_slots : list (reg * Z) :=
  [ (ra, 0); (sp, 8); (s0, 16); (s1, 24); (s2, 32); (s3, 40); (s4, 48); (s5, 56); (s6, 64); (s7, 72);
    (s8, 80); (s9, 88); (s10, 96); (s11, 104) ].
Definition trapframe_slots : list (reg * Z) :=
  [ (ra, TF_ra); (sp, TF_sp); (gp, 56); (tp, 64); (t0, 72); (t1, 80); (t2, 88); (s0, 96); (s1, 104); (a0, TF_a0);
    (a1, TF_a1); (a2, TF_a2); (a3, TF_a3); (a4, TF_a4); (a5, TF_a5); (a6, 160); (a7, TF_a7);
    (s2, 176); (s3, 184); (s4, 192); (s5, 200); (s6, 208); (s7, 216); (s8, 224); (s9, 232);
    (s10, 240); (s11, 248); (t3, 256); (t4, 264); (t5, 272); (t6, 280) ].

(** ** Saving and restoring registers *)

Definition saves (b : reg) (l : list (reg * Z)) : list instr := (λ q, sd q.1 q.2 b) <$> l.
Definition loads (b : reg) (l : list (reg * Z)) : list instr := (λ q, ld q.1 q.2 b) <$> l.

(** The doublewords at [pa + o] become the registers; the registers become the doublewords. *)
Definition stored (f : reg → Z) (pa : Z) (l : list (reg * Z)) (m : gmap Z Z) : gmap Z Z :=
  foldl (λ m q, store64 m (pa + q.2) (get_x f q.1)) m l.
Definition loaded (m : gmap Z Z) (pa : Z) (l : list (reg * Z)) (f : reg → Z) : reg → Z :=
  foldl (λ f q, put_x q.1 (load64 m (pa + q.2)) f) f l.

(** Slots that are different doublewords of a frame of [n] bytes. *)
Definition slots_ok (n : Z) (l : list (reg * Z)) : bool :=
  bool_decide (NoDup l.*1) && bool_decide (NoDup l.*2) &&
  forallb (λ q, (0 <=? q.2) && (q.2 + 8 <=? n) && (q.2 mod 8 =? 0)) l.

Definition words (f : reg → Z) : Prop := ∀ r, 0 ≤ f r < 2 ^ 64.

Section slots.
Context (n : Z) (l : list (reg * Z)) (Hok : slots_ok n l = true).

Lemma slots_nodup : NoDup l.*1 ∧ NoDup l.*2.
Proof using Hok. unfold slots_ok in Hok. apply andb_prop in Hok as [[?%bool_decide_eq_true ?%bool_decide_eq_true]%andb_prop _]. done. Qed.

Lemma slots_in r o : (r, o) ∈ l → 0 ≤ o ∧ o + 8 ≤ n ∧ o mod 8 = 0.
Proof using Hok.
  intros H. unfold slots_ok in Hok. apply andb_prop in Hok as [_ Hf]. rewrite forallb_forall in Hf.
  specialize (Hf (r, o) (proj1 (list_elem_of_In _ _) H)). simpl in Hf. lia.
Qed.
End slots.

Lemma slots_cons n q l : slots_ok n (q :: l) = true → slots_ok n l = true.
Proof.
  unfold slots_ok. rewrite !fmap_cons, !andb_true_iff, !bool_decide_eq_true, !NoDup_cons. simpl. rewrite andb_true_iff. tauto.
Qed.

Lemma rd_stored f pa l m a :
  (∀ q, q ∈ l → ¬ (pa + q.2 ≤ a < pa + q.2 + 8)) → rd (stored f pa l m) a = rd m a.
Proof.
  revert m. induction l as [|q l IH]; intros m H; [done|]. simpl. rewrite IH by (intros q' Hq'; apply H; by right).
  apply rd_store64_ne. apply H. by left.
Qed.

Lemma load_stored_out f pa l m a :
  (∀ q, q ∈ l → a + 8 ≤ pa + q.2 ∨ pa + q.2 + 8 ≤ a) → load64 (stored f pa l m) a = load64 m a.
Proof. intros H. apply load64_ext. intros b Hb. apply rd_stored. intros q Hq. specialize (H q Hq). lia. Qed.

Lemma load_stored n f pa l m r o :
  slots_ok n l = true → words f → (r, o) ∈ l → load64 (stored f pa l m) (pa + o) = get_x f r.
Proof.
  intros Hok Hw. revert m Hok. induction l as [|[q o'] l IH]; intros m Hok Hin; [by apply not_elem_of_nil in Hin|].
  pose proof (slots_cons _ _ _ Hok) as Hok'. simpl. apply elem_of_cons in Hin as [[= -> ->]|Hin]; [|by apply IH].
  rewrite load_stored_out.
  - rewrite load64_store64; [done|]. unfold get_x. case_decide; [lia|apply Hw].
  - intros [r2 o2] H2. pose proof (slots_in n _ Hok q o' ltac:(by left)) as (_ & _ & M1).
    pose proof (slots_in n _ Hok' r2 o2 H2) as (_ & _ & M2). simpl.
    assert (o2 ≠ o'); [|mlia]. intros ->. destruct (slots_nodup n _ Hok) as [_ Hd]. apply NoDup_cons in Hd as [Hd _].
    apply Hd. apply list_elem_of_fmap. by exists (r2, o').
Qed.

Lemma stored_ok f pa l m : mem_ok m → mem_ok (stored f pa l m).
Proof. revert m. induction l as [|q l IH]; intros m H; [done|]. apply IH. by apply store64_ok. Qed.

Lemma loaded_out m pa l f r : r ∉ l.*1 → loaded m pa l f r = f r.
Proof.
  revert f. induction l as [|q l IH]; intros f H; [done|]. simpl. rewrite fmap_cons, not_elem_of_cons in H.
  rewrite IH by apply H. unfold put_x. by rewrite decide_False by apply H.
Qed.

Lemma loaded_in n m pa l f r o : slots_ok n l = true → (r, o) ∈ l → loaded m pa l f r = load64 m (pa + o).
Proof.
  revert f. induction l as [|[q o'] l IH]; intros f Hok Hin; [by apply not_elem_of_nil in Hin|].
  pose proof (slots_cons _ _ _ Hok) as Hok'. simpl. apply elem_of_cons in Hin as [[= -> ->]|Hin]; [|by apply IH].
  rewrite loaded_out.
  - unfold put_x. by rewrite decide_True.
  - destruct (slots_nodup n _ Hok) as [Hd _]. by apply NoDup_cons in Hd as [Hd _].
Qed.

Lemma loaded_words m pa l f : mem_ok m → words f → words (loaded m pa l f).
Proof.
  intros Hm. revert f. induction l as [|q l IH]; intros f H; [done|]. apply IH. intros r. unfold put_x.
  case_decide; [by apply load64_range|apply H].
Qed.

Section theorems.
Context (xlate : Z → Z → option Z) (ext : string → machine → option machine).
Notation run := (exec xlate ext).

(** Register [b] holds the address of a frame of [n] bytes, which is at [pa] in memory. *)
Definition frame_at (m : machine) (b : reg) (pa n : Z) : Prop :=
  ∀ o, 0 ≤ o → o + 8 ≤ n → o mod 8 = 0 → addr xlate (u64 (x b m + o)) m = Some (pa + o).

Lemma frame_at_ext m m' b pa n :
  x b m' = x b m → r_satp (m_hart m') = r_satp (m_hart m) → m_priv m' = m_priv m → frame_at m b pa n → frame_at m' b pa n.
Proof. intros E1 E2 E3 H o H1 H2 H3. unfold addr. rewrite E1, E2, E3. by apply H. Qed.

Lemma run_cons i c m m' : step_instr xlate ext i m = Next m' → run (i :: c) m = run c m'.
Proof. intros E. simpl. by rewrite E. Qed.

Lemma step_sd m b pa n r o : frame_at m b pa n → 0 ≤ o → o + 8 ≤ n → o mod 8 = 0 →
  step_instr xlate ext (sd r o b) m = Next (set_m_mem (store64 (m_mem m) (pa + o) (x r m)) m).
Proof. intros Hf H1 H2 H3. simpl. by rewrite Hf. Qed.

Lemma step_ld m b pa n r o : frame_at m b pa n → 0 ≤ o → o + 8 ≤ n → o mod 8 = 0 →
  step_instr xlate ext (ld r o b) m = Next (set_x r (load64 (m_mem m) (pa + o)) m).
Proof. intros Hf H1 H2 H3. simpl. by rewrite Hf. Qed.

Lemma x_set_x r v m q : x q (set_x r v m) = if decide (q = zero) then 0 else if decide (q = r) then v else x q m.
Proof. unfold x, get_x, set_x, put_x, set_m_x. simpl. by repeat case_decide. Qed.

Lemma run_saves n b pa l c m : slots_ok n l = true → frame_at m b pa n →
  run (saves b l ++ c) m = run c (set_m_mem (stored (m_x m) pa l (m_mem m)) m).
Proof.
  revert m. induction l as [|[r o] l IH]; intros m Hok Hf; [by destruct m|].
  destruct (slots_in n _ Hok r o ltac:(by left)) as (H1 & H2 & H3).
  unfold saves. rewrite fmap_cons. rewrite <- app_comm_cons.
  erewrite run_cons by (by apply (step_sd m b pa n)). fold (saves b l). rewrite IH; [done|by eapply slots_cons|].
  by apply (frame_at_ext m).
Qed.

Lemma run_loads n b pa l c m : slots_ok n l = true → frame_at m b pa n → b ∉ l.*1 →
  run (loads b l ++ c) m = run c (set_m_x (loaded (m_mem m) pa l (m_x m)) m).
Proof.
  revert m. induction l as [|[r o] l IH]; intros m Hok Hf Hb; [by destruct m|].
  rewrite fmap_cons, not_elem_of_cons in Hb. destruct (slots_in n _ Hok r o ltac:(by left)) as (H1 & H2 & H3).
  unfold loads. rewrite fmap_cons. rewrite <- app_comm_cons.
  erewrite run_cons by (by apply (step_ld m b pa n)). fold (loads b l). rewrite IH; [done|by eapply slots_cons| |apply Hb].
  apply (frame_at_ext m); [|done..]. rewrite x_set_x. rewrite (decide_False (P := b = r)) by apply Hb.
  unfold x, get_x. by repeat case_decide.
Qed.

(** *** Widths *)

Definition word (v : Z) : Prop := 0 ≤ v < 2 ^ 64.

Record hart_ok (h : hart) : Prop := mkhart_ok {
  ho_satp : word (r_satp h); ho_sscratch : word (r_sscratch h); ho_mscratch : word (r_mscratch h);
  ho_sip : word (r_sip h); ho_mhartid : word (r_mhartid h); ho_sepc : word (r_sepc h); ho_mepc : word (r_mepc h);
  ho_sstatus : word (r_sstatus h); ho_mstatus : word (r_mstatus h)
}.

Record machine_ok (m : machine) : Prop := mkmachine_ok {
  mo_x : words (m_x m);
  mo_hart : hart_ok (m_hart m);
  mo_mem : mem_ok (m_mem m)
}.

Lemma x_word m r : machine_ok m → word (x r m).
Proof. intros H. unfold x, get_x. case_decide; [unfold word; lia|apply H]. Qed.

Lemma u64_word v : word (u64 v).
Proof. apply Z.mod_pos_bound. lia. Qed.

Lemma bits_word v : (∀ i, 64 ≤ i → Z.testbit v i = false) → word v.
Proof.
  intros H. replace v with (u64 v); [apply u64_word|]. apply Z.bits_inj'. intros i Hi. unfold u64.
  destruct (Z.ltb_spec i 64) as [Hl|Hl]; [by rewrite Z.mod_pow2_bits_low|]. by rewrite Z.mod_pow2_bits_high, H by lia.
Qed.

Lemma set_bit_word i b v : 0 ≤ i < 64 → word v → word (set_bit i b v).
Proof.
  intros Hi Hv. assert (Hh : ∀ j, 64 ≤ j → Z.testbit v j = false) by (intros j Hj; by apply (testbit_bound v 64)).
  apply bits_word. intros j Hj. unfold set_bit. destruct b.
  - rewrite Z.lor_spec, Hh, Z.pow2_bits_false by lia. done.
  - by rewrite Z.land_spec, Hh.
Qed.

Lemma set_x_ok r v m : word v → machine_ok m → machine_ok (set_x r v m).
Proof. intros Hv [H1 H2 H3]. split; [|done..]. intros q. cbn. unfold put_x. case_decide; [done|apply H1]. Qed.

Lemma csr_get_word c h : hart_ok h → word (csr_get c h).
Proof. intros []. by destruct c. Qed.

Lemma csr_set_ok c v h : word v → hart_ok h → hart_ok (csr_set c v h).
Proof. intros Hv []. destruct c; by split. Qed.

#[local] Hint Resolve x_word u64_word set_bit_word set_x_ok csr_get_word csr_set_ok : asm.

(** How an outcome is well-formed. *)
Definition outcome_ok (o : outcome) : Prop :=
  match o with
  | Next m | Gone _ m | Ecall m => machine_ok m
  | Goto pc m => word pc ∧ machine_ok m
  | Spinning | Stuck => True
  end.

Lemma step_ok i m : (∀ f m m', machine_ok m → ext f m = Some m' → machine_ok m') → machine_ok m → outcome_ok (step_instr xlate ext i m).
Proof.
  intros He Hm. pose proof Hm as [H1 H2 H3]. destruct i; cbn [step_instr outcome_ok]; eauto with asm.
  - destruct (addr _ _ _); [|done]. split; [done|done|by apply store64_ok].
  - destruct (addr _ _ _); [|done]. apply set_x_ok; [by apply load64_range|done].
  - split; [done|apply csr_set_ok; eauto with asm|done].
  - apply set_x_ok; [by eauto with asm|]. split; [done|apply csr_set_ok; eauto with asm|done].
  - destruct (ext _ _) as [m'|] eqn:E; [by eapply He|done].
  - destruct H2. split; [done|]. split; [done| |done]. split; try done. repeat apply set_bit_word; (done || (vm_compute; split; congruence)).
  - destruct H2. split; [done|]. split; [done| |done]. split; try done. repeat apply set_bit_word; (done || (vm_compute; split; congruence)).
Qed.


(** *** [swtch] *)

Lemma swtch_eq m old new : frame_at m a0 old 112 → frame_at m a1 new 112 →
  let mem := stored (m_x m) old context_slots (m_mem m) in
  let f := loaded mem new context_slots (m_x m) in
  run swtch m = Goto (f ra) (set_m_x f (set_m_mem mem m)).
Proof.
  intros H0 H1 mem f. change swtch with (saves a0 context_slots ++ loads a1 context_slots ++ [ret]).
  rewrite (run_saves 112 _ old) by done. fold mem.
  rewrite (run_loads 112 _ new); [done|done|by apply (frame_at_ext m)|].
  intros H. repeat (apply elem_of_cons in H as [H|H]; [discriminate|]). by apply not_elem_of_nil in H.
Qed.
Lemma words_x f r : words f → 0 ≤ get_x f r < 2 ^ 64.
Proof. intros H. unfold get_x. case_decide; [lia|apply H]. Qed.

(** C7. A context switch.  [swtch(old, new)] with two disjoint contexts continues at the
    return address saved in [new], with the stack pointer and the twelve callee-saved registers saved
    there; it stores its caller's return address, stack pointer and callee-saved registers
    in [old], writes no other byte, and changes no other register.
    When some later [swtch] anywhere, on any hart, is given [old] to load, unchanged since, it
    continues where the first call returns to, with the registers its caller had. *)
Theorem swtch_resumes m old new :
  words (m_x m) → frame_at m a0 old 112 → frame_at m a1 new 112 → old + 112 ≤ new ∨ new + 112 ≤ old →
  ∃ m', run swtch m = Goto (load64 (m_mem m) (new + 0)) m' ∧
    (∀ r o, (r, o) ∈ context_slots → x r m' = load64 (m_mem m) (new + o) ∧ load64 (m_mem m') (old + o) = x r m) ∧
    (∀ r, r ∉ context_slots.*1 → x r m' = x r m) ∧
    (∀ a, ¬ (old ≤ a < old + 112) → rd (m_mem m') a = rd (m_mem m) a) ∧
    (∀ m2 other, frame_at m2 a0 other 112 → frame_at m2 a1 old 112 → other + 112 ≤ old ∨ old + 112 ≤ other →
       (∀ a, old ≤ a < old + 112 → rd (m_mem m2) a = rd (m_mem m') a) →
       ∃ m3, run swtch m2 = Goto (x ra m) m3 ∧ ∀ r o, (r, o) ∈ context_slots → x r m3 = x r m).
Proof.
  intros Hw H0 H1 Hd. assert (Hok : slots_ok 112 context_slots = true) by done.
  assert (Hnz : ∀ r o, (r, o) ∈ context_slots → r ≠ zero).
  { intros r o Hin ->. repeat (apply elem_of_cons in Hin as [Hin|Hin]; [discriminate|]). by apply not_elem_of_nil in Hin. }
  assert (Hload : ∀ (m : machine) a b r o, a + 112 ≤ b ∨ b + 112 ≤ a → (r, o) ∈ context_slots →
    loaded (stored (m_x m) a context_slots (m_mem m)) b context_slots (m_x m) r = load64 (m_mem m) (b + o)).
  { intros n a b r o Hab Hin. rewrite (loaded_in 112 _ _ _ _ r o) by done. apply load_stored_out.
    intros [q o'] Hq. pose proof (slots_in 112 _ Hok _ _ Hin). pose proof (slots_in 112 _ Hok _ _ Hq). simpl. lia. }
  assert (Hra : (ra, 0) ∈ context_slots) by (by left).
  eexists. split; [rewrite (swtch_eq m old new) by done; by rewrite (Hload m old new ra 0)|]. split_and!.
  - intros r o Hin. split; [|by apply (load_stored 112)]. unfold x, get_x. cbn [m_x set_m_x].
    rewrite decide_False by (by eapply Hnz). by apply Hload.
  - intros r Hr. unfold x, get_x. cbn [m_x set_m_x set_m_mem]. by rewrite loaded_out.
  - intros a Ha. cbn [m_mem set_m_mem set_m_x]. apply rd_stored. intros [q o] Hq. pose proof (slots_in 112 _ Hok _ _ Hq). simpl. lia.
  - intros m2 other G0 G1 Gd Gm.
    assert (Hback : ∀ r o, (r, o) ∈ context_slots → load64 (m_mem m2) (old + o) = x r m).
    { intros r o Hin. pose proof (slots_in 112 _ Hok _ _ Hin). rewrite (load64_ext _ _ (old + o) (λ b Hb, Gm b ltac:(lia))).
      cbn [m_mem set_m_mem set_m_x]. by apply (load_stored 112). }
    eexists. split; [rewrite (swtch_eq m2 other old) by done; by rewrite (Hload m2 other old ra 0), (Hback ra 0)|].
    intros r o Hin. unfold x at 1, get_x. cbn [m_x set_m_x]. rewrite decide_False by (by eapply Hnz).
    rewrite (Hload m2 other old r o) by done. by apply Hback.
Qed.

(** *** [uservec] and [userret] *)

(** The registers that [uservec] saves from itself and [userret] restores into itself: all but a0. *)
Definition user_slots : list (reg * Z) := filter (λ q, q.1 ≠ a0) trapframe_slots.

(** The page of the trapframe is mapped at [TRAPFRAME] in the page table that [pt] selects, and is at
    [tf] in memory. *)
Definition trapframe_mapped (pt tf : Z) : Prop :=
  ∀ o, 0 ≤ o → o + 8 ≤ PGSIZE → o mod 8 = 0 → xlate pt (TRAPFRAME + o) = Some (tf + o).

Lemma trapframe_frame m b tf :
  trapframe_mapped (r_satp (m_hart m)) tf → m_priv m = Supervisor → x b m = TRAPFRAME → frame_at m b tf 288.
Proof.
  intros Ht Hp Hb o H1 H2 H3. unfold addr. rewrite Hb, Hp.
  assert (E : u64 (TRAPFRAME + o) = TRAPFRAME + o) by (apply Z.mod_small; consts; lia). rewrite E.
  rewrite (proj2 (Z.eqb_eq _ 0)); [apply Ht; [done|consts; lia|done]|]. consts. mlia.
Qed.

Lemma user_slots_nz r o : (r, o) ∈ user_slots → r ≠ zero ∧ r ≠ a0.
Proof. intros Hin. repeat (apply elem_of_cons in Hin as [[= -> ->]|Hin]; [done|]). by apply not_elem_of_nil in Hin. Qed.

Lemma user_slots_a0 : a0 ∉ user_slots.*1.
Proof. intros [[r o] [E Hin]]%list_elem_of_fmap. destruct (user_slots_nz _ _ Hin). by simplify_eq/=. Qed.

Lemma trapframe_slots_split r o : (r, o) ∈ trapframe_slots → (r = a0 ∧ o = TF_a0) ∨ (r, o) ∈ user_slots.
Proof.
  intros Hin. destruct (decide (r = a0)) as [->|Hr].
  - left. split; [done|]. repeat (apply elem_of_cons in Hin as [Hin|Hin]; [by simplify_eq|]). by apply not_elem_of_nil in Hin.
  - right. by apply list_elem_of_filter.
Qed.

(** The machine after the registers of the user have been saved. *)
Definition user_saved (m : machine) (tf : Z) : gmap Z Z :=
  store64 (stored (m_x m) tf user_slots (m_mem m)) (tf + TF_a0) (x a0 m).

Lemma uservec_eq m tf :
  trapframe_mapped (r_satp (m_hart m)) tf → m_priv m = Supervisor → r_sscratch (m_hart m) = TRAPFRAME →
  let mem := user_saved m tf in
  ∃ m', run uservec m = Goto (load64 mem (tf + TF_kernel_trap)) m' ∧ m_mem m' = mem ∧
    x sp m' = load64 mem (tf + TF_kernel_sp) ∧ x tp m' = load64 mem (tf + TF_kernel_hartid) ∧
    r_satp (m_hart m') = load64 mem (tf + TF_kernel_satp) ∧ m_priv m' = Supervisor ∧ r_sepc (m_hart m') = r_sepc (m_hart m) ∧
    r_sstatus (m_hart m') = r_sstatus (m_hart m) ∧ r_scause (m_hart m') = r_scause (m_hart m).
Proof.
  intros Ht Hp Hs mem.
  set (m1 := set_x a0 TRAPFRAME (set_m_hart (w_sscratch (x a0 m) (m_hart m)) m)).
  assert (E1 : step_instr xlate ext (csrrw a0 sscratch a0) m = Next m1) by (simpl; by rewrite Hs).
  assert (F1 : frame_at m1 a0 tf 288) by (by apply trapframe_frame).
  assert (Est : stored (m_x m1) tf user_slots (m_mem m1) = stored (m_x m) tf user_slots (m_mem m)).
  { unfold stored. cbn [m_mem m1 set_x set_m_x set_m_hart]. generalize (m_mem m).
    assert (Hnz : ∀ q, q ∈ user_slots → get_x (m_x m1) q.1 = get_x (m_x m) q.1).
    { intros [r o] Hq. unfold get_x, m1, set_x, put_x. cbn [m_x set_m_x]. destruct (user_slots_nz r o Hq). by rewrite (decide_False (P := r = a0)). }
    revert Hnz. generalize user_slots. intros l. induction l as [|q l IH]; intros Hl g; [done|]. simpl.
    rewrite Hl by (by left). apply IH. intros q' Hq'. apply Hl. by right. }
  set (m2 := set_m_mem (stored (m_x m) tf user_slots (m_mem m)) m1).
  set (m3 := set_m_mem mem (set_x t0 (x a0 m) m2)).
  change uservec with (csrrw a0 sscratch a0 :: saves a0 user_slots ++
    [csrr t0 sscratch; sd t0 112 a0; ld sp 8 a0; ld tp 32 a0; ld t0 16 a0; ld t1 0 a0; csrw satp t1; sfence_vma zero zero; jr t0]).
  rewrite (run_cons _ _ _ _ E1), (run_saves 288 _ tf), Est by done. fold m2.
  rewrite (run_cons (csrr t0 sscratch) _ _ (set_x t0 (x a0 m) m2)) by done.
  assert (F2 : frame_at (set_x t0 (x a0 m) m2) a0 tf 288) by (by apply (frame_at_ext m1)).
  rewrite (run_cons _ _ _ m3); [|rewrite (step_sd _ _ tf 288) by (try done; lia); unfold m3, mem, user_saved; do 2 f_equal; by rewrite x_set_x].
  assert (F3 : frame_at m3 a0 tf 288) by (by apply (frame_at_ext m1)).
  erewrite run_cons; [|apply (step_ld _ _ tf 288); [exact F3|lia..|done]].
  erewrite run_cons; [|apply (step_ld _ _ tf 288); [by apply (frame_at_ext m3)|lia..|done]].
  erewrite run_cons; [|apply (step_ld _ _ tf 288); [by apply (frame_at_ext m3)|lia..|done]].
  erewrite run_cons; [|apply (step_ld _ _ tf 288); [by apply (frame_at_ext m3)|lia..|done]].
  eexists. split; [reflexivity|]. done.
Qed.

(** What [userret] leaves, when it is called with the address of the trapframe and the user's page table. *)
Lemma userret_eq m tf :
  trapframe_mapped (x a1 m) tf → m_priv m = Supervisor → x a0 m = TRAPFRAME → Z.testbit (r_sstatus (m_hart m)) SSTATUS_SPP_bit = false →
  ∃ m', run userret m = Goto (r_sepc (m_hart m)) m' ∧ m_mem m' = m_mem m ∧ m_priv m' = User ∧
    r_satp (m_hart m') = x a1 m ∧ r_sscratch (m_hart m') = TRAPFRAME ∧
    ∀ r o, (r, o) ∈ trapframe_slots → x r m' = load64 (m_mem m) (tf + o).
Proof.
  intros Ht Hp H0 Hspp.
  set (m1 := set_m_hart (w_satp (x a1 m) (m_hart m)) m).
  assert (F1 : frame_at m1 a0 tf 288) by (by apply trapframe_frame).
  set (v := load64 (m_mem m) (tf + 112)).
  set (m2 := set_m_hart (w_sscratch v (m_hart m1)) (set_x t0 v m1)).
  change userret with (csrw satp a1 :: sfence_vma zero zero :: ld t0 112 a0 :: csrw sscratch t0 ::
    loads a0 user_slots ++ [csrrw a0 sscratch a0; sret]).
  rewrite (run_cons _ _ m m1), (run_cons _ _ m1 m1) by done.
  rewrite (run_cons _ _ m1 (set_x t0 v m1)) by (by rewrite (step_ld _ _ tf 288) by (try done; lia)).
  rewrite (run_cons _ _ _ m2) by done.
  rewrite (run_loads 288 _ tf); [|done|by apply (frame_at_ext m1)|apply user_slots_a0].
  set (f := loaded (m_mem m2) tf user_slots (m_x m2)).
  assert (Ef0 : x a0 (set_m_x f m2) = TRAPFRAME).
  { unfold x, get_x. cbn [m_x set_m_x]. unfold f. by rewrite loaded_out by apply user_slots_a0. }
  eexists. split; [reflexivity|]. split_and!; try done.
  - change ((if Z.testbit (r_sstatus (m_hart m)) SSTATUS_SPP_bit then Supervisor else User) = User). by rewrite Hspp.
  - intros r o [[-> ->]|Hin]%trapframe_slots_split; [done|]. destruct (user_slots_nz _ _ Hin) as [Hz Ha].
    unfold x, get_x. rewrite decide_False by done.
    change (put_x a0 (csr_get sscratch (m_hart (set_m_x f m2))) f r = load64 (m_mem m) (tf + o)).
    unfold put_x. rewrite decide_False by done. by apply (loaded_in 288).
Qed.

Lemma user_slots_range r o : (r, o) ∈ user_slots → TF_ra ≤ o ∧ o + 8 ≤ TF_SIZE ∧ (o + 8 ≤ TF_a0 ∨ TF_a0 + 8 ≤ o).
Proof.
  intros Hq. repeat (apply elem_of_cons in Hq as [[= -> ->]|Hq]; [unfold TF_ra, TF_SIZE, TF_a0, TF_sp, TF_a1, TF_a2, TF_a3, TF_a4, TF_a5, TF_a7; lia|]).
  by apply not_elem_of_nil in Hq.
Qed.

(** What [uservec] leaves. *)
Lemma uservec_ok m tf :
  words (m_x m) → trapframe_mapped (r_satp (m_hart m)) tf → m_priv m = Supervisor → r_sscratch (m_hart m) = TRAPFRAME →
  ∃ m1, run uservec m = Goto (load64 (m_mem m) (tf + TF_kernel_trap)) m1 ∧
    x sp m1 = load64 (m_mem m) (tf + TF_kernel_sp) ∧ x tp m1 = load64 (m_mem m) (tf + TF_kernel_hartid) ∧
    r_satp (m_hart m1) = load64 (m_mem m) (tf + TF_kernel_satp) ∧ m_priv m1 = Supervisor ∧
    (∀ r o, (r, o) ∈ trapframe_slots → load64 (m_mem m1) (tf + o) = x r m) ∧
    (∀ a, ¬ (tf + TF_ra ≤ a < tf + TF_SIZE) → rd (m_mem m1) a = rd (m_mem m) a) ∧
    r_sepc (m_hart m1) = r_sepc (m_hart m) ∧ r_sstatus (m_hart m1) = r_sstatus (m_hart m) ∧ r_scause (m_hart m1) = r_scause (m_hart m).
Proof.
  intros Hw Ht Hp Hs. destruct (uservec_eq m tf Ht Hp Hs) as (m1 & E & Em & Esp & Etp & Esatp & Ep & Epc & Est & Ec).
  pose proof user_slots_range as Hin.
  assert (Hout : ∀ a, ¬ (tf + TF_ra ≤ a < tf + TF_SIZE) → rd (m_mem m1) a = rd (m_mem m) a).
  { intros a Ha. rewrite Em. unfold user_saved. rewrite rd_store64_ne by (unfold TF_ra, TF_SIZE, TF_a0 in *; lia).
    apply rd_stored. intros [r o] Hq. specialize (Hin r o Hq). simpl. lia. }
  assert (Hker : ∀ o, o + 8 ≤ TF_ra → load64 (user_saved m tf) (tf + o) = load64 (m_mem m) (tf + o)).
  { intros o Ho. rewrite <- Em. apply load64_ext. intros b Hb. apply Hout. lia. }
  rewrite !Hker in * by (vm_compute; congruence).
  assert (Hsv : ∀ r o, (r, o) ∈ trapframe_slots → load64 (m_mem m1) (tf + o) = x r m).
  { intros r o [[-> ->]|Hq]%trapframe_slots_split; rewrite Em; unfold user_saved.
    - rewrite load64_store64; [done|by apply words_x].
    - rewrite load64_store64_ne by (specialize (Hin r o Hq); lia). by apply (load_stored 288). }
  by exists m1.
Qed.

(** C6. A trap from user space and the return from it.  [uservec], entered with the
    user's page table and registers, saves all 31 registers in the fields of the process's trapframe that [proc.h]
    gives them, changes no other byte of memory, and continues at [kernel_trap], on the
    kernel stack, with the hart number in tp and the kernel's page table, all taken from the
    trapframe.  [userret], called with TRAPFRAME and the same page
    table, changes no memory and continues in user mode at [sepc] with every register loaded
    from its field, the user's page table in force and sscratch set for the next trap; so a register whose field the
    kernel does not write is what it was at the trap. *)
Theorem trap_roundtrip m tf :
  words (m_x m) → trapframe_mapped (r_satp (m_hart m)) tf → m_priv m = Supervisor → r_sscratch (m_hart m) = TRAPFRAME →
  ∃ m1, run uservec m = Goto (load64 (m_mem m) (tf + TF_kernel_trap)) m1 ∧
    x sp m1 = load64 (m_mem m) (tf + TF_kernel_sp) ∧ x tp m1 = load64 (m_mem m) (tf + TF_kernel_hartid) ∧
    r_satp (m_hart m1) = load64 (m_mem m) (tf + TF_kernel_satp) ∧ m_priv m1 = Supervisor ∧
    (∀ r o, (r, o) ∈ trapframe_slots → load64 (m_mem m1) (tf + o) = x r m) ∧
    (∀ a, ¬ (tf + TF_ra ≤ a < tf + TF_SIZE) → rd (m_mem m1) a = rd (m_mem m) a) ∧
    ∀ m2, x a0 m2 = TRAPFRAME → x a1 m2 = r_satp (m_hart m) → m_priv m2 = Supervisor →
      Z.testbit (r_sstatus (m_hart m2)) SSTATUS_SPP_bit = false →
      ∃ m3, run userret m2 = Goto (r_sepc (m_hart m2)) m3 ∧ m_mem m3 = m_mem m2 ∧ m_priv m3 = User ∧
        r_satp (m_hart m3) = r_satp (m_hart m) ∧ r_sscratch (m_hart m3) = TRAPFRAME ∧
        ∀ r o, (r, o) ∈ trapframe_slots →
          x r m3 = load64 (m_mem m2) (tf + o) ∧
          ((∀ a, tf + o ≤ a < tf + o + 8 → rd (m_mem m2) a = rd (m_mem m1) a) → x r m3 = x r m).
Proof.
  intros Hw Ht Hp Hs. destruct (uservec_ok m tf Hw Ht Hp Hs) as (m1 & E & Esp & Etp & Esatp & Ep & Hsv & Hout & _).
  exists m1. split_and!; try done. intros m2 G0 G1 Gp Gs. rewrite <- G1 in Ht.
  destruct (userret_eq m2 tf Ht Gp G0 Gs) as (m3 & E3 & Em3 & Ep3 & Es3 & Ec3 & Hx). exists m3. split_and!; try done; [congruence|].
  intros r o Hq. split; [by apply Hx|]. intros Ha. rewrite (Hx r o Hq), <- (Hsv r o Hq). by apply load64_ext.
Qed.

(** *** [kernelvec] *)

Definition kernel_slots : list (reg * Z) :=
  [ (ra, 0); (sp, 8); (gp, 16); (tp, 24); (t0, 32); (t1, 40); (t2, 48); (s0, 56); (s1, 64); (a0, 72); (a1, 80); (a2, 88);
    (a3, 96); (a4, 104); (a5, 112); (a6, 120); (a7, 128); (s2, 136); (s3, 144); (s4, 152); (s5, 160); (s6, 168); (s7, 176);
    (s8, 184); (s9, 192); (s10, 200); (s11, 208); (t3, 216); (t4, 224); (t5, 232); (t6, 240) ].

(** The registers restored after the stack pointer. *)
Definition kernel_rest : list (reg * Z) := filter (λ q, q.1 ≠ ra ∧ q.1 ≠ sp ∧ q.1 ≠ tp) kernel_slots.

Lemma kernel_rest_in r : r ≠ zero → r ≠ ra → r ≠ sp → r ≠ tp → ∃ o, (r, o) ∈ kernel_rest.
Proof.
  intros Hz Hra Hsp Htp. assert (Hin : r ∈ kernel_slots.*1) by (destruct r; try done; by repeat constructor).
  apply list_elem_of_fmap in Hin as ([q o] & -> & Hin). exists o. by apply list_elem_of_filter.
Qed.

(** The stack below the stack pointer, 256 bytes, is mapped, and is at [pa] in memory. *)
Definition stack_mapped (m : machine) (pa : Z) : Prop :=
  256 ≤ x sp m ∧ x sp m < 2 ^ 64 ∧ x sp m mod 8 = 0 ∧ m_priv m = Supervisor ∧
  ∀ o, 0 ≤ o → o + 8 ≤ 256 → o mod 8 = 0 → xlate (r_satp (m_hart m)) (x sp m - 256 + o) = Some (pa + o).

Lemma stack_frame m m' pa : stack_mapped m pa → x sp m' = x sp m - 256 → r_satp (m_hart m') = r_satp (m_hart m) →
  m_priv m' = Supervisor → frame_at m' sp pa 256.
Proof.
  intros (H1 & H2 & H3 & Hp & Hm) E Es Ep o G1 G2 G3. unfold addr. rewrite E, Es, Ep.
  assert (Eu : u64 (x sp m - 256 + o) = x sp m - 256 + o) by (apply Z.mod_small; lia). rewrite Eu.
  rewrite (proj2 (Z.eqb_eq _ 0)) by mlia. by apply Hm.
Qed.

(** The machine when [kerneltrap] is called. *)
Definition in_trap (m : machine) (pa : Z) : machine :=
  let m1 := set_x sp (u64 (x sp m - 256)) m in
  set_m_mem (stored (m_x m1) pa kernel_slots (m_mem m)) m1.

Lemma in_trap_sp m pa : stack_mapped m pa → x sp (in_trap m pa) = x sp m - 256.
Proof. intros (H1 & H2 & _). transitivity (u64 (x sp m - 256)); [done|]. apply Z.mod_small. lia. Qed.

Lemma kernelvec_call m pa c : stack_mapped m pa →
  run (addi sp sp (-256) :: saves sp kernel_slots ++ c) m = run c (in_trap m pa).
Proof.
  intros Hm. set (m1 := set_x sp (u64 (x sp m - 256)) m).
  rewrite (run_cons _ _ m m1) by done. rewrite (run_saves 256 _ pa); [done|done|].
  apply (stack_frame m); [done|by apply (in_trap_sp m pa)|done|apply Hm].
Qed.

Lemma in_trap_saved m pa r o : words (m_x m) → stack_mapped m pa → (r, o) ∈ kernel_slots →
  load64 (m_mem (in_trap m pa)) (pa + o) = if decide (r = sp) then x sp m - 256 else x r m.
Proof.
  intros Hw Hm Hin. unfold in_trap. cbn [m_mem set_m_mem]. rewrite (load_stored 256 _ _ _ _ r o); [|done| |done].
  - change (get_x (m_x (set_x sp (u64 (x sp m - 256)) m)) r) with (x r (set_x sp (u64 (x sp m - 256)) m)). rewrite x_set_x.
    case_decide as Hz; [subst; done|]. case_decide; [|done]. apply Z.mod_small. destruct Hm as (H1 & H2 & _). lia.
  - intros q. cbn [m_x set_x set_m_x]. unfold put_x. case_decide; [apply Z.mod_pos_bound; lia|apply Hw].
Qed.

(** What the code after the call does, when the frame is as it was saved. *)
Lemma kernelvec_return m pa m2 : words (m_x m) → stack_mapped m pa →
  x sp m2 = x sp m - 256 → r_satp (m_hart m2) = r_satp (m_hart m) → m_priv m2 = Supervisor →
  (∀ a, pa ≤ a < pa + 256 → rd (m_mem m2) a = rd (m_mem (in_trap m pa)) a) →
  ∃ m3, run (ld ra 0 sp :: ld sp 8 sp :: loads sp kernel_rest ++ [addi sp sp 256; sret]) m2 = do_sret m3 ∧
    m_mem m3 = m_mem m2 ∧ m_hart m3 = m_hart m2 ∧ m_priv m3 = Supervisor ∧
    (∀ r, r ≠ tp → x r m3 = x r m) ∧ x tp m3 = x tp m2.
Proof.
  intros Hw Hm Esp Es Ep Hfr.
  assert (Hsv : ∀ r o, (r, o) ∈ kernel_slots → load64 (m_mem m2) (pa + o) = if decide (r = sp) then x sp m - 256 else x r m).
  { intros r o Hin. pose proof (slots_in 256 kernel_slots eq_refl _ _ Hin). rewrite <- (in_trap_saved m pa r o) by done.
    apply load64_ext. intros b Hb. apply Hfr. lia. }
  assert (F2 : frame_at m2 sp pa 256) by (by apply (stack_frame m)).
  set (m4 := set_x ra (x ra m) m2). set (m5 := set_x sp (x sp m - 256) m4).
  rewrite (run_cons _ _ _ m4); [|rewrite (step_ld _ _ pa 256) by (try done; lia); by rewrite (Hsv ra 0) by (by left)].
  assert (F4 : frame_at m4 sp pa 256) by (by apply (frame_at_ext m2)).
  rewrite (run_cons _ _ _ m5); [|rewrite (step_ld _ _ pa 256) by (try done; lia); cbn [m4 set_x set_m_x m_mem]; rewrite (Hsv sp 8); [done|right; by left]].
  rewrite (run_loads 256 _ pa); [|done|by apply (frame_at_ext m2)|].
  2: { intros [[r o] [E Hin]]%list_elem_of_fmap. apply list_elem_of_filter in Hin as [(_ & Hsp & _) _]. by apply Hsp. }
  set (f := loaded (m_mem m5) pa kernel_rest (m_x m5)).
  assert (Hout : ∀ r, r ∉ kernel_rest.*1 → f r = m_x m5 r) by (intros r Hr; unfold f; by rewrite loaded_out).
  assert (Hno : ∀ r, r = ra ∨ r = sp ∨ r = tp → r ∉ kernel_rest.*1).
  { intros r Hr [[q o] [E Hin]]%list_elem_of_fmap. apply list_elem_of_filter in Hin as [(H1 & H2 & H3) _]. simpl in *. subst q. tauto. }
  eexists. split; [reflexivity|]. split_and!; try done.
  - intros r Hr. rewrite x_set_x. case_decide as Hz; [subst; done|]. case_decide as Hsp.
    + subst. change (u64 (f sp + 256) = x sp m). rewrite Hout by auto. change (m_x m5 sp) with (x sp m - 256).
      destruct Hm as (H1 & H2 & _). rewrite Z.sub_add. apply Z.mod_small. lia.
    + unfold x at 1, get_x. rewrite decide_False by done. cbn [m_x set_m_x]. destruct (decide (r = ra)) as [->|Hra].
      { rewrite Hout by auto. done. }
      destruct (kernel_rest_in r Hz Hra Hsp Hr) as [o Hin]. unfold f. rewrite (loaded_in 256 _ _ _ _ r o) by done.
      apply list_elem_of_filter in Hin as [_ Hin]. cbn [m5 m4 set_x set_m_x m_mem]. rewrite (Hsv r o Hin). by rewrite decide_False.
Qed.

(** C21. A trap in the kernel is invisible to the code it interrupts.  [kernelvec] calls
    [kerneltrap] with the interrupted registers saved in 256 bytes below the stack pointer.  Whatever
    [kerneltrap] does to the registers and to memory, if it returns as a C function does, with the
    stack pointer it was given and without writing to its caller's frame, then [kernelvec]
    returns to [sepc] in the mode and with the interrupt enable that sstatus says, and every register but tp is
    what it was; tp stays what [kerneltrap] leaves, the number of the hart it now runs on. *)
Theorem kernelvec_transparent m pa m2 :
  words (m_x m) → stack_mapped m pa → ext "kerneltrap" (in_trap m pa) = Some m2 →
  x sp m2 = x sp (in_trap m pa) → r_satp (m_hart m2) = r_satp (m_hart m) → m_priv m2 = Supervisor →
  (∀ a, pa ≤ a < pa + 256 → rd (m_mem m2) a = rd (m_mem (in_trap m pa)) a) →
  ∃ m3, run kernelvec m = do_sret m3 ∧ m_mem m3 = m_mem m2 ∧ m_hart m3 = m_hart m2 ∧ m_priv m3 = Supervisor ∧
    (∀ r, r ≠ tp → x r m3 = x r m) ∧ x tp m3 = x tp m2 ∧
    (∀ r, r ≠ sp → x r (in_trap m pa) = x r m) ∧
    (∀ a, ¬ (pa ≤ a < pa + 256) → rd (m_mem (in_trap m pa)) a = rd (m_mem m) a).
Proof.
  intros Hw Hm Hx Esp Es Ep Hfr. rewrite in_trap_sp in Esp by done.
  destruct (kernelvec_return m pa m2 Hw Hm Esp Es Ep Hfr) as (m3 & E & H1 & H2 & H3 & H4 & H5).
  exists m3. split_and!; try done.
  - change kernelvec with (addi sp sp (-256) :: saves sp kernel_slots ++
      call "kerneltrap" :: ld ra 0 sp :: ld sp 8 sp :: loads sp kernel_rest ++ [addi sp sp 256; sret]).
    rewrite (kernelvec_call m pa) by done. rewrite <- E. apply run_cons. simpl. by rewrite Hx.
  - intros r Hr. change (x r (in_trap m pa)) with (x r (set_x sp (u64 (x sp m - 256)) m)). rewrite x_set_x.
    rewrite (decide_False (P := r = sp)) by done. unfold x, get_x. by repeat case_decide.
  - intros a Ha. apply rd_stored. intros [r o] Hin. pose proof (slots_in 256 kernel_slots eq_refl _ _ Hin). simpl. lia.
Qed.

(** *** [timervec] and [_entry] *)

Lemma physical_frame m b n : m_priv m = Machine → 0 ≤ x b m → x b m + n ≤ 2 ^ 64 → x b m mod 8 = 0 → frame_at m b (x b m) n.
Proof.
  intros Hp H1 H2 H3 o G1 G2 G3. unfold addr. rewrite Hp.
  assert (E : u64 (x b m + o) = x b m + o) by (apply Z.mod_small; lia). rewrite E. by rewrite (proj2 (Z.eqb_eq _ 0)) by mlia.
Qed.

(** Its middle: the next timer interrupt is scheduled and the software interrupt raised. *)
Definition rescheduled (m : machine) : machine :=
  let cmp := x a1 m in
  let new := u64 (load64 (m_mem m) cmp + x a2 m) in
  set_m_hart (w_sip 2 (m_hart m)) (set_x a1 2 (set_m_mem (store64 (m_mem m) cmp new)
    (set_x a3 new (set_x a3 (load64 (m_mem m) cmp) m)))).

Lemma run_reschedule m c : frame_at m a1 (x a1 m) 8 →
  run (ld a3 0 a1 :: add a3 a3 a2 :: sd a3 0 a1 :: li a1 2 :: csrw sip a1 :: c) m = run c (rescheduled m).
Proof.
  intros Hf. set (m1 := set_x a3 (load64 (m_mem m) (x a1 m)) m).
  rewrite (run_cons _ _ m m1); [|rewrite (step_ld _ _ (x a1 m) 8) by (try done; lia); by rewrite Z.add_0_r].
  erewrite run_cons by reflexivity. rewrite (run_cons _ _ _ (set_m_mem (store64 (m_mem m) (x a1 m)
    (u64 (load64 (m_mem m) (x a1 m) + x a2 m))) (set_x a3 (u64 (load64 (m_mem m) (x a1 m) + x a2 m)) m1))).
  - by do 2 erewrite run_cons by reflexivity.
  - rewrite (step_sd _ _ (x a1 m) 8); [by rewrite Z.add_0_r|by apply (frame_at_ext m)|lia..|done].
Qed.

(** C22. The timer interrupt.  [timervec], in machine mode, with mscratch pointing to the six
    words [timerinit] sets up, adds the interval to the hart's MTIMECMP register, modulo
    2^64, asks for a supervisor software interrupt, and returns with every
    register, and mscratch, what it was; it writes to nothing else but its save area, the first three words. *)
Theorem timervec_rearms m sc cmp :
  words (m_x m) → m_priv m = Machine → r_mscratch (m_hart m) = sc → load64 (m_mem m) (sc + 32) = cmp →
  0 ≤ sc → sc + 48 ≤ 2 ^ 64 → sc mod 8 = 0 →
  0 ≤ cmp → cmp + 8 ≤ 2 ^ 64 → cmp mod 8 = 0 → cmp + 8 ≤ sc ∨ sc + 48 ≤ cmp →
  ∃ m', run timervec m = do_mret m' ∧ (∀ r, x r m' = x r m) ∧ m_priv m' = Machine ∧
    m_hart m' = w_sip 2 (m_hart m) ∧
    load64 (m_mem m') cmp = u64 (load64 (m_mem m) cmp + load64 (m_mem m) (sc + 40)) ∧
    (∀ a, ¬ (sc ≤ a < sc + 24) → ¬ (cmp ≤ a < cmp + 8) → rd (m_mem m') a = rd (m_mem m) a).
Proof.
  intros Hw Hp Hs Hcmp H1 H2 H3 C1 C2 C3 Hd.
  set (saved := stored (m_x m) sc [(a1, 0); (a2, 8); (a3, 16)] (m_mem m)).
  set (m1 := set_x a0 sc (set_m_hart (w_mscratch (x a0 m) (m_hart m)) m)).
  change timervec with (csrrw a0 mscratch a0 :: saves a0 [(a1, 0); (a2, 8); (a3, 16)] ++ loads a0 [(a1, 32); (a2, 40)] ++
    ld a3 0 a1 :: add a3 a3 a2 :: sd a3 0 a1 :: li a1 2 :: csrw sip a1 :: loads a0 [(a3, 16); (a2, 8); (a1, 0)] ++ [csrrw a0 mscratch a0; mret]).
  rewrite (run_cons _ _ m m1) by (simpl; by rewrite Hs).
  assert (F1 : frame_at m1 a0 sc 48) by (by apply (physical_frame m1)).
  rewrite (run_saves 48 _ sc) by done. change (stored (m_x m1) sc _ (m_mem m1)) with saved.
  assert (Hsv : ∀ o, 24 ≤ o → o + 8 ≤ 48 → load64 saved (sc + o) = load64 (m_mem m) (sc + o)).
  { intros o O1 O2. unfold saved. apply load_stored_out. intros q [->|[->|[->|?%not_elem_of_nil]%elem_of_cons]%elem_of_cons]%elem_of_cons; simpl; [lia..|done]. }
  rewrite (run_loads 48 _ sc); [|done|by apply (frame_at_ext m1)|by intros [|[|?%not_elem_of_nil]%elem_of_cons]%elem_of_cons].
  set (f := loaded _ _ _ _). set (m2 := set_m_x f (set_m_mem saved m1)).
  assert (Ef1 : x a1 m2 = cmp) by (transitivity (load64 saved (sc + 32)); [done|by rewrite Hsv]).
  assert (Ef2 : x a2 m2 = load64 (m_mem m) (sc + 40)) by (transitivity (load64 saved (sc + 40)); [done|by apply Hsv]).
  assert (G2 : frame_at m2 a1 cmp 8) by (rewrite <- Ef1; apply physical_frame; [done|rewrite Ef1; done..]).
  assert (Ecmp : load64 saved cmp = load64 (m_mem m) cmp).
  { apply load_stored_out. intros q [->|[->|[->|?%not_elem_of_nil]%elem_of_cons]%elem_of_cons]%elem_of_cons; simpl; [lia..|done]. }
  rewrite run_reschedule by (by rewrite Ef1).
  set (new := u64 (load64 (m_mem m) cmp + load64 (m_mem m) (sc + 40))).
  assert (Em4 : m_mem (rescheduled m2) = store64 saved cmp new).
  { unfold rescheduled. rewrite Ef1, Ef2. change (m_mem m2) with saved. by rewrite Ecmp. }
  assert (Hsl : ∀ r o, (r, o) ∈ [(a1, 0); (a2, 8); (a3, 16)] → load64 (m_mem (rescheduled m2)) (sc + o) = x r m).
  { intros r o Hin. pose proof (slots_in 24 [(a1, 0); (a2, 8); (a3, 16)] eq_refl r o Hin). rewrite Em4, load64_store64_ne by lia. by apply (load_stored 24). }
  rewrite (run_loads 48 _ sc); [|done|by apply (frame_at_ext m1)|by intros [|[|[|?%not_elem_of_nil]%elem_of_cons]%elem_of_cons]%elem_of_cons].
  eexists. split; [reflexivity|]. split_and!.
  - intros r. destruct (decide (r = a1)) as [->|]; [apply (Hsl a1 0); by left|].
    destruct (decide (r = a2)) as [->|]; [apply (Hsl a2 8); right; by left|].
    destruct (decide (r = a3)) as [->|]; [apply (Hsl a3 16); right; right; by left|]. by destruct r.
  - done.
  - change (w_mscratch sc (w_sip 2 (w_mscratch (x a0 m) (m_hart m))) = w_sip 2 (m_hart m)). rewrite <- Hs. by destruct (m_hart m).
  - cbn [m_mem set_x set_m_x set_m_hart]. rewrite Em4. apply load64_store64. apply Z.mod_pos_bound. lia.
  - intros a Ha Hc. cbn [m_mem set_x set_m_x set_m_hart]. rewrite Em4, rd_store64_ne by lia. apply rd_stored.
    intros q [->|[->|[->|?%not_elem_of_nil]%elem_of_cons]%elem_of_cons]%elem_of_cons; simpl; [lia..|done].
Qed.

(** The C code starts on the hart's own 4096 bytes of [stack0], of which sp is the end. *)
Theorem entry_stack stack0 m h :
  r_mhartid (m_hart m) = Z.of_nat h → (h < NCPU)%nat → 0 ≤ stack0 → stack0 + 4096 * Z.of_nat NCPU < 2 ^ 64 →
  (∀ m', ext "start" m' = None) →
  ∃ m', run (entry stack0) m = Gone "start" m' ∧ x sp m' = stack0 + 4096 * Z.of_nat h + 4096 ∧ m_mem m' = m_mem m.
Proof.
  intros Hh Hn H0 H1 Hx. unfold entry. do 6 (erewrite run_cons by reflexivity). simpl exec. rewrite Hx. eexists. split; [reflexivity|]. split; [|done].
  transitivity (u64 (u64 stack0 + u64 (u64 4096 * u64 (r_mhartid (m_hart m) + 1)))); [done|]. rewrite Hh.
  change (u64 4096) with 4096. unfold NCPU in *. unfold u64. rewrite (Z.mod_small (Z.of_nat h + 1)), (Z.mod_small stack0), (Z.mod_small (4096 * _)) by lia.
  rewrite Z.mod_small by lia. lia.
Qed.

End theorems.

(** ** Concrete machines *)

(** Register number [i] holds [i]; memory is empty; kernel addresses are mapped to themselves, and the
    trapframe of the process whose page table is 5 is at 0x87000000. *)
Definition hart_with (pt scratch : Z) : hart := w_mscratch 0x80001000 (w_sscratch scratch (w_satp pt hart0)).
Definition xlate0 (pt va : Z) : option Z :=
  if (pt =? 5) && (TRAPFRAME <=? va) then Some (va - TRAPFRAME + 0x87000000) else Some va.
Definition machine0 (pt scratch : Z) (p : priv) (f : reg → Z) : machine := mkMachine f (hart_with pt scratch) ∅ p.
Definition regs0 (r : reg) : Z := match r with a0 => 0x80010000 | a1 => 0x80020000 | sp => 0x80030000 | ra => 77 | s1 => 78 | _ => 1 end.

Lemma regs0_words : words regs0.
Proof. intros []; unfold regs0; lia. Qed.

Lemma direct_frame b n : let m := machine0 0 0 Supervisor regs0 in
  0 ≤ x b m → x b m + n ≤ 2 ^ 64 → x b m mod 8 = 0 → frame_at xlate0 m b (x b m) n.
Proof.
  intros m H1 H2 H3 o G1 G2 G3. unfold addr. unfold u64. rewrite (Z.mod_small (x b m + o)) by lia.
  by rewrite (proj2 (Z.eqb_eq _ 0)) by mlia.
Qed.

Lemma swtch_resumes_witness :
  ∃ m', exec xlate0 (λ _ _, None) swtch (machine0 0 0 Supervisor regs0) = Goto 0 m' ∧ load64 (m_mem m') (0x80010000 + 24) = 78.
Proof.
  destruct (swtch_resumes xlate0 (λ _ _, None) (machine0 0 0 Supervisor regs0) 0x80010000 0x80020000 regs0_words) as (m' & E & H & _).
  - by apply (direct_frame a0 112).
  - by apply (direct_frame a1 112).
  - lia.
  - exists m'. split; [exact E|]. apply (H s1 24). by repeat constructor.
Defined.

Lemma trap_roundtrip_witness :
  ∃ m1, exec xlate0 (λ _ _, None) uservec (machine0 5 TRAPFRAME Supervisor regs0) = Goto 0 m1 ∧
    load64 (m_mem m1) (0x87000000 + TF_a0) = 0x80010000 ∧ load64 (m_mem m1) (0x87000000 + TF_ra) = 77.
Proof.
  destruct (trap_roundtrip xlate0 (λ _ _, None) (machine0 5 TRAPFRAME Supervisor regs0) 0x87000000 regs0_words) as (m1 & E & _ & _ & _ & _ & H & _).
  - intros o H1 H2 H3. unfold xlate0. rewrite (proj2 (Z.leb_le TRAPFRAME _)) by lia. cbn [andb machine0 m_hart hart_with]. cbn. f_equal. lia.
  - done.
  - done.
  - exists m1. split; [exact E|]. split; [apply (H a0)|apply (H ra)]; by repeat constructor.
Defined.

(** A [kerneltrap] that returns on another hart, with other values in the registers a C function may change. *)
Definition kerneltrap0 (f : string) (m : machine) : option machine := Some (set_x tp 3 (set_x a0 99 (set_x ra 98 m))).

Lemma kernelvec_transparent_witness :
  ∃ m3, exec xlate0 kerneltrap0 kernelvec (machine0 0 0 Supervisor regs0) = do_sret m3 ∧ x a0 m3 = 0x80010000 ∧ x ra m3 = 77 ∧
    x sp m3 = 0x80030000 ∧ x tp m3 = 3.
Proof.
  set (m := machine0 0 0 Supervisor regs0).
  assert (Hm : stack_mapped xlate0 m (0x80030000 - 256)).
  { split_and!; [vm_compute; congruence|vm_compute; congruence|reflexivity|reflexivity|intros o _ _ _; reflexivity]. }
  pose (after := λ m1, set_x tp 3 (set_x a0 99 (set_x ra 98 m1))).
  assert (Hsp : ∀ m1, x sp (after m1) = x sp m1) by reflexivity.
  assert (Hk : ∀ m1, r_satp (m_hart (after m1)) = r_satp (m_hart m1) ∧ m_priv (after m1) = m_priv m1) by done.
  assert (Hr : ∀ m1 a, rd (m_mem (after m1)) a = rd (m_mem m1) a) by reflexivity.
  destruct (kernelvec_transparent xlate0 kerneltrap0 m (0x80030000 - 256) (after (in_trap m (0x80030000 - 256))) regs0_words Hm eq_refl
    (Hsp _) (proj1 (Hk _)) (proj2 (Hk _)) (λ a _, Hr _ a)) as (m3 & E & _ & _ & _ & H & Htp & _).
  exists m3. split; [exact E|]. split_and!; [exact (H a0 ltac:(discriminate))|exact (H ra ltac:(discriminate))|exact (H sp ltac:(discriminate))|exact Htp].
Defined.

Definition scratch0 : gmap Z Z := store64 (store64 ∅ (0x80001000 + 32) 0x2004000) (0x80001000 + 40) 1000000.

Lemma timervec_rearms_witness :
  ∃ m', exec xlate0 kerneltrap0 timervec (set_m_mem scratch0 (machine0 0 0 Machine regs0)) = do_mret m' ∧
    load64 (m_mem m') 0x2004000 = 1000000 ∧ x a1 m' = 0x80020000.
Proof.
  assert (E32 : load64 scratch0 (0x80001000 + 32) = 0x2004000) by (vm_compute; reflexivity).
  pose proof (timervec_rearms xlate0 kerneltrap0 (set_m_mem scratch0 (machine0 0 0 Machine regs0)) 0x80001000 0x2004000 regs0_words eq_refl eq_refl E32
    ltac:(lia) ltac:(lia) eq_refl ltac:(lia) ltac:(lia) eq_refl ltac:(lia)) as (m' & E & Hx & _ & _ & Hc & _).
  exists m'. split; [exact E|]. split; [|exact (Hx a1)]. rewrite Hc. vm_compute. reflexivity.
Defined.

