(* ===== verification/SyscallSpec.v ===== *)
(** * A system call, from the user's stub to the handler and back

    The stubs of [user/usys.pl] and the numbers of [kernel/syscall.h]; the path of a
    call through [uservec], [usertrap], [syscall], the handler, [usertrapret] and [userret]; and the program that
    the first process runs. *)

From stdpp Require Import prelude gmap strings list.
From Stdlib Require Import ZArith Lia.
From S2P Require Import Asm.
From S2P Require Import Prelude.
From S2P Require Import Monad.
From S2P Require Import Riscv.
From S2P Require Import Types.
From S2P Require Import Mem.
From S2P Require Import Spinlock.
From S2P Require Import Kalloc.
From S2P Require Import Vm.
From S2P Require Import VmSpec.
From S2P Require Import Proc.
From S2P Require Import ProcSpec.
From S2P Require Import Bio.
From S2P Require Import BioSpec.
From S2P Require Import Cache.
From S2P Require Import ProcLife.
From S2P Require Import Sysfile.
From S2P Require Import Trap.

(** ** A process in the kernel with no lock *)

(** [intena] may be out of date: it is set again by the next [push_off]. *)
Definition tidy (l : cpust) : cpust := upd_cpu (set_c_intena (intr_get (cs_hart l))) l.

Record running (p : nat) (l : cpust) : Prop := mkrunning {
  run_idx : (cpu_index l < length (cs_cpus l))%nat;
  run_st : 0 ≤ r_sstatus (cs_hart l) < 2 ^ 64;
  run_noff : c_noff (the_cpu l) = 0;
  run_proc : c_proc (the_cpu l) = Some p
}.

Lemma tidy_cpu p l : running p l → the_cpu (tidy l) = set_c_intena (intr_get (cs_hart l)) (the_cpu l).
Proof. intros H. unfold tidy. by rewrite the_cpu_upd by apply H. Qed.

Lemma tidy_ok p l : running p l → cpu_ok (tidy l).
Proof.
  intros H. pose proof (tidy_cpu p l H) as E. destruct H as [Hi Hs Hn Hp]. split_and!.
  - unfold tidy, upd_cpu. simpl. by rewrite length_insert.
  - apply Hs.
  - apply Hs.
  - rewrite E. simpl. lia.
  - by rewrite E.
  - rewrite E. simpl. by rewrite Hn.
Qed.

Lemma tidy_running p l : running p l → running p (tidy l).
Proof.
  intros H. pose proof (tidy_cpu p l H) as E. destruct (tidy_ok p l H) as (Hi & Hs & _). destruct H as [_ _ Hn Hp].
  split; [done|done|by rewrite E|by rewrite E].
Qed.

Lemma hart_running p f l : (∀ h, r_tp (f h) = r_tp h) → 0 ≤ r_sstatus (f (cs_hart l)) < 2 ^ 64 → running p l → running p (upd_hart f l).
Proof.
  intros Hf Hr [Hi Hs Hn Hp]. assert (Ei : cpu_index (upd_hart f l) = cpu_index l) by (by apply cpu_index_hart).
  assert (Ec : the_cpu (upd_hart f l) = the_cpu l) by (unfold the_cpu; by rewrite Ei).
  split; [by rewrite Ei|done|by rewrite Ec|by rewrite Ec].
Qed.

Lemma pushed_tidy p l : running p l → pushed (tidy l) = pushed l.
Proof.
  intros H. pose proof (tidy_cpu p l H) as E. unfold pushed at 1. unfold upd_cpu at 1.
  change (the_cpu (upd_hart intr_off (tidy l))) with (the_cpu (tidy l)). rewrite E.
  change (c_noff (set_c_intena _ (the_cpu l))) with (c_noff (the_cpu l)). rewrite (run_noff _ _ H).
  unfold pushed, upd_cpu, tidy. change (the_cpu (upd_hart intr_off l)) with (the_cpu l). rewrite (run_noff _ _ H).
  unfold set_cs_cpus, upd_cpu, upd_hart, set_cs_hart. simpl. f_equal. by rewrite list_insert_insert_eq.
Qed.

Lemma curproc_tidy p s : running p (k_lk s) → curproc s = Ok p (set_k_lk (tidy (k_lk s)) s).
Proof.
  intros H. assert (E : myproc s = Ok (Some p) (set_k_lk (tidy (k_lk s)) s)).
  { unfold myproc. rewrite (bind_ok _ _ _ _ _ (push_off_idx s (run_idx _ _ H))). run. ksimpl.
    erewrite bind_ok; [|apply (pop_off_pushed _ (tidy (k_lk s))); [by apply (tidy_ok p)|symmetry; by apply (pushed_tidy p)]].
    rewrite set_k_lk_twice, <- (pushed_tidy p _ H), the_cpu_pushed, (tidy_cpu p) by (done || by apply (tidy_ok p)).
    cbn [c_proc set_c_intena]. by rewrite (run_proc _ _ H). }
  unfold curproc. by rewrite (bind_ok _ _ _ _ _ E).
Qed.

Lemma tf_get_eq p off s tf : p_trapframe (the_proc p s) = tf → tf ≠ 0 → tf_get p off s = Ok (load64 (k_mem s) (tf + off)) s.
Proof.
  intros E H. unfold tf_get, tf_ptr, get_proc. run. rewrite E, (proj2 (Z.eqb_neq tf 0)) by done. done.
Qed.

Lemma tf_set_eq p off v s tf : p_trapframe (the_proc p s) = tf → tf ≠ 0 →
  tf_set p off v s = Ok () (set_k_mem (store64 (k_mem s) (tf + off) (u64 v)) s).
Proof.
  intros E H. unfold tf_set, tf_ptr, get_proc. run. rewrite E, (proj2 (Z.eqb_neq tf 0)) by done. done.
Qed.

(** ** [usertrap] for a system call *)

Section trap.
Context {SY : Symbols} {PF : PteFormat} {DD : DiskDriver}.

(** The saved program counter, one instruction after the [ecall]. *)
Definition epc_mem (tf : Z) (s : kstate) : gmap Z Z :=
  let m := store64 (k_mem s) (tf + TF_epc) (u64 (r_sepc (the_hart s))) in
  store64 m (tf + TF_epc) (u64 (load64 m (tf + TF_epc) + 4)).

(** The state in which [usertrap] runs the handler. *)
Definition in_syscall (tf : Z) (s : kstate) : kstate :=
  set_k_lk (tidy (upd_hart intr_on (tidy (upd_hart (w_stvec kernelvec) (k_lk s))))) (set_k_mem (epc_mem tf s) s).

(** The handler that [syscall] selects. *)
Definition selected (num : Z) : option (K Z) :=
  if (0 <? num) && (num <? Z.of_nat (length syscalls)) then nth (Z.to_nat num) syscalls None else None.

Lemma syscall_eq p f tf s r t :
  running p (k_lk s) → p_trapframe (the_proc p s) = tf → tf ≠ 0 → selected (i32 (load64 (k_mem s) (tf + TF_a7))) = Some f →
  f (set_k_lk (tidy (k_lk s)) s) = Ok r t → p_trapframe (the_proc p t) = tf →
  syscall s = Ok () (set_k_mem (store64 (k_mem t) (tf + TF_a0) (u64 r)) t).
Proof.
  intros Hr Ht Hz Hf Hk Ht2. unfold syscall. rewrite (bind_ok _ _ _ _ _ (curproc_tidy p s Hr)).
  erewrite bind_ok; [|by apply (tf_get_eq p TF_a7 _ tf)]. cbv zeta.
  change (k_mem (set_k_lk (tidy (k_lk s)) s)) with (k_mem s). fold (selected (i32 (load64 (k_mem s) (tf + TF_a7)))). rewrite Hf.
  rewrite (bind_ok _ _ _ _ _ Hk). by apply tf_set_eq.
Qed.

Lemma usertrap_syscall p f tf s r t :
  running p (k_lk s) → p_trapframe (the_proc p s) = tf → tf ≠ 0 → p_killed (the_proc p s) = 0 →
  has (r_sstatus (the_hart s)) SSTATUS_SPP = false → r_scause (the_hart s) = 8 →
  selected (i32 (load64 (k_mem (in_syscall tf s)) (tf + TF_a7))) = Some f →
  f (in_syscall tf s) = Ok r t → p_trapframe (the_proc p t) = tf → p_killed (the_proc p t) = 0 →
  usertrap s = usertrapret (set_k_mem (store64 (k_mem t) (tf + TF_a0) (u64 r)) t).
Proof.
  intros Hr Ht Hz Hk Hspp Hc Hf Hx Ht2 Hk2. unfold usertrap. run. rewrite Hspp. unfold upd_lk at 1. run. ksimpl.
  assert (R1 : running p (upd_hart (w_stvec kernelvec) (k_lk s))) by (apply hart_running; [done|apply (run_st _ _ Hr)|done]).
  erewrite bind_ok; [|by apply (curproc_tidy p)]. run. ksimpl.
  erewrite bind_ok; [|by apply (tf_set_eq _ _ _ _ tf)]. run. ksimpl.
  unfold the_hart. ksimpl. cbn [cs_hart tidy upd_cpu set_cs_cpus upd_hart set_cs_hart].
  change (r_scause (w_stvec kernelvec (cs_hart (k_lk s)))) with (r_scause (the_hart s)). rewrite Hc. cbn [Z.eqb Pos.eqb].
  set (v := set_k_mem _ _).
  assert (Hv : the_proc p v = the_proc p s) by done.
  assert (Ein : set_k_lk (tidy (upd_hart intr_on (k_lk v))) (set_k_mem (store64 (k_mem v) (tf + TF_epc) (u64 (load64 (k_mem v) (tf + TF_epc) + 4))) v)
    = in_syscall tf s) by (unfold v, in_syscall, epc_mem; keq).
  erewrite bind_ok.
  2: { unfold get_proc at 1. run. rewrite Hv, Hk. cbn [negb Z.eqb when]. run. erewrite bind_ok by (by apply (tf_get_eq p _ _ tf)).
    erewrite bind_ok by (by apply (tf_set_eq p _ _ _ tf)). unfold upd_lk. run. ksimpl.
    erewrite bind_ok; [done|]. apply (syscall_eq p f tf _ r t); [|done|done| |by rewrite <- Ein in Hx; ksimpl|done].
    - ksimpl. apply hart_running; [done| |by apply tidy_running]. apply intr_on_range. apply (run_st _ _ Hr).
    - by rewrite <- Ein in Hf. }
  unfold get_proc. run. change (the_proc p (set_k_mem _ t)) with (the_proc p t). by rewrite Hk2.
Qed.

(** The fields [usertrapret] sets for the next trap. *)
Definition kernel_fields (tf ksatp ksp tp : Z) (m : gmap Z Z) : gmap Z Z :=
  store64 (store64 (store64 (store64 m (tf + TF_kernel_satp) (u64 ksatp)) (tf + TF_kernel_sp) (u64 ksp))
    (tf + TF_kernel_trap) (u64 usertrap_addr)) (tf + TF_kernel_hartid) (u64 tp).

(** The control registers it leaves. *)
Definition return_hart (epc : Z) (h : hart) : hart :=
  let h1 := w_stvec (u64 (TRAMPOLINE + (uservec - trampoline))) (intr_off h) in
  w_sepc epc (w_sstatus (Z.lor (Z.land (r_sstatus h1) (lnot64 SSTATUS_SPP)) SSTATUS_SPIE) h1).

Lemma usertrapret_eq p tf s : running p (k_lk s) → p_trapframe (the_proc p s) = tf → tf ≠ 0 →
  let h := the_hart s in
  let m := kernel_fields tf (r_satp h) (p_kstack (the_proc p s) + PGSIZE) (r_tp h) (k_mem s) in
  usertrapret s = Ok (MAKE_SATP (p_pagetable (the_proc p s)))
    (set_k_lk (upd_hart (return_hart (load64 m (tf + TF_epc))) (tidy (k_lk s))) (set_k_mem m s)).
Proof.
  intros Hr Ht Hz h m. unfold usertrapret. rewrite (bind_ok _ _ _ _ _ (curproc_tidy p s Hr)).
  unfold upd_lk at 1 2. run. ksimpl.
  erewrite bind_ok; [|by apply (tf_set_eq _ _ _ _ tf)]. unfold get_proc. run. ksimpl.
  erewrite bind_ok; [|by apply (tf_set_eq _ _ _ _ tf)]. run. ksimpl.
  erewrite bind_ok; [|by apply (tf_set_eq _ _ _ _ tf)]. run. ksimpl.
  erewrite bind_ok; [|by apply (tf_set_eq _ _ _ _ tf)]. unfold upd_lk at 1. run. ksimpl.
  erewrite bind_ok; [|by apply (tf_get_eq _ _ _ tf)]. unfold upd_lk at 1. run. ksimpl.
  reflexivity.
Qed.

(** ** The user's side *)

(** The numbers of [syscall.h]. *)
Definition syscall_h : list (string * Z) :=
  [ ("fork", 1); ("exit", 2); ("wait", 3); ("pipe", 4); ("read", 5); ("kill", 6); ("exec", 7); ("fstat", 8); ("chdir", 9);
    ("dup", 10); ("getpid", 11); ("sbrk", 12); ("sleep", 13); ("uptime", 14); ("open", 15); ("write", 16); ("mknod", 17);
    ("unlink", 18); ("link", 19); ("mkdir", 20); ("close", 21) ]%string.

(** The entries of [usys.pl], in its order, and the code it prints for one. *)
Definition usys_entries : list string :=
  [ "fork"; "exit"; "wait"; "pipe"; "read"; "write"; "close"; "kill"; "exec"; "open"; "mknod"; "unlink"; "fstat"; "link";
    "mkdir"; "chdir"; "dup"; "getpid"; "sbrk"; "sleep"; "uptime" ]%string.
Definition usys_entry (num : Z) : list instr := [li a7 num; ecall; Asm.ret].

(** The handlers, by the names of the calls. *)
Definition handlers : list (string * K Z) :=
  [ ("fork", sys_fork); ("exit", sys_exit); ("wait", sys_wait); ("pipe", sys_pipe); ("read", sys_read); ("kill", sys_kill);
    ("exec", sys_exec); ("fstat", sys_fstat); ("chdir", sys_chdir); ("dup", sys_dup); ("getpid", sys_getpid); ("sbrk", sys_sbrk);
    ("sleep", sys_sleep); ("uptime", sys_uptime); ("open", sys_open); ("write", sys_write); ("mknod", sys_mknod);
    ("unlink", sys_unlink); ("link", sys_link); ("mkdir", sys_mkdir); ("close", sys_close) ]%string.

Fixpoint assoc {A} (name : string) (l : list (string * A)) : option A :=
  match l with [] => None | (n, v) :: l' => if decide (n = name) then Some v else assoc name l' end.

Lemma dispatch name : name ∈ usys_entries →
  ∃ num f, assoc name syscall_h = Some num ∧ assoc name handlers = Some f ∧ selected num = Some f ∧ 0 < num < 22.
Proof.
  assert (H : Forall (λ name, ∃ num f, assoc name syscall_h = Some num ∧ assoc name handlers = Some f ∧ selected num = Some f ∧ 0 < num < 22) usys_entries).
  { unfold usys_entries. repeat (apply Forall_cons; split; [do 2 eexists; split; [reflexivity|]; split; [reflexivity|]; split; [reflexivity|lia]|]).
    apply Forall_nil. done. }
  rewrite Forall_forall in H. apply H.
Qed.

(** What the hardware does at an [ecall] at [pc] in user mode; the trap handler is [uservec]. *)
Definition take_ecall (pc : Z) (m : machine) : machine :=
  let st := r_sstatus (m_hart m) in
  let st' := set_bit SSTATUS_SPP_bit false (set_bit SPIE_bit (Z.testbit st SIE_bit) (set_bit SIE_bit false st)) in
  set_m_priv Supervisor (set_m_hart (w_scause 8 (w_sepc pc (w_sstatus st' (m_hart m)))) m).

(** The C code starts with the memory and control registers the assembly leaves, and the other way round. *)
Definition enters (m : machine) (s : kstate) : Prop := k_mem s = m_mem m ∧ the_hart s = w_tp (x tp m) (m_hart m).
Definition leaves (pt : Z) (s : kstate) (m : machine) : Prop :=
  m_mem m = k_mem s ∧ m_hart m = the_hart s ∧ m_priv m = Supervisor ∧ x a0 m = TRAPFRAME ∧ x a1 m = pt.

Definition args : list reg := [a0; a1; a2; a3; a4; a5].

Lemma load_fields tf ksatp ksp tp m o : o = TF_epc ∨ TF_ra ≤ o → load64 (kernel_fields tf ksatp ksp tp m) (tf + o) = load64 m (tf + o).
Proof.
  unfold kernel_fields, TF_kernel_satp, TF_kernel_sp, TF_kernel_trap, TF_kernel_hartid, TF_epc, TF_ra. intros H.
  rewrite !load64_store64_ne by lia. done.
Qed.

Lemma load_epc_mem tf s : 0 ≤ r_sepc (the_hart s) < 2 ^ 64 → load64 (epc_mem tf s) (tf + TF_epc) = u64 (r_sepc (the_hart s) + 4).
Proof.
  intros H. unfold epc_mem. rewrite !load64_store64; [|apply Z.mod_pos_bound; lia..]. unfold u64. by rewrite (Z.mod_small (r_sepc _)).
Qed.

Lemma load_epc_mem_ne tf s o : TF_ra ≤ o → load64 (epc_mem tf s) (tf + o) = load64 (k_mem s) (tf + o).
Proof. unfold epc_mem, TF_epc, TF_ra. intros H. by rewrite !load64_store64_ne by lia. Qed.

Lemma in_syscall_running p tf s : running p (k_lk s) → running p (k_lk (in_syscall tf s)) ∧ cpu_ok (k_lk (in_syscall tf s)).
Proof.
  intros Hr. unfold in_syscall. ksimpl.
  assert (R : running p (upd_hart intr_on (tidy (upd_hart (w_stvec kernelvec) (k_lk s))))).
  { apply hart_running; [done|apply intr_on_range; apply (run_st _ _ Hr)|]. apply tidy_running. apply hart_running; [done|apply (run_st _ _ Hr)|done]. }
  split; [by apply tidy_running|by apply (tidy_ok p)].
Qed.

(** The arguments of the call are the registers. *)
Lemma argraw_eq p tf s i o : cpu_ok (k_lk s) → c_proc (the_cpu (k_lk s)) = Some p → p_trapframe (the_proc p s) = tf → tf ≠ 0 →
  [TF_a0; TF_a1; TF_a2; TF_a3; TF_a4; TF_a5] !! i = Some o → argraw (Z.of_nat i) s = Ok (load64 (k_mem s) (tf + o)) s.
Proof.
  intros Hc Hp Ht Hz Hi. unfold argraw. rewrite (bind_ok _ _ _ _ _ (curproc_eq p s Hc Hp)).
  do 6 (destruct i as [|i]; [injection Hi as <-; by apply tf_get_eq|]). done.
Qed.

Lemma ecall_spp pc m : has (r_sstatus (m_hart (take_ecall pc m))) SSTATUS_SPP = false.
Proof.
  unfold has, take_ecall, set_bit. cbn [m_hart set_m_priv set_m_hart]. set (v := if Z.testbit _ _ then _ else _).
  change (negb (Z.land (Z.land v (lnot64 (2 ^ SSTATUS_SPP_bit))) SSTATUS_SPP =? 0) = false).
  rewrite <- Z.land_assoc. change (Z.land (lnot64 (2 ^ SSTATUS_SPP_bit)) SSTATUS_SPP) with 0. by rewrite Z.land_0_r.
Qed.

Lemma return_spp epc h : Z.testbit (r_sstatus (return_hart epc h)) SSTATUS_SPP_bit = false.
Proof.
  unfold return_hart. cbn [r_sstatus w_sepc w_sstatus]. rewrite Z.lor_spec, Z.land_spec.
  change (Z.testbit (lnot64 SSTATUS_SPP) SSTATUS_SPP_bit) with false. by rewrite andb_false_r.
Qed.

(** The kernel's part of the call, for a machine [m3] that [uservec] left with the registers of [m2]. *)
Lemma kernel_path p f num tf m2 m3 s :
  enters m3 s → running p (k_lk s) → p_trapframe (the_proc p s) = tf → tf ≠ 0 → p_killed (the_proc p s) = 0 →
  (∀ r o, (r, o) ∈ trapframe_slots → load64 (m_mem m3) (tf + o) = x r m2) → x a7 m2 = num → 0 < num < 22 → selected num = Some f →
  has (r_sstatus (m_hart m3)) SSTATUS_SPP = false → r_scause (m_hart m3) = 8 →
  let u := in_syscall tf s in
  (∀ i r, args !! i = Some r → argraw (Z.of_nat i) u = Ok (x r m2) u) ∧
  ∀ r t, f u = Ok r t → running p (k_lk t) → p_trapframe (the_proc p t) = tf → p_killed (the_proc p t) = 0 →
    ∃ t', usertrap s = Ok (MAKE_SATP (p_pagetable (the_proc p t))) t' ∧
      r_sepc (the_hart t') = load64 (k_mem t) (tf + TF_epc) ∧
      Z.testbit (r_sstatus (the_hart t')) SSTATUS_SPP_bit = false ∧
      ∀ q o, (q, o) ∈ trapframe_slots → load64 (k_mem t') (tf + o) = if decide (q = a0) then u64 r else load64 (k_mem t) (tf + o).
Proof.
  intros [Em Eh] Hr Ht Hz Hk Hsv H7 Hnum Hsel Hspp Hc u. destruct (in_syscall_running p tf s Hr) as [Hru Hcu].
  assert (Hld : ∀ r o, (r, o) ∈ trapframe_slots → TF_ra ≤ o → load64 (k_mem u) (tf + o) = x r m2).
  { intros r o Hin Ho. change (k_mem u) with (epc_mem tf s). rewrite load_epc_mem_ne, Em by done. by apply Hsv. }
  split.
  - intros i r Hi.
    assert (Ha : ∃ o, [TF_a0; TF_a1; TF_a2; TF_a3; TF_a4; TF_a5] !! i = Some o ∧ (r, o) ∈ trapframe_slots ∧ TF_ra ≤ o).
    { do 6 (destruct i as [|i]; [injection Hi as <-; eexists; split; [reflexivity|]; split; [by repeat constructor|vm_compute; congruence]|]). done. }
    destruct Ha as (o & Ho & Hin & Hra). rewrite <- (Hld r o Hin Hra). apply (argraw_eq p tf u i o Hcu (run_proc _ _ Hru) Ht Hz Ho).
  - intros r t Hf Hrt Htt Hkt.
    rewrite (usertrap_syscall p f tf s r t Hr Ht Hz Hk); [|by rewrite Eh|by rewrite Eh| |done|done|done].
    + set (t1 := set_k_mem _ t). rewrite (usertrapret_eq p tf t1) by done. eexists. split; [reflexivity|]. split_and!.
      * change (load64 (kernel_fields tf (r_satp (the_hart t1)) (p_kstack (the_proc p t1) + PGSIZE) (r_tp (the_hart t1)) (k_mem t1)) (tf + TF_epc) =
          load64 (k_mem t) (tf + TF_epc)). rewrite load_fields by (by left). apply load64_store64_ne. unfold TF_epc, TF_a0. lia.
      * apply return_spp.
      * intros q o Hin. cbn [k_mem set_k_lk set_k_mem].
        destruct (trapframe_slots_split q o Hin) as [[-> ->]|Hu].
        -- rewrite load_fields by (right; vm_compute; congruence). change (k_mem t1) with (store64 (k_mem t) (tf + TF_a0) (u64 r)).
           rewrite load64_store64 by (apply Z.mod_pos_bound; lia). done.
        -- destruct (user_slots_range q o Hu) as (Ho & _ & Hne). destruct (user_slots_nz q o Hu) as [_ Hq]. rewrite decide_False by done.
           rewrite load_fields by (by right). apply load64_store64_ne. lia.
    + fold u. rewrite (Hld a7 TF_a7), H7; [|by repeat constructor|vm_compute; congruence]. rewrite i32_small; [done|lia].
Qed.

Context (xlate : Z → Z → option Z) (ext : string → machine → option machine).
Notation run := (Asm.exec xlate ext).

(** C8. A system call, end to end.  For every call that [usys.pl] makes a stub for, the stub puts the call's number
    in a7 and traps; [uservec] saves the registers and enters the kernel; [usertrap] and [syscall]
    run the handler of that name, for which [argraw] reads the arguments from the user's a0 to a5; and when
    the handler returns [r], leaving the process alive and the saved registers alone, [usertrap] hands [userret]
    the process's page table and the user goes on after the
    [ecall], in user mode, with [r] in a0, the number in a7 and every other register as it was, so that
    the stub returns to its caller. *)
Theorem system_call_path p name num f m pc tf :
  name ∈ usys_entries → assoc name syscall_h = Some num → assoc name handlers = Some f →
  words (m_x m) → trapframe_mapped xlate (r_satp (m_hart m)) tf → tf ≠ 0 → r_sscratch (m_hart m) = TRAPFRAME → 0 ≤ pc < 2 ^ 64 →
  ∃ m1 m3, run (usys_entry num) m = Ecall m1 ∧
    run Asm.uservec (take_ecall pc m1) = Goto (load64 (m_mem m) (tf + TF_kernel_trap)) m3 ∧
    ∀ s, enters m3 s → running p (k_lk s) → p_trapframe (the_proc p s) = tf → p_killed (the_proc p s) = 0 →
      let u := in_syscall tf s in
      (∀ i r, args !! i = Some r → argraw (Z.of_nat i) u = Ok (x r m) u) ∧
        ∀ r t, f u = Ok r t → running p (k_lk t) → p_trapframe (the_proc p t) = tf → p_killed (the_proc p t) = 0 →
          r_satp (m_hart m) = MAKE_SATP (p_pagetable (the_proc p t)) →
          (∀ a, tf + TF_epc ≤ a < tf + TF_SIZE → rd (k_mem t) a = rd (k_mem u) a) →
          ∃ t', usertrap s = Ok (r_satp (m_hart m)) t' ∧ ∀ m4, leaves (r_satp (m_hart m)) t' m4 →
            ∃ m5, run Asm.userret m4 = Goto (u64 (pc + 4)) m5 ∧ m_priv m5 = User ∧
              (∀ q, x q m5 = if decide (q = a0) then u64 r else if decide (q = a7) then num else x q m) ∧
              run [Asm.ret] m5 = Goto (x ra m) m5.
Proof.
  intros Hn Hnum Hf Hw Ht Hz Hs Hpc. destruct (dispatch name Hn) as (num' & f' & E1 & E2 & Hsel & Hr). simplify_eq.
  set (m1 := set_x a7 (u64 num) m). assert (Hu : u64 num = num) by (apply Z.mod_small; lia).
  assert (Hx1 : ∀ q, x q m1 = if decide (q = a7) then num else x q m).
  { intros q. unfold m1. rewrite x_set_x, Hu. unfold x, get_x. repeat case_decide; by subst. }
  assert (Hw1 : words (m_x (take_ecall pc m1))).
  { intros q. cbn. unfold put_x. case_decide; [rewrite Hu; lia|apply Hw]. }
  destruct (uservec_ok xlate ext (take_ecall pc m1) tf Hw1 Ht eq_refl Hs) as (m3 & E3 & _ & _ & _ & _ & Hsv & _ & Epc & Est & Ec).
  exists m1, m3. split; [done|]. split; [done|]. intros s Hen Hrun Htf Hk. pose proof Hen as [Em Eh].
  destruct (kernel_path p f num tf (take_ecall pc m1) m3 s Hen Hrun Htf Hz Hk Hsv) as [Harg Hpath]; try done.
  { by rewrite Est, ecall_spp. }
  assert (Esepc : r_sepc (the_hart s) = pc) by (rewrite Eh; exact Epc).
  split.
  { intros i r Hi. rewrite (Harg i r Hi). f_equal. change (x r m1 = x r m). rewrite Hx1.
    do 6 (destruct i as [|i]; [by injection Hi as <-|]). done. }
  intros r t Hft Hrt Htt Hkt Hpt Hkeep. destruct (Hpath r t Hft Hrt Htt Hkt) as (t' & Et & Hsepc & Hspp & Hld).
  exists t'. rewrite Hpt. split; [done|]. intros m4 (L1 & L2 & L3 & L4 & L5).
  destruct (userret_eq xlate ext m4 tf) as (m5 & E5 & _ & P5 & _ & _ & X5); [by rewrite L5, <- Hpt|done|done|by rewrite L2|].
  assert (Hkeep64 : ∀ o, TF_epc ≤ o → o + 8 ≤ TF_SIZE → load64 (k_mem t) (tf + o) = load64 (epc_mem tf s) (tf + o)).
  { intros o O1 O2. apply load64_ext. intros b Hb. apply Hkeep. lia. }
  assert (Hall : ∀ q, x q m5 = if decide (q = a0) then u64 r else if decide (q = a7) then num else x q m).
  { intros q. destruct (decide (q = zero)) as [->|Hq]; [done|].
    assert (Hin : q ∈ trapframe_slots.*1) by (destruct q; try done; by repeat constructor).
    apply list_elem_of_fmap in Hin as ([q' o] & -> & Hin). cbn [fst]. rewrite (X5 q' o Hin), L1, (Hld q' o Hin).
    case_decide as Ha; [done|]. destruct (trapframe_slots_split q' o Hin) as [[-> _]|Hus]; [done|].
    destruct (user_slots_range q' o Hus) as (O1 & O2 & _).
    rewrite Hkeep64, load_epc_mem_ne, Em, (Hsv q' o Hin) by (unfold TF_epc, TF_ra in *; lia). apply Hx1. }
  exists m5. split_and!; [|done|done|].
  - rewrite E5, L2, Hsepc, Hkeep64 by (unfold TF_epc, TF_SIZE; lia). rewrite load_epc_mem by (by rewrite Esepc). by rewrite Esepc.
  - change (Goto (x ra m5) m5 = Goto (x ra m) m5). by rewrite Hall.
Qed.
End trap.

(** Process 0, number 42, with its trapframe at 0x87000000, calls [getpid]. *)
Definition caller0 : machine := machine0 (MAKE_SATP 0) TRAPFRAME User regs0.
Definition kernel0 (m : machine) : kstate :=
  set_k_mem (m_mem m) (set_k_lk (set_cs_hart (w_tp (x tp m) (m_hart m)) quiet_lk)
    (set_k_procs (<[0%nat := set_p_pid 42 (set_p_trapframe 0x87000000 proc0)]> (k_procs quiet0)) quiet0)).
Definition xlate1 (pt va : Z) : option Z := Some (va - TRAPFRAME + 0x87000000).
Definition no_ext (f : string) (m : machine) : option machine := None.
Definition goes (o : Asm.outcome) : machine := match o with Goto _ m => m | _ => caller0 end.

Lemma getpid_eq p s : running p (k_lk s) → cpu_ok (k_lk s) → sys_getpid s = Ok (p_pid (the_proc p s)) s.
Proof. intros H Hc. unfold sys_getpid, get_proc. by rewrite (bind_ok _ _ _ _ _ (curproc_eq p s Hc (run_proc _ _ H))). Qed.

Lemma system_call_path_witness :
  ∃ s t' m4 m5, @usertrap symbols0 sv39_pte2pa sync_disk s = Ok (MAKE_SATP 0) t' ∧ leaves (MAKE_SATP 0) t' m4 ∧
    Asm.exec xlate1 no_ext Asm.userret m4 = Goto 104 m5 ∧ x a0 m5 = 42 ∧ x s1 m5 = 78.
Proof.
  destruct (@system_call_path symbols0 sv39_pte2pa sync_disk xlate1 no_ext 0 "getpid" 11 sys_getpid caller0 100 0x87000000)
    as (m1 & m3 & E1 & E3 & H).
  - by repeat constructor.
  - reflexivity.
  - reflexivity.
  - exact regs0_words.
  - intros o _ _ _. unfold xlate1. f_equal. lia.
  - discriminate.
  - reflexivity.
  - lia.
  - assert (Em3 : m3 = goes (Asm.exec xlate1 no_ext Asm.uservec (take_ecall 100 (set_x a7 (u64 11) caller0)))).
    { injection E1 as <-. by rewrite E3. }
    assert (Hr : running 0 (k_lk (kernel0 m3))).
    { rewrite Em3. split; [vm_compute; lia|vm_compute; split; congruence|vm_compute; reflexivity|vm_compute; reflexivity]. }
    destruct (@in_syscall_running symbols0 0 0x87000000 _ Hr) as [Hru Hcu].
    destruct (H (kernel0 m3) (conj eq_refl eq_refl) Hr eq_refl eq_refl) as [_ Hp].
    destruct (Hp 42 _ (getpid_eq 0 _ Hru Hcu) Hru eq_refl eq_refl eq_refl (λ a _, eq_refl)) as (t' & Et & Hm).
    set (m4 := mkMachine (λ r, match r with a0 => TRAPFRAME | a1 => MAKE_SATP 0 | _ => 0 end) (the_hart t') (k_mem t') Supervisor).
    assert (Hl : leaves (MAKE_SATP 0) t' m4) by (by repeat split). destruct (Hm m4 Hl) as (m5 & E5 & _ & Hx & _).
    exists (kernel0 m3), t', m4, m5. split_and!; [exact Et|apply Hl..|exact E5|exact (Hx a0)|exact (Hx s1)].
Defined.
