(* ===== verification/Initcode.v ===== *)
(** * The first user program: [user/initcode.S] and its machine code in [kernel/proc.c]

    [userinit] copies the array [initcode] to address 0 of the first process, and the
    process starts there.  The array is run here by decoding its words; it is compared with
    the assembly source it was made from. *)

From stdpp Require Import prelude gmap strings list.
From Stdlib Require Import ZArith Lia.
From S2P Require Import Prelude.
From S2P Require Import Types.
From S2P Require Import Mem.
From S2P Require Import Vm.
From S2P Require Import ProcLife.
From S2P Require Import Asm.

(** ** The assembly source *)

Section source.
Context (init argv : Z).   (** the addresses of the labels *)

(** [start], up to its system call, and one turn of the loop at [exit] *)
Definition initcode_start : list instr := [la a0 init; la a1 argv; li a7 7; ecall].
Definition initcode_exit : list instr := [li a7 2; ecall].
End source.

(** ** Machine code *)

Definition regs : list reg :=
  [ zero; ra; sp; gp; tp; t0; t1; t2; s0; s1; a0; a1; a2; a3; a4; a5; a6; a7;
    s2; s3; s4; s5; s6; s7; s8; s9; s10; s11; t3; t4; t5; t6 ].

Inductive word_instr :=
| AUIPC (rd : reg) (imm : Z)
| ADDI (rd rs : reg) (imm : Z)
| JAL (rd : reg) (off : Z)
| ECALL.

Definition field (w lo len : Z) : Z := Z.land (Z.shiftr w lo) (2 ^ len - 1).
Definition sext (n v : Z) : Z := if v <? 2 ^ (n - 1) then v else v - 2 ^ n.

(** The base instructions the program uses, as the RISC-V manual encodes them. *)
Definition decode (w : Z) : option word_instr :=
  let rd := regs !! Z.to_nat (field w 7 5) in
  let rs := regs !! Z.to_nat (field w 15 5) in
  match field w 0 7 with
  | 0x17 => rd ← rd; Some (AUIPC rd (sext 32 (field w 12 20 * 2 ^ 12)))
  | 0x13 => rd ← rd; rs ← rs; if field w 12 3 =? 0 then Some (ADDI rd rs (sext 12 (field w 20 12))) else None
  | 0x6f => rd ← rd;
      Some (JAL rd (sext 21 (field w 31 1 * 2 ^ 20 + field w 12 8 * 2 ^ 12 + field w 20 1 * 2 ^ 11 + field w 21 10 * 2)))
  | 0x73 => if w =? 0x73 then Some ECALL else None
  | _ => None
  end.

(** Runs from [pc] to the next [ecall], at most [n] instructions: the address of the [ecall] and
    the registers there. *)
Fixpoint to_ecall (n : nat) (m : gmap Z Z) (pc : Z) (f : reg → Z) : option (Z * (reg → Z)) :=
  match n with
  | O => None
  | S n' =>
      i ← decode (load32 m pc);
      match i with
      | AUIPC rd imm => to_ecall n' m (u64 (pc + 4)) (put_x rd (u64 (pc + imm)) f)
      | ADDI rd rs imm => to_ecall n' m (u64 (pc + 4)) (put_x rd (u64 (get_x f rs + imm)) f)
      | JAL rd off => to_ecall n' m (u64 (pc + off)) (put_x rd (u64 (pc + 4)) f)
      | ECALL => Some (pc, f)
      end
  end.

(** The memory of the first process. *)
Definition init_page : gmap Z Z := store_bytes ∅ 0 initcode.

(** The registers of a system call. *)
Definition same_call (f g : reg → Z) : Prop := f a7 = g a7 ∧ f a0 = g a0 ∧ f a1 = g a1.

