(* ===== verification/User.v ===== *)
(** * User programs: system calls as events

    A user program of [user/*.c] is a tree of the system calls it makes: [Vis c k]
    asks the kernel for the call [c] and goes on with [k] of the reply; both sides of
    a [fork] are the same node with two replies.  What a system call does is not
    part of the program: the theorems about programs are proved against a
    [World], whose laws say what the program relies on.

    Memory that a program owns (its buffers and its strings) is a list of bytes;
    a pointer into it is an index.  A [char] is unsigned, as on RISC-V. *)

From stdpp Require Import prelude gmap strings list list_numbers.
From Stdlib Require Import ZArith Lia.
From S2P Require Import Prelude.
From S2P Require Import Riscv.
From S2P Require Import Types.

(** ** System calls *)

(** The declarations of [user/user.h]; the index is the type of the reply.  Output
    parameters are part of the reply: [wait] also gives the status, [pipe] the two
    descriptors, [read] the bytes and [fstat] the structure.  The last three are for programs
    that use addresses outside their objects: a call with arbitrary words as arguments, and a load
    and a store, which the kernel may answer by killing the process. *)
Inductive call : Type → Type :=
| CFork : call Z
| CExit (status : Z) : call unit
| CWait : call (Z * Z)
| CPipe : call (Z * (Z * Z))
| CWrite (fd : Z) (l : list Z) : call Z
| CRead (fd n : Z) : call (Z * list Z)
| CClose (fd : Z) : call Z
| CKill (pid : Z) : call Z
| CExec (path : list Z) (argv : list (list Z)) : call Z
| COpen (path : list Z) (mode : Z) : call Z
| CMknod (path : list Z) (major minor : Z) : call Z
| CUnlink (path : list Z) : call Z
| CFstat (fd : Z) : call (Z * stat)
| CLink (old new : list Z) : call Z
| CMkdir (path : list Z) : call Z
| CChdir (path : list Z) : call Z
| CDup (fd : Z) : call Z
| CGetpid : call Z
| CSbrk (n : Z) : call Z
| CSleep (n : Z) : call Z
| CUptime : call Z
| CRaw (num : Z) (args : list Z) : call Z   (** by number, with words that need not point to anything *)
| CLoad (addr : Z) : call Z                 (** one byte of the process's memory, by address *)
| CStore (addr v : Z) : call unit.

Inductive prog (A : Type) : Type :=
| Ret (a : A)
| Vis {R : Type} (c : call R) (k : R → prog A)
| Fault           (** an access outside an object: what happens then is undefined *)
| Fuel.           (** a loop ran 2^64 times *)

Arguments Ret {A} a.
Arguments Vis {A R} c k.
Arguments Fault {A}.
Arguments Fuel {A}.

#[export] Instance prog_ret : MRet prog := @Ret.
#[export] Instance prog_bind : MBind prog := λ A B f,
  fix go p := match p with
  | Ret a => f a
  | Vis c k => Vis c (λ r, go (k r))
  | Fault => Fault
  | Fuel => Fuel
  end.

Definition sys {R} (c : call R) : prog R := Vis c Ret.

(** [exit] does not return. *)
Definition exit_ {A} (status : Z) : prog A := Vis (CExit status) (λ _, Fuel).

Definition pwhen (b : bool) (c : prog unit) : prog unit := if b then c else Ret ().

(** A loop; the body gives the next loop variables ([inl]) or leaves ([inr]). *)
Fixpoint piter {X R} (p : positive) (body : X → prog (X + R)) (x : X) : prog (X + R) :=
  match p with
  | xH => body x
  | xO q => r ← piter q body x; match r with inl x' => piter q body x' | inr y => Ret (inr y) end
  | xI q =>
      r ← body x;
      match r with
      | inl x' => r' ← piter q body x'; match r' with inl x'' => piter q body x'' | inr y => Ret (inr y) end
      | inr y => Ret (inr y)
      end
  end.
Definition pwhile {X R} (body : X → prog (X + R)) (x : X) : prog R :=
  r ← piter (2 ^ 64)%positive body x; match r with inl _ => Fuel | inr y => Ret y end.

(** [buf[i] = v] *)
Definition set_byte (buf : list Z) (i : Z) (v : Z) : prog (list Z) :=
  if (0 <=? i) && (i <? Z.of_nat (length buf)) then Ret (<[Z.to_nat i := v]> buf) else Fault.

(** [n] bytes are stored from [buf + i] on. *)
Definition set_bytes (buf : list Z) (i : Z) (l : list Z) : prog (list Z) :=
  if (0 <=? i) && (i + Z.of_nat (length l) <=? Z.of_nat (length buf))
  then Ret (splice (Z.to_nat i) l buf) else Fault.

(** ** Worlds *)

(** What the kernel may answer, and which paths [exec] can load. *)
Class World (W : Type) := {
  w_step : ∀ {R}, call R → W → R → W → Prop;
  w_exec : list Z → W → Prop
}.

(** How a run of a program ends. *)
Inductive ending (A : Type) :=
| Done (a : A)
| Exited (status : Z)
| Execed (path : list Z) (argv : list (list Z))
| Faulted.
Arguments Done {A} a.
Arguments Exited {A} status.
Arguments Execed {A} path argv.
Arguments Faulted {A}.

Lemma pbind_ret {A B} (a : A) (f : A → prog B) : (Ret a ≫= f) = f a.
Proof. done. Qed.

Section world.
Context {W : Type} {WO : World W}.

(** Every run of the program ends, in an ending and a world that satisfy [Q]. *)
Fixpoint wpu {A} (p : prog A) (Q : ending A → W → Prop) (w : W) : Prop :=
  match p with
  | Ret a => Q (Done a) w
  | Fault => Q Faulted w
  | Fuel => False
  | Vis c k =>
      match c with
      | CExit st => Q (Exited st) w
      | CExec path argv =>
          (w_exec path w ∨ ∃ r w', w_step c w r w') ∧
          (w_exec path w → Q (Execed path argv) w) ∧ ∀ r w', w_step c w r w' → wpu (k r) Q w'
      | _ => (∃ r w', w_step c w r w') ∧ ∀ r w', w_step c w r w' → wpu (k r) Q w'
      end
  end.

(** What is left to show of the rest of the program, when a part of it has ended. *)
Definition then_ {A B} (f : A → prog B) (Q : ending B → W → Prop) (e : ending A) (w : W) : Prop :=
  match e with
  | Done a => wpu (f a) Q w
  | Exited st => Q (Exited st) w
  | Execed path argv => Q (Execed path argv) w
  | Faulted => Q Faulted w
  end.

Lemma wpu_mono {A} (p : prog A) (Q Q' : ending A → W → Prop) w :
  (∀ e w', Q e w' → Q' e w') → wpu p Q w → wpu p Q' w.
Proof.
  intros HQ. revert w. induction p as [a|R c k IH| |]; intros w; simpl; [apply HQ| |apply HQ|done].
  destruct c; try apply HQ; intros H; split; try apply H; try (intros r w' Hr; apply IH; by apply H).
  split; [intros He; apply HQ; by apply H|intros r w' Hr; apply IH; by apply H].
Qed.

Lemma wpu_bind {A B} (p : prog A) (f : A → prog B) Q w :
  wpu p (then_ f Q) w → wpu (p ≫= f) Q w.
Proof.
  revert w. induction p as [a|R c k IH| |]; intros w; simpl; try done.
  destruct c; try done; intros H; split; try apply H; try (intros r w' Hr; apply IH; by apply H).
  split; [apply H|intros r w' Hr; apply IH; by apply H].
Qed.

Lemma wpu_fork {A} (k : Z → prog A) Q w :
  (∃ r w', w_step CFork w r w') → (∀ r w', w_step CFork w r w' → wpu (k r) Q w') → wpu (sys CFork ≫= k) Q w.
Proof. by split. Qed.
Lemma wpu_wait {A} (k : Z * Z → prog A) Q w :
  (∃ r w', w_step CWait w r w') → (∀ r w', w_step CWait w r w' → wpu (k r) Q w') → wpu (sys CWait ≫= k) Q w.
Proof. by split. Qed.
Lemma wpu_exec {A} path argv (k : Z → prog A) Q w :
  (w_exec path w ∨ ∃ r w', w_step (CExec path argv) w r w') → (w_exec path w → Q (Execed path argv) w) →
  (∀ r w', w_step (CExec path argv) w r w' → wpu (k r) Q w') → wpu (sys (CExec path argv) ≫= k) Q w.
Proof. intros H1 H2 H3. exact (conj H1 (conj H2 H3)). Qed.

(** A loop with variant [n], that does not go on longer than 2^64 times. *)
Lemma wpu_piter {X R} (body : X → prog (X + R)) (I : nat → X → W → Prop) (Q : ending (X + R) → W → Prop) p n x w :
  (∀ n x w, I n x w → wpu (body x) (λ e w', match e with
     | Done (inl x') => ∃ m, (m < n)%nat ∧ I m x' w'
     | e' => Q e' w'
     end) w) →
  I n x w →
  wpu (piter p body x) (λ e w', match e with
    | Done (inl x') => ∃ m, (m + Pos.to_nat p ≤ n)%nat ∧ I m x' w'
    | e' => Q e' w'
    end) w.
Proof.
  intros Hb. revert n x w. induction p as [q IH|q IH|]; intros n x w Hi; cbn [piter].
  - apply wpu_bind. eapply wpu_mono; [|by apply Hb]. intros [[x'|r]|st|pa av|] w' H; try exact H.
    destruct H as (m & Hm & Hi'). apply wpu_bind. eapply wpu_mono; [|by apply IH].
    intros [[x''|r]|st|pa av|] w'' H; try exact H. destruct H as (m' & Hm' & Hi'').
    simpl. eapply wpu_mono; [|by apply IH]. intros [[x3|r]|st|pa av|] w3 H; try exact H.
    destruct H as (m3 & Hm3 & Hi3). exists m3. split; [lia|done].
  - apply wpu_bind. eapply wpu_mono; [|by apply IH]. intros [[x''|r]|st|pa av|] w'' H; try exact H.
    destruct H as (m' & Hm' & Hi''). simpl. eapply wpu_mono; [|by apply IH].
    intros [[x3|r]|st|pa av|] w3 H; try exact H. destruct H as (m3 & Hm3 & Hi3). exists m3. split; [lia|done].
  - eapply wpu_mono; [|by apply Hb]. intros [[x'|r]|st|pa av|] w' H; try exact H.
    destruct H as (m & Hm & Hi'). exists m. split; [lia|done].
Qed.

Lemma wpu_while {X R} (body : X → prog (X + R)) (I : nat → X → W → Prop) (Q : ending R → W → Prop) n x w :
  (∀ n x w, I n x w → wpu (body x) (λ e w', match e with
     | Done (inl x') => ∃ m, (m < n)%nat ∧ I m x' w'
     | Done (inr r) => Q (Done r) w'
     | Exited st => Q (Exited st) w'
     | Execed pa av => Q (Execed pa av) w'
     | Faulted => Q Faulted w'
     end) w) →
  I n x w → Z.of_nat n < 2 ^ 64 → wpu (pwhile body x) Q w.
Proof.
  intros Hb Hi Hn. unfold pwhile. apply wpu_bind.
  set (Q' := λ (e : ending (X + R)) w', match e with
     | Done (inl x') => False
     | Done (inr r) => Q (Done r) w'
     | Exited st => Q (Exited st) w'
     | Execed pa av => Q (Execed pa av) w'
     | Faulted => Q Faulted w'
     end).
  eapply wpu_mono; [|apply (wpu_piter body I Q' (2 ^ 64)%positive n x w); [|done]].
  - intros [[x'|r]|st|pa av|] w' H; try exact H. destruct H as (m & Hm & _). exfalso.
    assert (Z.of_nat (Pos.to_nat (2 ^ 64)) = 2 ^ 64) by (rewrite positive_nat_Z; reflexivity). lia.
  - clear n x w Hi Hn. intros n x w Hi. eapply wpu_mono; [|by apply Hb].
    intros [[x'|r]|st|pa av|] w' H; exact H.
Qed.
End world.

(** ** Descriptors as byte streams *)

(** What the text utilities rely on: reading takes at least one of the bytes that
    are left, in order, and 0 at the end; writing to an open descriptor takes all the
    bytes; opening a file gives a new descriptor for its contents.  How many bytes
    a [read] returns is up to the kernel. *)
Class Streams (W : Type) {WO : World W} := {
  src : Z → W → option (list Z);            (** the bytes left to read, if open *)
  sent : W → list (Z * Z);                  (** the bytes written, each with its descriptor *)
  writable : Z → W → Prop;
  file : list Z → W → option (list Z);      (** the contents behind a path *)
  read_some : ∀ fd n w l, src fd w = Some l → 0 < n → ∃ r w', w_step (CRead fd n) w r w';
  read_step : ∀ fd n w l r w', src fd w = Some l → 0 < n → w_step (CRead fd n) w r w' →
    ∃ a b, l = a ++ b ∧ (a = [] → l = []) ∧ Z.of_nat (length a) ≤ n ∧ r = (Z.of_nat (length a), a) ∧
      src fd w' = Some b ∧ (∀ fd', fd' ≠ fd → src fd' w' = src fd' w) ∧ sent w' = sent w ∧
      (∀ fd', writable fd' w' ↔ writable fd' w) ∧ (∀ p, file p w' = file p w);
  write_some : ∀ fd l w, writable fd w → ∃ r w', w_step (CWrite fd l) w r w';
  write_step : ∀ fd l w r w', writable fd w → w_step (CWrite fd l) w r w' →
    r = Z.of_nat (length l) ∧ sent w' = sent w ++ ((λ b, (fd, b)) <$> l) ∧
      (∀ fd', src fd' w' = src fd' w) ∧ (∀ fd', writable fd' w' ↔ writable fd' w) ∧ (∀ p, file p w' = file p w);
  open_some : ∀ path w, ∃ r w', w_step (COpen path 0) w r w';
  open_step : ∀ path w fd w', w_step (COpen path 0) w fd w' →
    sent w' = sent w ∧ (∀ fd', writable fd' w' ↔ writable fd' w) ∧ (∀ p, file p w' = file p w) ∧
    match file path w with
    | Some l => 0 ≤ fd ∧ src fd w = None ∧ src fd w' = Some l ∧ ∀ fd', fd' ≠ fd → src fd' w' = src fd' w
    | None => fd < 0 ∧ ∀ fd', src fd' w' = src fd' w
    end;
  close_some : ∀ fd l w, src fd w = Some l → ∃ r w', w_step (CClose fd) w r w';
  close_step : ∀ fd l w r w', src fd w = Some l → w_step (CClose fd) w r w' →
    src fd w' = None ∧ (∀ fd', fd' ≠ fd → src fd' w' = src fd' w) ∧ sent w' = sent w ∧
    (∀ fd', writable fd' w' ↔ writable fd' w) ∧ (∀ p, file p w' = file p w)
}.

Section streams.
Context {W : Type} {WO : World W} {SW : Streams W}.

(** The world after output [l] to [fd]: nothing else changed. *)
Definition wrote (fd : Z) (l : list Z) (w w' : W) : Prop :=
  sent w' = sent w ++ ((λ b, (fd, b)) <$> l) ∧ (∀ fd', src fd' w' = src fd' w) ∧
  (∀ fd', writable fd' w' ↔ writable fd' w) ∧ (∀ p, file p w' = file p w).

Lemma sent_nil fd w : wrote fd [] w w.
Proof. unfold wrote. rewrite app_nil_r. done. Qed.

Lemma sent_app fd l1 l2 w1 w2 w3 : wrote fd l1 w1 w2 → wrote fd l2 w2 w3 → wrote fd (l1 ++ l2) w1 w3.
Proof.
  intros (A1 & A2 & A3 & A4) (B1 & B2 & B3 & B4). split_and!.
  - rewrite B1, A1, fmap_app. by rewrite (assoc_L (++)).
  - intros. by rewrite B2, A2.
  - intros. by rewrite B3, A3.
  - intros. by rewrite B4, A4.
Qed.

Lemma wpu_write_sys {A} fd l (k : Z → prog A) Q w :
  writable fd w → (∀ w', wrote fd l w w' → wpu (k (Z.of_nat (length l))) Q w') → wpu (sys (CWrite fd l) ≫= k) Q w.
Proof.
  intros Hw Hk. split; [by apply write_some|]. intros r w' Hs.
  destruct (write_step fd l w r w' Hw Hs) as (-> & H1 & H2 & H3 & H4). by apply Hk.
Qed.

(** The world after [a] has been read from [fd], of which [b] is left. *)
Definition took (fd : Z) (b : list Z) (w w' : W) : Prop :=
  src fd w' = Some b ∧ (∀ fd', fd' ≠ fd → src fd' w' = src fd' w) ∧ sent w' = sent w ∧
  (∀ fd', writable fd' w' ↔ writable fd' w) ∧ (∀ p, file p w' = file p w).

Lemma wpu_read {A} fd n l (k : Z * list Z → prog A) Q w :
  src fd w = Some l → 0 < n →
  (∀ a b w', l = a ++ b → (a = [] → l = []) → Z.of_nat (length a) ≤ n → took fd b w w' →
    wpu (k (Z.of_nat (length a), a)) Q w') →
  wpu (sys (CRead fd n) ≫= k) Q w.
Proof.
  intros Hs Hn Hk. split; [by eapply read_some|]. intros r w' Hr.
  destruct (read_step _ _ _ _ _ _ Hs Hn Hr) as (a & b & E & Ha & Hl & -> & H). by apply (Hk a b).
Qed.

(** The world after [open(path, O_RDONLY)] has returned [fd]. *)
Definition opened (path : list Z) (fd : Z) (w w' : W) : Prop :=
  sent w' = sent w ∧ (∀ fd', writable fd' w' ↔ writable fd' w) ∧ (∀ p, file p w' = file p w) ∧
  match file path w with
  | Some l => 0 ≤ fd ∧ src fd w = None ∧ src fd w' = Some l ∧ ∀ fd', fd' ≠ fd → src fd' w' = src fd' w
  | None => fd < 0 ∧ ∀ fd', src fd' w' = src fd' w
  end.

Lemma wpu_open {A} path (k : Z → prog A) Q w :
  (∀ fd w', opened path fd w w' → wpu (k fd) Q w') → wpu (sys (COpen path 0) ≫= k) Q w.
Proof. intros Hk. split; [apply open_some|]. intros fd w' Ho. apply Hk. by apply open_step. Qed.

(** The world after [close(fd)]. *)
Definition closed (fd : Z) (w w' : W) : Prop :=
  src fd w' = None ∧ (∀ fd', fd' ≠ fd → src fd' w' = src fd' w) ∧ sent w' = sent w ∧
  (∀ fd', writable fd' w' ↔ writable fd' w) ∧ (∀ p, file p w' = file p w).

Lemma wpu_close {A} fd l (k : Z → prog A) Q w :
  src fd w = Some l → (∀ r w', closed fd w w' → wpu (k r) Q w') → wpu (sys (CClose fd) ≫= k) Q w.
Proof. intros Hs Hk. split; [by eapply close_some|]. intros r w' Hc. apply Hk. by apply (close_step _ _ _ _ _ Hs Hc). Qed.

Lemma wpu_write {A} fd l (k : Z → prog A) Q w :
  writable fd w → (∀ w', wrote fd l w w' → wpu (k (Z.of_nat (length l))) Q w') → wpu (Vis (CWrite fd l) k) Q w.
Proof.
  intros Hw Hk. split; [by apply write_some|]. intros r w' Hs.
  destruct (write_step fd l w r w' Hw Hs) as (-> & H1 & H2 & H3 & H4). by apply Hk.
Qed.
End streams.

(** ** A world *)

(** Input streams, files, and the console output: a world of [Streams], in which
    [read] returns any number of bytes that it may. *)
Record desk := mkDesk {
  d_in : gmap Z (list Z);
  d_files : gmap (list Z) (list Z);
  d_out : list (Z * Z);
  d_open : gset Z
}.

Definition desk_step {R} (c : call R) (w : desk) : R → desk → Prop :=
  match c in call R' return R' → desk → Prop with
  | CRead fd n => λ r w',
      ∃ a b, d_in w !! fd = Some (a ++ b) ∧ (a = [] → b = []) ∧ Z.of_nat (length a) ≤ n ∧
        r = (Z.of_nat (length a), a) ∧ w' = mkDesk (<[fd := b]> (d_in w)) (d_files w) (d_out w) (d_open w)
  | CWrite fd l => λ r w',
      fd ∈ d_open w ∧ r = Z.of_nat (length l) ∧
        w' = mkDesk (d_in w) (d_files w) (d_out w ++ ((λ b, (fd, b)) <$> l)) (d_open w)
  | COpen path mode => λ fd w',
      match d_files w !! path with
      | Some l => 0 ≤ fd ∧ d_in w !! fd = None ∧ w' = mkDesk (<[fd := l]> (d_in w)) (d_files w) (d_out w) (d_open w)
      | None => fd = -1 ∧ w' = w
      end
  | CClose fd => λ r w', r = 0 ∧ w' = mkDesk (delete fd (d_in w)) (d_files w) (d_out w) (d_open w)
  | _ => λ _ _, False
  end.

#[export] Instance desk_world : World desk := {| w_step R c w r w' := desk_step c w r w'; w_exec _ _ := False |}.

Lemma free_fd (m : gmap Z (list Z)) : ∃ fd, 0 ≤ fd ∧ m !! fd = None.
Proof.
  exists (Z.of_nat (fresh (set_map Z.to_nat (dom m) : gset nat))). split; [lia|]. apply not_elem_of_dom. intros H.
  apply (is_fresh (set_map Z.to_nat (dom m) : gset nat)). apply elem_of_map.
  eexists. split; [|exact H]. by rewrite Nat2Z.id.
Qed.

#[export] Instance desk_streams : Streams desk.
Proof.
  refine {| src fd w := d_in w !! fd; sent := d_out; writable fd w := fd ∈ d_open w; file p w := d_files w !! p |}.
  - intros fd n w l E Hn. destruct l as [|c l].
    + exists (0, []), (mkDesk (<[fd := []]> (d_in w)) (d_files w) (d_out w) (d_open w)). exists [], []. split_and!; try done; simpl; lia.
    + exists (1, [c]), (mkDesk (<[fd := l]> (d_in w)) (d_files w) (d_out w) (d_open w)). exists [c], l. split_and!; try done; simpl; lia.
  - intros fd n w l r w' E Hn (a & b & E' & Hab & Hl & -> & ->). rewrite E in E'. injection E' as ->.
    exists a, b. split_and!; try done; simpl.
    + intros ->. by rewrite Hab.
    + by rewrite lookup_insert_eq.
    + intros fd' Hne. by rewrite lookup_insert_ne.
  - intros fd l w Hw. eexists _, _. split; [exact Hw|]. by split.
  - intros fd l w r w' _ (_ & -> & ->). done.
  - intros path w. simpl. destruct (d_files w !! path) as [l|]; [|by exists (-1), w].
    destruct (free_fd (d_in w)) as (fd & H1 & H2). eexists fd, _. by split_and!.
  - intros path w fd w'. simpl. destruct (d_files w !! path) as [l|].
    + intros (H1 & H2 & ->). split_and!; try done; simpl; [by rewrite lookup_insert_eq|].
      intros fd' Hne. by rewrite lookup_insert_ne.
    + intros [-> ->]. split_and!; try done; lia.
  - intros fd l w _. eexists _, _. by split.
  - intros fd l w r w' _ [-> ->]. split_and!; try done; simpl; [by rewrite lookup_delete_eq|].
    intros fd' Hne. by rewrite lookup_delete_ne.
Defined.
