(* ===== verification/Ulib.v ===== *)
(** * The library of the user programs

    The string functions and wrappers of [user/ulib.c] and the formatted output of
    [user/printf.c].  A string argument is the list of the bytes from the pointer
    on; past the end of the list there is the NUL.  [printint] of a number is read
    back by [atoi], and never overruns its buffer. *)

From stdpp Require Import prelude gmap strings list list_numbers.
From Stdlib Require Import ZArith Lia.
From S2P Require Import Prelude.
From S2P Require Import Riscv.
From S2P Require Import Types.
From S2P Require Import User.

(** ** [ulib.c] *)

(** [strcpy(buf + i, t)] *)
Fixpoint strcpy (buf : list Z) (i : Z) (t : list Z) : prog (list Z) :=
  match t with
  | [] => set_byte buf i 0
  | c :: t' => buf ← set_byte buf i c; if c =? 0 then Ret buf else strcpy buf (i + 1) t'
  end.

Fixpoint strcmp (p q : list Z) : Z :=
  match p with
  | [] => 0 - hd 0 q
  | c :: p' => if (c <>? 0) && (c =? hd 0 q) then strcmp p' (tail q) else c - hd 0 q
  end.

Fixpoint strlen (s : list Z) : Z :=
  match s with
  | [] => 0
  | c :: s' => if c =? 0 then 0 else strlen s' + 1
  end.

(** [memset(buf + i, c, n)] *)
Fixpoint memset (buf : list Z) (i c : Z) (n : nat) : prog (list Z) :=
  match n with
  | O => Ret buf
  | S n' => buf ← set_byte buf i (u8 c); memset buf (i + 1) c n'
  end.

(** The position of the result in [s]. *)
Fixpoint strchr (s : list Z) (c : Z) : option nat :=
  match s with
  | [] => None
  | x :: s' => if x =? 0 then None else if x =? c then Some O else S <$> strchr s' c
  end.

Definition gets_body (max : Z) (x : Z * list Z) : prog (Z * list Z + Z * list Z) :=
  let '(i, buf) := x in
  if i + 1 <? max then
    '(cc, l) ← sys (CRead 0 1);
    if cc <? 1 then Ret (inr (i, buf)) else
    let c := hd 0 l in
    buf ← set_byte buf i c;
    Ret (if (c =? 10) || (c =? 13) then inr (i + 1, buf) else inl (i + 1, buf))
  else Ret (inr (i, buf)).
Definition gets (buf : list Z) (max : Z) : prog (list Z) :=
  '(i, buf) ← pwhile (gets_body max) (0, buf);
  set_byte buf i 0.

(** [int stat(n, st)]: the result and, if it was filled in, the structure. *)
Definition stat_ (n : list Z) : prog (Z * option stat) :=
  fd ← sys (COpen n O_RDONLY);
  if fd <? 0 then Ret (-1, None) else
  '(r, st) ← sys (CFstat fd);
  _ ← sys (CClose fd);
  Ret (r, Some st).

Fixpoint atoi_loop (s : list Z) (n : Z) : Z :=
  match s with
  | [] => n
  | c :: s' => if (48 <=? c) && (c <=? 57) then atoi_loop s' (i32 (n * 10 + c - 48)) else n
  end.
Definition atoi (s : list Z) : Z := atoi_loop s 0.

(** [memmove] between two places of one buffer. *)
Fixpoint memmove_up (n : nat) (buf : list Z) (dst src : nat) : prog (list Z) :=
  match n with
  | O => Ret buf
  | S n' => buf ← set_byte buf (Z.of_nat dst) (nth src buf 0); memmove_up n' buf (S dst) (S src)
  end.
Fixpoint memmove_down (n : nat) (buf : list Z) (dst src : nat) : prog (list Z) :=
  match n with
  | O => Ret buf
  | S n' => buf ← set_byte buf (Z.of_nat (dst + n')) (nth (src + n') buf 0); memmove_down n' buf dst src
  end.
Definition memmove (buf : list Z) (dst src n : nat) : prog (list Z) :=
  if (dst <? src)%nat then memmove_up n buf dst src else memmove_down n buf dst src.

(** [memmove(buf + i, p, n)] from another object, whose bytes are [l]: the order of
    the two loops does not matter. *)
Fixpoint memcopy (buf : list Z) (i : Z) (l : list Z) : prog (list Z) :=
  match l with
  | [] => Ret buf
  | c :: l' => buf ← set_byte buf i c; memcopy buf (i + 1) l'
  end.

Fixpoint memcmp (n : nat) (p1 p2 : list Z) : Z :=
  match n with
  | O => 0
  | S n' => if hd 0 p1 =? hd 0 p2 then memcmp n' (tail p1) (tail p2) else hd 0 p1 - hd 0 p2
  end.

Definition memcpy (buf : list Z) (dst src n : nat) : prog (list Z) := memmove buf dst src n.

(** ** [printf.c] *)

Definition digits : list Z := bytes_of "0123456789ABCDEF".
Definition digit (d : Z) : Z := nth (Z.to_nat d) digits 0.

Definition putc (fd c : Z) : prog unit := _ ← sys (CWrite fd [u8 c]); Ret ().

(** [buf] after the loop [do { buf[i++] = digits[x % base]; } while((x /= base) != 0)];
    a 32-bit number has at most 32 digits. *)
Fixpoint printint_digits (fuel : nat) (x base : Z) : list Z :=
  match fuel with
  | O => []
  | S f => digit (x mod base) :: (if x / base =? 0 then [] else printint_digits f (x / base) base)
  end.
Definition printint_buf (xx base : Z) (sgn : bool) : list Z :=
  let neg := sgn && (xx <? 0) in
  let x := if neg then u32 (- xx) else u32 xx in
  printint_digits 32 x base ++ (if neg then [45] else []).

Fixpoint puts (fd : Z) (l : list Z) : prog unit :=
  match l with
  | [] => Ret ()
  | c :: l' => putc fd c;; puts fd l'
  end.

(** [while(--i >= 0) putc(fd, buf[i]);], with [char buf[16]]. *)
Definition printint (fd xx base : Z) (sgn : bool) : prog unit :=
  let buf := printint_buf xx base sgn in
  if (16 <? length buf)%nat then Fault else puts fd (reverse buf).

Fixpoint printptr_loop (n : nat) (fd x : Z) : prog unit :=
  match n with
  | O => Ret ()
  | S n' => putc fd (digit (Z.shiftr x 60));; printptr_loop n' fd (u64 (Z.shiftl x 4))
  end.
Definition printptr (fd x : Z) : prog unit := putc fd 48;; putc fd 120;; printptr_loop 16 fd (u64 x).

(** A variable argument. *)
Inductive varg := VNum (x : Z) | VStr (s : option (list Z)).
Definition arg_num (ap : list varg) : Z := match ap with VNum x :: _ => x | _ => 0 end.
Definition arg_str (ap : list varg) : option (list Z) := match ap with VStr s :: _ => s | _ => None end.

(** The bytes of a string, up to its NUL. *)
Fixpoint cstr (l : list Z) : list Z :=
  match l with
  | [] => []
  | c :: l' => if c =? 0 then [] else c :: cstr l'
  end.

(** The loop over [fmt], with the variable [state]. *)
Fixpoint vprintf_loop (fd : Z) (fmt : list Z) (percent : bool) (ap : list varg) : prog unit :=
  match fmt with
  | [] => Ret ()
  | c :: fmt' =>
      if c =? 0 then Ret () else
      if negb percent then
        (if c =? 37 then vprintf_loop fd fmt' true ap else putc fd c;; vprintf_loop fd fmt' false ap)
      else if c =? 100 then printint fd (i32 (arg_num ap)) 10 true;; vprintf_loop fd fmt' false (tail ap)
      else if c =? 108 then printint fd (i32 (arg_num ap)) 10 false;; vprintf_loop fd fmt' false (tail ap)
      else if c =? 120 then printint fd (i32 (arg_num ap)) 16 false;; vprintf_loop fd fmt' false (tail ap)
      else if c =? 112 then printptr fd (arg_num ap);; vprintf_loop fd fmt' false (tail ap)
      else if c =? 115 then
        puts fd (cstr (default (bytes_of "(null)") (arg_str ap)));; vprintf_loop fd fmt' false (tail ap)
      else if c =? 99 then putc fd (arg_num ap);; vprintf_loop fd fmt' false (tail ap)
      else if c =? 37 then putc fd c;; vprintf_loop fd fmt' false ap
      else putc fd 37;; putc fd c;; vprintf_loop fd fmt' false ap
  end.
Definition vprintf (fd : Z) (fmt : list Z) (ap : list varg) : prog unit := vprintf_loop fd fmt false ap.
Definition fprintf (fd : Z) (fmt : list Z) (ap : list varg) : prog unit := vprintf fd fmt ap.
Definition printf (fmt : list Z) (ap : list varg) : prog unit := vprintf 1 fmt ap.

(** ** Memory *)

Lemma set_byte_ok buf (i : nat) v : (i < length buf)%nat → set_byte buf (Z.of_nat i) v = Ret (<[i := v]> buf).
Proof. intros H. unfold set_byte. zdec. by rewrite Nat2Z.id. Qed.

Lemma set_bytes_ok buf (i : nat) l : (i + length l ≤ length buf)%nat → set_bytes buf (Z.of_nat i) l = Ret (splice i l buf).
Proof. intros H. unfold set_bytes. zdec. by rewrite Nat2Z.id. Qed.

Lemma memmove_up_ok n buf dst src :
  (dst < src)%nat → (src + n ≤ length buf)%nat → memmove_up n buf dst src = Ret (splice dst (slice src n buf) buf).
Proof.
  intros Hd. revert buf dst src Hd. induction n as [|n IH]; intros buf dst src Hd Hl.
  { cbn [memmove_up]. f_equal. unfold splice, slice. simpl. by rewrite Nat.add_0_r, take_drop. }
  cbn [memmove_up]. rewrite set_byte_ok by lia. cbn [mbind prog_bind].
  set (v := nth src buf 0). rewrite IH by (rewrite ?length_insert; lia). f_equal. apply list_eq. intros j.
  assert (Hs : length (slice (S src) n (<[dst := v]> buf)) = n) by (apply length_slice; rewrite length_insert; lia).
  assert (Hs' : length (slice src (S n) buf) = S n) by (apply length_slice; lia).
  rewrite !lookup_splice, Hs, Hs' by (rewrite ?Hs, ?Hs', ?length_insert; lia).
  destruct (decide (j = dst)) as [->|Hj].
  - rewrite decide_False, decide_True by lia. rewrite list_lookup_insert_eq by lia.
    rewrite Nat.sub_diag, lookup_slice, Nat.add_0_r by lia. unfold v.
    destruct (lookup_lt_is_Some_2 buf src) as [x Hx]; [lia|]. by rewrite nth_lookup, Hx.
  - case_decide; [rewrite decide_True by lia|rewrite decide_False by lia].
    + rewrite !lookup_slice, list_lookup_insert_ne by lia. f_equal. lia.
    + by rewrite list_lookup_insert_ne.
Qed.

Lemma memmove_down_ok n buf dst src :
  (src ≤ dst)%nat → (dst + n ≤ length buf)%nat → memmove_down n buf dst src = Ret (splice dst (slice src n buf) buf).
Proof.
  intros Hd. revert buf. induction n as [|n IH]; intros buf Hl.
  { cbn [memmove_down]. f_equal. unfold splice, slice. simpl. by rewrite Nat.add_0_r, take_drop. }
  cbn [memmove_down]. rewrite set_byte_ok by lia. cbn [mbind prog_bind].
  set (v := nth (src + n) buf 0). rewrite IH by (rewrite ?length_insert; lia). f_equal. apply list_eq. intros j.
  assert (Hs : length (slice src n (<[(dst + n)%nat := v]> buf)) = n) by (apply length_slice; rewrite length_insert; lia).
  assert (Hs' : length (slice src (S n) buf) = S n) by (apply length_slice; lia).
  rewrite !lookup_splice, Hs, Hs' by (rewrite ?Hs, ?Hs', ?length_insert; lia).
  destruct (decide (j = dst + n)%nat) as [->|Hj].
  - rewrite decide_False, decide_True by lia. rewrite list_lookup_insert_eq by lia.
    rewrite lookup_slice by lia. unfold v. replace (src + (dst + n - dst))%nat with (src + n)%nat by lia.
    destruct (lookup_lt_is_Some_2 buf (src + n)) as [x Hx]; [lia|]. by rewrite nth_lookup, Hx.
  - case_decide; [rewrite decide_True by lia|rewrite decide_False by lia].
    + by rewrite !lookup_slice, list_lookup_insert_ne by lia.
    + by rewrite list_lookup_insert_ne.
Qed.

Lemma umemmove_ok buf dst src n :
  (dst + n ≤ length buf)%nat → (src + n ≤ length buf)%nat → memmove buf dst src n = Ret (splice dst (slice src n buf) buf).
Proof.
  intros. unfold memmove. destruct (Nat.ltb_spec dst src); [by apply memmove_up_ok|by apply memmove_down_ok].
Qed.

(** ** What is printed *)

(** The text of a number. *)
Definition int_text (xx base : Z) (sgn : bool) : list Z := reverse (printint_buf xx base sgn).
Fixpoint ptr_text (n : nat) (x : Z) : list Z :=
  match n with
  | O => []
  | S n' => digit (Z.shiftr x 60) :: ptr_text n' (u64 (Z.shiftl x 4))
  end.

(** The text that a format and its arguments stand for. *)
Fixpoint render (fmt : list Z) (percent : bool) (ap : list varg) : list Z :=
  match fmt with
  | [] => []
  | c :: fmt' =>
      if c =? 0 then [] else
      if negb percent then (if c =? 37 then render fmt' true ap else c :: render fmt' false ap)
      else if c =? 100 then int_text (i32 (arg_num ap)) 10 true ++ render fmt' false (tail ap)
      else if c =? 108 then int_text (i32 (arg_num ap)) 10 false ++ render fmt' false (tail ap)
      else if c =? 120 then int_text (i32 (arg_num ap)) 16 false ++ render fmt' false (tail ap)
      else if c =? 112 then 48 :: 120 :: ptr_text 16 (u64 (arg_num ap)) ++ render fmt' false (tail ap)
      else if c =? 115 then cstr (default (bytes_of "(null)") (arg_str ap)) ++ render fmt' false (tail ap)
      else if c =? 99 then u8 (arg_num ap) :: render fmt' false (tail ap)
      else if c =? 37 then c :: render fmt' false ap
      else 37 :: c :: render fmt' false ap
  end.

(** ** Numbers *)

Lemma digit_dec d : 0 ≤ d < 10 → digit d = 48 + d.
Proof.
  intros H. unfold digit. assert (Hd : d = 0 ∨ d = 1 ∨ d = 2 ∨ d = 3 ∨ d = 4 ∨ d = 5 ∨ d = 6 ∨ d = 7 ∨ d = 8 ∨ d = 9) by lia.
  by destruct Hd as [->|[->|[->|[->|[->|[->|[->|[->|[->| ->]]]]]]]]].
Qed.

Lemma digit_byte d : is_byte (digit d).
Proof.
  unfold digit. rewrite nth_lookup. destruct (digits !! Z.to_nat d) as [x|] eqn:E; simpl; [|by unfold is_byte].
  assert (Hall : Forall is_byte digits) by (apply (bool_decide_unpack _); vm_compute; done).
  by apply (Forall_lookup_1 _ _ _ _ Hall E).
Qed.

(** The number of digits. *)
Lemma printint_digits_length f x base (k : nat) :
  1 < base → 0 ≤ x < base ^ Z.of_nat k → (1 ≤ k)%nat → (length (printint_digits f x base) ≤ k)%nat.
Proof.
  intros Hb. revert x k. induction f as [|f IH]; intros x k Hx Hk; simpl; [lia|].
  destruct (Z.eqb_spec (x / base) 0) as [E|E]; simpl; [lia|].
  destruct k as [|k]; [lia|]. apply le_n_S. apply IH.
  - split; [apply Z.div_pos; lia|]. apply Z.div_lt_upper_bound; [lia|].
    rewrite Nat2Z.inj_succ, Z.pow_succ_r in Hx by lia. lia.
  - destruct k; [|lia]. exfalso. apply E. apply Z.div_small. rewrite Z.pow_1_r in Hx. lia.
Qed.

(** The value of a text of decimal digits, the most significant first. *)
Fixpoint dec_value (l : list Z) (n : Z) : Z :=
  match l with
  | [] => n
  | c :: l' => dec_value l' (n * 10 + (c - 48))
  end.

Lemma dec_value_app l1 l2 n : dec_value (l1 ++ l2) n = dec_value l2 (dec_value l1 n).
Proof. revert n. induction l1; intros; simpl; auto. Qed.

Lemma digits_value f x n :
  0 ≤ x < 10 ^ Z.of_nat f →
  dec_value (reverse (printint_digits f x 10)) n =
    n * 10 ^ Z.of_nat (length (printint_digits f x 10)) + x.
Proof.
  revert x n. induction f as [|f IH]; intros x n Hx.
  { simpl in *. assert (x = 0) as -> by lia. lia. }
  cbn [printint_digits]. rewrite Nat2Z.inj_succ, Z.pow_succ_r in Hx by lia.
  rewrite reverse_cons, dec_value_app. rewrite digit_dec by (apply Z.mod_pos_bound; lia).
  destruct (Z.eqb_spec (x / 10) 0) as [E|E].
  - cbn [dec_value reverse rev_append length]. change (10 ^ Z.of_nat 1) with 10.
    change (dec_value (reverse []) n) with n. cbn [dec_value]. mlia.
  - rewrite IH by (split; [apply Z.div_pos; lia|apply Z.div_lt_upper_bound; lia]). cbn [dec_value length].
    rewrite Nat2Z.inj_succ, Z.pow_succ_r by lia. set (p := 10 ^ Z.of_nat _). mlia.
Qed.

Lemma digits_range f x : Forall (λ c, 48 ≤ c ≤ 57) (printint_digits f x 10).
Proof.
  revert x. induction f as [|f IH]; intros x; simpl; constructor.
  - rewrite digit_dec by (apply Z.mod_pos_bound; lia). pose proof (Z.mod_pos_bound x 10). lia.
  - destruct (x / 10 =? 0); [constructor|apply IH].
Qed.

(** [atoi] computes the value, as long as it fits in an [int]. *)
Lemma atoi_value l n rest :
  Forall (λ c, 48 ≤ c ≤ 57) l → 0 ≤ n → dec_value l n < 2 ^ 31 →
  match rest with [] => True | c :: _ => ¬ (48 ≤ c ≤ 57) end →
  atoi_loop (l ++ rest) n = dec_value l n.
Proof.
  intros Hl. revert n. induction Hl as [|c l Hc Hl IH]; intros n Hn Hv Hr; simpl.
  - destruct rest as [|c r]; [done|]. simpl. repeat zcase; try lia; done.
  - assert (Hge : n * 10 + (c - 48) ≤ dec_value l (n * 10 + (c - 48))).
    { clear - Hl Hn Hc. assert (Hn' : 0 ≤ n * 10 + (c - 48)) by lia. revert Hn'. generalize (n * 10 + (c - 48)) as m. clear - Hl.
      induction Hl as [|d l Hd Hl IH]; intros m Hm; simpl; [lia|]. specialize (IH (m * 10 + (d - 48))). lia. }
    simpl in Hv. zdec. rewrite i32_small by lia.
    replace (n * 10 + c - 48) with (n * 10 + (c - 48)) by lia. apply IH; [lia|done|done].
Qed.

(** ** Output *)

Lemma cstr_bytes l : Forall is_byte l → Forall is_byte (cstr l).
Proof. induction 1 as [|c l Hc Hl IH]; simpl; [done|]. zcase; by constructor. Qed.

Lemma int_text_bytes xx base sgn : Forall is_byte (int_text xx base sgn).
Proof.
  unfold int_text, printint_buf. apply Forall_reverse, Forall_app. split.
  - generalize (if sgn && (xx <? 0) then u32 (- xx) else u32 xx). generalize 32%nat.
    intros f. induction f as [|f IH]; intros x; simpl; constructor; [apply digit_byte|].
    destruct (x / base =? 0); [constructor|apply IH].
  - destruct (sgn && (xx <? 0)); constructor; [unfold is_byte; lia|constructor].
Qed.

Lemma printint_fits xx base sgn : base = 10 ∨ base = 16 → (length (printint_buf xx base sgn) ≤ 11)%nat.
Proof.
  intros Hb. unfold printint_buf. rewrite length_app.
  set (x := if sgn && (xx <? 0) then u32 (- xx) else u32 xx).
  assert (Hx : 0 ≤ x < 2 ^ 32) by (unfold x; destruct (sgn && (xx <? 0)); apply u32_range).
  assert (length (printint_digits 32 x base) ≤ 10)%nat.
  { destruct Hb as [-> | ->]; (apply printint_digits_length; [lia| |lia]).
    - split; [lia|]. eapply Z.lt_trans; [apply Hx|reflexivity].
    - split; [lia|]. eapply Z.lt_trans; [apply Hx|reflexivity]. }
  destruct (sgn && (xx <? 0)); cbn [length]; lia.
Qed.

Section output.
Context {W : Type} {WO : World W} {SW : Streams W}.

(** The program [p] prints [l] to [fd] and then goes on. *)
Definition prints (fd : Z) (l : list Z) (p : prog unit) : Prop :=
  ∀ w, writable fd w → wpu p (λ e w', e = Done () ∧ wrote fd l w w') w.

Lemma prints_ret fd : prints fd [] (Ret ()).
Proof. intros w Hw. split; [done|apply sent_nil]. Qed.

Lemma prints_bind fd l1 l2 p q : prints fd l1 p → prints fd l2 q → prints fd (l1 ++ l2) (p;; q).
Proof.
  intros Hp Hq w Hw. apply wpu_bind. eapply wpu_mono; [|by apply Hp].
  intros e w1 [-> H1]. simpl. eapply wpu_mono; [|apply Hq; by apply H1].
  intros e w2 [-> H2]. split; [done|by eapply sent_app].
Qed.

Lemma prints_putc fd c : is_byte c → prints fd [c] (putc fd c).
Proof.
  intros Hc w Hw. unfold putc, sys. apply wpu_write; [done|]. intros w' H. rewrite u8_small in H by done. done.
Qed.

Lemma prints_cons fd c l q : is_byte c → prints fd l q → prints fd (c :: l) (putc fd c;; q).
Proof. intros Hc Hq. apply (prints_bind fd [c] l); [by apply prints_putc|done]. Qed.

Lemma prints_puts fd l : Forall is_byte l → prints fd l (puts fd l).
Proof. induction 1; [apply prints_ret|by apply prints_cons]. Qed.

Lemma prints_int fd xx base sgn :
  base = 10 ∨ base = 16 → prints fd (int_text xx base sgn) (printint fd xx base sgn).
Proof.
  intros Hb. unfold printint. pose proof (printint_fits xx base sgn Hb).
  replace (16 <? _)%nat with false by (symmetry; apply Nat.ltb_ge; lia).
  apply prints_puts. apply int_text_bytes.
Qed.

Lemma prints_ptr fd n x : prints fd (ptr_text n x) (printptr_loop n fd x).
Proof.
  revert x. induction n as [|n IH]; intros x; [apply prints_ret|]. apply prints_cons; [apply digit_byte|apply IH].
Qed.

Definition arg_ok (a : varg) : Prop := match a with VStr (Some s) => Forall is_byte s | _ => True end.

Lemma prints_vprintf fd fmt pc ap :
  Forall is_byte fmt → Forall arg_ok ap → prints fd (render fmt pc ap) (vprintf_loop fd fmt pc ap).
Proof.
  intros Hf. revert pc ap. induction Hf as [|c fmt Hc Hf IH]; intros pc ap Ha; [apply prints_ret|].
  assert (Ht : Forall arg_ok (tail ap)) by (destruct Ha; [constructor|done]).
  assert (Hs : Forall is_byte (cstr (default (bytes_of "(null)") (arg_str ap)))).
  { apply cstr_bytes. assert (H0 : Forall is_byte (bytes_of "(null)")) by (apply (bool_decide_unpack _); vm_compute; done).
    destruct Ha as [|[x|[s|]] ap Hx _]; done. }
  cbn [render vprintf_loop]. destruct (c =? 0); [apply prints_ret|]. destruct (negb pc).
  { destruct (c =? 37); [by apply IH|]. apply prints_cons; [done|by apply IH]. }
  destruct (c =? 100). { apply prints_bind; [apply prints_int; by left|by apply IH]. }
  destruct (c =? 108). { apply prints_bind; [apply prints_int; by left|by apply IH]. }
  destruct (c =? 120). { apply prints_bind; [apply prints_int; by right|by apply IH]. }
  destruct (c =? 112).
  { apply (prints_bind fd (48 :: 120 :: ptr_text 16 (u64 (arg_num ap)))); [|by apply IH].
    repeat (apply prints_cons; [done|]). apply prints_ptr. }
  destruct (c =? 115). { apply prints_bind; [by apply prints_puts|by apply IH]. }
  destruct (c =? 99).
  { apply (prints_bind fd [u8 (arg_num ap)]); [|by apply IH]. intros w Hw. apply wpu_write; [done|]. intros w' H. done. }
  destruct (c =? 37). { apply prints_cons; [done|by apply IH]. }
  apply prints_cons; [done|]. apply prints_cons; [done|by apply IH].
Qed.

Lemma prints_fprintf fd fmt ap :
  Forall is_byte fmt → Forall arg_ok ap → prints fd (render fmt false ap) (fprintf fd fmt ap).
Proof. apply prints_vprintf. Qed.

Lemma prints_printf fmt ap :
  Forall is_byte fmt → Forall arg_ok ap → prints 1 (render fmt false ap) (printf fmt ap).
Proof. apply prints_vprintf. Qed.

Lemma wpu_printf fmt ap w (Q : ending unit → W → Prop) :
  Forall is_byte fmt → Forall arg_ok ap → writable 1 w →
  (∀ w', wrote 1 (render fmt false ap) w w' → Q (Done ()) w') → wpu (printf fmt ap) Q w.
Proof.
  intros Hf Ha Hw HQ. eapply wpu_mono; [|by apply prints_printf]. intros e w' [-> H]. by apply HQ.
Qed.
End output.

Section numbers.
Context {W : Type} {WO : World W} {SW : Streams W}.

(** Numbers survive printing: for every [int] the call [printint(fd, x, 10, 1)]
    writes a text of at most 11 characters, so it stays inside its buffer of 16; the
    text of a non-negative number is read back by [atoi], and that of a negative
    number is a minus sign and the digits of its absolute value, [INT_MIN] included. *)
Theorem printint_atoi_roundtrip fd x w :
  - 2 ^ 31 ≤ x < 2 ^ 31 → writable fd w →
  wpu (printint fd x 10 true) (λ e w', ∃ l, e = Done () ∧ wrote fd l w w' ∧ (length l ≤ 11)%nat ∧
    if 0 <=? x then atoi l = x else ∃ ds, l = 45 :: ds ∧ dec_value ds 0 = - x) w.
Proof.
  intros Hx Hw. eapply wpu_mono; [|by apply prints_int; [left|]]. intros e w' [-> H].
  exists (int_text x 10 true). split_and!; [done|done| |].
  - unfold int_text. rewrite length_reverse. apply printint_fits. by left.
  - unfold int_text, printint_buf. cbn [andb]. destruct (Z.leb_spec 0 x) as [H0|H0].
    + rewrite (proj2 (Z.ltb_ge x 0)) by lia. rewrite app_nil_r, u32_small by lia.
      pose proof (digits_value 32 x 0 ltac:(split; [lia|]; eapply Z.lt_trans; [apply Hx|reflexivity])) as E.
      unfold atoi. rewrite <- (app_nil_r (reverse _)).
      rewrite atoi_value; [lia|apply Forall_reverse, digits_range|lia|lia|done].
    + rewrite (proj2 (Z.ltb_lt x 0)) by lia. rewrite u32_small by lia. rewrite reverse_app.
      eexists. split; [reflexivity|].
      rewrite (digits_value 32 (- x) 0) by (split; [lia|]; eapply Z.le_lt_trans with (2 ^ 31); [lia|reflexivity]). lia.
Qed.
End numbers.

Definition desk0 : desk := mkDesk ∅ ∅ [] {[1; 2]}.

Lemma desk0_writable : writable 1 desk0 ∧ writable 2 desk0.
Proof. unfold writable. simpl. set_solver. Qed.

Lemma printint_atoi_roundtrip_witness :
  wpu (printint 1 (- 2 ^ 31) 10 true) (λ e w', ∃ ds, e = Done () ∧ wrote 1 (45 :: ds) desk0 w' ∧
    dec_value ds 0 = 2 ^ 31) desk0.
Proof.
  eapply wpu_mono; [|apply (printint_atoi_roundtrip 1 (- 2 ^ 31) desk0); [split; [done|reflexivity]|apply desk0_writable]].
  intros e w' (l & He & Hw & _ & ds & El & Hv). exists ds. subst l. split; [exact He|]. split; [exact Hw|exact Hv].
Defined.
