(* ===== verification/Grep.v ===== *)
(** * [grep]

    [user/grep.c]: the matcher of Kernighan and Pike and the loop over the lines of a
    file.  The matcher decides the language of the pattern, and [grep] prints
    exactly the lines that match, however the kernel cuts the file into reads. *)

From stdpp Require Import prelude gmap strings list list_numbers.
From Stdlib Require Import ZArith Lia.
From S2P Require Import Prelude.
From S2P Require Import Riscv.
From S2P Require Import Types.
From S2P Require Import User.
From S2P Require Import Ulib.

(** ** The matcher *)

(** The loop of [matchstar], with [matchhere(re, _)]. *)
Fixpoint matchstar_loop (here : list Z → bool) (c : Z) (text : list Z) : bool :=
  match text with
  | [] => here []
  | t :: text' =>
      if here text then true
      else if (t <>? 0) && ((t =? c) || (c =? 46)) then matchstar_loop here c text' else false
  end.

Fixpoint matchhere (re text : list Z) : bool :=
  match re with
  | [] => true
  | r0 :: re1 =>
      if r0 =? 0 then true
      else if hd 0 re1 =? 42 then
        match re1 with _ :: re2 => matchstar_loop (matchhere re2) r0 text | [] => false end
      else if (r0 =? 36) && (hd 0 re1 =? 0) then hd 0 text =? 0
      else if (hd 0 text <>? 0) && ((r0 =? 46) || (r0 =? hd 0 text)) then matchhere re1 (tail text)
      else false
  end.

Definition matchstar (c : Z) (re text : list Z) : bool := matchstar_loop (matchhere re) c text.

(** [do { if(matchhere(re, text)) return 1; } while( *text++ != 0 )] *)
Fixpoint match_loop (re text : list Z) : bool :=
  match text with
  | [] => matchhere re []
  | t :: text' => if matchhere re text then true else if t =? 0 then false else match_loop re text'
  end.

Definition match_ (re text : list Z) : bool :=
  if hd 0 re =? 94 then matchhere (tail re) text else match_loop re text.

(** ** [grep] *)

(** [while((q = strchr(p, '\n')) != 0)]: [p] and the contents of [buf]. *)
Definition grep_lines_body (pattern : list Z) (x : nat * list Z) : prog (nat * list Z + nat * list Z) :=
  let '(p, buf) := x in
  match strchr (drop p buf) 10 with
  | None => Ret (inr (p, buf))
  | Some k =>
      let q := (p + k)%nat in
      buf ← set_byte buf (Z.of_nat q) 0;
      if match_ pattern (drop p buf) then
        buf ← set_byte buf (Z.of_nat q) 10;
        _ ← sys (CWrite 1 (slice p (q + 1 - p) buf));
        Ret (inl (q + 1, buf)%nat)
      else Ret (inl (q + 1, buf)%nat)
  end.

(** [while((n = read(fd, buf+m, sizeof(buf)-m-1)) > 0)]: [m] and the contents of [buf]. *)
Definition grep_body (pattern : list Z) (fd : Z) (x : nat * list Z) : prog (nat * list Z + list Z) :=
  let '(m, buf) := x in
  '(n, l) ← sys (CRead fd (1024 - Z.of_nat m - 1));
  if n <=? 0 then Ret (inr buf) else
  buf ← set_bytes buf (Z.of_nat m) l;
  let m := (m + Z.to_nat n)%nat in
  buf ← set_byte buf (Z.of_nat m) 0;
  '(p, buf) ← pwhile (grep_lines_body pattern) (O, buf);
  if (0 <? m)%nat then
    let m := (m - p)%nat in
    buf ← memmove buf 0 p m;
    Ret (inl (m, buf))
  else Ret (inl (m, buf)).

(** The global [buf] is passed in and out. *)
Definition grep (pattern : list Z) (fd : Z) (buf : list Z) : prog (list Z) := pwhile (grep_body pattern fd) (O, buf).

Fixpoint grep_files (pattern : list Z) (argv : list (list Z)) (buf : list Z) : prog unit :=
  match argv with
  | [] => Ret ()
  | a :: argv' =>
      fd ← sys (COpen a 0);
      if fd <? 0 then printf (bytes_of "grep: cannot open %s" ++ [10]) [VStr (Some a)];; exit_ 1
      else buf ← grep pattern fd buf; _ ← sys (CClose fd); grep_files pattern argv' buf
  end.

Definition main (argv : list (list Z)) : prog unit :=
  if (length argv <=? 1)%nat then fprintf 2 (bytes_of "usage: grep pattern [file ...]" ++ [10]) [];; exit_ 1 else
  let pattern := nth 1 argv [] in
  let buf := replicate 1024 0 in
  if (length argv <=? 2)%nat then _ ← grep pattern 0 buf; exit_ 0 else
  grep_files pattern (drop 2 argv) buf;; exit_ 0.

(** ** The language of a pattern *)

(** One element of a pattern: a character or any, once or any number of times. *)
Inductive item := One (c : Z) | Star (c : Z).

(** The elements of the pattern and whether it ends in [$]. *)
Fixpoint parse (re : list Z) : list item * bool :=
  match re with
  | [] => ([], false)
  | r0 :: re1 =>
      match re1 with
      | r1 :: re2 => if r1 =? 42 then (Star r0 :: (parse re2).1, (parse re2).2) else (One r0 :: (parse re1).1, (parse re1).2)
      | [] => if r0 =? 36 then ([], true) else ([One r0], false)
      end
  end.

Definition fits (c x : Z) : Prop := c = 46 ∨ c = x.

(** The words that the elements stand for. *)
Fixpoint word_of (l : list item) (w : list Z) : Prop :=
  match l with
  | [] => w = []
  | One c :: l' => ∃ x w', w = x :: w' ∧ fits c x ∧ word_of l' w'
  | Star c :: l' => ∃ a w', w = a ++ w' ∧ Forall (fits c) a ∧ word_of l' w'
  end.

(** The pattern matches at the beginning of the text. *)
Definition begins (re text : list Z) : Prop :=
  ∃ a b, text = a ++ b ∧ word_of (parse re).1 a ∧ ((parse re).2 = true → b = []).

(** What grep's documentation says of [^], [.], [*] and [$]. *)
Definition occurs (re text : list Z) : Prop :=
  match re with
  | 94 :: re' => begins re' text
  | _ => ∃ a b, text = a ++ b ∧ begins re b
  end.

Definition no_nul (l : list Z) : Prop := Forall (λ c, c ≠ 0) l.

(** ** The matcher decides the language *)

Lemma matchstar_loop_spec (here : list Z → bool) (P : list Z → Prop) c text :
  no_nul text → (∀ t, no_nul t → here t = true ↔ P t) →
  matchstar_loop here c text = true ↔ ∃ a b, text = a ++ b ∧ Forall (fits c) a ∧ P b.
Proof.
  intros Ht Hh. induction Ht as [|t text Ht0 Ht IH]; cbn [matchstar_loop].
  { rewrite Hh by constructor. split; [intros H; by exists [], []|].
    intros (a & b & E & _ & H). symmetry in E. by apply app_nil in E as [-> ->]. }
  assert (Hn : no_nul (t :: text)) by (by constructor).
  destruct (here (t :: text)) eqn:E.
  { split; [|done]. intros _. exists [], (t :: text). split_and!; [done|constructor|by apply Hh]. }
  assert (Hno : ¬ P (t :: text)) by (rewrite <- Hh by done; by rewrite E).
  rewrite (proj2 (Z.eqb_neq t 0) Ht0). cbn [negb andb].
  destruct ((t =? c) || (c =? 46)) eqn:Ec.
  - rewrite IH. split.
    + intros (a & b & -> & Ha & Hb). exists (t :: a), b. split_and!; [done| |done]. constructor; [|done].
      unfold fits. apply orb_prop in Ec as [E1%Z.eqb_eq|E1%Z.eqb_eq]; [right|left]; congruence.
    + intros ([|x a] & b & E1 & Ha & Hb); simpl in E1; [by rewrite <- E1 in Hb|].
      injection E1 as -> ->. inversion Ha; subst. by exists a, b.
  - split; [done|]. intros ([|x a] & b & E1 & Ha & Hb); simpl in E1; [by rewrite <- E1 in Hb|].
    exfalso. injection E1 as -> ->. inversion Ha as [|? ? Hf]; subst. apply orb_false_iff in Ec as [E1 E2].
    destruct Hf as [->| ->]; [done|]. by rewrite Z.eqb_refl in E1.
Qed.

(** The last case of [matchhere]. *)
Lemma matchhere_one r0 re1 t :
  no_nul t → parse (r0 :: re1) = (One r0 :: (parse re1).1, (parse re1).2) →
  (∀ t, no_nul t → matchhere re1 t = true ↔ begins re1 t) →
  (if (hd 0 t <>? 0) && ((r0 =? 46) || (r0 =? hd 0 t)) then matchhere re1 (tail t) else false) = true ↔ begins (r0 :: re1) t.
Proof.
  intros Hnt Ep IH. unfold begins. rewrite Ep. cbn [fst snd word_of].
  destruct Hnt as [|x t Hx Hnt]; cbn [hd tail].
  { split; [done|]. intros (a & b & E & (y & w & -> & _) & _). done. }
  rewrite (proj2 (Z.eqb_neq x 0) Hx). cbn [negb andb]. destruct ((r0 =? 46) || (r0 =? x)) eqn:Ec.
  - rewrite IH by done. unfold begins. split.
    + intros (a & b & -> & Hw & Hd). exists (x :: a), b. split_and!; [done| |done]. exists x, a. split_and!; [done| |done].
      unfold fits. apply orb_prop in Ec as [E1%Z.eqb_eq|E1%Z.eqb_eq]; auto.
    + intros (a & b & E & (y & w & -> & Hf & Hw) & Hd). simpl in E. injection E as <- ->. by exists w, b.
  - split; [done|]. intros (a & b & E & (y & w & -> & Hf & Hw) & Hd). simpl in E. injection E as <- ->. exfalso.
    apply orb_false_iff in Ec as [E1%Z.eqb_neq E2%Z.eqb_neq]. by destruct Hf.
Qed.

Lemma matchhere_spec re text :
  no_nul re → no_nul text → matchhere re text = true ↔ begins re text.
Proof.
  intros Hr. remember (length re) as n eqn:En. revert re text En Hr.
  induction (lt_wf n) as [n _ IH]; intros re text -> Hr Ht.
  destruct Hr as [|r0 re1 Hr0 Hr].
  { split; [|done]. intros _. by exists [], text. }
  assert (IH1 : ∀ t, no_nul t → matchhere re1 t = true ↔ begins re1 t)
    by (intros t Hnt; apply (IH (length re1)); [simpl; lia|done|done|done]).
  cbn [matchhere]. rewrite (proj2 (Z.eqb_neq r0 0) Hr0).
  destruct Hr as [|r1 re2 Hr1 Hr]; cbn [hd].
  - change (0 =? 42) with false. change (0 =? 0) with true. rewrite andb_true_r.
    destruct (Z.eqb_spec r0 36) as [->|Hne].
    + unfold begins. cbn [parse fst snd]. change (36 =? 36) with true. cbn [fst snd word_of].
      destruct Ht as [|x t Hx Ht]; cbn [hd].
      * split; [|done]. intros _. by exists [], [].
      * rewrite (proj2 (Z.eqb_neq x 0) Hx). split; [done|]. intros (a & b & E & -> & Hb). by rewrite (Hb eq_refl) in E.
    + apply matchhere_one; [done| |done]. cbn [parse]. by rewrite (proj2 (Z.eqb_neq r0 36) Hne).
  - destruct (Z.eqb_spec r1 42) as [->|Hne].
    + rewrite (matchstar_loop_spec _ (begins re2)); [|done|].
      2:{ intros t Hnt. apply (IH (length re2)); [simpl; lia|done|done|done]. }
      unfold begins. cbn [parse]. change (42 =? 42) with true. cbn [fst snd word_of]. split.
      * intros (a & b & -> & Ha & x & y & -> & Hw & Hd). exists (a ++ x), y. split_and!; [by rewrite (assoc_L (++))| |done].
        by exists a, x.
      * intros (a & b & -> & (x & y & -> & Hx & Hy) & Hd). exists x, (y ++ b). rewrite (assoc_L (++)). split_and!; [done|done|].
        by exists y, b.
    + rewrite (proj2 (Z.eqb_neq r1 0) Hr1), andb_false_r. apply matchhere_one; [done| |done]. cbn [parse].
      by rewrite (proj2 (Z.eqb_neq r1 42) Hne).
Qed.

Lemma match_loop_spec re text :
  no_nul re → no_nul text → match_loop re text = true ↔ ∃ a b, text = a ++ b ∧ begins re b.
Proof.
  intros Hr Ht. induction Ht as [|t text Ht0 Ht IH]; cbn [match_loop].
  { rewrite matchhere_spec by (done || constructor). split; [intros H; by exists [], []|].
    intros (a & b & E & H). symmetry in E. by apply app_nil in E as [-> ->]. }
  rewrite (proj2 (Z.eqb_neq t 0) Ht0). pose proof (matchhere_spec re (t :: text) Hr ltac:(by constructor)) as Hh.
  destruct (matchhere re (t :: text)).
  - split; [|done]. intros _. exists [], (t :: text). split; [done|by apply Hh].
  - rewrite IH. split.
    + intros (a & b & -> & H). by exists (t :: a), b.
    + intros ([|x a] & b & E & H); simpl in E; [subst; by apply Hh in H|]. injection E as -> ->. by exists a, b.
Qed.

Lemma match_spec re text : no_nul re → no_nul text → match_ re text = true ↔ occurs re text.
Proof.
  intros Hr Ht. unfold match_, occurs. destruct re as [|r0 re]; cbn [hd tail].
  { change (0 =? 94) with false. by apply match_loop_spec. }
  destruct (Z.eqb_spec r0 94) as [->|Hne].
  - apply matchhere_spec; [by inversion Hr|done].
  - rewrite match_loop_spec by done.
    destruct r0 as [|r0|r0]; try done. do 7 (destruct r0 as [r0|r0|]; try done).
Qed.

(** The matcher looks at a text up to its NUL only. *)
Lemma cstr_cases t : cstr t = [] ∧ hd 0 t = 0 ∨ ∃ x t', t = x :: t' ∧ x ≠ 0 ∧ cstr t = x :: cstr t'.
Proof.
  destruct t as [|x t]; [by left|]. simpl. destruct (Z.eqb_spec x 0) as [->|Hx]; [by left|]. right. by exists x, t.
Qed.

Lemma matchhere_cstr re text : matchhere re text = matchhere re (cstr text).
Proof.
  remember (length re) as n eqn:En. revert re text En. induction (lt_wf n) as [n _ IH]; intros re text ->.
  destruct re as [|r0 re1]; [done|]. cbn [matchhere]. destruct (r0 =? 0); [done|].
  assert (Hhd : hd 0 text = hd 0 (cstr text)) by (destruct (cstr_cases text) as [[-> ->]|(x & t & -> & _ & ->)]; done).
  destruct (hd 0 re1 =? 42).
  - destruct re1 as [|r1 re2]; [done|].
    assert (IH2 : ∀ t, matchhere re2 t = matchhere re2 (cstr t)) by (intros t; apply (IH (length re2)); [simpl; lia|done]).
    clear Hhd. induction text as [|t text IHt]; [done|]. cbn [matchstar_loop cstr]. rewrite (IH2 (t :: text)). cbn [cstr].
    destruct (t =? 0) eqn:E; cbn [matchstar_loop negb andb]; [by destruct (matchhere re2 [])|].
    rewrite IHt, E. done.
  - rewrite <- Hhd. destruct ((r0 =? 36) && (hd 0 re1 =? 0)); [done|].
    destruct ((hd 0 text <>? 0) && ((r0 =? 46) || (r0 =? hd 0 text))) eqn:Ec; [|done].
    rewrite (IH (length re1) ltac:(simpl; lia) re1 (tail text) eq_refl).
    destruct (cstr_cases text) as [[-> Hh]|(x & t & -> & _ & ->)]; [|done]. by rewrite Hh in Ec.
Qed.

Lemma match_cstr re text : match_ re text = match_ re (cstr text).
Proof.
  unfold match_. destruct (hd 0 re =? 94); [apply matchhere_cstr|].
  induction text as [|t text IH]; [done|]. cbn [match_loop cstr]. rewrite (matchhere_cstr re (t :: text)). cbn [cstr].
  destruct (t =? 0) eqn:E; cbn [match_loop]; [by destruct (matchhere re [])|]. by rewrite E, IH.
Qed.

Lemma cstr_hd t : hd 0 (cstr t) = hd 0 t.
Proof. destruct (cstr_cases t) as [[-> ->]|(x & t' & -> & _ & ->)]; done. Qed.

Lemma cstr_no_nul t : no_nul (cstr t).
Proof. induction t as [|x t IH]; simpl; [constructor|]. destruct (Z.eqb_spec x 0); by constructor. Qed.

Lemma ucstr_id t : no_nul t → cstr t = t.
Proof. induction 1 as [|x t Hx Ht IH]; simpl; [done|]. by rewrite (proj2 (Z.eqb_neq x 0) Hx), IH. Qed.

Lemma matchhere_cstr_re re text : matchhere re text = matchhere (cstr re) text.
Proof.
  remember (length re) as n eqn:En. revert re text En. induction (lt_wf n) as [n _ IH]; intros re text ->.
  destruct re as [|r0 re1]; [done|]. cbn [matchhere cstr]. destruct (Z.eqb_spec r0 0) as [->|H0]; [done|].
  cbn [matchhere]. rewrite (proj2 (Z.eqb_neq r0 0) H0), !cstr_hd.
  destruct (Z.eqb_spec (hd 0 re1) 42) as [E|E].
  - destruct re1 as [|r1 re2]; [done|]. cbn [hd] in E. subst r1. cbn [cstr]. change (42 =? 0) with false. cbv iota.
    assert (E2 : ∀ t, matchhere re2 t = matchhere (cstr re2) t) by (intros t; apply (IH (length re2)); [simpl; lia|done]).
    induction text as [|t text IHt]; cbn [matchstar_loop]; [apply E2|]. by rewrite IHt, E2.
  - by rewrite (IH (length re1) ltac:(simpl; lia) re1 (tail text) eq_refl).
Qed.

Lemma match_cstr_re re text : match_ re text = match_ (cstr re) text.
Proof.
  unfold match_. rewrite cstr_hd. destruct (Z.eqb_spec (hd 0 re) 94) as [E|E].
  - destruct re as [|r0 re]; [done|]. simpl in E. subst. apply matchhere_cstr_re.
  - induction text as [|t text IH]; cbn [match_loop]; [apply matchhere_cstr_re|]. by rewrite IH, matchhere_cstr_re.
Qed.

(** C34. The matcher is right: [match(re, text)] answers 1 exactly when the pattern
    occurs in the text, where the pattern is read as a sequence of characters, [.]
    for any character, a following [*] for any number of times, a leading [^] for
    the beginning of the text and a final [$] for its end. *)
Theorem match_decides_pattern re text : match_ re text = true ↔ occurs (cstr re) (cstr text).
Proof. rewrite match_cstr_re, match_cstr. apply match_spec; apply cstr_no_nul. Qed.

(** ** The loop over the lines *)

(** The complete lines of a text, without their newlines, and what follows. *)
Fixpoint lines (cur l : list Z) : list (list Z) * list Z :=
  match l with
  | [] => ([], cur)
  | c :: l' => if c =? 10 then (cur :: (lines [] l').1, (lines [] l').2) else lines (cur ++ [c]) l'
  end.

(** The lines that match, each with its newline. *)
Definition matching (pattern : list Z) (ls : list (list Z)) : list Z :=
  concat ((λ x, x ++ [10]) <$> filter (λ x, match_ pattern x = true) ls).

Definition no_newline (l : list Z) : Prop := Forall (λ c, c ≠ 10) l.

Lemma lines_app cur a b :
  lines cur (a ++ b) = ((lines cur a).1 ++ (lines (lines cur a).2 b).1, (lines (lines cur a).2 b).2).
Proof.
  revert cur. induction a as [|c a IH]; intros cur; simpl; [by destruct (lines cur b)|].
  destruct (c =? 10); [simpl; by rewrite IH|by rewrite IH].
Qed.

Lemma lines_no_newline cur a : no_newline a → lines cur a = ([], cur ++ a).
Proof.
  intros Ha. revert cur. induction Ha as [|c a Hc Ha IH]; intros cur; simpl; [by rewrite app_nil_r|].
  rewrite (proj2 (Z.eqb_neq c 10) Hc), IH. by rewrite <- (assoc_L (++)).
Qed.

Lemma lines_first cur a b : no_newline a → lines cur (a ++ 10 :: b) = ((cur ++ a) :: (lines [] b).1, (lines [] b).2).
Proof. intros Ha. rewrite lines_app, lines_no_newline by done. done. Qed.

Lemma lines_rest cur l : no_newline cur → no_newline (lines cur l).2.
Proof.
  revert cur. induction l as [|c l IH]; intros cur Hc; simpl; [done|]. destruct (Z.eqb_spec c 10); simpl.
  - apply IH. constructor.
  - apply IH. apply Forall_app. split; [done|]. by constructor.
Qed.

Lemma strchr_newline a b : no_nul a → no_newline a → strchr (a ++ 10 :: b) 10 = Some (length a).
Proof.
  intros Hn Ha. induction Ha as [|c a Hc Ha IH]; simpl; [done|]. inversion Hn; subst.
  rewrite (proj2 (Z.eqb_neq c 0)), (proj2 (Z.eqb_neq c 10)), IH by done. done.
Qed.

Lemma strchr_none a b : no_nul a → no_newline a → strchr (a ++ 0 :: b) 10 = None.
Proof.
  intros Hn Ha. induction Ha as [|c a Hc Ha IH]; simpl; [done|]. inversion Hn; subst.
  rewrite (proj2 (Z.eqb_neq c 0)), (proj2 (Z.eqb_neq c 10)), IH by done. done.
Qed.

(** The first newline of a text. *)
Lemma newline_cases l : no_newline l ∨ ∃ a b, l = a ++ 10 :: b ∧ no_newline a.
Proof.
  induction l as [|c l IH]; [left; constructor|]. destruct (Z.eq_dec c 10) as [->|Hc].
  - right. exists [], l. split; [done|constructor].
  - destruct IH as [IH|(a & b & -> & Ha)]; [left; by constructor|]. right. exists (c :: a), b. split; [done|by constructor].
Qed.

Lemma cstr_app a b : no_nul a → cstr (a ++ 0 :: b) = a.
Proof. induction 1 as [|x a Hx Ha IH]; simpl; [done|]. by rewrite (proj2 (Z.eqb_neq x 0) Hx), IH. Qed.

Lemma insert_mid (pre : list Z) a x y b : <[(length pre + length a)%nat := y]> (pre ++ a ++ x :: b) = pre ++ a ++ y :: b.
Proof. rewrite !(assoc_L (++)), <- length_app. by rewrite insert_app_r_alt, Nat.sub_diag by lia. Qed.

Section grep.
Context {W : Type} {WO : World W} {SW : Streams W}.
Context (pattern : list Z).

Lemma matching_cons l ls :
  matching pattern (l :: ls) = (if match_ pattern l then l ++ [10] else []) ++ matching pattern ls.
Proof.
  unfold matching. destruct (match_ pattern l) eqn:E.
  - by rewrite filter_cons_True.
  - by rewrite filter_cons_False by (by rewrite E).
Qed.

(** One line of the buffer. *)
Lemma grep_line pre a b w (Q : ending (nat * list Z + nat * list Z) → W → Prop) :
  writable 1 w → no_nul a → no_newline a →
  (∀ x w', wrote 1 (if match_ pattern a then a ++ [10] else []) w w' →
    Q (Done (inl ((length pre + length a + 1)%nat, pre ++ a ++ x :: b))) w') →
  wpu (grep_lines_body pattern (length pre, pre ++ a ++ 10 :: b)) Q w.
Proof.
  intros Hw Hn Ha HQ. unfold grep_lines_body. rewrite drop_app_length, strchr_newline by done.
  rewrite set_byte_ok by (rewrite !length_app; simpl; lia). rewrite pbind_ret. rewrite insert_mid.
  rewrite drop_app_length, match_cstr, cstr_app by done. specialize (HQ 10) as HQ1. specialize (HQ 0) as HQ2.
  destruct (match_ pattern a); [|apply HQ2; apply sent_nil].
  rewrite set_byte_ok by (rewrite !length_app; simpl; lia). rewrite pbind_ret. rewrite insert_mid.
  replace (slice (length pre) (length pre + length a + 1 - length pre) (pre ++ a ++ 10 :: b)) with (a ++ [10]).
  - apply wpu_write_sys; [done|]. intros w' H. by apply HQ1.
  - unfold slice. rewrite drop_app_length. change (10 :: b) with ([10] ++ b). rewrite (assoc_L (++)).
    rewrite take_app_length'; [done|]. rewrite length_app. simpl. lia.
Qed.

Lemma grep_lines_loop text tl w :
  writable 1 w → no_nul text → Z.of_nat (length text) < 2 ^ 64 →
  wpu (pwhile (grep_lines_body pattern) (O, text ++ 0 :: tl)) (λ e w', ∃ pre,
    e = Done (length pre, pre ++ (lines [] text).2 ++ 0 :: tl) ∧
    (length pre + length (lines [] text).2 = length text)%nat ∧
    wrote 1 (matching pattern (lines [] text).1) w w') w.
Proof.
  intros Hw Hn Hlen.
  apply (wpu_while _ (λ n x w1, ∃ pre t d, x = (length pre, pre ++ t ++ 0 :: tl) ∧ n = length t ∧ no_nul t ∧
    (length pre + length t = length text)%nat ∧ (lines [] t).2 = (lines [] text).2 ∧ writable 1 w1 ∧
    wrote 1 d w w1 ∧ d ++ matching pattern (lines [] t).1 = matching pattern (lines [] text).1) _ (length text)).
  2:{ exists [], text, []. split_and!; try done. apply sent_nil. }
  2:{ done. }
  intros n x w1 (pre & t & d & -> & -> & Ht & Hl & Er & Hw1 & Hd & Em).
  destruct (newline_cases t) as [Ht'|(a & b & -> & Ha)].
  - unfold grep_lines_body. rewrite drop_app_length, strchr_none by done. cbn [wpu].
    rewrite lines_no_newline in Er, Em by done. cbn [fst snd app] in Er, Em. rewrite app_nil_r in Em.
    exists pre. rewrite <- Er, <- Em. done.
  - apply Forall_app in Ht as [Hna Hnb]. inversion Hnb as [|? ? _ Hnb']; subst.
    rewrite lines_first in Er, Em by done. cbn [fst snd app] in Er, Em. rewrite <- (assoc_L (++) a).
    apply grep_line; [done|done|done|]. intros y w2 H2. exists (length b). split.
    { rewrite length_app. simpl. lia. }
    exists (pre ++ a ++ [y]), b, (d ++ (if match_ pattern a then a ++ [10] else [])). split_and!; try done.
    + f_equal; [rewrite !length_app; simpl; lia|]. by rewrite <- !(assoc_L (++)).
    + rewrite !length_app in *. simpl in *. lia.
    + by apply H2.
    + by eapply sent_app.
    + rewrite <- Em, matching_cons. by rewrite (assoc_L (++)).
Qed.

(** What is left to do for the bytes [cur] of an unfinished line and the rest [b]
    of the file; no line is longer than 1022 bytes. *)
Definition short (x : list (list Z) * list Z) : Prop := Forall (λ l, (length l ≤ 1022)%nat) (x.2 :: x.1).

Definition grep_inv (fd : Z) (l : list Z) (w0 : W) (n : nat) (x : nat * list Z) (w : W) : Prop :=
  ∃ cur b tl d, x = (length cur, cur ++ tl) ∧ length (cur ++ tl) = 1024%nat ∧ src fd w = Some b ∧ n = length b ∧
    no_nul (cur ++ b) ∧ no_newline cur ∧ short (lines cur b) ∧ writable 1 w ∧
    sent w = sent w0 ++ ((λ c, (1, c)) <$> d) ∧ d ++ matching pattern (lines cur b).1 = matching pattern (lines [] l).1.

Lemma short_cur cur b : no_newline cur → short (lines cur b) → (length cur ≤ 1022)%nat.
Proof.
  intros Hc Hs. revert cur Hc Hs. induction b as [|c b IH]; intros cur Hc Hs; simpl in Hs.
  { by inversion Hs. }
  destruct (Z.eqb_spec c 10).
  - inversion Hs as [|? ? _ H2]; subst. by inversion H2.
  - apply IH in Hs; [rewrite length_app in Hs; simpl in Hs; lia|]. apply Forall_app. split; [done|by constructor].
Qed.

Lemma short_app cur a b :
  short (lines cur (a ++ b)) → short (lines (lines cur a).2 b).
Proof.
  unfold short. rewrite lines_app. cbn [fst snd]. intros H. inversion H as [|? ? H1 H2]; subst.
  apply Forall_app in H2 as [_ H2]. by constructor.
Qed.

Lemma lines_nil cur a : no_newline cur → lines [] (cur ++ a) = lines cur a.
Proof. intros H. rewrite lines_app, lines_no_newline by done. simpl. by destruct (lines cur a). Qed.

Lemma no_nul_rest cur a : no_nul cur → no_nul a → no_nul (lines cur a).2.
Proof.
  intros Hc Ha. revert cur Hc. induction Ha as [|c a Hc0 Ha IH]; intros cur Hc; simpl; [done|].
  destruct (c =? 10); simpl; apply IH; [constructor|]. apply Forall_app. split; [done|by constructor].
Qed.

Lemma splice_mid (cur a tl : list Z) :
  (length a ≤ length tl)%nat → splice (length cur) a (cur ++ tl) = cur ++ a ++ drop (length a) tl.
Proof.
  intros H. unfold splice. rewrite take_app_length, drop_app_ge by lia. do 3 f_equal. lia.
Qed.

Lemma grep_body_ok fd l w0 n x w :
  grep_inv fd l w0 n x w →
  wpu (grep_body pattern fd x) (λ e w', match e with
    | Done (inl x') => ∃ m, (m < n)%nat ∧ grep_inv fd l w0 m x' w'
    | Done (inr buf) => length buf = 1024%nat ∧ sent w' = sent w0 ++ ((λ c, (1, c)) <$> matching pattern (lines [] l).1)
    | _ => False
    end) w.
Proof.
  intros (cur & b & tl & d & -> & Hlen & Hsrc & -> & Hnn & Hnl & Hsh & Hw & Hs & Em).
  pose proof (short_cur _ _ Hnl Hsh) as Hcur. unfold grep_body. rewrite length_app in Hlen.
  assert (H0 : 0 < 1024 - Z.of_nat (length cur) - 1) by lia.
  apply (wpu_read _ _ b); [done|done|]. intros a b' w1 -> Ha0 Hal (Hs1 & _ & Hse & Hwr & _). cbv beta iota.
  apply Forall_app in Hnn as [Hn1 Hn2]. apply Forall_app in Hn2 as [Hna Hnb].
  destruct a as [|c a].
  { rewrite (proj2 (Z.leb_le _ 0)) by (simpl; lia). cbn [wpu].
    rewrite Ha0 in Em by done. cbn [lines fst] in Em. unfold matching in Em at 1. simpl in Em. rewrite app_nil_r in Em.
    rewrite Hse, Hs, Em. by rewrite length_app. }
  set (ca := c :: a) in *. assert (Hpos : (1 ≤ length ca)%nat) by (simpl; lia). clearbody ca.
  rewrite (proj2 (Z.leb_gt _ 0)) by lia. rewrite set_bytes_ok by (rewrite length_app; lia). rewrite pbind_ret.
  rewrite splice_mid by lia. rewrite Nat2Z.id.
  destruct (drop (length ca) tl) as [|y tl'] eqn:Etl.
  { apply (f_equal length) in Etl. rewrite length_drop in Etl. simpl in Etl. lia. }
  assert (Hltl : (length ca + S (length tl') = length tl)%nat)
    by (apply (f_equal length) in Etl; rewrite length_drop in Etl; simpl in Etl; lia).
  rewrite set_byte_ok by (rewrite !length_app; simpl; lia). rewrite pbind_ret. rewrite insert_mid.
  rewrite (assoc_L (++)). apply wpu_bind. eapply wpu_mono; [|apply grep_lines_loop; [by apply Hwr|by apply Forall_app|]].
  2:{ rewrite length_app. lia. }
  intros e w2 (pre & -> & Hpre & Hwrote). cbn [then_].
  rewrite lines_nil in * by done. set (rest := (lines cur ca).2) in *. rewrite length_app in Hpre.
  assert (Hm : (length cur + length ca - length pre = length rest)%nat) by lia.
  rewrite (proj2 (Nat.ltb_lt 0 _)) by lia. rewrite Hm, umemmove_ok by (rewrite ?length_app; simpl; lia).
  rewrite pbind_ret. cbn [wpu]. exists (length b'). split; [rewrite length_app; lia|].
  replace (slice (length pre) (length rest) (pre ++ rest ++ 0 :: tl')) with rest.
  2:{ unfold slice. by rewrite drop_app_length, take_app_length. }
  exists rest, b', (drop (length rest) (pre ++ rest ++ 0 :: tl')), (d ++ matching pattern (lines cur ca).1). split_and!.
  - f_equal. 
  - rewrite length_app, length_drop, !length_app. simpl. lia.
  - destruct Hwrote as (_ & -> & _). exact Hs1.
  - done.
  - apply Forall_app. split; [by apply no_nul_rest|done].
  - by apply lines_rest.
  - by apply short_app.
  - destruct Hwrote as (_ & _ & -> & _). by apply Hwr.
  - destruct Hwrote as (-> & _). rewrite Hse, Hs, fmap_app. by rewrite (assoc_L (++)).
  - rewrite <- Em, lines_app. cbn [fst]. unfold matching. rewrite filter_app, fmap_app, concat_app. by rewrite (assoc_L (++)).
Qed.

(** C35. [grep] prints the lines that match and nothing else, in order and each with
    its newline, however the kernel cuts the file into the answers of [read]: lines
    that straddle two reads are put together in the buffer.  It is so for every file
    without NUL bytes and with lines of at most 1022 bytes, the longest ones that the
    buffer can hold; what follows the last newline is not printed. *)
Theorem grep_prints_matching fd buf l w :
  src fd w = Some l → writable 1 w → length buf = 1024%nat →
  no_nul l → short (lines [] l) → Z.of_nat (length l) < 2 ^ 64 →
  wpu (grep pattern fd buf) (λ e w', (∃ buf', e = Done buf' ∧ length buf' = 1024%nat) ∧
    sent w' = sent w ++ ((λ c, (1, c)) <$> matching pattern (lines [] l).1)) w.
Proof.
  intros Hs Hw Hb Hn Hsh Hlen. unfold grep. apply (wpu_while _ (grep_inv fd l w) _ (length l)); [|by exists [], l, buf, []; rewrite app_nil_r; split_and!; try done; constructor|done].
  intros n x w1 Hi. eapply wpu_mono; [|by apply (grep_body_ok fd l w n x w1)].
  intros [[x'|buf']|st|pa av|] w' H; try done. destruct H as [H1 H2]. split; [by exists buf'|done].
Qed.
End grep.

Definition text1 : list Z := bytes_of "ab" ++ [10] ++ bytes_of "cd" ++ [10] ++ bytes_of "be" ++ [10] ++ bytes_of "b".
Definition desk1 : desk := mkDesk {[3 := text1]} ∅ [] {[1]}.

Lemma grep_prints_matching_witness :
  wpu (grep (bytes_of "^.*b$") 3 (replicate 1024 0)) (λ e w', sent w' = (λ c, (1, c)) <$> (bytes_of "ab" ++ [10])) desk1.
Proof.
  eapply wpu_mono; [|apply (grep_prints_matching (bytes_of "^.*b$") 3 (replicate 1024 0) text1 desk1)].
  - intros e w' [_ E]. exact E.
  - reflexivity.
  - unfold writable. simpl. set_solver.
  - reflexivity.
  - apply (bool_decide_unpack _). vm_compute. reflexivity.
  - apply (bool_decide_unpack _). vm_compute. reflexivity.
  - reflexivity.
Defined.
