(* ===== verification/Utils.v ===== *)
(** * Small user programs

    [cat], [echo], [wc], [ln], [mkdir], [rm], [kill], [sleep], [zombie], [init],
    [forktest] and [stressfs] of [user/].  [cat] copies and [wc] counts whatever the
    kernel's [read] returns at a time. *)

From stdpp Require Import prelude gmap strings list list_numbers.
From Stdlib Require Import ZArith Lia.
From S2P Require Import Prelude.
From S2P Require Import Riscv.
From S2P Require Import Types.
From S2P Require Import User.
From S2P Require Import Ulib.

Definition nl : list Z := [10].

(** ** [cat.c] *)

Definition cat_body (fd : Z) (_ : unit) : prog (unit + Z) :=
  '(n, l) ← sys (CRead fd 512);
  if n <=? 0 then Ret (inr n) else
  r ← sys (CWrite 1 l);
  if r <>? n then fprintf 2 (bytes_of "cat: write error" ++ nl) [];; exit_ 1
  else Ret (inl ()).
Definition cat (fd : Z) : prog unit :=
  n ← pwhile (cat_body fd) ();
  if n <? 0 then fprintf 2 (bytes_of "cat: read error" ++ nl) [];; exit_ 1 else Ret ().

Fixpoint cat_files (argv : list (list Z)) : prog unit :=
  match argv with
  | [] => Ret ()
  | a :: argv' =>
      fd ← sys (COpen a 0);
      if fd <? 0 then fprintf 2 (bytes_of "cat: cannot open %s" ++ nl) [VStr (Some a)];; exit_ 1
      else cat fd;; _ ← sys (CClose fd); cat_files argv'
  end.
Definition cat_main (argv : list (list Z)) : prog unit :=
  if (length argv <=? 1)%nat then cat 0;; exit_ 0 else cat_files (tail argv);; exit_ 0.

(** ** [wc.c] *)

Record counts := mkCounts { wc_l : Z; wc_w : Z; wc_c : Z; wc_inword : bool }.

Definition spaces : list Z := bytes_of " " ++ [13; 9; 10; 11].

(** One iteration of [for(i=0; i<n; i++)]. *)
Definition wc_char (s : counts) (b : Z) : counts :=
  let c := i32 (wc_c s + 1) in
  let l := if b =? 10 then i32 (wc_l s + 1) else wc_l s in
  match strchr spaces b with
  | Some _ => mkCounts l (wc_w s) c false
  | None => if wc_inword s then mkCounts l (wc_w s) c true else mkCounts l (i32 (wc_w s + 1)) c true
  end.

Definition wc_body (fd : Z) (s : counts) : prog (counts + Z * counts) :=
  '(n, l) ← sys (CRead fd 512);
  if n <=? 0 then Ret (inr (n, s)) else Ret (inl (foldl wc_char s l)).
Definition wc (fd : Z) (name : list Z) : prog unit :=
  '(n, s) ← pwhile (wc_body fd) (mkCounts 0 0 0 false);
  if n <? 0 then printf (bytes_of "wc: read error" ++ nl) [];; exit_ 1 else
  printf (bytes_of "%d %d %d %s" ++ nl) [VNum (wc_l s); VNum (wc_w s); VNum (wc_c s); VStr (Some name)].

Fixpoint wc_files (argv : list (list Z)) : prog unit :=
  match argv with
  | [] => Ret ()
  | a :: argv' =>
      fd ← sys (COpen a 0);
      if fd <? 0 then printf (bytes_of "wc: cannot open %s" ++ nl) [VStr (Some a)];; exit_ 1
      else wc fd a;; _ ← sys (CClose fd); wc_files argv'
  end.
Definition wc_main (argv : list (list Z)) : prog unit :=
  if (length argv <=? 1)%nat then wc 0 [];; exit_ 0 else wc_files (tail argv);; exit_ 0.

(** ** [echo.c] *)

Fixpoint echo_args (argv : list (list Z)) : prog unit :=
  match argv with
  | [] => Ret ()
  | a :: argv' =>
      _ ← sys (CWrite 1 (cstr a));
      _ ← sys (CWrite 1 (match argv' with [] => nl | _ => bytes_of " " end));
      echo_args argv'
  end.
Definition echo_main (argv : list (list Z)) : prog unit := echo_args (tail argv);; exit_ 0.

(** ** [ln.c], [mkdir.c], [rm.c], [kill.c] *)

Definition ln_main (argv : list (list Z)) : prog unit :=
  if (length argv =? 3)%nat then
    r ← sys (CLink (nth 1 argv []) (nth 2 argv []));
    pwhen (r <? 0) (fprintf 2 (bytes_of "link %s %s: failed" ++ nl) [VStr (Some (nth 1 argv [])); VStr (Some (nth 2 argv []))]);;
    exit_ 0
  else fprintf 2 (bytes_of "Usage: ln old new" ++ nl) [];; exit_ 1.

Fixpoint mkdir_args (argv : list (list Z)) : prog unit :=
  match argv with
  | [] => Ret ()
  | a :: argv' =>
      r ← sys (CMkdir a);
      if r <? 0 then fprintf 2 (bytes_of "mkdir: %s failed to create" ++ nl) [VStr (Some a)] else mkdir_args argv'
  end.
Definition mkdir_main (argv : list (list Z)) : prog unit :=
  if (length argv <? 2)%nat then fprintf 2 (bytes_of "Usage: mkdir files..." ++ nl) [];; exit_ 1
  else mkdir_args (tail argv);; exit_ 0.

Fixpoint rm_args (argv : list (list Z)) : prog unit :=
  match argv with
  | [] => Ret ()
  | a :: argv' =>
      r ← sys (CUnlink a);
      if r <? 0 then fprintf 2 (bytes_of "rm: %s failed to delete" ++ nl) [VStr (Some a)] else rm_args argv'
  end.
Definition rm_main (argv : list (list Z)) : prog unit :=
  if (length argv <? 2)%nat then fprintf 2 (bytes_of "Usage: rm files..." ++ nl) [];; exit_ 1
  else rm_args (tail argv);; exit_ 0.

Fixpoint kill_args (argv : list (list Z)) : prog unit :=
  match argv with
  | [] => Ret ()
  | a :: argv' => _ ← sys (CKill (atoi a)); kill_args argv'
  end.
Definition kill_main (argv : list (list Z)) : prog unit :=
  if (length argv <? 2)%nat then fprintf 2 (bytes_of "usage: kill pid..." ++ nl) [];; exit_ 1
  else kill_args (tail argv);; exit_ 0.

(** ** [sleep.c], [zombie.c] *)

Definition sleep_main (argv : list (list Z)) : prog unit :=
  if negb (length argv =? 2)%nat then fprintf 2 (bytes_of "usage: sleep <time>" ++ nl) [];; exit_ 1 else
  let ticks := atoi (nth 1 argv []) in
  if ticks <=? 0 then fprintf 2 (bytes_of "Ticks must be a positive integer" ++ nl) [];; exit_ 1 else
  r ← sys (CSleep ticks);
  if r <? 0 then fprintf 2 (bytes_of "Sleep failed" ++ nl) [];; exit_ 1 else exit_ 0.

Definition zombie_main : prog unit :=
  pid ← sys CFork;
  (if 0 <? pid then _ ← sys (CSleep 5); Ret () else Ret ());;
  exit_ 0.

(** ** [init.c] *)

Definition init_wait_body (pid : Z) (_ : unit) : prog (unit + unit) :=
  '(wpid, _) ← sys CWait;
  if wpid =? pid then Ret (inr ())
  else if wpid <? 0 then printf (bytes_of "init: wait returned an error" ++ nl) [];; exit_ 1
  else Ret (inl ()).
Definition init_body (_ : unit) : prog (unit + unit) :=
  printf (bytes_of "init: starting sh" ++ nl) [];;
  pid ← sys CFork;
  if pid <? 0 then printf (bytes_of "init: fork failed" ++ nl) [];; exit_ 1 else
  if pid =? 0 then
    _ ← sys (CExec (bytes_of "sh") [bytes_of "sh"]);
    printf (bytes_of "init: exec sh failed" ++ nl) [];;
    exit_ 1
  else
    pwhile (init_wait_body pid) ();;
    Ret (inl ()).
Definition init_main : prog unit :=
  fd ← sys (COpen (bytes_of "console") O_RDWR);
  (if fd <? 0 then
     _ ← sys (CMknod (bytes_of "console") CONSOLE 0);
     _ ← sys (COpen (bytes_of "console") O_RDWR);
     Ret ()
   else Ret ());;
  _ ← sys (CDup 0);
  _ ← sys (CDup 0);
  pwhile init_body ().

(** ** [forktest.c] *)

Definition print (s : list Z) : prog unit := _ ← sys (CWrite 1 (cstr s)); Ret ().

(** [for(n=0; n<N; n++)]: the value of [n] at the end; [k] iterations are left. *)
Fixpoint forktest_forks (k : nat) (n : Z) : prog Z :=
  match k with
  | O => Ret n
  | S k' =>
      pid ← sys CFork;
      if pid <? 0 then Ret n else
      if pid =? 0 then exit_ 0 else forktest_forks k' (n + 1)
  end.
Fixpoint forktest_waits (n : nat) : prog unit :=
  match n with
  | O => Ret ()
  | S n' =>
      '(r, _) ← sys CWait;
      if r <? 0 then print (bytes_of "wait stopped early" ++ nl);; exit_ 1 else forktest_waits n'
  end.
Definition forktest : prog unit :=
  print (bytes_of "fork test" ++ nl);;
  n ← forktest_forks 1000 0;
  if n =? 1000 then print (bytes_of "fork claimed to work N times!" ++ nl);; exit_ 1 else
  forktest_waits (Z.to_nat n);;
  '(r, _) ← sys CWait;
  if r <>? -1 then print (bytes_of "wait got too many" ++ nl);; exit_ 1 else
  print (bytes_of "fork test OK" ++ nl).
Definition forktest_main : prog unit := forktest;; exit_ 0.

(** ** [stressfs.c] *)

(** [for(i = 0; i < 4; i++) if(fork() > 0) break;]: the value of [i] at the end. *)
Fixpoint stressfs_forks (k : nat) (i : Z) : prog Z :=
  match k with
  | O => Ret i
  | S k' => pid ← sys CFork; if 0 <? pid then Ret i else stressfs_forks k' (i + 1)
  end.
Fixpoint stressfs_writes (k : nat) (fd : Z) (data : list Z) : prog unit :=
  match k with
  | O => Ret ()
  | S k' => _ ← sys (CWrite fd data); stressfs_writes k' fd data
  end.
Fixpoint stressfs_reads (k : nat) (fd : Z) : prog unit :=
  match k with
  | O => Ret ()
  | S k' => _ ← sys (CRead fd 512); stressfs_reads k' fd
  end.
Definition stressfs_main : prog unit :=
  printf (bytes_of "stressfs starting" ++ nl) [];;
  data ← memset (replicate 512 0) 0 97 512;
  i ← stressfs_forks 4 0;
  printf (bytes_of "write %d" ++ nl) [VNum i];;
  let path := bytes_of "stressfs" ++ [48 + i] in
  fd ← sys (COpen path (Z.lor O_CREATE O_RDWR));
  stressfs_writes 20 fd data;;
  _ ← sys (CClose fd);
  printf (bytes_of "read" ++ nl) [];;
  fd ← sys (COpen path O_RDONLY);
  stressfs_reads 20 fd;;
  _ ← sys (CClose fd);
  _ ← sys CWait;
  exit_ 0.

(** ** [cat] copies *)

Section streams.
Context {W : Type} {WO : World W} {SW : Streams W}.

(** After some input from [fd] has been copied: [b] is left of it. *)
Definition copied (fd : Z) (b d : list Z) (w w' : W) : Prop :=
  src fd w' = Some b ∧ (∀ fd', fd' ≠ fd → src fd' w' = src fd' w) ∧
  sent w' = sent w ++ ((λ c, (1, c)) <$> d) ∧ (∀ fd', writable fd' w' ↔ writable fd' w) ∧ (∀ p, file p w' = file p w).

Lemma copied_step fd b b' d a w w1 w2 w3 :
  copied fd b d w w1 → took fd b' w1 w2 → wrote 1 a w2 w3 → copied fd b' (d ++ a) w w3.
Proof.
  intros (C1 & C2 & C3 & C4 & C5) (T1 & T2 & T3 & T4 & T5) (R1 & R2 & R3 & R4). split_and!.
  - by rewrite R2.
  - intros fd' H. by rewrite R2, T2, C2.
  - rewrite R1, T3, C3, fmap_app. by rewrite (assoc_L (++)).
  - intros fd'. by rewrite R3, T4, C4.
  - intros p. by rewrite R4, T5, C5.
Qed.

Lemma copied_end fd d w w1 w2 : copied fd [] d w w1 → took fd [] w1 w2 → copied fd [] d w w2.
Proof.
  intros (C1 & C2 & C3 & C4 & C5) (T1 & T2 & T3 & T4 & T5). split_and!; [done|..].
  - intros fd' H. by rewrite T2, C2.
  - by rewrite T3.
  - intros fd'. by rewrite T4, C4.
  - intros p. by rewrite T5, C5.
Qed.

Lemma cat_spec fd l w :
  src fd w = Some l → writable 1 w → Z.of_nat (length l) < 2 ^ 64 →
  wpu (cat fd) (λ e w', e = Done () ∧ copied fd [] l w w') w.
Proof.
  intros Hs Hw Hlen. unfold cat. apply wpu_bind.
  apply (wpu_while _ (λ n _ w1, ∃ d b, l = d ++ b ∧ n = length b ∧ copied fd b d w w1) _ (length l)); [| |done].
  2:{ exists [], l. split_and!; try done. split_and!; try done. simpl. by rewrite app_nil_r. }
  intros n [] w1 (d & b & -> & -> & Hc). unfold cat_body.
  apply (wpu_read _ _ b); [apply Hc|lia|]. intros a b' w2 -> Ha Hl Ht. cbv beta iota.
  destruct (Z.leb_spec (Z.of_nat (length a)) 0) as [H0|H0].
  - assert (a = []) as -> by (by apply nil_length_inv; lia). specialize (Ha eq_refl). simpl in Ha. subst b'.
    split; [done|]. rewrite app_nil_r. by apply (copied_end _ _ _ w1).
  - apply wpu_write_sys; [by apply Ht, Hc|]. intros w3 H3. rewrite Z.eqb_refl. cbn [negb wpu].
    exists (length b'). split; [rewrite length_app; lia|]. exists (d ++ a), b'. split_and!; [by rewrite (assoc_L (++))|done|].
    by eapply copied_step.
Qed.

Lemma cat_files_spec fs ls w :
  Forall2 (λ f l, file f w = Some l ∧ Z.of_nat (length l) < 2 ^ 64) fs ls → writable 1 w →
  wpu (cat_files fs) (λ e w', e = Done () ∧ sent w' = sent w ++ ((λ c, (1, c)) <$> concat ls)) w.
Proof.
  revert ls w. induction fs as [|f fs IH]; intros ls w H Hw; inversion H as [|? l ? ls' [Hf Hl] H']; subst.
  { split; [done|]. simpl. by rewrite app_nil_r. }
  cbn [cat_files]. apply wpu_open. intros fd w1 (S1 & W1 & F1 & Ho). rewrite Hf in Ho. destruct Ho as (Hfd & _ & Hs & Hoth).
  rewrite (proj2 (Z.ltb_ge fd 0)) by lia.
  apply wpu_bind. eapply wpu_mono; [|apply (cat_spec fd l); [done|by apply W1|done]].
  intros e w2 (-> & C1 & C2 & C3 & C4 & C5). eapply wpu_close; [done|]. intros r w3 (_ & D2 & D3 & D4 & D5).
  eapply wpu_mono; [|apply (IH ls')].
  - intros e w' [-> E]. split; [done|]. rewrite E, D3, C3, S1. cbn [concat]. rewrite fmap_app. by rewrite (assoc_L (++)).
  - eapply Forall2_impl; [exact H'|]. intros f' l' [E1 E2]. by rewrite D5, C5, F1.
  - by apply D4, C4, W1.
Qed.

(** [cat] copies: given files that exist, it writes their contents to its output,
    one after the other and nothing else, and exits with status 0, whatever number
    of bytes each [read] returns. *)
Theorem cat_concatenates name fs ls w :
  Forall2 (λ f l, file f w = Some l ∧ Z.of_nat (length l) < 2 ^ 64) fs ls → fs ≠ [] → writable 1 w →
  wpu (cat_main (name :: fs)) (λ e w', e = Exited 0 ∧ sent w' = sent w ++ ((λ c, (1, c)) <$> concat ls)) w.
Proof.
  intros H Hne Hw. unfold cat_main. destruct fs as [|f fs]; [done|]. cbn [length tail].
  replace (S (S (length fs)) <=? 1)%nat with false by done. apply wpu_bind.
  eapply wpu_mono; [|by apply cat_files_spec]. intros e w' [-> E]. done.
Qed.

(** ** [wc] counts *)

(** The words of a text: the maximal runs of other characters than spaces. *)
Fixpoint words (cur l : list Z) : list (list Z) :=
  match l with
  | [] => match cur with [] => [] | _ => [cur] end
  | c :: l' =>
      match strchr spaces c with
      | Some _ => match cur with [] => words [] l' | _ => cur :: words [] l' end
      | None => words (cur ++ [c]) l'
      end
  end.

(** The counters for a text. *)
Definition counted (l : list Z) (s : counts) : Prop :=
  wc_l s = Z.of_nat (length (filter (λ c, c = 10) l)) ∧ wc_w s = Z.of_nat (length (words [] l)) ∧
  wc_c s = Z.of_nat (length l) ∧
  wc_inword s = match last l with Some c => match strchr spaces c with Some _ => false | None => true end | None => false end.

Lemma words_snoc cur l c :
  length (words cur (l ++ [c])) = (length (words cur l) +
    match strchr spaces c with
    | Some _ => 0
    | None => match last l with
              | Some d => match strchr spaces d with Some _ => 1 | None => 0 end
              | None => match cur with [] => 1 | _ => 0 end
              end
    end)%nat.
Proof.
  revert cur. induction l as [|d l IH]; intros cur.
  - cbn [app words last]. destruct (strchr spaces c) as [k|]; destruct cur; simpl; lia.
  - rewrite last_cons. cbn [app words]. destruct (strchr spaces d) as [k|] eqn:Ed.
    + destruct cur as [|x cur]; cbn [length]; rewrite IH; destruct (last l); try rewrite Ed; done.
    + rewrite IH. destruct (last l); [done|]. rewrite Ed. by destruct cur.
Qed.

Lemma words_length cur l : (length (words cur l) ≤ length cur + length l)%nat.
Proof.
  revert cur. induction l as [|c l IH]; intros cur; cbn [words].
  - destruct cur; simpl; lia.
  - destruct (strchr spaces c).
    + pose proof (IH []). destruct cur; simpl in *; lia.
    + pose proof (IH (cur ++ [c])) as H. rewrite length_app in H. simpl in *. lia.
Qed.

Lemma counted_snoc l c s :
  counted l s → Z.of_nat (length (l ++ [c])) < 2 ^ 31 → counted (l ++ [c]) (wc_char s c).
Proof.
  intros (E1 & E2 & E3 & E4) Hl. rewrite length_app in Hl. simpl in Hl.
  assert (Hf : (length (filter (λ c, c = 10%Z) l) ≤ length l)%nat) by apply length_filter.
  pose proof (words_length [] l) as Hw. simpl in Hw. unfold counted. rewrite filter_app, !length_app, words_snoc, last_snoc.
  unfold wc_char. rewrite E1, E2, E3, E4. rewrite !i32_small by lia.
  assert (Ef : Z.of_nat (length (filter (λ c, c = 10) l) + length (filter (λ c, c = 10) [c])) =
    if c =? 10 then Z.of_nat (length (filter (λ c, c = 10) l)) + 1 else Z.of_nat (length (filter (λ c, c = 10) l))).
  { destruct (Z.eqb_spec c 10); [rewrite filter_cons_True by done|rewrite filter_cons_False by done]; simpl; lia. }
  rewrite Ef. destruct (strchr spaces c) as [k|] eqn:Ec.
  - split_and!; simpl; lia || done.
  - destruct (last l) as [d|]; [destruct (strchr spaces d)|]; split_and!; simpl; lia || done.
Qed.

Lemma counted_app l a s :
  counted l s → Z.of_nat (length (l ++ a)) < 2 ^ 31 → counted (l ++ a) (foldl wc_char s a).
Proof.
  revert l s. induction a as [|c a IH]; intros l s Hc Hl; simpl; [by rewrite app_nil_r|].
  change (c :: a) with ([c] ++ a) in *. rewrite (assoc_L (++)) in *. apply IH; [|done]. apply counted_snoc; [done|].
  rewrite !length_app in *. simpl in *. lia.
Qed.

(** [wc] counts right: for an input of less than 2^31 bytes it prints the number of
    newlines, of words (maximal runs of characters that are not spaces) and of bytes,
    and the name, also when a word is cut in two by the kernel's answers to [read]. *)
Theorem wc_counts fd name l w :
  src fd w = Some l → writable 1 w → Z.of_nat (length l) < 2 ^ 31 → Forall is_byte name →
  wpu (wc fd name) (λ e w', e = Done () ∧ sent w' = sent w ++ ((λ c, (1, c)) <$>
    render (bytes_of "%d %d %d %s" ++ nl) false
      [VNum (Z.of_nat (length (filter (λ c, c = 10) l))); VNum (Z.of_nat (length (words [] l)));
       VNum (Z.of_nat (length l)); VStr (Some name)])) w.
Proof.
  intros Hs Hw Hlen Hname. unfold wc. apply wpu_bind.
  apply (wpu_while _ (λ n s w1, ∃ d b, l = d ++ b ∧ n = length b ∧ counted d s ∧ src fd w1 = Some b ∧
    sent w1 = sent w ∧ writable 1 w1) _ (length l)); [| |lia].
  2:{ exists [], l. by split_and!. }
  intros n s w1 (d & b & -> & -> & Hc & Hs1 & Hse & Hw1). unfold wc_body.
  apply (wpu_read _ _ b); [done|lia|]. intros a b' w2 -> Ha Hl (T1 & T2 & T3 & T4 & T5). cbv beta iota.
  destruct (Z.leb_spec (Z.of_nat (length a)) 0) as [H0|H0].
  - assert (a = []) as -> by (by apply nil_length_inv; lia). specialize (Ha eq_refl). simpl in Ha. subst b'.
    cbn [wpu then_]. change (Z.of_nat (length (@nil Z)) <? 0) with false. cbv iota. rewrite app_nil_r.
    destruct Hc as (E1 & E2 & E3 & _). rewrite E1, E2, E3.
    apply (wpu_printf _ _ w2); [apply (bool_decide_unpack _); vm_compute; done|by repeat constructor|by apply T4|].
    intros w3 (R1 & _). split; [done|]. by rewrite R1, T3, Hse.
  - cbn [wpu]. exists (length b'). split; [rewrite length_app; lia|]. exists (d ++ a), b'. split_and!; try done.
    + by rewrite (assoc_L (++)).
    + apply counted_app; [done|]. rewrite !length_app in *. lia.
    + by rewrite T3.
    + by apply T4.
Qed.
End streams.

Definition desk2 : desk := mkDesk {[0 := bytes_of "one two" ++ nl]} {[bytes_of "a" := bytes_of "x"; bytes_of "b" := bytes_of "yz"]} [] {[1]}.

Lemma desk2_writable : writable 1 desk2.
Proof. unfold writable. simpl. set_solver. Qed.

Lemma wc_counts_witness :
  wpu (wc 0 (bytes_of "in")) (λ e w', sent w' = (λ c, (1, c)) <$> (bytes_of "1 2 8 in" ++ nl)) desk2.
Proof.
  eapply wpu_mono; [|apply (wc_counts 0 (bytes_of "in") (bytes_of "one two" ++ nl) desk2)].
  - intros e w' [_ E]. exact E.
  - reflexivity.
  - exact desk2_writable.
  - reflexivity.
  - apply (bool_decide_unpack _). vm_compute. reflexivity.
Defined.

Lemma cat_concatenates_witness :
  wpu (cat_main [bytes_of "cat"; bytes_of "a"; bytes_of "b"])
    (λ e w', e = Exited 0 ∧ sent w' = (λ c, (1, c)) <$> bytes_of "xyz") desk2.
Proof.
  eapply wpu_mono; [|apply (cat_concatenates (bytes_of "cat") [bytes_of "a"; bytes_of "b"] [bytes_of "x"; bytes_of "yz"] desk2)].
  - intros e w' [H1 H2]. split; [exact H1|exact H2].
  - constructor; [split; reflexivity|]. constructor; [split; reflexivity|constructor].
  - discriminate.
  - exact desk2_writable.
Defined.
