(* ===== verification/Files.v ===== *)
(** * [ls], [find] and [xargs]

    The programs of [user/ls.c], [user/find.c] and [user/xargs.c]. *)

From stdpp Require Import prelude gmap strings list list_numbers.
From Stdlib Require Import ZArith Lia.
From S2P Require Import Prelude.
From S2P Require Import Riscv.
From S2P Require Import Types.
From S2P Require Import User.
From S2P Require Import Ulib.
From S2P Require Import Grep.
From S2P Require Import Utils.

(** A directory entry as [read] delivers it: [inum] and the name. *)
Definition de_inum_of (l : list Z) : Z := get16 0 l.
Definition de_name_of (l : list Z) : list Z := slice 2 14 l.

(** ** [ls.c] *)

(** [for(p=path+strlen(path); p >= path && *p != '/'; p--)], then [p++]: the part of the
    path after the last slash.  [k] is [p - path + 1]. *)
Fixpoint fmtname_scan (k : nat) (path : list Z) : nat :=
  match k with
  | O => O
  | S k' => if nth k' path 0 =? 47 then k else fmtname_scan k' path
  end.

(** The result of [fmtname], up to its NUL; [buf] is the static buffer of 15 bytes,
    whose last byte stays 0. *)
Definition fmtname (path : list Z) : prog (list Z) :=
  let path := cstr path in
  let p := drop (fmtname_scan (S (length path)) path) path in
  if DIRSIZ <=? strlen p then Ret p else
  buf ← memcopy (replicate 15 0) 0 (take (Z.to_nat (strlen p)) p);
  buf ← memset buf (strlen p) 32 (Z.to_nat (DIRSIZ - strlen p));
  Ret (cstr buf).

(** The path of an entry: [buf] with [p = buf + strlen(path) + 1]. *)
Definition entry_path (buf : list Z) (p : Z) (de : list Z) : prog (list Z) :=
  buf ← memcopy buf p (de_name_of de);
  set_byte buf (p + DIRSIZ) 0.

Definition ls_body (fd p : Z) (buf : list Z) : prog (list Z + unit) :=
  '(n, de) ← sys (CRead fd 16);
  if n <>? 16 then Ret (inr ()) else
  if de_inum_of de =? 0 then Ret (inl buf) else
  buf ← entry_path buf p de;
  '(r, st) ← stat_ (cstr buf);
  if r <? 0 then printf (bytes_of "ls: cannot stat %s" ++ nl) [VStr (Some (cstr buf))];; Ret (inl buf) else
  name ← fmtname (cstr buf);
  (match st with
   | Some st => printf (bytes_of "%s %d %d %d" ++ nl)
       [VStr (Some name); VNum (st_type st); VNum (st_ino st); VNum (st_size st)]
   | None => Fault
   end);;
  Ret (inl buf).

Definition ls (path : list Z) : prog unit :=
  fd ← sys (COpen path 0);
  if fd <? 0 then fprintf 2 (bytes_of "ls: cannot open %s" ++ nl) [VStr (Some path)] else
  '(r, st) ← sys (CFstat fd);
  if r <? 0 then fprintf 2 (bytes_of "ls: cannot stat %s" ++ nl) [VStr (Some path)];; _ ← sys (CClose fd); Ret () else
  (if st_type st =? T_FILE then
     name ← fmtname path;
     printf (bytes_of "%s %d %d %l" ++ nl)
       [VStr (Some name); VNum (st_type st); VNum (st_ino st); VNum (st_size st)]
   else if st_type st =? T_DIR then
     if 512 <? strlen path + 1 + DIRSIZ + 1 then printf (bytes_of "ls: path too long" ++ nl) [] else
     buf ← strcpy (replicate 512 0) 0 path;
     let p := strlen buf in
     buf ← set_byte buf p 47;
     pwhile (ls_body fd (p + 1)) buf
   else Ret ());;
  _ ← sys (CClose fd);
  Ret ().

Fixpoint ls_args (argv : list (list Z)) : prog unit :=
  match argv with
  | [] => Ret ()
  | a :: argv' => ls a;; ls_args argv'
  end.
Definition ls_main (argv : list (list Z)) : prog unit :=
  if (length argv <? 2)%nat then ls (bytes_of ".");; exit_ 0 else ls_args (tail argv);; exit_ 0.

(** ** [find.c] *)

(** The body of the loop over the entries; [rec] is the recursive call. *)
Definition find_body (rec : list Z → prog unit) (target : list Z) (fd p : Z) (buf : list Z) : prog (list Z + unit) :=
  '(n, de) ← sys (CRead fd 16);
  if n <>? 16 then Ret (inr ()) else
  if de_inum_of de =? 0 then Ret (inl buf) else
  buf ← entry_path buf p de;
  '(r, st) ← stat_ (cstr buf);
  if r <? 0 then printf (bytes_of "find: cannot stat %s" ++ nl) [VStr (Some (cstr buf))];; Ret (inl buf) else
  match st with
  | None => Fault
  | Some st =>
      let name := de_name_of de in
      pwhen ((st_type st =? T_FILE) && (strcmp name target =? 0)) (printf (bytes_of "%s" ++ nl) [VStr (Some (cstr buf))]);;
      pwhen ((st_type st =? T_DIR) && (strcmp name (bytes_of ".") <>? 0) && (strcmp name (bytes_of "..") <>? 0))
        (rec (cstr buf));;
      Ret (inl buf)
  end.

(** Each level of the recursion makes the path longer, and a path of more than 496
    bytes is refused: a depth of 512 is never reached. *)
Fixpoint find (depth : nat) (target path : list Z) : prog unit :=
  match depth with
  | O => Fuel
  | S depth' =>
      fd ← sys (COpen path 0);
      if fd <? 0 then fprintf 2 (bytes_of "find: cannot open %s" ++ nl) [VStr (Some path)] else
      '(r, st) ← sys (CFstat fd);
      if r <? 0 then fprintf 2 (bytes_of "find: cannot stat %s" ++ nl) [VStr (Some path)];; _ ← sys (CClose fd); Ret () else
      if st_type st <>? T_DIR then
        fprintf 2 (bytes_of "find: %s is not a directory" ++ nl) [VStr (Some path)];; _ ← sys (CClose fd); Ret () else
      if 512 <? strlen path + 1 + DIRSIZ + 1 then
        printf (bytes_of "find: path too long" ++ nl) [];; _ ← sys (CClose fd); Ret () else
      buf ← strcpy (replicate 512 0) 0 path;
      let p := strlen buf in
      buf ← set_byte buf p 47;
      pwhile (find_body (find depth' target) target fd (p + 1)) buf;;
      _ ← sys (CClose fd);
      Ret ()
  end.

Definition find_main (argv : list (list Z)) : prog unit :=
  if negb (length argv =? 3)%nat then fprintf 2 (bytes_of "Usage: find <directory> <filename>" ++ nl) [];; exit_ 1 else
  find 512 (nth 2 argv []) (nth 1 argv []);; exit_ 0.

(** ** [xargs.c] *)

Definition MAX_LINE : Z := 512.

(** The loop that reads a line: the contents of [line] and [pos]. *)
Definition xargs_read_body (x : list Z * Z) : prog (list Z * Z + Z * list Z * Z) :=
  let '(line, pos) := x in
  '(r, l) ← sys (CRead 0 1);
  if (r <=? 0) || (hd 0 l =? 10) then Ret (inr (r, line, pos)) else
  if pos <? MAX_LINE - 1 then
    line ← set_byte line pos (hd 0 l);
    Ret (inl (line, pos + 1))
  else Ret (inl (line, pos)).

(** [while ( *p == ' ') { *p = 0; p++; }] *)
Fixpoint skip_spaces (n : nat) (line : list Z) (p : nat) : list Z * nat :=
  match n with
  | O => (line, p)
  | S n' => if nth p line 0 =? 32 then skip_spaces n' (<[p := 0]> line) (S p) else (line, p)
  end.
(** [while ( *p != ' ' && *p != 0) p++;] *)
Fixpoint skip_word (n : nat) (line : list Z) (p : nat) : nat :=
  match n with
  | O => p
  | S n' => if (nth p line 0 <>? 32) && (nth p line 0 <>? 0) then skip_word n' line (S p) else p
  end.

(** The loop that splits the line; [argv] are the positions in [line_argv]. *)
Fixpoint split_args (n : nat) (line : list Z) (p : nat) (argv : list nat) : prog (list Z * list nat) :=
  match n with
  | O => Fuel
  | S n' =>
      if nth p line 0 =? 0 then Ret (line, argv) else
      let '(line, p) := skip_spaces (length line) line p in
      if nth p line 0 =? 0 then Ret (line, argv) else
      if (MAXARG <=? length argv)%nat then Fault     (* line_argv[line_argc++] *)
      else split_args n' line (skip_word (length line) line p) (argv ++ [p])
  end.

Definition xargs_body (cmd : list (list Z)) (line : list Z) : prog (list Z + unit) :=
  '(r, line, pos) ← pwhile xargs_read_body (line, 0);
  line ← set_byte line pos 0;
  if r <? 0 then fprintf 2 (bytes_of "xargs: read error" ++ nl) [];; exit_ 1 else
  if (r =? 0) && (pos =? 0) then Ret (inr ()) else
  '(line, argv) ← split_args 513 line 0 [];
  if (MAXARG <=? length cmd + length argv)%nat then
    fprintf 2 (bytes_of "xargs: too many arguments" ++ nl) [];; exit_ 1 else
  let new_argv := cmd ++ ((λ p, cstr (drop p line)) <$> argv) in
  pid ← sys CFork;
  if pid <? 0 then fprintf 2 (bytes_of "xargs: fork failed" ++ nl) [];; exit_ 1 else
  if pid =? 0 then
    _ ← sys (CExec (nth 0 new_argv []) new_argv);
    fprintf 2 (bytes_of "xargs: exec %s failed" ++ nl) [VStr (Some (nth 0 new_argv []))];;
    exit_ 1
  else
    _ ← sys CWait;
    Ret (inl line).

Definition xargs_main (argv : list (list Z)) : prog unit :=
  if (length argv <? 2)%nat then fprintf 2 (bytes_of "Usage: xargs <command> [args...]" ++ nl) [];; exit_ 1 else
  pwhile (xargs_body (tail argv)) (replicate 512 0);;
  exit_ 0.

(** ** What [xargs] makes of a line *)

(** The arguments in a line: its maximal runs of other characters than blanks. *)
Fixpoint args_of (cur l : list Z) : list (list Z) :=
  match l with
  | [] => match cur with [] => [] | _ => [cur] end
  | c :: l' =>
      if c =? 32 then match cur with [] => args_of [] l' | _ => cur :: args_of [] l' end
      else args_of (cur ++ [c]) l'
  end.

(** The line with its blanks replaced. *)
Definition nul_blanks (l : list Z) : list Z := (λ c, if c =? 32 then 0 else c) <$> l.

Definition no_blank (l : list Z) : Prop := Forall (λ c, c ≠ 32) l.
Definition at_blank (l : list Z) : Prop := match l with [] => True | c :: _ => c = 32 end.

Lemma args_of_word cur w rest :
  no_blank w → at_blank rest → (cur ++ w ≠ [] → args_of cur (w ++ rest) = (cur ++ w) :: args_of [] rest).
Proof.
  intros Hw Hr. revert cur. induction Hw as [|c w Hc Hw IH]; intros cur Hne.
  - rewrite app_nil_r in *. simpl. destruct rest as [|c rest]; simpl; [by destruct cur|].
    simpl in Hr. subst. change (32 =? 32) with true. by destruct cur.
  - cbn [app args_of]. rewrite (proj2 (Z.eqb_neq c 32) Hc).
    rewrite IH by (by destruct cur). by rewrite <- (assoc_L (++)).
Qed.

Lemma args_of_blanks sp rest : Forall (λ c, c = 32) sp → args_of [] (sp ++ rest) = args_of [] rest.
Proof. induction 1 as [|c sp -> Hs IH]; simpl; done. Qed.

(** Blanks, then a word up to the next blank. *)
Lemma blanks_word l : ∃ sp w rest, l = sp ++ w ++ rest ∧ Forall (λ c, c = 32) sp ∧ no_blank w ∧ at_blank rest ∧ (w = [] → rest = []).
Proof.
  induction l as [|c l IH]; [exists [], [], []; split_and!; done || constructor|]. destruct (Z.eq_dec c 32) as [->|Hc].
  { destruct IH as (sp & w & rest & -> & H1 & H2 & H3 & H4). exists (32 :: sp), w, rest. split_and!; [done|by constructor|done..]. }
  clear IH. assert (H : ∃ w rest, l = w ++ rest ∧ no_blank w ∧ at_blank rest).
  { induction l as [|d l IH]; [exists [], []; split_and!; done || constructor|]. destruct (Z.eq_dec d 32) as [->|Hd].
    - exists [], (32 :: l). split_and!; [done|constructor|done].
    - destruct IH as (w & rest & -> & H1 & H2). exists (d :: w), rest. split_and!; [done|by constructor|done]. }
  destruct H as (w & rest & -> & H1 & H2). exists [], (c :: w), rest. split_and!; [done|constructor|by constructor|done|done].
Qed.

Lemma nth_mid (pre l : list Z) : nth (length pre) (pre ++ l) 0 = hd 0 l.
Proof. rewrite app_nth2, Nat.sub_diag by lia. by destruct l. Qed.

Lemma skip_spaces_ok n pre sp rest tl :
  Forall (λ c, c = 32) sp → hd 0 (rest ++ 0 :: tl) ≠ 32 → (length sp < n)%nat →
  skip_spaces n (pre ++ sp ++ rest ++ 0 :: tl) (length pre) =
    (pre ++ nul_blanks sp ++ rest ++ 0 :: tl, length (pre ++ sp)).
Proof.
  intros Hs Hh. revert n pre. induction Hs as [|c sp -> Hs IH]; intros n pre Hn; (destruct n as [|n]; [simpl in Hn; lia|]); cbn [skip_spaces].
  - rewrite nth_mid. cbn [app]. rewrite (proj2 (Z.eqb_neq _ 32)) by done. by rewrite app_nil_r.
  - rewrite nth_mid. cbn [app hd]. change (32 =? 32) with true. cbv iota.
    rewrite insert_app_r_alt, Nat.sub_diag by lia. cbn [list_insert]. change (<[0%nat := 0]> (32 :: sp ++ rest ++ 0 :: tl)) with (0 :: sp ++ rest ++ 0 :: tl).
    specialize (IH n (pre ++ [0])). rewrite <- !(assoc_L (++)) in IH. cbn [app] in IH.
    rewrite length_app in IH. cbn [length] in IH. rewrite Nat.add_1_r in IH. rewrite IH by (simpl in Hn; lia).
    f_equal. rewrite !length_app. simpl. lia.
Qed.

Lemma skip_word_ok n pre w rest tl :
  no_nul w → no_blank w → at_blank rest → (length w < n)%nat →
  skip_word n (pre ++ w ++ rest ++ 0 :: tl) (length pre) = length (pre ++ w).
Proof.
  intros Hz Hb Hr. revert n pre. induction Hb as [|c w Hc Hb IH]; intros n pre Hn; (destruct n as [|n]; [simpl in Hn; lia|]); cbn [skip_word].
  - rewrite nth_mid. cbn [app]. rewrite app_nil_r. destruct rest as [|c rest]; simpl; [done|]. simpl in Hr. by subst.
  - inversion Hz; subst. rewrite nth_mid. cbn [app hd].
    rewrite (proj2 (Z.eqb_neq c 32)), (proj2 (Z.eqb_neq c 0)) by done. cbn [negb andb].
    specialize (IH ltac:(done) n (pre ++ [c])). rewrite <- !(assoc_L (++)) in IH. cbn [app] in IH.
    rewrite length_app in IH. cbn [length] in IH. rewrite Nat.add_1_r in IH. rewrite IH by (simpl in Hn; lia).
    rewrite !length_app. simpl. done.
Qed.

Lemma nul_blanks_app a b : nul_blanks (a ++ b) = nul_blanks a ++ nul_blanks b.
Proof. apply fmap_app. Qed.
Lemma nul_blanks_word w : no_blank w → nul_blanks w = w.
Proof. induction 1 as [|c w Hc Hw IH]; simpl; [done|]. by rewrite (proj2 (Z.eqb_neq c 32) Hc), IH. Qed.
Lemma nul_blanks_length l : length (nul_blanks l) = length l.
Proof. apply length_fmap. Qed.

Lemma cstr_word w l : no_nul w → hd 0 l = 0 → cstr (w ++ l) = w.
Proof.
  intros Hw Hl. induction Hw as [|c w Hc Hw IH]; simpl.
  - destruct l as [|x l]; simpl in *; [done|]. by subst.
  - by rewrite (proj2 (Z.eqb_neq c 0) Hc), IH.
Qed.

Lemma nul_blanks_hd rest tl : at_blank rest → hd 0 (nul_blanks rest ++ 0 :: tl) = 0.
Proof. destruct rest as [|c rest]; simpl; [done|]. by intros ->. Qed.

(** One argument: the blanks before it are replaced, its position is found. *)
Lemma split_args_step n q sp w rest tl argv :
  no_nul (sp ++ w ++ rest) → Forall (λ c, c = 32) sp → no_blank w → at_blank rest → (w = [] → rest = []) → sp ++ w ≠ [] →
  split_args (S n) (q ++ (sp ++ w ++ rest) ++ 0 :: tl) (length q) argv =
    if decide (w = []) then Ret (q ++ nul_blanks sp ++ 0 :: tl, argv)
    else if (MAXARG <=? length argv)%nat then Fault
    else split_args n ((q ++ nul_blanks sp ++ w) ++ rest ++ 0 :: tl) (length (q ++ nul_blanks sp ++ w)) (argv ++ [length (q ++ sp)]).
Proof.
  intros Hz Hsp Hw Hb Hwr Hne. cbn [split_args]. rewrite nth_mid.
  assert (H0 : hd 0 ((sp ++ w ++ rest) ++ 0 :: tl) ≠ 0).
  { destruct sp as [|c sp]; [destruct w as [|c w]; [done|]|]; inversion Hz; done. }
  rewrite (proj2 (Z.eqb_neq _ 0) H0).
  apply Forall_app in Hz as [Hz1 Hz2]. apply Forall_app in Hz2 as [Hz2 Hz3].
  assert (Hh : hd 0 ((w ++ rest) ++ 0 :: tl) ≠ 32) by (destruct Hw as [|c w Hc Hw]; [by rewrite Hwr|done]).
  rewrite <- (assoc_L (++) sp). rewrite skip_spaces_ok by (done || (rewrite !length_app; simpl; lia)).
  replace (length (q ++ sp)) with (length (q ++ nul_blanks sp)) by (rewrite !length_app, nul_blanks_length; done).
  rewrite (assoc_L (++) q), nth_mid. case_decide as Hd.
  - subst w. rewrite Hwr by done. cbn [app hd]. by rewrite <- (assoc_L (++)).
  - assert (Hh0 : hd 0 ((w ++ rest) ++ 0 :: tl) ≠ 0) by (destruct w; [done|by inversion Hz2]).
    rewrite (proj2 (Z.eqb_neq _ 0) Hh0). destruct (MAXARG <=? length argv)%nat; [done|].
    rewrite <- (assoc_L (++) w). rewrite skip_word_ok by (done || (rewrite !length_app; simpl; lia)).
    by rewrite <- !(assoc_L (++)).
Qed.

(** The loop that splits a line: at most [MAXARG] arguments are found and terminated;
    the next one is written past the array. *)
Lemma split_args_ok n q rest tl argv :
  no_nul rest → (length rest < n)%nat →
  if decide (length argv + length (args_of [] rest) ≤ MAXARG)%nat then
    ∃ ps, split_args n (q ++ rest ++ 0 :: tl) (length q) argv = Ret (q ++ nul_blanks rest ++ 0 :: tl, argv ++ ps) ∧
      Forall2 (λ p w, cstr (drop p (q ++ nul_blanks rest ++ 0 :: tl)) = w) ps (args_of [] rest)
  else (length argv ≤ MAXARG)%nat → split_args n (q ++ rest ++ 0 :: tl) (length q) argv = Fault.
Proof.
  revert q rest argv. induction n as [|n IH]; intros q rest argv Hz Hn; [lia|].
  destruct (decide (rest = [])) as [->|Hne].
  { cbn [args_of app length split_args]. rewrite nth_mid. cbn [hd]. change (0 =? 0) with true. cbv iota.
    case_decide as Hd; [|simpl in *; lia]. exists []. rewrite app_nil_r. split; [done|constructor]. }
  destruct (blanks_word rest) as (sp & w & rest' & -> & Hsp & Hw & Hb & Hwr).
  assert (Hne' : sp ++ w ≠ []).
  { intros E. apply app_nil in E as [-> ->]. by rewrite Hwr in Hne. }
  rewrite args_of_blanks, split_args_step by done. pose proof (proj1 (Forall_app _ _ _) Hz) as [Hz1 Hz2].
  apply Forall_app in Hz2 as [Hz2 Hz3]. rewrite !nul_blanks_app, (nul_blanks_word w) by done.
  destruct (decide (w = [])) as [->|Hwn].
  { rewrite Hwr by done. cbn [args_of app length]. case_decide; [|simpl in *; lia]. exists [].
    rewrite app_nil_r. cbn [nul_blanks fmap list_fmap app]. rewrite app_nil_r. split; [done|constructor]. }
  rewrite args_of_word by done. cbn [app length]. rewrite !length_app in Hn.
  assert (Hw1 : (1 ≤ length w)%nat) by (destruct w; [done|simpl; lia]).
  specialize (IH (q ++ nul_blanks sp ++ w) rest' (argv ++ [length (q ++ sp)]) Hz3 ltac:(lia)).
  rewrite length_app in IH. cbn [length] in IH.
  destruct (Nat.leb_spec MAXARG (length argv)) as [Hm|Hm].
  { rewrite decide_False by lia. done. }
  destruct (decide (length argv + S (length (args_of [] rest')) ≤ MAXARG)%nat) as [Hd|Hd].
  - rewrite decide_True in IH by lia. destruct IH as (ps & E & Hps). exists (length (q ++ sp) :: ps).
    rewrite E. rewrite <- !(assoc_L (++)). split; [done|]. constructor; [|by rewrite <- !(assoc_L (++)) in Hps].
    replace (length (q ++ sp)) with (length (q ++ nul_blanks sp)) by (rewrite !length_app, nul_blanks_length; done).
    rewrite (assoc_L (++) q), drop_app_length. apply cstr_word; [done|by apply nul_blanks_hd].
  - rewrite decide_False in IH by lia. intros _. apply IH. lia.
Qed.

(** ** The commands [xargs] runs *)

(** What [xargs] relies on besides its input: [fork] and [wait] succeed and leave the
    descriptors alone, and the command can be loaded. *)
Class Spawns (W : Type) {WO : World W} {SW : Streams W} := {
  forks : W → nat;
  same_io : W → W → Prop := λ w w', (∀ fd, src fd w' = src fd w) ∧ sent w' = sent w;
  fork_some : ∀ w, ∃ r w', w_step CFork w r w';
  fork_step : ∀ w r w', w_step CFork w r w' → 0 ≤ r ∧ forks w' = S (forks w) ∧ same_io w w';
  wait_some : ∀ w, ∃ r w', w_step CWait w r w';
  wait_step : ∀ w r w', w_step CWait w r w' → forks w' = forks w ∧ same_io w w';
  exec_ok : ∀ path w, w_exec path w;
  exec_step : ∀ path argv w r w', ¬ w_step (CExec path argv) w r w';
  read_forks : ∀ fd n w r w', w_step (CRead fd n) w r w' → forks w' = forks w
}.

(** The lines of a text, the last one also without newline if it is not empty. *)
Definition input_lines (l : list Z) : list (list Z) :=
  (lines [] l).1 ++ match (lines [] l).2 with [] => [] | x => [x] end.

Section xargs.
Context {W : Type} {WO : World W} {SW : Streams W} {SP : Spawns W}.

Lemma read_line_ok a t line w :
  src 0 w = Some (a ++ t) → t = [] ∨ (∃ b, t = 10 :: b) → no_newline a → length line = 512%nat → (length a ≤ 511)%nat →
  wpu (pwhile xargs_read_body (line, 0)) (λ e w',
    e = Done (match t with [] => 0 | _ => 1 end, a ++ drop (length a) line, Z.of_nat (length a)) ∧
    src 0 w' = Some (tail t) ∧ sent w' = sent w ∧ forks w' = forks w) w.
Proof.
  intros Hs Ht Ha Hl Hal.
  apply (wpu_while _ (λ n x w1, ∃ d r, a = d ++ r ∧ n = length r ∧ x = (d ++ drop (length d) line, Z.of_nat (length d)) ∧
    src 0 w1 = Some (r ++ t) ∧ sent w1 = sent w ∧ forks w1 = forks w) _ (length a)); [| |lia].
  2:{ exists [], a. by split_and!. }
  intros n x w1 (d & r & -> & -> & -> & Hs1 & Hse & Hf). unfold xargs_read_body. rewrite length_app in Hal.
  split; [by eapply read_some|]. intros rr w2 Hr. pose proof (read_forks _ _ _ _ _ Hr) as Hf2.
  destruct (read_step _ _ _ _ _ _ Hs1 Z.lt_0_1 Hr) as (y & z & E & Hy & Hyl & -> & R1 & _ & R3 & _).
  assert (Hy1 : (length y ≤ 1)%nat) by lia.
  destruct r as [|c r].
  - rewrite app_nil_r in *. cbn [app] in E. destruct t as [|c t].
    + symmetry in E. apply app_nil in E as [-> ->]. cbn [mbind prog_bind length hd].
      change (Z.of_nat 0 <=? 0) with true. cbn [orb wpu]. rewrite R1, R3, Hse, Hf2, Hf. done.
    + destruct Ht as [|[b Eb]]; [done|]. injection Eb as -> ->.
      destruct y as [|y0 y]; [by specialize (Hy eq_refl)|]. destruct y; [|simpl in Hy1; lia]. injection E as <- <-.
      cbn [mbind prog_bind length hd]. change (Z.of_nat 1 <=? 0) with false.
      change (10 =? 10) with true. cbn [orb wpu]. rewrite R1, R3, Hse, Hf2, Hf. done.
  - destruct y as [|y0 y]; [by specialize (Hy eq_refl)|]. destruct y; [|simpl in Hy1; lia]. injection E as <- <-.
    apply Forall_app in Ha as [_ Ha]. inversion Ha as [|? ? Hc Ha']; subst.
    cbn [mbind prog_bind length]. change (Z.of_nat 1 <=? 0) with false. cbn [orb hd]. rewrite (proj2 (Z.eqb_neq c 10) Hc).
    rewrite (proj2 (Z.ltb_lt _ (MAX_LINE - 1))) by (unfold MAX_LINE; simpl in Hal; lia).
    rewrite set_byte_ok by (rewrite length_app, length_drop; simpl in Hal; lia). rewrite pbind_ret. cbn [wpu].
    exists (length r). split; [simpl; lia|]. exists (d ++ [c]), r. split_and!; try done.
    + by rewrite <- (assoc_L (++)).
    + f_equal; [|rewrite length_app; simpl; lia].
      rewrite insert_app_r_alt, Nat.sub_diag by lia.
      destruct (drop (length d) line) as [|x0 l0] eqn:El.
      { apply (f_equal length) in El. rewrite length_drop in El. simpl in *. lia. }
      rewrite length_app. cbn [length]. rewrite <- drop_drop, El. simpl. by rewrite <- (assoc_L (++)).
    + by rewrite R3.
    + by rewrite Hf2.
Qed.

Lemma input_lines_nl a b : no_newline a → input_lines (a ++ 10 :: b) = a :: input_lines b.
Proof. intros Ha. unfold input_lines. rewrite lines_first by done. done. Qed.
Lemma input_lines_last a : no_newline a → a ≠ [] → input_lines a = [a].
Proof. intros Ha Hne. unfold input_lines. rewrite lines_no_newline by done. cbn. by destruct a. Qed.

(** The first line, and what follows it. *)
Lemma first_line l :
  l = [] ∨ ∃ a t, l = a ++ t ∧ no_newline a ∧ (t = [] ∧ a ≠ [] ∨ ∃ b, t = 10 :: b) ∧ input_lines l = a :: input_lines (tail t).
Proof.
  destruct (decide (l = [])) as [->|Hne]; [by left|]. right. destruct (newline_cases l) as [Hl|(a & b & -> & Ha)].
  - exists l, []. rewrite app_nil_r. split_and!; [done|done|by left|]. by rewrite input_lines_last.
  - exists a, (10 :: b). split_and!; [done|done|by right; exists b|]. by rewrite input_lines_nl.
Qed.

(** A line that can be run with the command [cmd]. *)
Definition fit_line (cmd : list (list Z)) (a : list Z) : Prop :=
  (length a ≤ 511)%nat ∧ no_nul a ∧ (length cmd + length (args_of [] a) < MAXARG)%nat.

Definition xargs_ends (cmd : list (list Z)) (l : list Z) (w : W) (e : ending unit) (w' : W) : Prop :=
  match e with
  | Exited st => st = 0 ∧ forks w' = (forks w + length (input_lines l))%nat
  | Execed path argv =>
      ∃ i a, input_lines l !! i = Some a ∧ forks w' = (forks w + i + 1)%nat ∧
        path = nth 0 cmd [] ∧ argv = cmd ++ args_of [] a
  | _ => False
  end.

Lemma xargs_line cmd a t line w (Q : ending (list Z + unit) → W → Prop) :
  src 0 w = Some (a ++ t) → no_newline a → (t = [] ∧ a ≠ [] ∨ ∃ b, t = 10 :: b) → fit_line cmd a → length line = 512%nat →
  cmd ≠ [] →
  (∀ w', forks w' = S (forks w) → Q (Execed (nth 0 cmd []) (cmd ++ args_of [] a)) w') →
  (∀ line' w', length line' = 512%nat → forks w' = S (forks w) → src 0 w' = Some (tail t) → Q (Done (inl line')) w') →
  wpu (xargs_body cmd line) Q w.
Proof.
  intros Hs Ha Ht (Hal & Hz & Hn) Hl Hcmd Hexec Hnext. unfold xargs_body. apply wpu_bind.
  eapply wpu_mono; [|apply (read_line_ok a t line w); try done; destruct Ht as [[-> _]|[b ->]]; [by left|right; by exists b]].
  intros e w1 (-> & S1 & _ & F1). cbn [then_].
  rewrite set_byte_ok by (rewrite length_app, length_drop; lia). rewrite pbind_ret.
  rewrite insert_app_r_alt, Nat.sub_diag by lia.
  destruct (drop (length a) line) as [|x0 tl] eqn:El.
  { apply (f_equal length) in El. rewrite length_drop in El. simpl in El. lia. }
  assert (Htl : (length a + S (length tl) = 512)%nat) by (apply (f_equal length) in El; rewrite length_drop in El; simpl in El; lia).
  change (<[0%nat := 0]> (x0 :: tl)) with (0 :: tl). set (r := match t with [] => 0 | _ => 1 end).
  assert (Hr : (r <? 0) = false ∧ ((r =? 0) && (Z.of_nat (length a) =? 0)) = false).
  { unfold r. destruct Ht as [[-> Hne]|[b ->]]; [|done]. split; [done|]. destruct a; done. }
  destruct Hr as [-> ->].
  pose proof (split_args_ok 513 [] a tl [] Hz ltac:(lia)) as Hsp. cbn [length app Nat.add] in Hsp.
  rewrite decide_True in Hsp by lia. destruct Hsp as (ps & -> & Hps). rewrite pbind_ret.
  pose proof (Forall2_length _ _ _ Hps) as Hpl. rewrite (proj2 (Nat.leb_gt MAXARG _)) by lia.
  replace ((λ p, cstr (drop p (nul_blanks a ++ 0 :: tl))) <$> ps) with (args_of [] a).
  2:{ clear -Hps. induction Hps as [|p w ps ws E _ IH]; simpl; [done|]. by rewrite E, IH. }
  apply wpu_fork; [apply fork_some|]. intros pid w2 Hfk. destruct (fork_step _ _ _ Hfk) as (Hp & F2 & S2 & _).
  rewrite (proj2 (Z.ltb_ge pid 0)) by lia. destruct (Z.eqb_spec pid 0) as [->|Hp0].
  - apply wpu_exec; [left; apply exec_ok| |intros r' w' H; by apply exec_step in H].
    intros _. replace (nth 0 (cmd ++ args_of [] a) []) with (nth 0 cmd []) by (destruct cmd; done). apply Hexec. by rewrite F2, F1.
  - apply wpu_wait; [apply wait_some|]. intros [wp st] w3 Hwt. destruct (wait_step _ _ _ Hwt) as (F3 & S3 & _).
    apply Hnext; [rewrite length_app, nul_blanks_length; simpl; lia|by rewrite F3, F2, F1|by rewrite S3, S2].
Qed.

(** [xargs] runs its command once per input line, in order: the child of the i-th
    [fork] executes the command with its own arguments followed by the words of the
    i-th line, and the parent exits with status 0 after the last line; the last line
    counts even without its newline, an empty line runs the command without
    additional words.  Lines are at most 511 bytes, the size of the buffer, and the
    arguments fewer than [MAXARG]. *)
Theorem xargs_runs_lines name cmd l w :
  src 0 w = Some l → cmd ≠ [] → Forall (fit_line cmd) (input_lines l) → Z.of_nat (length (input_lines l)) < 2 ^ 63 →
  wpu (xargs_main (name :: cmd)) (xargs_ends cmd l w) w.
Proof.
  intros Hs Hcmd Hfit Hlen. unfold xargs_main. destruct cmd as [|c0 cmd0]; [done|]. set (cmd := c0 :: cmd0) in *.
  change (length (name :: cmd) <? 2)%nat with false. cbv iota. cbn [tail]. apply wpu_bind.
  apply (wpu_while _ (λ n line w1, ∃ d l1, input_lines l = d ++ input_lines l1 ∧ n = length (input_lines l1) ∧
    src 0 w1 = Some l1 ∧ forks w1 = (forks w + length d)%nat ∧ length line = 512%nat) _ (length (input_lines l))); [| |lia].
  2:{ exists [], l. split_and!; done || (simpl; lia). }
  intros n line w1 (d & l1 & El & -> & S1 & F1 & Hl). rewrite El in Hfit. apply Forall_app in Hfit as [_ Hfit].
  destruct (first_line l1) as [->|(a & t & -> & Ha & Ht & Ei)].
  - unfold xargs_body. apply wpu_bind. eapply wpu_mono; [|apply (read_line_ok [] [] line w1); [done|by left|constructor|done|simpl; lia]].
    intros e w2 (-> & S2 & _ & F2). cbn [then_ app length]. rewrite drop_0, (set_byte_ok line 0) by (rewrite Hl; lia). rewrite pbind_ret. cbn [wpu].
    split; [done|]. rewrite F2, F1, El, length_app. simpl. lia.
  - rewrite Ei in *. apply (xargs_line cmd a t line w1); try done.
    + by inversion Hfit.
    + intros w2 F2. exists (length d), a. split_and!; [|rewrite F2, F1; lia|done|done].
      by rewrite El, lookup_app_r, Nat.sub_diag by lia.
    + intros line' w2 Hl' F2 S2. exists (length (input_lines (tail t))). split; [simpl; lia|].
      exists (d ++ [a]), (tail t). split_and!; try done.
      * by rewrite El, <- (assoc_L (++)).
      * rewrite F2, F1, length_app. simpl. lia.
Qed.

(** The array [line_argv] of [xargs] overflows: the number of arguments is compared
    with [MAXARG] only after the line has been split, so a line of the allowed
    length with more than 32 words makes the program write past the array, before it
    has run the command for that line. *)
Theorem xargs_overflows name cmd a b w :
  src 0 w = Some (a ++ 10 :: b) → cmd ≠ [] → no_newline a → no_nul a → (length a ≤ 511)%nat →
  (MAXARG < length (args_of [] a))%nat →
  wpu (xargs_main (name :: cmd)) (λ e w', e = Faulted ∧ forks w' = forks w) w.
Proof.
  intros Hs Hcmd Ha Hz Hal Hn. unfold xargs_main. destruct cmd as [|c0 cmd0]; [done|]. set (cmd := c0 :: cmd0) in *.
  change (length (name :: cmd) <? 2)%nat with false. cbv iota. cbn [tail]. apply wpu_bind.
  apply (wpu_while _ (λ n line w1, n = O ∧ line = replicate 512 0 ∧ w1 = w) _ O); [|done|done].
  intros n line w1 (-> & -> & ->). unfold xargs_body. apply wpu_bind.
  eapply wpu_mono; [|apply (read_line_ok a (10 :: b) (replicate 512 0) w); try done; right; by exists b].
  intros e w1 (-> & _ & _ & F1). cbn [then_].
  rewrite set_byte_ok by (rewrite length_app, length_drop; simpl; lia). rewrite pbind_ret.
  rewrite insert_app_r_alt, Nat.sub_diag by lia.
  destruct (drop (length a) (replicate 512 0)) as [|x0 tl] eqn:El.
  { apply (f_equal length) in El. rewrite length_drop in El. simpl in El. lia. }
  change (<[0%nat := 0]> (x0 :: tl)) with (0 :: tl). cbn [andb]. change (1 <? 0) with false. change (1 =? 0) with false. cbv iota.
  pose proof (split_args_ok 513 [] a tl [] Hz ltac:(lia)) as Hsp. cbn [length app Nat.add] in Hsp.
  rewrite decide_False in Hsp by lia. rewrite Hsp by lia. done.
Qed.
End xargs.

(** ** A world in which programs can be started *)

Definition lab : Type := desk * nat.

Definition lab_step {R} (c : call R) (w : lab) : R → lab → Prop :=
  match c in call R' return R' → lab → Prop with
  | CFork => λ r w', 0 ≤ r ∧ w' = (w.1, S w.2)
  | CWait => λ r w', w' = w
  | CExec _ _ => λ _ _, False
  | c' => λ r w', desk_step c' w.1 r w'.1 ∧ w'.2 = w.2
  end.

#[export] Instance lab_world : World lab := {| w_step R c w r w' := lab_step c w r w'; w_exec _ _ := True |}.

#[export] Instance lab_streams : Streams lab.
Proof.
  refine {| src fd w := src fd w.1; sent w := sent w.1; writable fd w := writable fd w.1; file p w := file p w.1 |}.
  - intros fd n w l E Hn. destruct (read_some fd n w.1 l E Hn) as (r & w' & H). by exists r, (w', w.2).
  - intros fd n w l r w' E Hn [H _]. exact (read_step fd n w.1 l r w'.1 E Hn H).
  - intros fd l w Hw. destruct (write_some fd l w.1 Hw) as (r & w' & H). by exists r, (w', w.2).
  - intros fd l w r w' Hw [H _]. exact (write_step fd l w.1 r w'.1 Hw H).
  - intros path w. destruct (open_some path w.1) as (r & w' & H). by exists r, (w', w.2).
  - intros path w fd w' [H _]. exact (open_step path w.1 fd w'.1 H).
  - intros fd l w E. destruct (close_some fd l w.1 E) as (r & w' & H). by exists r, (w', w.2).
  - intros fd l w r w' E [H _]. exact (close_step fd l w.1 r w'.1 E H).
Defined.

#[export] Instance lab_spawns : Spawns lab.
Proof.
  refine {| forks := snd |}.
  - intros w. by exists 0, (w.1, S w.2).
  - intros w r w' [H ->]. split; [done|]. by split.
  - intros w. by exists (0, 0), w.
  - intros w r w' H. assert (w' = w) as E by exact H. subst w'. split; [done|]. by split.
  - done.
  - intros path argv w r w' H. exact H.
  - intros fd n w r w' [_ H]. exact H.
Defined.

Definition lab1 : lab := (mkDesk {[0 := bytes_of "a b" ++ [10] ++ bytes_of "c"]} ∅ [] {[1; 2]}, O).

Lemma xargs_runs_lines_witness :
  wpu (xargs_main [bytes_of "xargs"; bytes_of "echo"]) (xargs_ends [bytes_of "echo"] (bytes_of "a b" ++ [10] ++ bytes_of "c") lab1) lab1.
Proof.
  apply (xargs_runs_lines (bytes_of "xargs") [bytes_of "echo"] (bytes_of "a b" ++ [10] ++ bytes_of "c") lab1).
  - reflexivity.
  - discriminate.
  - apply (bool_decide_unpack _). vm_compute. reflexivity.
  - reflexivity.
Defined.

Definition many : list Z := concat (replicate 33 [120; 32]).
Definition lab2 : lab := (mkDesk {[0 := many ++ [10]]} ∅ [] {[1; 2]}, O).

Lemma xargs_overflows_witness :
  wpu (xargs_main [bytes_of "xargs"; bytes_of "echo"]) (λ e w', e = Faulted ∧ forks w' = forks lab2) lab2.
Proof.
  apply (xargs_overflows (bytes_of "xargs") [bytes_of "echo"] many [] lab2).
  - reflexivity.
  - discriminate.
  - apply (bool_decide_unpack _). vm_compute. reflexivity.
  - apply (bool_decide_unpack _). vm_compute. reflexivity.
  - vm_compute. lia.
  - vm_compute. lia.
Defined.
