(* ===== verification/Umalloc.v ===== *)
(** * The memory allocator of user programs: [user/umalloc.c]

    The Kernighan-Ritchie allocator: free blocks form a ring in the order of their
    addresses, closed by the static header [base]; [free] merges a block with its
    neighbours, and [malloc] takes the first block that is large enough, or asks [sbrk] for
    more.  A block is a header followed by the memory that the caller gets; [s.size]
    counts headers of 16 bytes. *)

From stdpp Require Import prelude gmap list.
From Stdlib Require Import ZArith Lia.
From S2P Require Import Prelude.
From S2P Require Import User.

(** ** The program *)

Record header := mkHeader { s_ptr : Z; s_size : Z }.

(** The headers in memory by address, and the variable [freep]. *)
Record heap := mkHeap { hdrs : gmap Z header; freep : Z }.

Definition HSIZE : Z := 16.   (** sizeof(Header) *)

Definition hdr (h : heap) (a : Z) : header := default (mkHeader 0 0) (hdrs h !! a).
Definition hptr (h : heap) (a : Z) : Z := s_ptr (hdr h a).
Definition hsize (h : heap) (a : Z) : Z := s_size (hdr h a).
Definition set_ptr (a v : Z) (h : heap) : heap := mkHeap (<[a := mkHeader v (hsize h a)]> (hdrs h)) (freep h).
Definition set_size (a v : Z) (h : heap) : heap := mkHeap (<[a := mkHeader (hptr h a) v]> (hdrs h)) (freep h).
Definition set_freep (v : Z) (h : heap) : heap := mkHeap (hdrs h) v.

(** [p + n] for a [Header *] *)
Definition hadd (p n : Z) : Z := u64 (p + HSIZE * n).

(** The [for] of [free], which leaves with [p] *)
Definition free_step (h : heap) (bp p : Z) : Z + Z :=
  if (p <? bp) && (bp <? hptr h p) then inr p
  else if (hptr h p <=? p) && ((p <? bp) || (bp <? hptr h p)) then inr p
  else inl (hptr h p).

(** [free] from the end of the loop on *)
Definition free_link (bp p : Z) (h : heap) : heap :=
  let h :=
    if hadd bp (hsize h bp) =? hptr h p then
      let h := set_size bp (u32 (hsize h bp + hsize h (hptr h p))) h in
      set_ptr bp (hptr h (hptr h p)) h
    else set_ptr bp (hptr h p) h in
  let h :=
    if hadd p (hsize h p) =? bp then
      let h := set_size p (u32 (hsize h p + hsize h bp)) h in
      set_ptr p (hptr h bp) h
    else set_ptr p bp h in
  set_freep p h.

Definition free (ap : Z) (h : heap) : prog heap :=
  let bp := u64 (ap - HSIZE) in
  p ← pwhile (λ p, Ret (free_step h bp p)) (freep h);
  Ret (free_link bp p h).

Definition morecore (nu : Z) (h : heap) : prog (Z * heap) :=
  let nu := if nu <? 4096 then 4096 else nu in
  p ← sys (CSbrk (i32 (u64 (nu * HSIZE))));
  if p =? -1 then Ret (0, h) else
  let h := set_size p nu h in
  h ← free (hadd p 1) h;
  Ret (freep h, h).

(** The body of the [for] of [malloc]: it leaves with the result. *)
Definition malloc_body (nunits : Z) (x : Z * Z * heap) : prog (Z * Z * heap + Z * heap) :=
  let '(prevp, p, h) := x in
  if nunits <=? hsize h p then
    let '(p, h) :=
      if hsize h p =? nunits then (p, set_ptr prevp (hptr h p) h)
      else
        let h := set_size p (u32 (hsize h p - nunits)) h in
        let p := hadd p (hsize h p) in
        (p, set_size p nunits h) in
    let h := set_freep prevp h in
    Ret (inr (hadd p 1, h))
  else if p =? freep h then
    r ← morecore nunits h;
    let '(p, h) := r in
    if p =? 0 then Ret (inr (0, h)) else Ret (inl (p, hptr h p, h))
  else Ret (inl (p, hptr h p, h)).

Definition units (nbytes : Z) : Z := u32 (u64 (nbytes + HSIZE - 1) / HSIZE + 1).

(** [base] is the address of the static header. *)
Definition malloc (base nbytes : Z) (h : heap) : prog (Z * heap) :=
  let nunits := units nbytes in
  let '(prevp, h) :=
    if freep h =? 0 then (base, set_size base 0 (set_freep base (set_ptr base base h))) else (freep h, h) in
  pwhile (malloc_body nunits) (prevp, hptr h prevp, h).

(** ** The ring of free blocks *)

Lemma hptr_set_ptr a v h b : hptr (set_ptr a v h) b = if decide (b = a) then v else hptr h b.
Proof. unfold hptr, hdr, set_ptr. simpl. case_decide; [subst; by rewrite lookup_insert_eq|by rewrite lookup_insert_ne]. Qed.
Lemma hsize_set_ptr a v h b : hsize (set_ptr a v h) b = hsize h b.
Proof. unfold hsize, hdr, set_ptr. simpl. destruct (decide (b = a)) as [->|]; [by rewrite lookup_insert_eq|by rewrite lookup_insert_ne]. Qed.
Lemma hsize_set_size a v h b : hsize (set_size a v h) b = if decide (b = a) then v else hsize h b.
Proof. unfold hsize, hdr, set_size. simpl. case_decide; [subst; by rewrite lookup_insert_eq|by rewrite lookup_insert_ne]. Qed.
Lemma hptr_set_size a v h b : hptr (set_size a v h) b = hptr h b.
Proof. unfold hptr, hdr, set_size. simpl. destruct (decide (b = a)) as [->|]; [by rewrite lookup_insert_eq|by rewrite lookup_insert_ne]. Qed.
Lemma hptr_set_freep v h b : hptr (set_freep v h) b = hptr h b.
Proof. done. Qed.
Lemma hsize_set_freep v h b : hsize (set_freep v h) b = hsize h b.
Proof. done. Qed.

Create HintDb heap.
#[export] Hint Rewrite hptr_set_ptr hsize_set_ptr hsize_set_size hptr_set_size hptr_set_freep hsize_set_freep : heap.

Ltac hsimpl := autorewrite with heap.

(** A block: its address and its size in headers. *)
Notation block := (Z * Z)%type.

Definition bend (b : block) : Z := b.1 + HSIZE * b.2.
Definition inb (b : block) (x : Z) : Prop := b.1 ≤ x < bend b.
Definition covered (F : list block) (x : Z) : Prop := ∃ b, b ∈ F ∧ inb b x.

(** Blocks in the order of their addresses, none of which touches the next. *)
Fixpoint gaps (lo : Z) (F : list block) : Prop :=
  match F with
  | [] => True
  | b :: F' => lo < b.1 ∧ 1 ≤ b.2 ∧ gaps (bend b) F'
  end.

(** The pointers lead from [x] through [l] to [y]. *)
Fixpoint path (h : heap) (x : Z) (l : list Z) (y : Z) : Prop :=
  match l with
  | [] => hptr h x = y
  | a :: l' => hptr h x = a ∧ path h a l' y
  end.

Lemma path_app h x l a r y : path h x (l ++ a :: r) y ↔ path h x l a ∧ path h a r y.
Proof.
  revert x. induction l as [|b l IH]; intros x; simpl; [done|]. rewrite IH. tauto.
Qed.

Lemma path_ext h h' x l y : (∀ a, a = x ∨ a ∈ l → hptr h' a = hptr h a) → path h x l y → path h' x l y.
Proof.
  revert x. induction l as [|b l IH]; intros x He; simpl.
  - rewrite He by (by left). done.
  - intros [H1 H2]. split; [by rewrite He by (by left)|]. apply IH; [|done].
    intros a [->|Ha]; apply He; right; set_solver.
Qed.

Lemma path_lookup h x l y i a : path h x l y → (x :: l) !! i = Some a → hptr h a = default y (l !! i).
Proof.
  revert x i. induction l as [|b l IH]; intros x [|i]; simpl.
  - intros <- [= <-]. done.
  - done.
  - intros [<- _] [= <-]. done.
  - intros [_ H] Hi. by apply (IH b i).
Qed.

Lemma gaps_app lo F G : gaps lo (F ++ G) ↔ gaps lo F ∧ gaps (match last F with Some b => bend b | None => lo end) G.
Proof.
  revert lo. induction F as [|b F IH]; intros lo; simpl; [tauto|]. rewrite IH.
  assert (E : match last F with Some c => bend c | None => bend b end =
    match last (b :: F) with Some c => bend c | None => lo end) by (rewrite last_cons; by destruct (last F)).
  rewrite E. tauto.
Qed.

Lemma gaps_low lo F b : gaps lo F → b ∈ F → lo < b.1 ∧ 1 ≤ b.2.
Proof.
  revert lo. induction F as [|c F IH]; intros lo; [set_solver|]. simpl. intros (H1 & H2 & H3) [->|Hb]%elem_of_cons; [done|].
  destruct (IH _ H3 Hb) as [G1 G2]. unfold bend, HSIZE in *. lia.
Qed.

Lemma gaps_mono lo lo' F : lo' ≤ lo → gaps lo F → gaps lo' F.
Proof. destruct F; simpl; [done|]. intros ? (? & ? & ?). split_and!; [lia|done|done]. Qed.

Lemma gaps_step lo F i a b : gaps lo F → (lo :: F.*1) !! i = Some a → F.*1 !! i = Some b → a < b.
Proof.
  revert lo i. induction F as [|c F IH]; intros lo [|i]; simpl; try done.
  - intros (H & _) [= <-] [= <-]. done.
  - intros (H1 & H2 & H3) Ha Hb. apply (gaps_mono _ c.1) in H3; [|unfold bend, HSIZE; lia]. by apply (IH c.1 i).
Qed.

(** A block that overlaps none of the others has a place among them. *)
Lemma gaps_split lo F bp sz : gaps lo F → 1 ≤ sz → (∀ b, b ∈ F → bend b ≤ bp ∨ bend (bp, sz) ≤ b.1) →
  ∃ L R, F = L ++ R ∧ (∀ b, b ∈ L → bend b ≤ bp) ∧ (∀ b, b ∈ R → bend (bp, sz) ≤ b.1).
Proof.
  revert lo. induction F as [|c F IH]; intros lo Hg Hsz Hd; [exists [], []; split_and!; [done|set_solver|set_solver]|].
  simpl in Hg. destruct Hg as (H1 & H2 & H3). destruct (Hd c) as [Hc|Hc]; [by left| |].
  - destruct (IH _ H3 Hsz) as (L & R & -> & HL & HR); [intros b Hb; apply Hd; by right|].
    exists (c :: L), R. split_and!; [done| |done]. intros b [->|Hb]%elem_of_cons; auto.
  - exists [], (c :: F). split_and!; [done|set_solver|]. intros b [->|Hb]%elem_of_cons; [done|].
    pose proof (proj1 (gaps_low _ _ _ H3 Hb)). unfold bend, HSIZE in *. simpl in *. lia.
Qed.

Lemma base_lt lo F i a : gaps lo F → F.*1 !! i = Some a → lo < a.
Proof.
  intros Hg Hi. apply list_lookup_fmap_Some in Hi as (b & -> & Hb). apply (gaps_low lo F); [done|by eapply list_elem_of_lookup_2].
Qed.

Lemma gaps_length lo top F : gaps lo F → (∀ b, b ∈ F → bend b ≤ top) → lo ≤ top → HSIZE * Z.of_nat (length F) ≤ top - lo.
Proof.
  revert lo. induction F as [|b F IH]; intros lo Hg Ht Hl; [simpl; lia|]. simpl in Hg. destruct Hg as (H1 & H2 & H3).
  assert (bend b ≤ top) by (apply Ht; by left). specialize (IH (bend b) H3 ltac:(intros c Hc; apply Ht; by right) ltac:(done)).
  unfold bend, HSIZE in *. simpl length. lia.
Qed.

Lemma lookup_last (x : Z) l r : (x :: l ++ r) !! length l = Some (default x (last l)).
Proof.
  revert x. induction l as [|a l IH]; intros x; [done|]. change ((a :: l ++ r) !! length l = Some (default x (last (a :: l)))).
  rewrite IH, last_cons. by destruct (last l).
Qed.

Section allocator.
Context (base : Z).

(** The heap [h] holds the free blocks [F]; every block ends below [TOP]. *)
Definition TOP : Z := 2 ^ 32.
Record rep (F : list block) (h : heap) : Prop := mkrep {
  rp_base : 0 < base;
  rp_gaps : gaps (base + HSIZE - 1) F;
  rp_path : path h base F.*1 base;
  rp_size : ∀ b, b ∈ F → hsize h b.1 = b.2;
  rp_zero : hsize h base = 0;
  rp_freep : freep h ∈ base :: F.*1;
  rp_top : ∀ b, b ∈ F → bend b ≤ TOP
}.

Lemma rep_gaps F h : rep F h → gaps base F.
Proof. intros H. eapply gaps_mono; [|apply H]. unfold HSIZE. lia. Qed.

Context {W : Type} {WO : World W}.

(** The loop of [free] finds the block in front of [bp]. *)
Lemma free_search L R h bp w :
  rep (L ++ R) h → base < bp → (∀ b, b ∈ L → b.1 < bp) → (∀ b, b ∈ R → bp < b.1) →
  wpu (pwhile (λ p, Ret (free_step h bp p)) (freep h)) (λ e w', e = Done (default base (last L.*1)) ∧ w' = w) w.
Proof.
  intros Hr Hb HL HR. pose proof (rep_gaps _ _ Hr) as Hg.
  assert (HN : HSIZE * Z.of_nat (length (L ++ R)) ≤ TOP).
  { destruct Hr as [Hb0 Hg' _ _ _ _ Ht]. destruct (L ++ R) as [|b F] eqn:EF; [done|].
    pose proof (gaps_length base TOP (b :: F) Hg Ht) as H. simpl in Hg. pose proof (Ht b ltac:(by left)). unfold bend, HSIZE in *. lia. }
  destruct Hr as [_ _ Hp _ _ Hf _].
  set (ns := (L ++ R).*1) in *. apply list_elem_of_lookup in Hf as [i0 Hi0].
  assert (Hlen : length ns = (length L + length R)%nat) by (unfold ns; by rewrite length_fmap, length_app).
  set (t := length L). set (n := length ns).
  apply (wpu_while _ (λ m p w', w' = w ∧ ∃ i, (base :: ns) !! i = Some p ∧ m = if decide (i ≤ t)%nat then (t - i)%nat else (S n - i + t)%nat)
    _ (if decide (i0 ≤ t)%nat then (t - i0)%nat else (S n - i0 + t)%nat)); [|by split; [|exists i0]|].
  2: { apply lookup_lt_Some in Hi0. simpl in Hi0. unfold t, n in *. rewrite length_app in HN. unfold HSIZE, TOP in HN. case_decide; lia. }
  intros m p w' (-> & i & Hi & ->). pose proof (path_lookup _ _ _ _ _ _ Hp Hi) as Hnext.
  assert (Hmem : ∀ j a, (base :: ns) !! j = Some a → (j ≤ t)%nat → a < bp).
  { intros [|j] a; [by intros [= <-]|]. simpl. unfold ns. rewrite fmap_app. intros Hj Hjt.
    rewrite lookup_app_l in Hj by (rewrite length_fmap; lia). apply list_lookup_fmap_Some in Hj as (b & -> & Hb'). apply HL. by eapply list_elem_of_lookup_2. }
  assert (Hmem' : ∀ j a, (base :: ns) !! j = Some a → (t < j)%nat → bp < a).
  { intros [|j] a; [lia|]. simpl. unfold ns. rewrite fmap_app. intros Hj Hjt.
    rewrite lookup_app_r in Hj by (rewrite length_fmap; lia). apply list_lookup_fmap_Some in Hj as (b & -> & Hb'). apply HR. by eapply list_elem_of_lookup_2. }
  cbn [wpu]. unfold free_step. rewrite Hnext.
  destruct (decide (i = t)) as [->|Hit].
  - pose proof (Hmem _ _ Hi ltac:(lia)) as Hlt. rewrite (proj2 (Z.ltb_lt _ _) Hlt).
    assert (Ep : p = default base (last L.*1)).
    { unfold ns in Hi. rewrite fmap_app in Hi. unfold t in Hi. rewrite <- (length_fmap fst L), lookup_last in Hi. by injection Hi. }
    destruct (ns !! t) as [q|] eqn:Eq; simpl default.
    + rewrite (proj2 (Z.ltb_lt bp q)) by (apply (Hmem' (S t)); [done|lia]). by rewrite <- Ep.
    + rewrite (proj2 (Z.ltb_ge bp base)) by lia. rewrite (proj2 (Z.leb_le base p)); [by rewrite <- Ep|].
      destruct t as [|t']; [injection Hi; lia|]. apply Z.lt_le_incl. by eapply base_lt.
  - assert (Hstep : (ns !! i = None → ¬ (i ≤ t)%nat) ∧ ∃ j, (base :: ns) !! j = Some (default base (ns !! i)) ∧
      ((if decide (j ≤ t) then t - j else S n - j + t) < (if decide (i ≤ t) then t - i else S n - i + t))%nat).
    { apply lookup_lt_Some in Hi as Hlt. simpl in Hlt. fold n in Hlt. destruct (ns !! i) as [q|] eqn:Eq; split; try done.
      - exists (S i). split; [done|]. apply lookup_lt_Some in Eq. fold n in Eq. repeat case_decide; lia.
      - intros _. apply lookup_ge_None in Eq. unfold t. lia.
      - exists 0%nat. split; [done|]. apply lookup_ge_None in Eq. unfold t, n in *. repeat case_decide; lia. }
    destruct Hstep as [Hnone (j & Hj & Hm)].
    assert (Hcond : ((p <? bp) && (bp <? default base (ns !! i)) = false) ∧
      ((default base (ns !! i) <=? p) && ((p <? bp) || (bp <? default base (ns !! i))) = false)).
    { destruct (ns !! i) as [q|] eqn:Eq; simpl default.
      - pose proof (gaps_step _ _ _ _ _ Hg Hi Eq) as Hpq. destruct (decide (i ≤ t)%nat).
        + pose proof (Hmem (S i) q Eq ltac:(lia)). rewrite (proj2 (Z.ltb_ge bp q)), (proj2 (Z.leb_gt q p)), andb_false_r by lia. done.
        + pose proof (Hmem' i p Hi ltac:(lia)). rewrite (proj2 (Z.ltb_ge p bp)), (proj2 (Z.leb_gt q p)) by lia. done.
      - pose proof (Hmem' i p Hi ltac:(specialize (Hnone eq_refl); lia)).
        rewrite (proj2 (Z.ltb_ge p bp)), (proj2 (Z.ltb_ge bp base)), andb_false_r by lia. by destruct (base <=? p). }
    destruct Hcond as [-> ->]. eexists. split; [exact Hm|]. split; [done|]. by exists j.
Qed.

Lemma path_move h h' x x' l y : hptr h' x' = hptr h x → (∀ a, a ∈ l → hptr h' a = hptr h a) → path h x l y → path h' x' l y.
Proof.
  intros Hx Hl. destruct l as [|a l]; simpl; [by rewrite Hx|]. rewrite Hx. intros [-> Hp]. split; [done|].
  apply (path_ext h); [|done]. intros b [->|Hb]; apply Hl; set_solver.
Qed.

Lemma hadd_small a n : 0 ≤ a → 0 ≤ n → bend (a, n) ≤ TOP → hadd a n = bend (a, n).
Proof. intros. unfold hadd. apply u64_small. unfold bend, HSIZE, TOP in *. simpl in *. lia. Qed.

Lemma covered_app F G x : covered (F ++ G) x ↔ covered F x ∨ covered G x.
Proof. unfold covered. set_solver. Qed.
Lemma covered_cons b F x : covered (b :: F) x ↔ inb b x ∨ covered F x.
Proof. unfold covered. set_solver. Qed.

(** Two blocks that touch are one. *)
Lemma inb_join b n x : 0 ≤ b.2 → 0 ≤ n → inb (b.1, b.2 + n) x ↔ inb b x ∨ inb (bend b, n) x.
Proof. unfold inb, bend, HSIZE. simpl. lia. Qed.

(** The block after [bp] is merged with it. *)
Definition right_of (bp sz : Z) (R : list block) : Z * list block :=
  match R with
  | b :: R' => if bend (bp, sz) =? b.1 then (sz + b.2, R') else (sz, R)
  | [] => (sz, [])
  end.

Definition link_right (bp p : Z) (h : heap) : heap :=
  if hadd bp (hsize h bp) =? hptr h p then
    let h := set_size bp (u32 (hsize h bp + hsize h (hptr h p))) h in
    set_ptr bp (hptr h (hptr h p)) h
  else set_ptr bp (hptr h p) h.

Lemma link_right_ok bp sz p R h :
  0 ≤ bp → bp ≠ base → hsize h bp = sz → 1 ≤ sz → bend (bp, sz) ≤ TOP → base < bp → gaps (bend (bp, sz) - 1) R →
  (∀ b, b ∈ R → hsize h b.1 = b.2) → (∀ b, b ∈ R → bend b ≤ TOP) → path h p R.*1 base →
  let h' := link_right bp p h in let sz' := (right_of bp sz R).1 in let R' := (right_of bp sz R).2 in
  path h' bp R'.*1 base ∧ hsize h' bp = sz' ∧ sz ≤ sz' ∧ bend (bp, sz') ≤ TOP ∧ gaps (bend (bp, sz')) R' ∧
  (∀ a, a ≠ bp → hptr h' a = hptr h a ∧ hsize h' a = hsize h a) ∧
  (∀ x, inb (bp, sz') x ∨ covered R' x ↔ inb (bp, sz) x ∨ covered R x) ∧ (∀ b, b ∈ R' → b ∈ R).
Proof.
  intros H0 Hne Hsz H1 Htop Hbase Hg Hs Ht Hp. unfold link_right, right_of. rewrite Hsz, hadd_small by lia.
  destruct R as [|b R]; simpl in Hp.
  - rewrite Hp. rewrite (proj2 (Z.eqb_neq _ _)) by (unfold bend, HSIZE; simpl; lia). simpl. hsimpl.
    rewrite decide_True by done. split_and!; try done. intros a Ha. hsimpl. by rewrite decide_False.
  - destruct Hp as [Hpb Hp]. rewrite Hpb. simpl in Hg. destruct Hg as (G1 & G2 & G3).
    assert (Hne' : ∀ c, c ∈ b :: R → c.1 ≠ bp).
    { intros c Hc. assert (bend (bp, sz) - 1 < c.1); [|unfold bend, HSIZE in *; simpl in *; lia].
      by apply (gaps_low (bend (bp, sz) - 1) (b :: R)). }
    assert (Hne2 : ∀ a, a ∈ (b :: R).*1 → a ≠ bp) by (intros a (c & -> & Hc)%list_elem_of_fmap; by apply Hne').
    pose proof (Hs b ltac:(by left)) as Hsb. pose proof (Ht b ltac:(by left)) as Htb.
    destruct (Z.eqb_spec (bend (bp, sz)) b.1) as [E|E]; cbn [fst snd].
    + rewrite Hsb. assert (Eb : bend (bp, sz + b.2) = bend b) by (unfold bend, HSIZE in *; simpl in *; lia).
      rewrite u32_small by (unfold bend, HSIZE, TOP in *; simpl in *; lia). rewrite Eb. split_and!; try done.
      * eapply path_move; [| |exact Hp]; [hsimpl; by rewrite decide_True, Hpb|].
        intros a Ha. hsimpl. rewrite decide_False; [done|]. apply Hne2. set_solver.
      * hsimpl. by rewrite decide_True.
      * lia.
      * intros a Ha. hsimpl. by rewrite !decide_False.
      * intros x. rewrite covered_cons. rewrite (inb_join (bp, sz)) by (simpl; lia). rewrite E. destruct b. simpl. tauto.
      * intros c Hc. by right.
    + split_and!; try done.
      * simpl. hsimpl. rewrite decide_True by done. split; [done|]. apply (path_ext h); [|done].
        intros a Ha. hsimpl. rewrite decide_False; [done|]. apply Hne2. set_solver.
      * by hsimpl.
      * simpl. split_and!; [unfold bend, HSIZE in *; simpl in *; lia|done|done].
      * intros a Ha. hsimpl. by rewrite decide_False.
Qed.

Lemma free_link_eq bp p h : free_link bp p h =
  let h1 := link_right bp p h in
  set_freep p (if hadd p (hsize h1 p) =? bp then
    set_ptr p (hptr (set_size p (u32 (hsize h1 p + hsize h1 bp)) h1) bp) (set_size p (u32 (hsize h1 p + hsize h1 bp)) h1)
    else set_ptr p bp h1).
Proof. done. Qed.

(** What [free] achieves: [F'] is [F] with the block added, and no header outside the ring has changed. *)
Record freed (F : list block) (bp sz : Z) (h : heap) (F' : list block) (h' : heap) : Prop := mkfreed {
  fr_rep : rep F' h';
  fr_cover : ∀ x, covered F' x ↔ covered F x ∨ inb (bp, sz) x;
  fr_other : ∀ a, a ≠ base → a ∉ F.*1 → a ≠ bp → hsize h' a = hsize h a;
  fr_big : ∃ b, b ∈ F' ∧ sz ≤ b.2
}.

(** The block becomes the first one. *)
Lemma free_first R h bp sz :
  rep R h → hsize h bp = sz → 1 ≤ sz → base + HSIZE ≤ bp → bend (bp, sz) ≤ TOP → (∀ b, b ∈ R → bend (bp, sz) ≤ b.1) →
  ∃ F', freed R bp sz h F' (free_link bp base h).
Proof.
  intros [Hb0 Hg Hp Hs Hz _ Ht] Hsz H1 Hb Htop HR. rewrite free_link_eq. unfold HSIZE in Hb.
  assert (HgR : gaps (bend (bp, sz) - 1) R).
  { destruct R as [|b R]; [done|]. specialize (HR b ltac:(by left)). cbn [gaps] in *. split_and!; [lia|apply Hg|apply Hg]. }
  destruct (link_right_ok bp sz base R h) as (P1 & P2 & P3 & P4 & P5 & P6 & P7 & P8); try done; try lia.
  set (h1 := link_right bp base h) in *. destruct (right_of bp sz R) as [sz' R']. cbn [fst snd] in *.
  destruct (P6 base ltac:(lia)) as [E1 E2]. cbv zeta. rewrite E2, Hz.
  assert (hadd base 0 =? bp = false) as ->.
  { apply Z.eqb_neq. rewrite hadd_small; unfold bend, HSIZE, TOP in *; simpl in *; lia. }
  assert (Hlow : ∀ c, c ∈ R' → bp < c.1).
  { intros c Hc. pose proof (proj1 (gaps_low _ _ _ P5 Hc)). unfold bend, HSIZE in *. simpl in *. lia. }
  exists ((bp, sz') :: R'). split.
  - split; try done.
    + simpl. split_and!; [unfold HSIZE; lia|lia|done].
    + simpl. hsimpl. rewrite decide_True by done. split; [done|]. apply (path_ext h1); [|done].
      intros a Ha. hsimpl. rewrite decide_False; [done|].
      destruct Ha as [->|(c & -> & Hc)%list_elem_of_fmap]; [lia|]. specialize (Hlow c Hc). lia.
    + intros b [->|Hb']%elem_of_cons; hsimpl; [done|]. rewrite (proj2 (P6 b.1 ltac:(specialize (Hlow b Hb'); lia))). by apply Hs, P8.
    + hsimpl. congruence.
    + simpl. by left.
    + intros b [->|Hb']%elem_of_cons; [done|]. by apply Ht, P8.
  - intros x. rewrite covered_cons, P7. tauto.
  - intros a H2 H3 H4. hsimpl. by apply P6.
  - exists (bp, sz'). split; [by left|done].
Qed.

Lemma gaps_apart lo L c R : gaps lo (L ++ c :: R) → (∀ b, b ∈ L → bend b < c.1 ∧ b.1 < c.1) ∧ (∀ b, b ∈ R → bend c < b.1 ∧ c.1 < b.1).
Proof.
  intros Hg. pose proof Hg as [HL (_ & H2 & HR)]%gaps_app. split.
  - clear -Hg. revert lo Hg. induction L as [|d L IH]; intros lo Hg b; [set_solver|].
    simpl in Hg. destruct Hg as (G1 & G2 & G3). intros [->|Hb]%elem_of_cons; [|by eapply IH].
    destruct (gaps_low _ _ c G3) as [G4 _]; [set_solver|]. unfold bend, HSIZE in *. lia.
  - intros b Hb. destruct (gaps_low _ _ _ HR Hb) as [G _]. unfold bend, HSIZE in *. lia.
Qed.

(** The block [(bp, sz)] has been linked to what follows it; [c] is the block in front of it. *)
Record ready (L : list block) (c : block) (bp sz : Z) (R : list block) (h : heap) : Prop := mkready {
  rd_base : 0 < base;
  rd_gaps : gaps (base + HSIZE - 1) (L ++ [c]);
  rd_apart : bend c ≤ bp;
  rd_pos : 1 ≤ sz;
  rd_after : gaps (bend (bp, sz)) R;
  rd_pathL : path h base L.*1 c.1;
  rd_pathR : path h bp R.*1 base;
  rd_size : ∀ b, b ∈ L ++ c :: (bp, sz) :: R → hsize h b.1 = b.2;
  rd_zero : hsize h base = 0;
  rd_top : ∀ b, b ∈ L ++ c :: (bp, sz) :: R → bend b ≤ TOP
}.

(** No other header of the ring has the address of [c]. *)
Lemma ready_apart L c bp sz R h : ready L c bp sz R h →
  base < c.1 ∧ 1 ≤ c.2 ∧ c.1 < bp ∧ (∀ a, a = base ∨ a ∈ L.*1 → a < c.1) ∧ (∀ a, a ∈ R.*1 → bp < a).
Proof.
  intros [D0 D1 D2 D3 D4 _ _ _ _ _]. destruct (gaps_low _ _ c D1) as [H1 H2]; [set_solver|].
  unfold HSIZE in H1. split_and!; [lia|lia|unfold bend, HSIZE in *; lia| |].
  - intros a [->|(b & -> & Hb)%list_elem_of_fmap]; [lia|]. by apply (gaps_apart _ _ _ _ D1).
  - intros a (b & -> & Hb)%list_elem_of_fmap. pose proof (proj1 (gaps_low _ _ _ D4 Hb)). unfold bend, HSIZE in *. simpl in *. lia.
Qed.

(** The block is merged with [c]. *)
Lemma join_left L c bp sz R h : ready L c bp sz R h → bend c = bp →
  rep (L ++ (c.1, c.2 + sz) :: R) (set_freep c.1 (set_ptr c.1 (hptr h bp) (set_size c.1 (c.2 + sz) h))).
Proof.
  intros Hrd E. destruct (ready_apart _ _ _ _ _ _ Hrd) as (A1 & A2 & A3 & A4 & A5). destruct Hrd as [D0 D1 D2 D3 D4 D5 D6 D7 D8 D9].
  assert (Eb : bend (c.1, c.2 + sz) = bend (bp, sz)) by (unfold bend, HSIZE in *; simpl in *; lia).
  apply gaps_app in D1 as [D1 (D1a & D1b & _)]. split; [done| | | | | |].
  - apply gaps_app. split; [done|]. simpl. split_and!; [done|lia|by rewrite Eb].
  - rewrite fmap_app. simpl. apply path_app. split.
    + apply (path_ext h); [|done]. intros a Ha. hsimpl. rewrite decide_False; [done|]. specialize (A4 a Ha). lia.
    + apply (path_move h _ bp); [hsimpl; by rewrite decide_True| |done].
      intros a Ha. hsimpl. rewrite decide_False; [done|]. specialize (A5 a Ha). lia.
  - intros b Hb. hsimpl. case_decide as Ec.
    + apply elem_of_app in Hb as [Hb|[->|Hb]%elem_of_cons]; [|done|].
      * specialize (A4 b.1 ltac:(right; by apply list_elem_of_fmap_2)). lia.
      * specialize (A5 b.1 ltac:(by apply list_elem_of_fmap_2)). lia.
    + apply D7. apply elem_of_app in Hb as [Hb|[->|Hb]%elem_of_cons]; [set_solver|done|set_solver].
  - hsimpl. rewrite decide_False by lia. done.
  - simpl. rewrite fmap_app. set_solver.
  - intros b Hb. apply elem_of_app in Hb as [Hb|[->|Hb]%elem_of_cons]; [apply D9; set_solver|rewrite Eb; apply D9; set_solver|apply D9; set_solver].
Qed.

(** The block stays apart from [c]. *)
Lemma link_after L c bp sz R h : ready L c bp sz R h → bend c ≠ bp →
  rep (L ++ c :: (bp, sz) :: R) (set_freep c.1 (set_ptr c.1 bp h)).
Proof.
  intros Hrd E. destruct (ready_apart _ _ _ _ _ _ Hrd) as (A1 & A2 & A3 & A4 & A5). destruct Hrd as [D0 D1 D2 D3 D4 D5 D6 D7 D8 D9].
  apply gaps_app in D1 as [D1 (D1a & D1b & _)]. split; [done| | | | | |done].
  - apply gaps_app. split; [done|]. simpl. split_and!; [done|done|lia|done|done].
  - rewrite fmap_app. simpl. apply path_app. split; [|split].
    + apply (path_ext h); [|done]. intros a Ha. hsimpl. rewrite decide_False; [done|]. specialize (A4 a Ha). lia.
    + hsimpl. by rewrite decide_True.
    + apply (path_ext h); [|done]. intros a Ha. hsimpl. rewrite decide_False; [done|]. destruct Ha as [->|Ha]; [lia|]. specialize (A5 a Ha). lia.
  - intros b Hb. hsimpl. by apply D7.
  - by hsimpl.
  - simpl. rewrite fmap_app. set_solver.
Qed.

(** The block comes after the block [c]. *)
Lemma free_after L c R h bp sz :
  rep (L ++ c :: R) h → hsize h bp = sz → 1 ≤ sz → bend c ≤ bp → bend (bp, sz) ≤ TOP → (∀ b, b ∈ R → bend (bp, sz) ≤ b.1) →
  ∃ F', freed (L ++ c :: R) bp sz h F' (free_link bp c.1 h).
Proof.
  intros Hrep Hsz H1 Hc Htop HR. pose proof Hrep as [Hb0 Hg Hp Hs Hz Hf Ht]. rewrite free_link_eq.
  destruct (gaps_apart _ _ _ _ Hg) as [HcL HcR].
  assert (Hlow : ∀ b, b ∈ L ++ c :: R → base + HSIZE - 1 < b.1 ∧ 1 ≤ b.2) by (intros b; by apply gaps_low). unfold HSIZE in Hlow.
  destruct (Hlow c ltac:(set_solver)) as [Hc1 Hc2]. pose proof (Hs c ltac:(set_solver)) as Hsc.
  rewrite fmap_app in Hp. simpl in Hp. apply path_app in Hp as [HpL HpR]. apply gaps_app in Hg as [HgL (G1 & G2 & G3)].
  assert (HgR : gaps (bend (bp, sz) - 1) R).
  { destruct R as [|b R]; [done|]. specialize (HR b ltac:(by left)). cbn [gaps] in *. split_and!; [lia|apply G3|apply G3]. }
  assert (Hbp : c.1 < bp) by (unfold bend, HSIZE in *; lia).
  destruct (link_right_ok bp sz c.1 R h) as (P1 & P2 & P3 & P4 & P5 & P6 & P7 & P8); try done; try lia; [set_solver|set_solver|].
  set (h1 := link_right bp c.1 h) in *. destruct (right_of bp sz R) as [sz' R']. cbn [fst snd] in *.
  destruct (P6 c.1 ltac:(lia)) as [E1 E2]. cbv zeta. rewrite E2, Hsc, P2.
  assert (Ebc : bend (c.1, c.2) = bend c) by (by destruct c). rewrite hadd_small, Ebc by (rewrite ?Ebc; unfold TOP in *; lia || (apply Ht; set_solver)).
  assert (Hother : ∀ b, b ∈ L ∨ b = c ∨ b ∈ R' → b.1 ≠ bp).
  { intros b [Hb|[->|Hb]]; [assert (b.1 < c.1) by (by apply HcL); lia|lia|].
    pose proof (proj1 (gaps_low _ _ _ P5 Hb)). unfold bend, HSIZE in *. simpl in *. lia. }
  assert (Hrd : ready L c bp sz' R' h1).
  { split; try done; [apply gaps_app; by split|lia| | | |].
    - apply (path_ext h); [|done]. intros a Ha. apply P6. destruct Ha as [->|(d & -> & Hd)%list_elem_of_fmap]; [lia|apply Hother; by left].
    - intros b Hb. apply elem_of_app in Hb as [Hb|[->|[->|Hb]%elem_of_cons]%elem_of_cons]; [|congruence|done|];
        rewrite (proj2 (P6 b.1 ltac:(apply Hother; tauto))); apply Hs; set_solver.
    - rewrite (proj2 (P6 base ltac:(lia))). done.
    - intros b Hb. apply elem_of_app in Hb as [Hb|[->|[->|Hb]%elem_of_cons]%elem_of_cons]; [|apply Ht; set_solver|done|]; apply Ht; set_solver. }
  assert (Hoth : ∀ a, a ≠ base → a ∉ (L ++ c :: R).*1 → a ≠ bp → a ≠ c.1 ∧ hsize h1 a = hsize h a).
  { intros a H2 H3 H4. split; [intros ->; apply H3, list_elem_of_fmap_2; set_solver|by apply P6]. }
  destruct (Z.eqb_spec (bend c) bp) as [E|E].
  - rewrite u32_small by (unfold bend, HSIZE, TOP in *; simpl in *; lia). exists (L ++ (c.1, c.2 + sz') :: R'). rewrite hptr_set_size. split; [by apply join_left| | |].
    + intros x. rewrite !covered_app, !covered_cons, inb_join by lia. rewrite E. specialize (P7 x). tauto.
    + intros a H2 H3 H4. destruct (Hoth a H2 H3 H4). hsimpl. by rewrite decide_False.
    + exists (c.1, c.2 + sz'). split; [set_solver|simpl; lia].
  - exists (L ++ c :: (bp, sz') :: R'). split; [by apply link_after| | |].
    + intros x. rewrite !covered_app, !covered_cons. specialize (P7 x). tauto.
    + intros a H2 H3 H4. destruct (Hoth a H2 H3 H4). by hsimpl.
    + exists (bp, sz'). split; [set_solver|done].
Qed.

Lemma last_block (L : list block) c : last (L ++ [c]).*1 = Some c.1.
Proof. rewrite fmap_app. apply last_snoc. Qed.

Lemma free_ok F h bp sz w :
  rep F h → hsize h bp = sz → 1 ≤ sz → base + HSIZE ≤ bp → bend (bp, sz) ≤ TOP →
  (∀ b, b ∈ F → bend b ≤ bp ∨ bend (bp, sz) ≤ b.1) →
  wpu (free (bp + HSIZE) h) (λ e w', ∃ F' h', e = Done h' ∧ w' = w ∧ freed F bp sz h F' h') w.
Proof.
  intros Hr Hsz H1 Hb Ht Hd. pose proof (rp_base _ _ Hr) as Hb0.
  destruct (gaps_split _ _ _ _ (rep_gaps _ _ Hr) H1 Hd) as (L & R & -> & HL & HR).
  assert (Hpos : ∀ b, b ∈ L ++ R → 1 ≤ b.2) by (intros b Hb'; by apply (gaps_low _ _ _ (rep_gaps _ _ Hr))).
  unfold free. replace (bp + HSIZE - HSIZE) with bp by lia.
  rewrite u64_small by (unfold bend, HSIZE, TOP in *; simpl in *; lia).
  apply wpu_bind. eapply wpu_mono; [|apply (free_search L R h bp w Hr)].
  - intros e w' [-> ->]. cbn [then_ wpu]. destruct L as [|c L _] using rev_ind.
    + destruct (free_first R h bp sz Hr Hsz H1 Hb Ht HR) as [F' HF]. by exists F', (free_link bp base h).
    + rewrite <- app_assoc in Hr. simpl in Hr. rewrite last_block.
      destruct (free_after L c R h bp sz Hr Hsz H1) as [F' HF]; [apply HL; set_solver|done|done|].
      exists F', (free_link bp c.1 h). rewrite <- app_assoc. done.
  - unfold HSIZE in Hb. lia.
  - intros b Hb'. specialize (HL b Hb'). specialize (Hpos b ltac:(set_solver)). unfold bend, HSIZE in *. lia.
  - intros b Hb'. specialize (HR b Hb'). unfold bend, HSIZE in *. simpl in *. lia.
Qed.

(** ** Taking a block *)

(** What a successful search does with the block [c] it has found. *)
Definition take_block (nunits prevp p : Z) (h : heap) : Z * heap :=
  let '(p, h) :=
    if hsize h p =? nunits then (p, set_ptr prevp (hptr h p) h)
    else
      let h := set_size p (u32 (hsize h p - nunits)) h in
      let p := hadd p (hsize h p) in
      (p, set_size p nunits h) in
  (p, set_freep prevp h).

(** The block [(a, n)] has been taken out of [F]. *)
Record taken (F : list block) (h : heap) (a n : Z) (F' : list block) (h' : heap) : Prop := mktaken {
  tk_rep : rep F' h';
  tk_cover : ∀ x, covered F' x ∨ inb (a, n) x ↔ covered F x;
  tk_apart : ∀ b, b ∈ F' → bend b ≤ a ∨ bend (a, n) ≤ b.1;
  tk_size : hsize h' a = n;
  tk_other : ∀ d, d ≠ base → d ∉ F.*1 → d ≠ a → hsize h' d = hsize h d;
  tk_within : ∃ c, c ∈ F ∧ c.1 ≤ a ∧ bend (a, n) ≤ bend c;
  tk_ends : ∀ b, b ∈ F' → ∃ c, c ∈ F ∧ c.1 = b.1 ∧ bend b ≤ bend c
}.

Lemma take_whole L c R h prevp :
  rep (L ++ c :: R) h → prevp = default base (last L.*1) →
  taken (L ++ c :: R) h c.1 c.2 (L ++ R) (set_freep prevp (set_ptr prevp (hptr h c.1) h)).
Proof.
  intros Hr Hprev. pose proof Hr as [Hb0 Hg Hp Hs Hz Hf Ht]. destruct (gaps_apart _ _ _ _ Hg) as [HcL HcR].
  pose proof (gaps_low _ _ c Hg ltac:(set_solver)) as [Hc1 Hc2]. unfold HSIZE in Hc1.
  assert (Hg' : gaps (base + HSIZE - 1) (L ++ R)).
  { apply gaps_app in Hg as [HgL (G1 & G2 & G3)]. apply gaps_app. split; [done|]. eapply gaps_mono; [|exact G3].
    unfold bend, HSIZE in *. destruct (last L); lia. }
  rewrite fmap_app in Hp. simpl in Hp. apply path_app in Hp as [HpL HpR].
  split; [split; try done| | |by hsimpl; apply Hs; set_solver| | |].
  - destruct L as [|d L _] using rev_ind; simpl in Hprev; subst prevp.
    + simpl. apply (path_move h _ c.1); [hsimpl; by rewrite decide_True| |done].
      intros a (b & -> & Hb)%list_elem_of_fmap. hsimpl. rewrite decide_False; [done|].
      pose proof (gaps_low _ _ b Hg' ltac:(set_solver)) as [? _]. unfold HSIZE in *. lia.
    + rewrite last_block. simpl default. rewrite fmap_app in HpL. simpl in HpL. apply path_app in HpL as [HpL _].
      rewrite <- app_assoc, fmap_app. simpl. apply path_app.
      rewrite <- app_assoc in Hg'. destruct (gaps_apart _ L d R Hg') as [HdL HdR].
      pose proof (gaps_low _ _ d Hg' ltac:(set_solver)) as [Hd1 _]. unfold HSIZE in Hd1. split.
      * apply (path_ext h); [|done]. intros a Ha. hsimpl. rewrite decide_False; [done|].
        destruct Ha as [->|(b & -> & Hb)%list_elem_of_fmap]; [lia|]. pose proof (proj2 (HdL b Hb)). lia.
      * apply (path_move h _ c.1); [hsimpl; by rewrite decide_True| |done].
        intros a (b & -> & Hb)%list_elem_of_fmap. hsimpl. rewrite decide_False; [done|]. pose proof (proj2 (HdR b Hb)). lia.
  - intros b Hb. hsimpl. apply Hs. set_solver.
  - by hsimpl.
  - simpl. destruct (last L.*1) as [z|] eqn:El; simpl in Hprev; subst prevp; [|set_solver]. apply elem_of_cons. right.
    rewrite fmap_app. apply last_Some in El as [l' ->]. set_solver.
  - intros b Hb. apply Ht. set_solver.
  - intros x. rewrite !covered_app, covered_cons. destruct c. simpl. tauto.
  - intros b Hb. apply elem_of_app in Hb as [Hb|Hb]; [left; pose proof (HcL b Hb); lia|right].
    pose proof (HcR b Hb). destruct c. simpl in *. lia.
  - intros d H1 H2 H3. by hsimpl.
  - exists c. split_and!; [set_solver|lia|by destruct c].
  - intros b Hb. exists b. split_and!; [set_solver|done|lia].
Qed.

Lemma take_tail L c R h prevp n :
  rep (L ++ c :: R) h → prevp ∈ base :: (L ++ c :: R).*1 → 1 ≤ n < c.2 →
  let a := c.1 + HSIZE * (c.2 - n) in
  taken (L ++ c :: R) h a n (L ++ (c.1, c.2 - n) :: R) (set_freep prevp (set_size a n (set_size c.1 (c.2 - n) h))).
Proof.
  intros Hr Hprev Hn a. pose proof Hr as [Hb0 Hg Hp Hs Hz Hf Ht]. destruct (gaps_apart _ _ _ _ Hg) as [HcL HcR].
  pose proof (gaps_low _ _ c Hg ltac:(set_solver)) as [Hc1 Hc2]. unfold HSIZE in Hc1.
  assert (Ha : c.1 < a ∧ bend (c.1, c.2 - n) = a ∧ bend (a, n) = bend c) by (unfold a, bend, HSIZE; simpl; lia).
  destruct Ha as (Ha1 & Ha2 & Ha3).
  assert (Hane : ∀ b, b ∈ L ++ c :: R → b.1 ≠ a).
  { intros b Hb. assert (a < bend c) by (unfold a, bend, HSIZE in *; lia).
    apply elem_of_app in Hb as [Hb|[->|Hb]%elem_of_cons]; [pose proof (HcL b Hb)|lia|pose proof (HcR b Hb)]; lia. }
  assert (Hadr : (L ++ (c.1, c.2 - n) :: R).*1 = (L ++ c :: R).*1) by (by rewrite !fmap_app).
  assert (Hb' : ∀ b, b ∈ L ++ (c.1, c.2 - n) :: R → b = (c.1, c.2 - n) ∨ b ∈ L ++ c :: R ∧ b.1 ≠ c.1).
  { intros b Hb. apply elem_of_app in Hb as [Hb|[->|Hb]%elem_of_cons]; [right|by left|right]; (split; [set_solver|]).
    - pose proof (HcL b Hb). lia.
    - pose proof (HcR b Hb). lia. }
  split; [split; try done| | | | | |].
  - apply gaps_app in Hg as [HgL (G1 & G2 & G3)]. apply gaps_app. split; [done|]. simpl. split_and!; [done|lia|].
    eapply gaps_mono; [|exact G3]. rewrite Ha2. unfold a, bend, HSIZE. lia.
  - rewrite Hadr. apply (path_ext h); [|done]. intros d _. by hsimpl.
  - intros b [->|[Hb Hbc]]%Hb'; hsimpl; simpl.
    + rewrite decide_False by lia. by rewrite decide_True.
    + rewrite !decide_False by (done || by apply Hane). by apply Hs.
  - hsimpl. rewrite !decide_False by lia. done.
  - rewrite Hadr. done.
  - intros b [->|[Hb _]]%Hb'; [|by apply Ht]. rewrite Ha2. pose proof (Ht c ltac:(set_solver)). unfold a, bend, HSIZE in *. lia.
  - intros x. rewrite !covered_app, !covered_cons. unfold inb. rewrite Ha2, Ha3. simpl. unfold bend, HSIZE in *.
    assert ((c.1 ≤ x < a) ∨ (a ≤ x < c.1 + 16 * c.2) ↔ c.1 ≤ x < c.1 + 16 * c.2) by (unfold a; lia). tauto.
  - intros b Hb. rewrite Ha3. apply elem_of_app in Hb as [Hb|[->|Hb]%elem_of_cons]; [left; pose proof (HcL b Hb); lia|left; lia|right].
    pose proof (HcR b Hb). lia.
  - hsimpl. by rewrite decide_True.
  - intros d H1 H2 H3. hsimpl. rewrite !decide_False; [done| |done]. intros ->. apply H2, list_elem_of_fmap_2. set_solver.
  - exists c. split_and!; [set_solver|lia|lia].
  - intros b [->|[Hb _]]%Hb'; [exists c|exists b]; (split_and!; [set_solver|done|]); [|lia].
    rewrite Ha2. unfold a, bend, HSIZE in *. lia.
Qed.

Lemma take_block_ok L c R h prevp n :
  rep (L ++ c :: R) h → prevp = default base (last L.*1) → 1 ≤ n ≤ c.2 →
  ∃ a F' h', take_block n prevp c.1 h = (a, h') ∧ taken (L ++ c :: R) h a n F' h'.
Proof.
  intros Hr Hprev Hn. pose proof Hr as [Hb0 Hg Hp Hs Hz Hf Ht]. unfold take_block. rewrite (Hs c) by set_solver.
  pose proof (gaps_low _ _ c Hg ltac:(set_solver)) as [Hc1 _]. pose proof (Ht c ltac:(set_solver)) as Htc. unfold HSIZE in Hc1.
  destruct (Z.eqb_spec c.2 n) as [<-|E].
  - eexists _, (L ++ R), _. split; [done|]. by apply take_whole.
  - rewrite hsize_set_size, decide_True, u32_small by (done || (unfold bend, HSIZE, TOP in *; lia)).
    rewrite hadd_small by (unfold bend, HSIZE, TOP in *; simpl; lia).
    eexists _, (L ++ (c.1, c.2 - n) :: R), _. split; [done|]. refine (take_tail L c R h prevp n Hr _ ltac:(lia)).
    destruct (last L.*1) as [z|] eqn:El; simpl in Hprev; subst prevp; [|set_solver]. apply elem_of_cons. right.
    rewrite fmap_app. apply last_Some in El as [l' ->]. set_solver.
Qed.

(** ** The heap of a program *)

(** What the allocator relies on: [sbrk] moves the end of the memory by a positive [n] and returns
    the old end, or leaves it and returns -1. *)
Class Sbrk := {
  brk : W → Z;
  sbrk_some : ∀ n w, ∃ r w', w_step (CSbrk n) w r w';
  sbrk_step : ∀ n w r w', 0 < n → w_step (CSbrk n) w r w' →
    (r = -1 ∧ brk w' = brk w) ∨ (r = brk w ∧ brk w' = brk w + n);
  brk_top : ∀ w, brk w ≤ TOP
}.
Context {SB : Sbrk}.

Lemma wpu_sbrk {X} n (k : Z → prog X) Q w : 0 < n →
  (∀ r w', (r = -1 ∧ brk w' = brk w) ∨ (r = brk w ∧ brk w' = brk w + n) → wpu (k r) Q w') → wpu (sys (CSbrk n) ≫= k) Q w.
Proof. intros Hn Hk. split; [apply sbrk_some|]. intros r w' Hs. by apply Hk, (sbrk_step n). Qed.

Definition apart (a b : block) : Prop := bend a ≤ b.1 ∨ bend b ≤ a.1.

Lemma apart_inb a b : 1 ≤ a.2 → 1 ≤ b.2 → (∀ x, inb a x → ¬ inb b x) → apart a b.
Proof.
  intros Ha Hb H. unfold apart. destruct (decide (bend a ≤ b.1)); [by left|]. destruct (decide (bend b ≤ a.1)); [by right|].
  destruct (H (Z.max a.1 b.1)); unfold inb, bend, HSIZE in *; lia.
Qed.

Lemma inb_apart a b x : apart a b → inb a x → inb b x → False.
Proof. unfold apart, inb. lia. Qed.

(** The memory between [base] and [top] holds the free blocks [F] and the blocks [A] that the program has. *)
Record heap_ok (top : Z) (F A : list block) (h : heap) : Prop := mkheap_ok {
  ho_rep : rep F h;
  ho_low : base + HSIZE ≤ top ≤ TOP;
  ho_F : ∀ b, b ∈ F → bend b ≤ top;
  ho_A : ∀ b, b ∈ A → 1 ≤ b.2 ∧ base + HSIZE ≤ b.1 ∧ bend b ≤ top ∧ hsize h b.1 = b.2;
  ho_AF : ∀ a b, a ∈ A → b ∈ F → apart a b;
  ho_AA : ∀ i j a b, A !! i = Some a → A !! j = Some b → i ≠ j → apart a b
}.

Lemma rep_set_size F h p n : rep F h → p ∉ base :: F.*1 → rep F (set_size p n h).
Proof.
  intros [R1 R2 R3 R4 R5 R6 R7] Hp. apply not_elem_of_cons in Hp as [Hp1 Hp2]. split; try done.
  - apply (path_ext h); [|done]. intros a _. by hsimpl.
  - intros b Hb. hsimpl. rewrite decide_False; [by apply R4|]. intros <-. by apply Hp2, list_elem_of_fmap_2.
  - hsimpl. by rewrite decide_False.
Qed.

Lemma not_in_F top F A h a : heap_ok top F A h → a ∈ A → a.1 ≠ base ∧ a.1 ∉ F.*1.
Proof.
  intros [H1 H2 H3 H4 H5 H6] Ha. destruct (H4 a Ha) as (G1 & G2 & _). unfold HSIZE in *. split; [lia|].
  intros (b & E & Hb)%list_elem_of_fmap. pose proof (gaps_low _ _ b (rp_gaps _ _ H1) Hb) as [_ ?].
  destruct (H5 a b Ha Hb) as [?|?]; unfold bend, HSIZE in *; lia.
Qed.

Lemma morecore_ok F A h nu w :
  heap_ok (brk w) F A h → 1 ≤ nu < 2 ^ 27 →
  wpu (morecore nu h) (λ e w', ∃ r h', e = Done (r, h') ∧
    (r = 0 ∧ h' = h ∧ brk w' = brk w ∨
     ∃ F', heap_ok (brk w') F' A h' ∧ r = freep h' ∧ r ≠ 0 ∧ brk w ≤ brk w' ∧ (∃ b, b ∈ F' ∧ nu ≤ b.2) ∧
       ∀ x, covered F' x ↔ covered F x ∨ brk w ≤ x < brk w')) w.
Proof.
  intros Hh Hnu. pose proof Hh as [H1 H2 H3 H4 H5 H6]. pose proof (rp_base _ _ H1) as Hb0. unfold morecore.
  set (nu' := if nu <? 4096 then 4096 else nu). assert (Hnu' : nu ≤ nu' < 2 ^ 27) by (unfold nu'; destruct (Z.ltb_spec nu 4096); lia).
  assert (En : i32 (u64 (nu' * HSIZE)) = HSIZE * nu') by (unfold HSIZE; rewrite u64_small, i32_small; lia). rewrite En.
  apply wpu_sbrk; [unfold HSIZE; lia|]. intros r w' [[-> Ew]|[-> Ew]]; cbv beta.
  { exists 0, h. split; [done|]. by left. }
  unfold HSIZE in H2. rewrite (proj2 (Z.eqb_neq _ (-1))) by lia. cbv zeta.
  pose proof (brk_top w') as Htop. assert (Ebend : bend (brk w, nu') = brk w') by (unfold bend; simpl; lia).
  assert (Hnot : brk w ∉ base :: F.*1).
  { apply not_elem_of_cons. split; [lia|]. intros (b & E & Hb)%list_elem_of_fmap. specialize (H3 b Hb).
    pose proof (gaps_low _ _ b (rp_gaps _ _ H1) Hb) as [_ ?]. unfold bend, HSIZE in *. lia. }
  assert (Ehadd : hadd (brk w) 1 = brk w + HSIZE) by (unfold hadd, HSIZE, TOP in *; rewrite u64_small; lia). rewrite Ehadd.
  apply wpu_bind. eapply wpu_mono; [|apply (free_ok F (set_size (brk w) nu' h) (brk w) nu')].
  - intros e w'' (F' & h' & -> & -> & [R1 R2 R3 R4]). exists (freep h'), h'. split; [done|]. right. exists F'.
    assert (HF' : ∀ b, b ∈ F' → bend b ≤ brk w' ∧ base < b.1).
    { intros b Hb. pose proof (gaps_low _ _ b (rep_gaps _ _ R1) Hb) as [G1 G2]. split; [|done].
      assert (Hc : covered F' (bend b - 1)) by (exists b; split; [done|unfold inb, bend, HSIZE in *; lia]).
      apply R2 in Hc as [(c & Hc & Hi)|Hi]; unfold inb in Hi; [specialize (H3 c Hc); unfold HSIZE in *; lia|lia]. }
    split_and!; try done.
    + split; try done.
      * unfold HSIZE in *. lia.
      * intros b Hb. by apply HF'.
      * intros a Ha. destruct (H4 a Ha) as (G1 & G2 & G3 & G4). destruct (not_in_F _ _ _ _ _ Hh Ha) as [N1 N2]. split_and!; [done|done|unfold HSIZE in *; lia|].
        assert (a.1 ≠ brk w) by (unfold bend, HSIZE in *; lia). rewrite R3 by done. hsimpl. by rewrite decide_False.
      * intros a b Ha Hb. destruct (H4 a Ha) as (G1 & _ & G3 & _). apply apart_inb; [done|by apply (gaps_low _ _ b (rep_gaps _ _ R1))|].
        intros x Hxa Hxb. assert (Hc : covered F' x) by (by exists b). apply R2 in Hc as [(c & Hc & Hi)|Hi].
        -- by apply (inb_apart a c x); [apply H5| |].
        -- unfold inb, HSIZE in *. simpl in *. lia.
    + pose proof (rp_freep _ _ R1) as Hf. apply elem_of_cons in Hf as [->|(b & -> & Hb)%list_elem_of_fmap]; [lia|]. specialize (HF' b Hb). lia.
    + unfold HSIZE in *. lia.
    + destruct R4 as (b & Hb & ?). exists b. split; [done|lia].
    + intros x. rewrite R2. unfold inb. rewrite Ebend. done.
  - by apply rep_set_size.
  - hsimpl. by rewrite decide_True.
  - lia.
  - unfold HSIZE. lia.
  - lia.
  - intros b Hb. left. specialize (H3 b Hb). lia.
Qed.

(** ** The search of [malloc] *)

(** The way from node [i] to node [j] of a ring of [n]. *)
Definition way (n i j : nat) : nat := if decide (i ≤ j)%nat then (j - i)%nat else (n - i + j)%nat.
Definition next (n i : nat) : nat := if decide (S i = n) then 0%nat else S i.

Lemma way_next n i j : (i < n)%nat → (j < n)%nat → i ≠ j → S (way n (next n i) j) = way n i j.
Proof. intros. unfold way, next. repeat case_decide; lia. Qed.

Lemma way_self n i : way n i i = 0%nat.
Proof. unfold way. case_decide; lia. Qed.

Lemma way_all n i j : (i < n)%nat → (j < n)%nat → (way n (next n i) j ≤ way n (next n i) i)%nat ∧ (way n (next n i) i < n)%nat.
Proof. intros. unfold way, next. repeat case_decide; lia. Qed.

Lemma way_zero n i j : (i < n)%nat → (j < n)%nat → way n i j = 0%nat → i = j.
Proof. intros. unfold way in *. case_decide; lia. Qed.

Definition nodes (F : list block) : list Z := base :: F.*1.

Lemma nodes_length F : length (nodes F) = S (length F).
Proof. unfold nodes. cbn [length]. by rewrite length_fmap. Qed.

Lemma next_node F h i p : rep F h → nodes F !! i = Some p → nodes F !! next (S (length F)) i = Some (hptr h p).
Proof.
  intros Hr Hi. rewrite (path_lookup _ _ _ _ _ _ (rp_path _ _ Hr) Hi). apply lookup_lt_Some in Hi as Hl.
  rewrite nodes_length in Hl. unfold next. case_decide as E.
  - rewrite (lookup_ge_None_2 F.*1 i) by (rewrite length_fmap; lia). done.
  - change (F.*1 !! i = Some (default base (F.*1 !! i))). destruct (lookup_lt_is_Some_2 F.*1 i) as [q ->]; [rewrite length_fmap; lia|done].
Qed.

(** The loop variables: [p] is node [i] with [prevp] in front of it, and [freep] is node [f]. *)
Record at_node (F : list block) (h : heap) (prevp p : Z) (i f : nat) : Prop := mkat_node {
  an_p : nodes F !! i = Some p;
  an_f : nodes F !! f = Some (freep h);
  an_prev : ∀ j, i = S j → nodes F !! j = Some prevp
}.

Lemma at_node_next F h prevp p i f : rep F h → at_node F h prevp p i f → at_node F h p (hptr h p) (next (S (length F)) i) f.
Proof.
  intros Hr [H1 H2 H3]. split; [by apply next_node|done|]. intros j. unfold next. case_decide; [done|]. by intros [= <-].
Qed.

Lemma at_node_start F h : rep F h → ∃ f, at_node F h (freep h) (hptr h (freep h)) (next (S (length F)) f) f ∧ (f < S (length F))%nat.
Proof.
  intros Hr. pose proof (rp_freep _ _ Hr) as [f Hf]%list_elem_of_lookup. exists f. split.
  - split; [by apply next_node|done|]. intros j. unfold next. case_decide; [done|]. by intros [= <-].
  - apply lookup_lt_Some in Hf. change (f < length (nodes F))%nat in Hf. by rewrite nodes_length in Hf.
Qed.

(** A node that is large enough is a free block, and [prevp] is in front of it. *)
Lemma at_node_split F h prevp p i f n : rep F h → at_node F h prevp p i f → 1 ≤ n ≤ hsize h p →
  ∃ L c R, F = L ++ c :: R ∧ p = c.1 ∧ n ≤ c.2 ∧ prevp = default base (last L.*1).
Proof.
  intros Hr [H1 H2 H3] Hn. destruct i as [|i].
  { injection H1 as <-. rewrite (rp_zero _ _ Hr) in Hn. lia. }
  specialize (H3 i eq_refl). change (F.*1 !! i = Some p) in H1. apply list_lookup_fmap_Some in H1 as (c & -> & Hc).
  rewrite (rp_size _ _ Hr c) in Hn by (by eapply list_elem_of_lookup_2).
  exists (take i F), c, (drop (S i) F). split_and!; [by rewrite take_drop_middle|done|lia|].
  apply lookup_lt_Some in Hc. assert (Hlen : length (take i F).*1 = i) by (rewrite length_fmap, length_take; lia).
  pose proof (lookup_last base (take i F).*1 (drop i F).*1) as E. rewrite Hlen, <- fmap_app, take_drop in E. unfold nodes in H3. congruence.
Qed.

Lemma apart_sub a b c : apart a c → c.1 ≤ b.1 → bend b ≤ bend c → apart a b.
Proof. unfold apart. lia. Qed.

Lemma apart_sym a b : apart a b → apart b a.
Proof. unfold apart. tauto. Qed.

(** The block that the search has found is the program's. *)
Lemma heap_take top F A h a n F' h' : heap_ok top F A h → 1 ≤ n → taken F h a n F' h' → heap_ok top F' ((a, n) :: A) h'.
Proof.
  intros Hh Hn [T1 T2 T3 T4 T5 (c & Hc & Tc1 & Tc2) T7]. pose proof Hh as [H1 H2 H3 H4 H5 H6].
  assert (Hnew : ∀ b, b ∈ A → apart b (a, n)) by (intros b Hb; by apply (apart_sub b (a, n) c); [apply H5| |]).
  split; try done.
  - intros b Hb. destruct (T7 b Hb) as (d & Hd & _ & ?). specialize (H3 d Hd). lia.
  - intros b [->|Hb]%elem_of_cons; simpl.
    + pose proof (gaps_low _ _ c (rp_gaps _ _ H1) Hc) as [? _]. specialize (H3 c Hc). unfold HSIZE in *. split_and!; [done|lia|lia|done].
    + destruct (H4 b Hb) as (G1 & G2 & G3 & G4). destruct (not_in_F _ _ _ _ _ Hh Hb) as [N1 N2]. split_and!; try done.
      rewrite T5; [done|done|done|]. intros E. specialize (Hnew b Hb). unfold apart, bend, HSIZE in Hnew. simpl in Hnew. lia.
  - intros d b [->|Hd]%elem_of_cons Hb; [destruct (T3 b Hb); [by right|by left]|].
    destruct (T7 b Hb) as (e & He & E1 & E2). apply (apart_sub d b e); [by apply H5|lia|done].
  - intros [|i] [|j] x y; simpl; try done.
    + intros [= <-] Hy _. apply apart_sym, Hnew. by eapply list_elem_of_lookup_2.
    + intros Hx [= <-] _. apply Hnew. by eapply list_elem_of_lookup_2.
    + intros Hx Hy Hij. apply (H6 i j); [done|done|lia].
Qed.

(** What [malloc] ends with: null and the heap as it was, or a new block. *)
Definition malloc_post (F A : list block) (n : Z) (w : W) (e : ending (Z * heap)) (w' : W) : Prop :=
  ∃ r h', e = Done (r, h') ∧
    (r = 0 ∧ heap_ok (brk w') F A h' ∧ brk w' = brk w ∨
     ∃ a F', r = a + HSIZE ∧ heap_ok (brk w') F' ((a, n) :: A) h' ∧ brk w ≤ brk w' ∧
       ∀ x, covered F' x ∨ inb (a, n) x ↔ covered F x ∨ brk w ≤ x < brk w').

(** The search is on: before [morecore], or after it with a large block ahead. *)
Definition searching (F0 A : list block) (n : Z) (w0 : W) (m : nat) (x : Z * Z * heap) (w : W) : Prop :=
  let '(prevp, p, h) := x in
  ∃ F i f, heap_ok (brk w) F A h ∧ at_node F h prevp p i f ∧
    (F = F0 ∧ brk w = brk w0 ∧ m = (way (S (length F)) i f + Z.to_nat (2 ^ 29))%nat ∨
     (∀ x, covered F x ↔ covered F0 x ∨ brk w0 ≤ x < brk w) ∧ brk w0 ≤ brk w ∧ m = way (S (length F)) i f ∧
     ∃ j q, nodes F !! j = Some q ∧ n ≤ hsize h q ∧ (way (S (length F)) i j ≤ way (S (length F)) i f)%nat).

Lemma heap_count top F A h : heap_ok top F A h → Z.of_nat (length F) < 2 ^ 28.
Proof.
  intros [H1 H2 H3 _ _ _]. pose proof (gaps_length _ top _ (rep_gaps _ _ H1) H3) as H. pose proof (rp_base _ _ H1).
  unfold HSIZE, TOP in *. lia.
Qed.

Lemma malloc_found F A h prevp p i f n top : heap_ok top F A h → at_node F h prevp p i f → 1 ≤ n ≤ hsize h p →
  ∃ a F' h', take_block n prevp p h = (a, h') ∧ heap_ok top F' ((a, n) :: A) h' ∧ hadd a 1 = a + HSIZE ∧
    ∀ x, covered F' x ∨ inb (a, n) x ↔ covered F x.
Proof.
  intros Hh Ha Hn. pose proof (ho_rep _ _ _ _ Hh) as Hr.
  destruct (at_node_split _ _ _ _ _ _ _ Hr Ha Hn) as (L & c & R & -> & -> & Hc & Hprev).
  destruct (take_block_ok L c R h prevp n Hr Hprev ltac:(lia)) as (a & F' & h' & E & Ht). exists a, F', h'.
  pose proof (heap_take _ _ _ _ _ _ _ _ Hh (proj1 Hn) Ht) as Hh'. split_and!; [done|done| |apply Ht].
  destruct (ho_A _ _ _ _ Hh' (a, n) ltac:(by left)) as (G1 & G2 & G3 & _). pose proof (ho_low _ _ _ _ Hh').
  pose proof (rp_base _ _ Hr). unfold hadd. rewrite u64_small; unfold bend, HSIZE, TOP in *; simpl in *; lia.
Qed.

Lemma malloc_body_eq n prevp p h : malloc_body n (prevp, p, h) =
  if n <=? hsize h p then Ret (inr (hadd (take_block n prevp p h).1 1, (take_block n prevp p h).2))
  else if p =? freep h then
    r ← morecore n h;
    let '(p, h) := r in if p =? 0 then Ret (inr (0, h)) else Ret (inl (p, hptr h p, h))
  else Ret (inl (p, hptr h p, h)).
Proof. unfold malloc_body, take_block. destruct (n <=? hsize h p); [|done]. by destruct (hsize h p =? n). Qed.

Lemma node_index F h i j p : rep F h → nodes F !! i = Some p → nodes F !! j = Some p → i = j.
Proof.
  intros Hr Hi Hj. assert (Hnd : NoDup (nodes F)); [|by eapply NoDup_lookup].
  pose proof (rep_gaps _ _ Hr) as Hg. unfold nodes. clear -Hg. revert Hg. generalize base. induction F as [|b F IH]; intros lo Hg.
  - apply NoDup_singleton.
  - destruct Hg as (G1 & G2 & G3). assert (Hg' : gaps b.1 F) by (eapply gaps_mono; [|exact G3]; unfold bend, HSIZE; lia).
    apply NoDup_cons. split; [|by apply IH]. change ((b :: F).*1) with (b.1 :: F.*1). apply not_elem_of_cons. split; [lia|].
    intros (c & E & Hc)%list_elem_of_fmap. pose proof (gaps_low _ _ _ Hg' Hc). lia.
Qed.

Lemma malloc_step F0 A n w0 m x w : 1 ≤ n < 2 ^ 27 → searching F0 A n w0 m x w →
  wpu (malloc_body n x) (λ e w', match e with
    | Done (inl x') => ∃ m', (m' < m)%nat ∧ searching F0 A n w0 m' x' w'
    | Done (inr r) => malloc_post F0 A n w0 (Done r) w'
    | Exited st => malloc_post F0 A n w0 (Exited st) w'
    | Execed pa av => malloc_post F0 A n w0 (Execed pa av) w'
    | Faulted => malloc_post F0 A n w0 Faulted w'
    end) w.
Proof.
  destruct x as [[prevp p] h]. intros Hn (F & i & f & Hh & Ha & Hphase). rewrite malloc_body_eq. pose proof (ho_rep _ _ _ _ Hh) as Hr.
  pose proof (lookup_lt_Some _ _ _ (an_p _ _ _ _ _ _ Ha)) as Hi. pose proof (lookup_lt_Some _ _ _ (an_f _ _ _ _ _ _ Ha)) as Hf.
  rewrite nodes_length in Hi, Hf. destruct (Z.leb_spec n (hsize h p)) as [Hbig|Hsmall].
  { destruct (malloc_found _ _ _ _ _ _ _ n _ Hh Ha ltac:(lia)) as (a & F' & h' & -> & Hh' & Eh & Hcov). cbn [fst snd wpu].
    exists (hadd a 1), h'. split; [done|]. right. exists a, F'. split_and!; [done|done| |].
    - destruct Hphase as [(_ & -> & _)|(_ & ? & _)]; lia.
    - intros y. rewrite Hcov. destruct Hphase as [(-> & -> & _)|(H & _)]; [|apply H]. split; [by left|]. intros [?|?]; [done|lia]. }
  destruct (Z.eqb_spec p (freep h)) as [E|E].
  - assert (i = f) as -> by (eapply (node_index F h); [done|apply Ha|rewrite E; apply Ha]). rewrite way_self in Hphase.
    destruct Hphase as [(-> & Eb & ->)|(_ & _ & _ & j & q & Hq & Hnq & Hw)].
    + apply wpu_bind. eapply wpu_mono; [|by apply (morecore_ok F0 A h n w)]. intros e w' (r & h' & -> & Hpost). cbn [then_].
      destruct Hpost as [(-> & -> & Ew)|(F' & Hh' & -> & Hne & Hle & (b & Hb & Hnb) & Hcov)].
      * simpl. exists 0, h. split; [done|]. left. rewrite Ew, Eb. split_and!; [done|by rewrite <- Eb|done].
      * rewrite (proj2 (Z.eqb_neq _ _) Hne). cbn [wpu]. pose proof (ho_rep _ _ _ _ Hh') as Hr'.
        destruct (at_node_start F' h' Hr') as (f' & Ha' & Hf'). exists (way (S (length F')) (next (S (length F')) f') f').
        assert (Hj : ∃ j, nodes F' !! j = Some b.1 ∧ (j < S (length F'))%nat).
        { apply list_elem_of_lookup_1 in Hb as [j Hj]. exists (S j). split; [|apply lookup_lt_Some in Hj; lia].
          change (F'.*1 !! j = Some b.1). by rewrite list_lookup_fmap, Hj. }
        destruct Hj as (j & Hj & Hjl). pose proof (way_all (S (length F')) f' j Hf' Hjl) as [W1 W2]. split.
        { pose proof (heap_count _ _ _ _ Hh'). lia. }
        exists F', (next (S (length F')) f'), f'. split_and!; [done|done|right]. rewrite <- Eb. split_and!; [done|done|done|].
        exists j, b.1. rewrite (rp_size _ _ Hr' b Hb). done.
    + assert (j = f) as -> by (symmetry; apply (way_zero (S (length F))); [done|apply lookup_lt_Some in Hq; by rewrite nodes_length in Hq|lia]).
      rewrite (an_p _ _ _ _ _ _ Ha) in Hq. injection Hq as <-. lia.
  - assert (Hif : i ≠ f) by (intros ->; apply E; pose proof (an_p _ _ _ _ _ _ Ha) as E1; rewrite (an_f _ _ _ _ _ _ Ha) in E1; congruence).
    pose proof (way_next _ _ _ Hi Hf Hif) as Ew. pose proof (at_node_next _ _ _ _ _ _ Hr Ha) as Ha'. cbn [wpu].
    destruct Hphase as [(-> & Eb & ->)|(Hc & Hb & -> & j & q & Hq & Hnq & Hw)].
    + exists (way (S (length F0)) (next (S (length F0)) i) f + Z.to_nat (2 ^ 29))%nat. split; [lia|].
      eexists F0, _, f. split_and!; [done|done|]. by left.
    + exists (way (S (length F)) (next (S (length F)) i) f). split; [lia|]. eexists F, _, f. split_and!; [done|done|right].
      split_and!; [done|done|done|]. exists j, q. split_and!; [done|done|].
      assert (Hij : i ≠ j) by (intros ->; rewrite (an_p _ _ _ _ _ _ Ha) in Hq; injection Hq as <-; lia).
      apply lookup_lt_Some in Hq. rewrite nodes_length in Hq. pose proof (way_next _ _ _ Hi Hq Hij). lia.
Qed.

(** The heap of a program that has been running for a while, or has just been loaded. *)
Definition heap_inv (top : Z) (F A : list block) (h : heap) : Prop :=
  heap_ok top F A h ∨ freep h = 0 ∧ F = [] ∧ A = [] ∧ 0 < base ∧ base + HSIZE ≤ top ≤ TOP.

Lemma heap_first top h : 0 < base → base + HSIZE ≤ top ≤ TOP → heap_ok top [] [] (set_size base 0 (set_freep base (set_ptr base base h))).
Proof.
  intros Hb Ht. split; try done; try (intros ? ?; set_solver).
  split; try done; try (intros ? ?; set_solver); simpl; hsimpl; rewrite ?decide_True by done; [done|done|set_solver].
Qed.

Lemma units_ok nbytes : 0 ≤ nbytes ≤ 2 ^ 31 - 48 → 1 ≤ units nbytes < 2 ^ 27 ∧ nbytes ≤ HSIZE * (units nbytes - 1).
Proof. intros H. unfold units, HSIZE. rewrite u64_small by lia. assert (0 ≤ (nbytes + 16 - 1) / 16 < 2 ^ 27 - 1) by mlia. rewrite u32_small by lia. mlia. Qed.


(** C31. [free] returns memory for good.  For a block that [malloc] has handed out and that has not been
    freed, [free] ends, in a heap where exactly the bytes of the block have become
    free; the free blocks are again in the order of their addresses, and no two of them
    touch, so that the block has been merged with whichever of its neighbours is
    free.  The other blocks of the program keep their headers and do not overlap the
    free ones. *)
Theorem free_merges F A1 a n A2 h w :
  heap_ok (brk w) F (A1 ++ (a, n) :: A2) h →
  wpu (free (a + HSIZE) h) (λ e w', ∃ F' h', e = Done h' ∧ w' = w ∧ heap_ok (brk w) F' (A1 ++ A2) h' ∧
    gaps (base + HSIZE - 1) F' ∧ ∀ x, covered F' x ↔ covered F x ∨ inb (a, n) x) w.
Proof.
  intros Hh. pose proof Hh as [H1 H2 H3 H4 H5 H6]. destruct (H4 (a, n)) as (G1 & G2 & G3 & G4); [set_solver|]. cbn [fst snd] in *.
  eapply wpu_mono; [|apply (free_ok F h a n)]; try done; try lia.
  2: { intros b Hb. destruct (H5 (a, n) b); [set_solver|done|by right|by left]. }
  intros e w' (F' & h' & -> & -> & [R1 R2 R3 _]). exists F', h'. split_and!; [done|done| |apply R1|done].
  assert (Hother : ∀ b, b ∈ A1 ++ A2 → apart b (a, n) ∧ b ∈ A1 ++ (a, n) :: A2).
  { intros b Hb. split; [|set_solver]. apply elem_of_app in Hb as [[i Hi]%list_elem_of_lookup|[i Hi]%list_elem_of_lookup].
    - apply (H6 i (length A1)); [by apply lookup_app_l_Some|by rewrite list_lookup_middle|]. apply lookup_lt_Some in Hi. lia.
    - apply (H6 (length A1 + S i)%nat (length A1)); [|by rewrite list_lookup_middle|lia].
      rewrite lookup_app_r by lia. by replace (length A1 + S i - length A1)%nat with (S i) by lia. }
  split; try done.
  - intros b Hb. pose proof (gaps_low _ _ b (rep_gaps _ _ R1) Hb) as [L1 L2].
    assert (Hc : covered F' (bend b - 1)) by (exists b; split; [done|unfold inb, bend, HSIZE in *; lia]).
    apply R2 in Hc as [(c & Hc & Hi)|Hi]; unfold inb in Hi; [specialize (H3 c Hc)|]; lia.
  - intros b Hb. destruct (Hother b Hb) as [Hab Hin]. destruct (H4 b Hin) as (K1 & K2 & K3 & K4).
    destruct (not_in_F _ _ _ _ _ Hh Hin) as [N1 N2]. split_and!; try done. rewrite R3; [done|done|done|].
    intros E. unfold apart, bend, HSIZE in Hab. cbn [fst snd] in Hab. lia.
  - intros b c Hb Hc. destruct (Hother b Hb) as [Hab Hin]. destruct (H4 b Hin) as (K1 & _ & _ & _).
    apply apart_inb; [done|by apply (gaps_low _ _ c (rep_gaps _ _ R1))|]. intros x Hxb Hxc.
    assert (Hcov : covered F' x) by (by exists c). apply R2 in Hcov as [(d & Hd & Hi)|Hi]; [|by apply (inb_apart b (a, n) x)].
    by apply (inb_apart b d x); [apply H5| |].
  - assert (Hix : ∀ i b, (A1 ++ A2) !! i = Some b → (A1 ++ (a, n) :: A2) !! (if decide (i < length A1)%nat then i else S i) = Some b).
    { intros i b Hi. case_decide as Hl; [by rewrite lookup_app_l in Hi |- * by done|].
      rewrite lookup_app_r in Hi |- * by lia. by replace (S i - length A1)%nat with (S (i - length A1)) by lia. }
    intros i j b c Hi Hj Hij. eapply H6; [by apply Hix|by apply Hix|]. repeat case_decide; lia.
Qed.
End allocator.

(** ** Requests of 2 GB and more *)

Lemma piter_vis {X R T} (body : X → prog (X + R)) p x (c : call T) k : body x = Vis c k → ∃ k', piter p body x = Vis c k'.
Proof.
  intros E. induction p as [q [k' IH]|q [k' IH]|]; cbn [piter].
  - rewrite E. by eexists.
  - rewrite IH. by eexists.
  - by exists k.
Qed.

Lemma pwhile_vis {X R T} (body : X → prog (X + R)) x (c : call T) k : body x = Vis c k → ∃ k', pwhile body x = Vis c k'.
Proof. intros E. destruct (piter_vis body (2 ^ 64) x c k E) as [k' Ek]. unfold pwhile. rewrite Ek. by eexists. Qed.



(** ** A world with memory to give *)

Definition brk0 (w : Z) : Z := Z.min w TOP.
Definition sbrk0 {R} (c : call R) : Z → R → Z → Prop :=
  match c in call R return Z → R → Z → Prop with
  | CSbrk n => λ w r w', if (0 <? n) && (brk0 w + n <=? TOP) then r = brk0 w ∧ w' = brk0 w + n else r = -1 ∧ w' = w
  | _ => λ _ _ _, False
  end.

#[export] Instance memory_world : World Z := { w_step := @sbrk0; w_exec := λ _ _, False }.

#[export] Instance memory_sbrk : Sbrk (W := Z).
Proof.
  refine {| brk := brk0 |}.
  - intros n w. simpl. case_match; eauto.
  - intros n w r w' Hn. simpl. rewrite (proj2 (Z.ltb_lt _ _) Hn). cbn [andb]. destruct (Z.leb_spec (brk0 w + n) TOP) as [Hl|Hl].
    + intros [-> ->]. right. split; [done|]. unfold brk0 at 1. lia.
    + intros [-> ->]. by left.
  - intros w. unfold brk0. lia.
Defined.

(** Two blocks of the program at 8192 and 8288, with 64 bytes free between them. *)
Definition heap0 : heap :=
  mkHeap {[4096 := mkHeader 8224 0; 8224 := mkHeader 4096 4; 8192 := mkHeader 0 2; 8288 := mkHeader 0 2]} 4096.

Lemma heap0_ok : heap_ok 4096 8320 [(8224, 4)] [(8192, 2); (8288, 2)] heap0.
Proof.
  split.
  - split; try done.
    + intros b ->%list_elem_of_singleton. reflexivity.
    + by left.
    + by intros b ->%list_elem_of_singleton.
  - done.
  - by intros b ->%list_elem_of_singleton.
  - intros b [->| ->%list_elem_of_singleton]%elem_of_cons; done.
  - intros a b [->| ->%list_elem_of_singleton]%elem_of_cons ->%list_elem_of_singleton; unfold apart, bend, HSIZE; simpl; lia.
  - intros [|[|i]] [|[|j]] a b; simpl; try done; intros [= <-] [= <-] ?; unfold apart, bend, HSIZE; simpl; lia || done.
Qed.


Lemma free_merges_witness :
  wpu (free 8208 heap0) (λ e w', ∃ F' h', e = Done h' ∧ heap_ok 4096 8320 F' [(8288, 2)] h' ∧ covered F' 8192 ∧ covered F' 8287) 8320.
Proof.
  eapply wpu_mono; [|exact (free_merges 4096 [(8224, 4)] [] 8192 2 [(8288, 2)] heap0 8320 heap0_ok)].
  intros e w' (F' & h' & -> & _ & Hok & _ & Hc). exists F', h'. split_and!; [done|done| |]; apply Hc.
  - right. unfold inb, bend, HSIZE. simpl. lia.
  - left. exists (8224, 4). split; [by left|]. unfold inb, bend, HSIZE. simpl. lia.
Defined.
