(* ===== verification/Procs.v ===== *)
(** * Programs that fork and communicate

    The system calls as processes see them: processes with descriptor tables, pipes and the console.
    Every process can be scheduled at every moment.  [explore] follows all the schedules of
    a program, and [explore_sound] says what its answer means.  [user/pingpong.c] is checked
    that way. *)

From stdpp Require Import prelude gmap strings list relations.
From Stdlib Require Import ZArith Lia.
From S2P Require Import Prelude.
From S2P Require Import User.
From S2P Require Import Ulib.
From S2P Require Import Utils.

(** ** The state of the system *)

Inductive fdesc := Console | PipeR (n : nat) | PipeW (n : nat).

#[export] Instance fdesc_eq_dec : EqDecision fdesc.
Proof. solve_decision. Defined.

(** A process runs, or has ended with a status and waits for its parent. *)
Record uproc := mkUproc {
  u_code : prog unit;
  u_fds : gmap Z fdesc;
  u_parent : Z;
  u_zombie : option Z
}.

Record usys := mkUsys {
  s_procs : gmap Z uproc;
  s_pipes : list (list Z);   (** the bytes in each pipe *)
  s_out : list Z;            (** what the console shows *)
  s_next : Z                 (** the next pid *)
}.

Definition PIPESIZE : nat := 512.

Definition holds_fd (d : fdesc) (s : usys) : bool :=
  existsb (λ p, existsb (λ x, bool_decide (x.2 = d)) (map_to_list (u_fds p.2))) (map_to_list (s_procs s)).

Definition set_proc (pid : Z) (p : uproc) (s : usys) : usys := mkUsys (<[pid := p]> (s_procs s)) (s_pipes s) (s_out s) (s_next s).
Definition set_pipe (n : nat) (l : list Z) (s : usys) : usys := mkUsys (s_procs s) (<[n := l]> (s_pipes s)) (s_out s) (s_next s).

(** The lowest descriptor that is not in use, among the 16 of a process. *)
Definition free_fd (m : gmap Z fdesc) : option Z := snd <$> list_find (λ fd, m !! fd = None) (Z.of_nat <$> seq 0 16).

(** A process goes on with a reply. *)
Definition reply (pid : Z) (p : uproc) (code : prog unit) (s : usys) : usys :=
  set_proc pid (mkUproc code (u_fds p) (u_parent p) None) s.
Definition reply_fds (pid : Z) (p : uproc) (code : prog unit) (m : gmap Z fdesc) (s : usys) : usys :=
  set_proc pid (mkUproc code m (u_parent p) None) s.

(** What happens when a process is scheduled.  [Stuck] is what is not modelled: other calls, input from the
    console, a write that a pipe has no room for. *)
Inductive result := Next (s : usys) | Blocked | Stuck.

(** [wait]: the first child that has ended. *)
Definition find_zombie (pid : Z) (s : usys) : option (Z * Z) :=
  match filter (λ x, u_parent x.2 = pid ∧ is_Some (u_zombie x.2)) (map_to_list (s_procs s)) with
  | (c, p) :: _ => (λ st, (c, st)) <$> u_zombie p
  | [] => None
  end.
Definition has_child (pid : Z) (s : usys) : bool := existsb (λ x, u_parent x.2 =? pid) (map_to_list (s_procs s)).

Definition do_call {R} (pid : Z) (p : uproc) (c : call R) (s : usys) : (R → prog unit) → result :=
  match c in call R return (R → prog unit) → result with
  | CFork => λ k,
      let s1 := reply pid p (k (s_next s)) s in
      Next (mkUsys (<[s_next s := mkUproc (k 0) (u_fds p) pid None]> (s_procs s1)) (s_pipes s1) (s_out s1) (s_next s + 1))
  | CExit st => λ _, Next (set_proc pid (mkUproc (Ret ()) ∅ (u_parent p) (Some st)) s)
  | CWait => λ k,
      match find_zombie pid s with
      | Some (c, st) => Next (reply pid p (k (c, st)) (mkUsys (delete c (s_procs s)) (s_pipes s) (s_out s) (s_next s)))
      | None => if has_child pid s then Blocked else Next (reply pid p (k (-1, 0)) s)
      end
  | CPipe => λ k,
      let n := length (s_pipes s) in
      match free_fd (u_fds p) with
      | None => Next (reply pid p (k (-1, (0, 0))) s)
      | Some a =>
          match free_fd (<[a := PipeR n]> (u_fds p)) with
          | None => Next (reply pid p (k (-1, (0, 0))) s)
          | Some b => Next (reply_fds pid p (k (0, (a, b))) (<[b := PipeW n]> (<[a := PipeR n]> (u_fds p)))
                             (mkUsys (s_procs s) (s_pipes s ++ [[]]) (s_out s) (s_next s)))
          end
      end
  | CWrite fd l => λ k,
      match u_fds p !! fd with
      | Some Console => Next (reply pid p (k (Z.of_nat (length l))) (mkUsys (s_procs s) (s_pipes s) (s_out s ++ l) (s_next s)))
      | Some (PipeW n) =>
          if negb (holds_fd (PipeR n) s) then Next (reply pid p (k (-1)) s) else
          let b := nth n (s_pipes s) [] in
          if (length b + length l <=? PIPESIZE)%nat
          then Next (reply pid p (k (Z.of_nat (length l))) (set_pipe n (b ++ l) s)) else Stuck
      | _ => Next (reply pid p (k (-1)) s)
      end
  | CRead fd n => λ k,
      match u_fds p !! fd with
      | Some Console => Stuck
      | Some (PipeR i) =>
          match nth i (s_pipes s) [] with
          | [] => if holds_fd (PipeW i) s then Blocked else Next (reply pid p (k (0, [])) s)
          | b => let a := take (Z.to_nat n) b in
                 Next (reply pid p (k (Z.of_nat (length a), a)) (set_pipe i (drop (Z.to_nat n) b) s))
          end
      | _ => Next (reply pid p (k (-1, [])) s)
      end
  | CClose fd => λ k,
      match u_fds p !! fd with
      | Some _ => Next (reply_fds pid p (k 0) (delete fd (u_fds p)) s)
      | None => Next (reply pid p (k (-1)) s)
      end
  | CGetpid => λ k, Next (reply pid p (k pid) s)
  | _ => λ _, Stuck
  end.

Definition sched_proc (pid : Z) (p : uproc) (s : usys) : result :=
  match u_zombie p, u_code p with
  | Some _, _ => Blocked
  | None, Vis c k => do_call pid p c s k
  | None, _ => Stuck
  end.

(** ** Runs *)

(** One step of some process. *)
Inductive sys_step : usys → usys → Prop :=
| run_proc pid p s s' : s_procs s !! pid = Some p → sched_proc pid p s = Next s' → sys_step s s'.

(** Every process has ended. *)
Definition all_ended (s : usys) : Prop := ∀ pid p, s_procs s !! pid = Some p → is_Some (u_zombie p).

(** No process has come to something that is not modelled. *)
Definition no_stuck (s : usys) : Prop := ∀ pid p, s_procs s !! pid = Some p → sched_proc pid p s ≠ Stuck.

(** ** All schedules *)

Definition ended (s : usys) : bool := forallb (λ x, bool_decide (is_Some (u_zombie x.2))) (map_to_list (s_procs s)).

(** The results of scheduling each process. *)
Definition choices (s : usys) : list result := (λ x, sched_proc x.1 x.2 s) <$> map_to_list (s_procs s).

Definition is_next (r : result) : bool := match r with Next _ => true | _ => false end.

(** Within [n] steps every schedule ends, in a state that satisfies [P]. *)
Fixpoint explore (n : nat) (P : usys → bool) (s : usys) : bool :=
  if ended s then P s else
  match n with
  | O => false
  | S n' =>
      let rs := choices s in
      existsb is_next rs &&
      forallb (λ r, match r with Next s' => explore n' P s' | Blocked => true | Stuck => false end) rs
  end.

Lemma ended_all s : ended s = true ↔ all_ended s.
Proof.
  unfold ended, all_ended. rewrite forallb_forall. split.
  - intros H pid p Hp. specialize (H (pid, p)). rewrite bool_decide_eq_true in H. apply H. by apply list_elem_of_In, elem_of_map_to_list.
  - intros H [pid p] Hp%list_elem_of_In%elem_of_map_to_list. apply bool_decide_eq_true. by eapply H.
Qed.

Lemma ended_no_step s s' : all_ended s → ¬ sys_step s s'.
Proof. intros H Hs. destruct Hs as [pid p s s' Hp Hr]. destruct (H pid p Hp) as [st Est]. unfold sched_proc in Hr. by rewrite Est in Hr. Qed.

Lemma choices_spec s pid p : s_procs s !! pid = Some p → sched_proc pid p s ∈ choices s.
Proof. intros Hp. apply list_elem_of_fmap. exists (pid, p). split; [done|]. by apply elem_of_map_to_list. Qed.

Lemma explore_step n P s : explore (S n) P s = true → ended s = false →
  (∃ s', sys_step s s') ∧ no_stuck s ∧ ∀ s', sys_step s s' → explore n P s' = true.
Proof.
  simpl. intros H He. rewrite He in H. apply andb_true_iff in H as [H1 H2]. rewrite forallb_forall in H2. split_and!.
  - apply existsb_exists in H1 as (r & Hr%list_elem_of_In & Hn). destruct r as [s'| |]; try done.
    apply list_elem_of_fmap in Hr as ([pid p] & E & Hp%elem_of_map_to_list). exists s'. by eapply run_proc.
  - intros pid p Hp E. assert (Hin : In Stuck (choices s)) by (apply list_elem_of_In; rewrite <- E; by apply choices_spec). by specialize (H2 Stuck Hin).
  - intros s' Hs. destruct Hs as [pid p s s' Hp Hr]. apply (H2 (Next s')). apply list_elem_of_In. rewrite <- Hr. by apply choices_spec.
Qed.

(** From [s] every run is at most [n] steps long, never gets stuck or deadlocked, and when no step is left
    all processes have ended and [P] holds. *)
Definition always_ends (n : nat) (P : usys → bool) (s : usys) : Prop :=
  ∀ m s', nsteps sys_step m s s' → (m ≤ n)%nat ∧ no_stuck s' ∧
    (all_ended s' ∧ P s' = true ∨ ∃ s'', sys_step s' s'').

Lemma explore_sound n P s : explore n P s = true → always_ends n P s.
Proof.
  revert s. induction n as [|n IH]; intros s H m s' Hs; destruct (ended s) eqn:He.
  1, 3: pose proof He as Ha; rewrite ended_all in Ha;
    (destruct m as [|m]; [|inversion Hs; subst; by edestruct ended_no_step]); inversion Hs; subst s'; clear Hs;
    (split_and!; [lia| |left; split; [done|]]);
    [intros pid p Hp; destruct (Ha pid p Hp) as [st Est]; unfold sched_proc; by rewrite Est|simpl in H; by rewrite He in H].
  - simpl in H. by rewrite He in H.
  - destruct (explore_step n P s H He) as (Hex & Hno & Hall). destruct m as [|m].
    + inversion Hs; subst s'. split_and!; [lia|done|by right].
    + inversion Hs as [|? ? s1 ? Hs1 Hs2]; subst. destruct (IH s1 (Hall s1 Hs1) m s' Hs2) as (L & N & E). split_and!; [lia|done|done].
Qed.

(** ** [user/pingpong.c] *)

(** [byte] is not initialised: [b] is what it holds. *)
Definition pingpong_main (b : Z) : prog unit :=
  '(r, pipe1) ← sys CPipe;
  if r <? 0 then fprintf 2 (bytes_of "Failed to create pipe1" ++ nl) [];; exit_ 1 else
  '(r, pipe2) ← sys CPipe;
  if r <? 0 then fprintf 2 (bytes_of "Failed to create pipe2" ++ nl) [];; exit_ 1 else
  pid ← sys CFork;
  if pid =? -1 then fprintf 2 (bytes_of "Fork failed" ++ nl) [];; exit_ 1
  else if pid =? 0 then
    _ ← sys (CClose pipe1.2);
    _ ← sys (CClose pipe2.1);
    '(n, l) ← sys (CRead pipe1.1 1);
    if n <>? 1 then fprintf 2 (bytes_of "Child failed to read from pipe1" ++ nl) [];; exit_ 1 else
    me ← sys CGetpid;
    printf (bytes_of "%d: received ping" ++ nl) [VNum me];;
    r ← sys (CWrite pipe2.2 l);
    if r <>? 1 then fprintf 2 (bytes_of "Child failed to write to pipe2" ++ nl) [];; exit_ 1 else
    _ ← sys (CClose pipe1.1);
    _ ← sys (CClose pipe2.2);
    exit_ 0
  else
    _ ← sys (CClose pipe1.1);
    _ ← sys (CClose pipe2.2);
    r ← sys (CWrite pipe1.2 [b]);
    if r <>? 1 then fprintf 2 (bytes_of "Parent failed to write to pipe1" ++ nl) [];; exit_ 1 else
    '(n, _) ← sys (CRead pipe2.1 1);
    if n <>? 1 then fprintf 2 (bytes_of "Parent failed to read from pipe2" ++ nl) [];; exit_ 1 else
    me ← sys CGetpid;
    printf (bytes_of "%d: received pong" ++ nl) [VNum me];;
    _ ← sys (CClose pipe1.2);
    _ ← sys (CClose pipe2.1);
    exit_ 0.

(** The shell has started the program as process 3, with the console as descriptors 0, 1 and 2. *)
Definition console3 : gmap Z fdesc := {[0 := Console; 1 := Console; 2 := Console]}.
Definition start3 (code : prog unit) : usys := mkUsys {[3 := mkUproc code console3 2 None]} [] [] 4.

Definition pingpong_done (s : usys) : bool :=
  bool_decide (s_out s = bytes_of "4: received ping" ++ nl ++ bytes_of "3: received pong" ++ nl) &&
  forallb (λ x, bool_decide (u_zombie x.2 = Some 0)) (map_to_list (s_procs s)).

Lemma pingpong_explored b : explore 70 pingpong_done (start3 (pingpong_main b)) = true.
Proof. vm_compute. reflexivity. Qed.


(** ** [user/primes.c] *)

(** [while (read(fd, &n, sizeof(n)) == sizeof(n))]; [n % p] has no value for [p = 0]. *)
Definition sieve_body (fd out p : Z) (_ : unit) : prog (unit + unit) :=
  '(r, l) ← sys (CRead fd 4);
  if r <>? 4 then Ret (inr ()) else
  let n := i32 (le_join l) in
  if p =? 0 then Fault else
  pwhen (Z.rem n p <>? 0) (_ ← sys (CWrite out (le_split 4 n)); Ret ());;
  Ret (inl ()).

(** [depth] bounds the recursion: the stack is one page, and a call takes at least 16 bytes of it. *)
Fixpoint sieve (depth : nat) (fd : Z) : prog unit :=
  match depth with
  | O => Fuel
  | S depth' =>
      '(r, l) ← sys (CRead fd 4);
      if r <>? 4 then _ ← sys (CClose fd); exit_ 0 else
      let p := i32 (le_join l) in
      printf (bytes_of "prime %d" ++ nl) [VNum p];;
      '(_, pfd) ← sys CPipe;
      pid ← sys CFork;
      if pid =? 0 then _ ← sys (CClose pfd.2); sieve depth' pfd.1
      else
        _ ← sys (CClose pfd.1);
        pwhile (sieve_body fd pfd.2 p) ();;
        _ ← sys (CClose fd);
        _ ← sys (CClose pfd.2);
        _ ← sys CWait;
        Ret ()
  end.

(** [for (int i = 2; i <= 35; i++)] *)
Fixpoint feed (n : nat) (i fd : Z) : prog unit :=
  match n with
  | O => Ret ()
  | S n' => _ ← sys (CWrite fd (le_split 4 i)); feed n' (i + 1) fd
  end.

Definition primes_main (depth : nat) : prog unit :=
  '(_, pfd) ← sys CPipe;
  pid ← sys CFork;
  (if pid =? 0 then _ ← sys (CClose pfd.2); sieve depth pfd.1
   else
     _ ← sys (CClose pfd.1);
     feed 34 2 pfd.2;;
     _ ← sys (CClose pfd.2);
     _ ← sys CWait;
     Ret ());;
  exit_ 0.

(** One schedule: some process that can run does. *)
Fixpoint first_next (rs : list result) : option usys :=
  match rs with
  | [] => None
  | Next s :: _ => Some s
  | _ :: rs' => first_next rs'
  end.
Fixpoint run_sys (n : nat) (s : usys) : usys :=
  match n with
  | O => s
  | S n' => match first_next (choices s) with Some s' => run_sys n' s' | None => s end
  end.

(** A run of [primes] to its end prints the primes up to 35, each by its own process. *)
Example primes_run :
  let s := run_sys 1500 (start3 (primes_main 20)) in
  ended s = true ∧
  s_out s = concat ((λ n, bytes_of "prime " ++ int_text n 10 true ++ nl) <$> [2; 3; 5; 7; 11; 13; 17; 19; 23; 29; 31]).
Proof. vm_compute. by split. Qed.
