(* ===== verification/Grind.v ===== *)
(** * The stress test [user/grind.c]

    Random system calls in two processes for ever.  The random numbers are those of a
    Lehmer generator, computed in 31 bits by Schrage's method. *)

From stdpp Require Import prelude gmap strings list.
From Stdlib Require Import ZArith Lia Znumtheory.
From S2P Require Import Prelude.
From S2P Require Import Types.
From S2P Require Import User.
From S2P Require Import Ulib.
From S2P Require Import Utils.

(** ** Random numbers *)

(** The result and the new [*ctx]; [long] division truncates. *)
Definition do_rand (ctx : Z) : Z * Z :=
  let x := u64 (ctx mod 0x7ffffffe + 1) in
  let hi := Z.quot x 127773 in
  let lo := Z.rem x 127773 in
  let x := 16807 * lo - 2836 * hi in
  let x := if x <? 0 then x + 0x7fffffff else x in
  let x := x - 1 in
  (i32 x, u64 x).

(** ** [go] *)

Definition CREATE_RDWR : Z := 0x202.   (** O_CREATE|O_RDWR *)

Definition close_open (path : list Z) : prog unit :=
  fd ← sys (COpen path CREATE_RDWR); _ ← sys (CClose fd); Ret ().

(** [fork], with the child's part and the message of a failure; the parent goes on. *)
Definition fork_or (msg : list Z) (child : prog unit) : prog Z :=
  pid ← sys CFork;
  if pid =? 0 then child;; exit_ 0
  else if pid <? 0 then printf (msg ++ nl) [];; exit_ 1
  else Ret pid.

(** [what == 21]: check that there are free i-nodes, descriptors and blocks *)
Definition check_create : prog unit :=
  _ ← sys (CUnlink (bytes_of "c"));
  fd1 ← sys (COpen (bytes_of "c") CREATE_RDWR);
  if fd1 <? 0 then printf (bytes_of "create c failed" ++ nl) [];; exit_ 1 else
  r ← sys (CWrite fd1 (bytes_of "x"));
  if r <>? 1 then printf (bytes_of "write c failed" ++ nl) [];; exit_ 1 else
  '(r, st) ← sys (CFstat fd1);
  if r <>? 0 then printf (bytes_of "fstat failed" ++ nl) [];; exit_ 1 else
  if st_size st <>? 1 then printf (bytes_of "fstat reports wrong size %d" ++ nl) [VNum (i32 (st_size st))];; exit_ 1 else
  if 200 <? st_ino st then printf (bytes_of "fstat reports crazy i-number %d" ++ nl) [VNum (st_ino st)];; exit_ 1 else
  _ ← sys (CClose fd1);
  _ ← sys (CUnlink (bytes_of "c"));
  Ret ().

(** [what == 22]: echo hi | cat *)
Definition echo_child (aa bb : Z * Z) : prog unit :=
  _ ← sys (CClose bb.1); _ ← sys (CClose bb.2); _ ← sys (CClose aa.1); _ ← sys (CClose 1);
  r ← sys (CDup aa.2);
  if r <>? 1 then fprintf 2 (bytes_of "dup failed" ++ nl) [];; exit_ 1 else
  _ ← sys (CClose aa.2);
  _ ← sys (CExec (bytes_of "grindir/../echo") [bytes_of "echo"; bytes_of "hi"]);
  fprintf 2 (bytes_of "echo: not found" ++ nl) [];; exit_ 2.
Definition cat_child (aa bb : Z * Z) : prog unit :=
  _ ← sys (CClose aa.2); _ ← sys (CClose bb.1); _ ← sys (CClose 0);
  r ← sys (CDup aa.1);
  if r <>? 0 then fprintf 2 (bytes_of "dup failed" ++ nl) [];; exit_ 4 else
  _ ← sys (CClose aa.1); _ ← sys (CClose 1);
  r ← sys (CDup bb.2);
  if r <>? 1 then fprintf 2 (bytes_of "dup failed" ++ nl) [];; exit_ 5 else
  _ ← sys (CClose bb.2);
  _ ← sys (CExec (bytes_of "/cat") [bytes_of "cat"]);
  fprintf 2 (bytes_of "cat: not found" ++ nl) [];; exit_ 6.
Definition echo_cat : prog unit :=
  '(r, aa) ← sys CPipe;
  if r <? 0 then fprintf 2 (bytes_of "pipe failed" ++ nl) [];; exit_ 1 else
  '(r, bb) ← sys CPipe;
  if r <? 0 then fprintf 2 (bytes_of "pipe failed" ++ nl) [];; exit_ 1 else
  pid1 ← sys CFork;
  if pid1 =? 0 then echo_child aa bb
  else if pid1 <? 0 then fprintf 2 (bytes_of "fork failed" ++ nl) [];; exit_ 3 else
  pid2 ← sys CFork;
  if pid2 =? 0 then cat_child aa bb
  else if pid2 <? 0 then fprintf 2 (bytes_of "fork failed" ++ nl) [];; exit_ 7 else
  _ ← sys (CClose aa.1); _ ← sys (CClose aa.2); _ ← sys (CClose bb.2);
  '(_, l1) ← sys (CRead bb.1 1);
  buf ← set_bytes [0; 0; 0] 0 l1;
  '(_, l2) ← sys (CRead bb.1 1);
  buf ← set_bytes buf 1 l2;
  _ ← sys (CClose bb.1);
  '(_, st1) ← sys CWait;
  '(_, st2) ← sys CWait;
  if (st1 <>? 0) || (st2 <>? 0) || (strcmp buf (bytes_of "hi") <>? 0)
  then printf (bytes_of "exec pipeline failed %d %d " ++ [34] ++ bytes_of "%s" ++ [34] ++ nl) [VNum st1; VNum st2; VStr (Some (cstr buf))];; exit_ 1
  else Ret ().

(** The variables of [go]: [fd], the static [buf], [iters] and [rand_next]. *)
Record going := mkGoing { g_fd : Z; g_buf : list Z; g_iters : Z; g_rand : Z }.

(** The system calls for [what]; they give [fd] and [buf]. *)
Definition go_call (break0 what fd : Z) (buf : list Z) : prog (Z * list Z) :=
  let keep (p : prog unit) : prog (Z * list Z) := p;; Ret (fd, buf) in
  match what with
  | 1 => keep (close_open (bytes_of "grindir/../a"))
  | 2 => keep (close_open (bytes_of "grindir/../grindir/../b"))
  | 3 => keep (_ ← sys (CUnlink (bytes_of "grindir/../a")); Ret ())
  | 4 => keep (r ← sys (CChdir (bytes_of "grindir"));
      if r <>? 0 then printf (bytes_of "chdir grindir failed" ++ nl) [];; exit_ 1 else
      _ ← sys (CUnlink (bytes_of "../b")); _ ← sys (CChdir (bytes_of "/")); Ret ())
  | 5 => _ ← sys (CClose fd); fd ← sys (COpen (bytes_of "/grindir/../a") CREATE_RDWR); Ret (fd, buf)
  | 6 => _ ← sys (CClose fd); fd ← sys (COpen (bytes_of "/./grindir/./../b") CREATE_RDWR); Ret (fd, buf)
  | 7 => keep (_ ← sys (CWrite fd buf); Ret ())
  | 8 => '(_, l) ← sys (CRead fd 999); buf ← set_bytes buf 0 l; Ret (fd, buf)
  | 9 => keep (_ ← sys (CMkdir (bytes_of "grindir/../a")); close_open (bytes_of "a/../a/./a");;
      _ ← sys (CUnlink (bytes_of "a/a")); Ret ())
  | 10 => keep (_ ← sys (CMkdir (bytes_of "/../b")); close_open (bytes_of "grindir/../b/b");;
      _ ← sys (CUnlink (bytes_of "b/b")); Ret ())
  | 11 => keep (_ ← sys (CUnlink (bytes_of "b")); _ ← sys (CLink (bytes_of "../grindir/./../a") (bytes_of "../b")); Ret ())
  | 12 => keep (_ ← sys (CUnlink (bytes_of "../grindir/../a"));
      _ ← sys (CLink (bytes_of ".././b") (bytes_of "/grindir/../a")); Ret ())
  | 13 => keep (_ ← fork_or (bytes_of "grind: fork failed") (Ret ()); _ ← sys CWait; Ret ())
  | 14 => keep (_ ← fork_or (bytes_of "grind: fork failed") (_ ← sys CFork; _ ← sys CFork; Ret ()); _ ← sys CWait; Ret ())
  | 15 => keep (_ ← sys (CSbrk 6011); Ret ())
  | 16 => keep (b ← sys (CSbrk 0);
      if u64 break0 <? u64 b then b' ← sys (CSbrk 0); _ ← sys (CSbrk (i32 (- (b' - break0)))); Ret () else Ret ())
  | 17 => keep (pid ← fork_or (bytes_of "grind: fork failed") (close_open (bytes_of "a"));
      r ← sys (CChdir (bytes_of "../grindir/.."));
      if r <>? 0 then printf (bytes_of "chdir failed" ++ nl) [];; exit_ 1 else
      _ ← sys (CKill pid); _ ← sys CWait; Ret ())
  | 18 => keep (_ ← fork_or (bytes_of "grind: fork failed") (me ← sys CGetpid; _ ← sys (CKill me); Ret ()); _ ← sys CWait; Ret ())
  | 19 => keep ('(r, fds) ← sys CPipe;
      if r <? 0 then printf (bytes_of "grind: pipe failed" ++ nl) [];; exit_ 1 else
      _ ← fork_or (bytes_of "grind: fork failed")
        (_ ← sys CFork; _ ← sys CFork;
         w ← sys (CWrite fds.2 (bytes_of "x"));
         pwhen (w <>? 1) (printf (bytes_of "grind: pipe write failed" ++ nl) []);;
         '(n, _) ← sys (CRead fds.1 1);
         pwhen (n <>? 1) (printf (bytes_of "grind: pipe read failed" ++ nl) []));
      _ ← sys (CClose fds.1); _ ← sys (CClose fds.2); _ ← sys CWait; Ret ())
  | 20 => keep (_ ← fork_or (bytes_of "fork failed")
        (_ ← sys (CUnlink (bytes_of "a")); _ ← sys (CMkdir (bytes_of "a")); _ ← sys (CChdir (bytes_of "a"));
         _ ← sys (CUnlink (bytes_of "../a")); _ ← sys (COpen (bytes_of "x") CREATE_RDWR); _ ← sys (CUnlink (bytes_of "x")); Ret ());
      _ ← sys CWait; Ret ())
  | 21 => keep check_create
  | 22 => keep echo_cat
  | _ => Ret (fd, buf)
  end.

(** [while(1)]: one iteration *)
Definition go_body (which_child : bool) (break0 : Z) (g : going) : prog (going + unit) :=
  let iters := u64 (g_iters g + 1) in
  pwhen (iters mod 500 =? 0) (_ ← sys (CWrite 1 (bytes_of (if which_child then "B" else "A"))); Ret ());;
  let '(r, ctx) := do_rand (g_rand g) in
  '(fd, buf) ← go_call break0 (Z.rem r 23) (g_fd g) (g_buf g);
  Ret (inl (mkGoing fd buf iters ctx)).

Definition go (which_child : bool) (rand_next : Z) : prog unit :=
  break0 ← sys (CSbrk 0);
  _ ← sys (CMkdir (bytes_of "grindir"));
  r ← sys (CChdir (bytes_of "grindir"));
  if r <>? 0 then printf (bytes_of "chdir grindir failed" ++ nl) [];; exit_ 1 else
  _ ← sys (CChdir (bytes_of "/"));
  pwhile (go_body which_child break0) (mkGoing (-1) (replicate 999 0) 0 rand_next).

(** ** [iter] and [main] *)

Definition iter : prog unit :=
  _ ← sys (CUnlink (bytes_of "a"));
  _ ← sys (CUnlink (bytes_of "b"));
  pid1 ← sys CFork;
  if pid1 <? 0 then printf (bytes_of "grind: fork failed" ++ nl) [];; exit_ 1 else
  if pid1 =? 0 then go false 31;; exit_ 0 else
  pid2 ← sys CFork;
  if pid2 <? 0 then printf (bytes_of "grind: fork failed" ++ nl) [];; exit_ 1 else
  if pid2 =? 0 then go true 7177;; exit_ 0 else
  '(_, st1) ← sys CWait;
  pwhen (st1 <>? 0) (_ ← sys (CKill pid1); _ ← sys (CKill pid2); Ret ());;
  _ ← sys CWait;
  exit_ 0.

Definition grind_body (_ : unit) : prog (unit + unit) :=
  pid ← sys CFork;
  if pid =? 0 then iter;; exit_ 0 else
  pwhen (0 <? pid) (_ ← sys CWait; Ret ());;
  _ ← sys (CSleep 20);
  Ret (inl ()).
Definition grind_main : prog unit := pwhile grind_body ().

(** ** Properties *)

Definition P31 : Z := 2 ^ 31 - 1.

(** Schrage's method: [16807 x mod (2^31 - 1)] without large products. *)
Lemma schrage x : 0 < x < P31 →
  let y := 16807 * (x mod 127773) - 2836 * (x / 127773) in
  (if y <? 0 then y + P31 else y) = (16807 * x) mod P31 ∧ 0 < (16807 * x) mod P31 < P31.
Proof.
  intros Hx y. unfold P31 in *. assert (Hr : (16807 * x) mod (2 ^ 31 - 1) ≠ 0).
  { intros E. assert (E2 : (1407677000 * (16807 * x)) mod (2 ^ 31 - 1) = 0) by (by rewrite Z.mul_mod, E, Z.mul_0_r by lia).
    replace (1407677000 * (16807 * x)) with (x + 11017 * x * (2 ^ 31 - 1)) in E2 by lia. rewrite Z.mod_add in E2 by lia.
    rewrite Z.mod_small in E2; lia. }
  pose proof (Z.mod_pos_bound (16807 * x) (2 ^ 31 - 1) ltac:(lia)) as Hb. split; [|lia].
  pose proof (Z.div_mod x 127773 ltac:(lia)) as Ex. pose proof (Z.mod_pos_bound x 127773 ltac:(lia)) as Hm.
  set (q := x / 127773) in *. set (m := x mod 127773) in *. assert (0 ≤ q ≤ 16807) by lia.
  assert (Ey : 16807 * x = y + q * (2 ^ 31 - 1)) by (unfold y; lia).
  assert (- (2 ^ 31 - 1) < y < 2 ^ 31 - 1) by (unfold y; lia). rewrite Ey, Z.mod_add by lia.
  destruct (Z.ltb_spec y 0); [|by rewrite Z.mod_small by lia].
  rewrite <- (Z.mod_add _ 1), Z.mod_small by lia. lia.
Qed.

Lemma do_rand_eq ctx : 0 ≤ ctx →
  let r := (16807 * (ctx mod (P31 - 1) + 1)) mod P31 - 1 in do_rand ctx = (r, r) ∧ 0 ≤ r < P31 - 1.
Proof.
  intros Hc r. unfold do_rand. change 0x7ffffffe with (P31 - 1). change 0x7fffffff with P31.
  pose proof (Z.mod_pos_bound ctx (P31 - 1) ltac:(done)) as Hm. set (x := ctx mod (P31 - 1) + 1) in *.
  destruct (schrage x) as [E Hr]; [unfold x; lia|]. rewrite u64_small by (unfold x, P31 in *; lia).
  rewrite Z.quot_div_nonneg, Z.rem_mod_nonneg by (unfold x; lia). cbv zeta. rewrite E.
  assert (Hrr : 0 ≤ r < P31 - 1) by (unfold r; lia). fold r. split; [|done]. unfold P31 in *. by rewrite i32_small, u64_small by lia.
Qed.

(** Multiplication by 16807 and by 1407677000 undo each other. *)
Lemma undo a b x : a * b = 1 + 11017 * P31 → 0 ≤ x < P31 → (a * ((b * x) mod P31)) mod P31 = x.
Proof.
  intros E Hx. rewrite Z.mul_mod_idemp_r by done. replace (a * (b * x)) with (x + 11017 * x * P31) by (rewrite Z.mul_assoc, E; lia).
  rewrite Z.mod_add by done. by apply Z.mod_small.
Qed.

(** The state before a given one: 1407677000 is the inverse of 16807. *)
Definition rand_back (r : Z) : Z := (1407677000 * (r + 1)) mod P31 - 1.

(** The random number generator.  For every state, [do_rand] computes
    [16807 x mod (2^31 - 1)] for the state shifted to the range 1 to 2^31 - 2, by
    Schrage's method, in which no intermediate value needs more than 31 bits and a sign;
    the result is shifted back and lies in 0 to 2^31 - 3.  On that range the
    generator is a permutation: every state has exactly one predecessor. *)
Theorem do_rand_lehmer ctx :
  0 ≤ ctx < 2 ^ 64 →
  let x := ctx mod (P31 - 1) + 1 in
  let r := (16807 * x) mod P31 - 1 in
  do_rand ctx = (r, r) ∧ 0 ≤ r < P31 - 1 ∧
  - 2 ^ 31 < 16807 * (x mod 127773) - 2836 * (x / 127773) < 2 ^ 31 ∧
  (ctx < P31 - 1 → rand_back r = ctx ∧ do_rand (rand_back ctx) = (ctx, ctx)).
Proof.
  intros Hc x r. destruct (do_rand_eq ctx ltac:(lia)) as [E Hr]. fold x r in E, Hr. split_and!; [done|lia|lia| | |].
  - unfold x, P31. mlia.
  - unfold x, P31. mlia.
  - intros Hs. assert (Ex : x = ctx + 1) by (unfold x; rewrite Z.mod_small; lia). unfold rand_back. split.
    + unfold r. rewrite Z.sub_add, (undo 1407677000 16807) by (done || lia). lia.
    + pose proof (undo 16807 1407677000 (ctx + 1) ltac:(done) ltac:(lia)) as Eu.
      pose proof (Z.mod_pos_bound (1407677000 * (ctx + 1)) P31 ltac:(done)) as Hb. set (b := (1407677000 * (ctx + 1)) mod P31) in *.
      assert (b ≠ 0) by (intros Eb; rewrite Eb, Z.mul_0_r, Z.mod_0_l in Eu by done; lia).
      destruct (do_rand_eq (b - 1) ltac:(lia)) as [-> _]. rewrite (Z.mod_small (b - 1)), Z.sub_add, Eu by lia. f_equal; lia.
Qed.

Lemma do_rand_lehmer_witness : do_rand 31 = (537823, 537823) ∧ rand_back 537823 = 31.
Proof.
  destruct (do_rand_lehmer 31 ltac:(lia)) as (E & _ & _ & H). split; [exact E|]. exact (proj1 (H ltac:(done))).
Defined.
