(* ===== verification/Mkfs.v ===== *)
(** * The file-system builder [mkfs/mkfs.c]

    A program of the host: it writes the disk image sector by sector of 512 bytes.  The image
    is a map from sector numbers to their bytes; the files of the host and whether a write
    succeeds are parameters.  An [assert] that fails ends the program with [Abort]; an access
    outside of a local array is a [Bad].  What it prints is left out. *)

From stdpp Require Import prelude gmap strings list.
From Stdlib Require Import ZArith Lia.
From S2P Require Import Prelude.
From S2P Require Import Types.
From S2P Require Import Mem.
From S2P Require Import Riscv.
From S2P Require Import Fs.

(** ** The state and the ways to end *)

(** The image and the global variables that change. *)
Record mk := mkMk {
  m_img : gmap Z (list Z);
  freeblock : Z;
  usedblocks : Z;
  bitblocks : Z;
  freeinode : Z;
  m_sb : superblock
}.

Definition set_img (v : gmap Z (list Z)) (s : mk) : mk := mkMk v (freeblock s) (usedblocks s) (bitblocks s) (freeinode s) (m_sb s).
Definition set_freeblock (v : Z) (s : mk) : mk := mkMk (m_img s) v (usedblocks s) (bitblocks s) (freeinode s) (m_sb s).
Definition set_usedblocks (v : Z) (s : mk) : mk := mkMk (m_img s) (freeblock s) v (bitblocks s) (freeinode s) (m_sb s).
Definition set_bitblocks (v : Z) (s : mk) : mk := mkMk (m_img s) (freeblock s) (usedblocks s) v (freeinode s) (m_sb s).
Definition set_freeinode (v : Z) (s : mk) : mk := mkMk (m_img s) (freeblock s) (usedblocks s) (bitblocks s) v (m_sb s).
Definition set_m_sb (v : superblock) (s : mk) : mk := mkMk (m_img s) (freeblock s) (usedblocks s) (bitblocks s) (freeinode s) v.

Inductive outcome (A : Type) :=
| Good (a : A) (s : mk)
| Exit (status : Z) (s : mk)
| Abort (line : Z) (s : mk)   (** the [assert] in this line failed *)
| Bad (s : mk).
Arguments Good {A} a s.
Arguments Exit {A} status s.
Arguments Abort {A} line s.
Arguments Bad {A} s.

Definition H (A : Type) : Type := mk → outcome A.
Definition hret {A} (a : A) : H A := λ s, Good a s.
#[export] Instance H_ret : MRet H := @hret.
#[export] Instance H_bind : MBind H := λ A B f c s,
  match c s with Good a s' => f a s' | Exit st s' => Exit st s' | Abort l s' => Abort l s' | Bad s' => Bad s' end.
Definition hget : H mk := λ s, Good s s.
Definition hmod (f : mk → mk) : H unit := λ s, Good () (f s).
Definition hexit {A} (status : Z) : H A := λ s, Exit status s.
Definition hassert (line : Z) (b : bool) : H unit := λ s, if b then Good () s else Abort line s.
Definition hbad {A} : H A := λ s, Bad s.

(** ** Constants *)

Definition nlog : Z := LOGSIZE.
Definition nblocks : Z := 995 - LOGSIZE.
Definition ninodes : Z := 200.
Definition fssize : Z := 1024.
Definition SECT : nat := 512.
Definition zeroes : list Z := replicate SECT 0.

(** ** Byte order *)

Definition xshort (x : Z) : Z := le_join [u8 x; u8 (Z.shiftr x 8)].
Definition xint (x : Z) : Z := le_join [u8 x; u8 (Z.shiftr x 8); u8 (Z.shiftr x 16); u8 (Z.shiftr x 24)].

Section host.
(** Whether the host can write a sector, and the contents of its files. *)
Context (writable : Z → bool) (host_file : list Z → option (list Z)).

(** ** Sectors *)

Definition wsect (sec : Z) (buf : list Z) : H unit :=
  if writable sec then hmod (λ s, set_img (<[sec := take SECT buf]> (m_img s)) s) else hexit 1.

(** A sector that has not been written lies behind the end of the file. *)
Definition rsect (sec : Z) : H (list Z) :=
  s ← hget;
  match m_img s !! sec with Some d => hret d | None => hexit 1 end.

(** ** I-nodes *)

Definition i2b (inum : Z) : Z := inum / IPB + 2.

(** [((struct dinode* )buf) + (inum % IPB)] is to lie in [buf[512]]. *)
Definition din_off (inum : Z) : Z := inum mod IPB * DINODE_SIZE.
Definition in_buf (off n : Z) : bool := (0 <=? off) && (off + n <=? Z.of_nat SECT).

Definition winode (inum : Z) (ip : dinode) : H unit :=
  let bn := i2b inum in
  buf ← rsect bn;
  if in_buf (din_off inum) DINODE_SIZE then wsect bn (put_dinode (din_off inum) ip buf) else hbad.

Definition rinode (inum : Z) : H dinode :=
  let bn := i2b inum in
  buf ← rsect bn;
  if in_buf (din_off inum) DINODE_SIZE then hret (dinode_of_bytes (din_off inum) buf) else hbad.

Definition ialloc (type : Z) : H Z :=
  s ← hget;
  let inum := freeinode s in
  hmod (set_freeinode (u32 (inum + 1)));;
  let din := mkDinode (xshort type) 0 0 (xshort 1) (xint 0) (replicate 13 0) in
  winode inum din;;
  hret inum.

(** ** The bitmap *)

Fixpoint set_bits (n : nat) (i : Z) (buf : list Z) : list Z :=
  match n with
  | O => buf
  | S n' => set_bits n' (i + 1) (<[Z.to_nat (i / 8) := u8 (Z.lor (nth (Z.to_nat (i / 8)) buf 0) (Z.shiftl 1 (i mod 8)))]> buf)
  end.

Definition balloc (used : Z) : H unit :=
  hassert 291 (used <? 512 * 8);;
  wsect (ninodes / IPB + 3) (set_bits (Z.to_nat used) 0 zeroes).

(** ** [iappend] *)

(** A new block for the file. *)
Definition new_block : H Z :=
  s ← hget;
  hmod (set_freeblock (u32 (freeblock s + 1)));;
  hmod (λ s, set_usedblocks (u32 (usedblocks s + 1)) s);;
  hret (xint (freeblock s)).

(** The block [fbn] of the file, which is allocated if need be; the i-node with its address.
    [indirect] has room for [NINDIRECT] numbers, of which [rsect] fills the first 128. *)
Definition file_block (fbn : Z) (din : dinode) : H (Z * dinode) :=
  if fbn <? NDIRECT then
    let a := nth (Z.to_nat fbn) (di_addrs din) 0 in
    a ← (if xint a =? 0 then new_block else hret a);
    let din := mkDinode (di_type din) (di_major din) (di_minor din) (di_nlink din) (di_size din) (<[Z.to_nat fbn := a]> (di_addrs din)) in
    hret (xint a, din)
  else
    let a := nth (Z.to_nat NDIRECT) (di_addrs din) 0 in
    a ← (if xint a =? 0 then new_block else hret a);
    let din := mkDinode (di_type din) (di_major din) (di_minor din) (di_nlink din) (di_size din) (<[Z.to_nat NDIRECT := a]> (di_addrs din)) in
    indirect ← rsect (xint a);
    let k := 4 * (fbn - NDIRECT) in
    if negb (in_buf k 4) then hbad else
    let x := get32 k indirect in
    x ← (if x =? 0 then
            b ← new_block;
            wsect (xint a) (put32 k b indirect);;
            hret b
          else hret x);
    hret (xint x, din).

(** [while(n > 0)]: the bytes that are left, [off] and the i-node *)
Fixpoint iappend_loop (fuel : nat) (p : list Z) (off : Z) (din : dinode) : H (Z * dinode) :=
  match fuel with
  | O => hret (off, din)
  | S fuel' =>
      match p with
      | [] => hret (off, din)
      | _ =>
          let fbn := off / 512 in
          hassert 320 (fbn <? MAXFILE);;
          r ← file_block fbn din;
          let '(x, din) := r in
          let n1 := Z.min (Z.of_nat (length p)) ((fbn + 1) * 512 - off) in
          buf ← rsect x;
          wsect x (splice (Z.to_nat (off - fbn * 512)) (take (Z.to_nat n1) p) buf);;
          iappend_loop fuel' (drop (Z.to_nat n1) p) (u32 (off + n1)) din
      end
  end.

Definition iappend (inum : Z) (xp : list Z) : H unit :=
  din ← rinode inum;
  r ← iappend_loop (length xp) xp (xint (di_size din)) din;
  let '(off, din) := r in
  winode inum (mkDinode (di_type din) (di_major din) (di_minor din) (di_nlink din) (xint off) (di_addrs din)).

(** ** [main] *)

(** A [struct dirent] *)
Definition dirent_bytes (inum : Z) (name : list Z) : list Z :=
  le_split 2 (xshort inum) ++ strncpy (replicate (Z.to_nat DIRSIZ) 0) (at_list name) DIRSIZ.

(** [while((cc = read(fd, buf, sizeof(buf))) > 0) iappend(inum, buf, cc);] *)
Fixpoint append_file (fuel : nat) (inum : Z) (l : list Z) : H unit :=
  match fuel, l with
  | S fuel', _ :: _ => iappend inum (take SECT l);; append_file fuel' inum (drop SECT l)
  | _, _ => hret ()
  end.

(** [for(i = 2; i < argc; i++)] *)
Fixpoint add_files (rootino : Z) (argv : list (list Z)) : H unit :=
  match argv with
  | [] => hret ()
  | a :: argv' =>
      hassert 147 (bool_decide (47 ∉ a));;
      match host_file a with
      | None => hexit 1
      | Some l =>
          let a := match a with c :: a' => if c =? 95 then a' else a | [] => [] end in
          inum ← ialloc T_FILE;
          iappend rootino (dirent_bytes inum a);;
          append_file (length l) inum l;;
          add_files rootino argv'
      end
  end.

Fixpoint write_zeroes (n : nat) (i : Z) : H unit :=
  match n with O => hret () | S n' => wsect i zeroes;; write_zeroes n' (i + 1) end.

Definition superblock_bytes (sb : superblock) : list Z :=
  concat (le_split 4 <$> [sb_magic sb; sb_size sb; sb_nblocks sb; sb_ninodes sb; sb_nlog sb; sb_logstart sb; sb_inodestart sb; sb_bmapstart sb]).

(** [can_open] says whether the host can create the image. *)
Definition main (can_open : bool) (argv : list (list Z)) : H unit :=
  if (length argv <? 2)%nat then hexit 1 else
  hassert 87 (512 mod DINODE_SIZE =? 0);;
  hassert 88 (512 mod DIRENT_SIZE =? 0);;
  if negb can_open then hexit 1 else
  hmod (λ s, set_m_sb (let sb := m_sb s in mkSuperblock (sb_magic sb) (xint fssize) (xint nblocks) (xint ninodes) (xint nlog)
                         (sb_logstart sb) (sb_inodestart sb) (sb_bmapstart sb)) s);;
  hmod (set_bitblocks (fssize / (512 * 8) + 1));;
  hmod (λ s, set_usedblocks (u32 (ninodes / IPB + 3 + bitblocks s)) s);;
  hmod (λ s, set_freeblock (usedblocks s) s);;
  s ← hget;
  let total := u32 (nblocks + usedblocks s + nlog) in
  hassert 116 (total =? fssize);;
  write_zeroes (Z.to_nat total) 0;;
  wsect 1 (splice 0 (superblock_bytes (m_sb s)) zeroes);;
  rootino ← ialloc T_DIR;
  hassert 128 (rootino =? ROOTINO);;
  iappend rootino (dirent_bytes rootino (bytes_of "."));;
  iappend rootino (dirent_bytes rootino (bytes_of ".."));;
  add_files rootino (drop 2 argv);;
  din ← rinode rootino;
  let off := xint (di_size din) in
  let off := u32 ((off / BSIZE + 1) * BSIZE) in
  winode rootino (mkDinode (di_type din) (di_major din) (di_minor din) (di_nlink din) (xint off) (di_addrs din));;
  s ← hget;
  balloc (i32 (usedblocks s));;
  hexit 0.

(** ** Properties *)

(** C36. [mkfs] cannot build a file system with these parameters.  Whatever the arguments
    and the files of the host, [main] never gets past its own check of the layout: it exits
    with status 1 because an argument is missing or the image cannot be opened, or the assertion of
    line 116 fails, 965 + 16 + 30 blocks being 1011 and not 1024; in each case it has
    not written a single sector. *)
Theorem mkfs_aborts (can_open : bool) (argv : list (list Z)) (s : mk) :
  ∃ s', m_img s' = m_img s ∧
    main can_open argv s = if (length argv <? 2)%nat || negb can_open then Exit 1 s' else Abort 116 s'.
Proof.
  unfold main. destruct (length argv <? 2)%nat; [by exists s|]. destruct can_open; cbn [negb orb]; [|by exists s].
  by eexists; split; [|reflexivity].
Qed.

(** The array of [ialloc]'s [winode] is half a block: the i-nodes 8 to 15 of a block do not fit. *)
Theorem ialloc_overflows (type : Z) (b : list Z) (s : mk) :
  m_img s !! i2b (freeinode s) = Some b → 8 ≤ freeinode s mod IPB → ∃ s', ialloc type s = Bad s'.
Proof.
  intros Hb Ho. unfold ialloc, winode, rsect, mbind, H_bind, hget, hmod, hret. cbn [freeinode set_freeinode m_img]. rewrite Hb.
  assert (in_buf (din_off (freeinode s)) DINODE_SIZE = false) as ->; [|by eexists].
  unfold in_buf, din_off. change DINODE_SIZE with 64. change (Z.of_nat SECT) with 512. apply andb_false_intro2, Z.leb_gt. lia.
Qed.
End host.
