(* ===== verification/Sh.v ===== *)
(** * The shell

    [user/sh.c].  The parser works on positions in the command line: [*ps] is a
    position, a command holds the positions of its words and their ends, and
    [nulterminate] writes the NULs.  The structures that [malloc] returns are the
    values of [cmd]; [room] is the number of structures that [malloc] can still
    provide, after which a null pointer is written. *)

From stdpp Require Import prelude gmap strings list list_numbers.
From Stdlib Require Import ZArith Lia.
From S2P Require Import Prelude.
From S2P Require Import Riscv.
From S2P Require Import Types.
From S2P Require Import User.
From S2P Require Import Ulib.
From S2P Require Import Utils.

Definition MAXARGS : nat := 10.

(** [struct cmd]: [argv] and [eargv] end before their null pointers. *)
Inductive cmd :=
| EXEC (argv eargv : list nat)
| REDIR (c : cmd) (file efile : nat) (mode fd : Z)
| PIPE (lcmd rcmd : cmd)
| LIST (lcmd rcmd : cmd)
| BACK (c : cmd).

Definition sh_panic {A} (s : string) : prog A :=
  fprintf 2 (bytes_of "%s" ++ nl) [VStr (Some (bytes_of s))];;
  exit_ 1.

Definition fork1 : prog Z :=
  pid ← sys CFork;
  if pid =? -1 then sh_panic "fork" else Ret pid.

(** ** Running a command *)

(** [buf] is the command line with the NULs of [nulterminate]. *)
Definition str_at (buf : list Z) (p : nat) : list Z := cstr (drop p buf).

Fixpoint runcmd (buf : list Z) (c : cmd) : prog unit :=
  match c with
  | EXEC argv eargv =>
      match argv with
      | [] => exit_ 1
      | a :: _ =>
          _ ← sys (CExec (str_at buf a) (str_at buf <$> argv));
          fprintf 2 (bytes_of "exec %s failed" ++ nl) [VStr (Some (str_at buf a))];;
          exit_ 0
      end
  | REDIR c file efile mode fd =>
      _ ← sys (CClose fd);
      r ← sys (COpen (str_at buf file) mode);
      if r <? 0 then
        fprintf 2 (bytes_of "open %s failed" ++ nl) [VStr (Some (str_at buf file))];;
        exit_ 1
      else runcmd buf c
  | LIST lcmd rcmd =>
      pid ← fork1;
      if pid =? 0 then runcmd buf lcmd else
      _ ← sys CWait;
      runcmd buf rcmd
  | PIPE lcmd rcmd =>
      '(r, (p0, p1)) ← sys CPipe;
      if r <? 0 then sh_panic "pipe" else
      pid ← fork1;
      if pid =? 0 then
        _ ← sys (CClose 1); _ ← sys (CDup p1); _ ← sys (CClose p0); _ ← sys (CClose p1);
        runcmd buf lcmd
      else
      pid ← fork1;
      if pid =? 0 then
        _ ← sys (CClose 0); _ ← sys (CDup p0); _ ← sys (CClose p0); _ ← sys (CClose p1);
        runcmd buf rcmd
      else
      _ ← sys (CClose p0); _ ← sys (CClose p1); _ ← sys CWait; _ ← sys CWait;
      exit_ 0
  | BACK c =>
      pid ← fork1;
      if pid =? 0 then runcmd buf c else exit_ 0
  end.

(** ** Lexing *)

Definition whitespace : list Z := [32; 9; 13; 10; 11].
Definition symbols : list Z := bytes_of "<|>&;()".

Definition is_ws (c : Z) : bool := match strchr whitespace c with Some _ => true | None => false end.
Definition is_sym (c : Z) : bool := match strchr symbols c with Some _ => true | None => false end.

Section parser.
Context (buf : list Z).

(** [*s] *)
Definition ch (s : nat) : Z := nth s buf 0.

(** [while(s < es && strchr(whitespace, *s)) s++;] with [n = es - s]. *)
Fixpoint skip_ws (n s : nat) : nat :=
  match n with
  | O => s
  | S n' => if is_ws (ch s) then skip_ws n' (S s) else s
  end.

(** [while(s < es && !strchr(whitespace, *s) && !strchr(symbols, *s)) s++;] *)
Fixpoint skip_tok (n s : nat) : nat :=
  match n with
  | O => s
  | S n' => if negb (is_ws (ch s)) && negb (is_sym (ch s)) then skip_tok n' (S s) else s
  end.

(** [gettoken]: the token, [*q], [*eq] and the new [*ps]. *)
Definition gettoken (ps es : nat) : Z * nat * nat * nat :=
  let s := skip_ws (es - ps) ps in
  let q := s in
  let '(ret, s) :=
    if ch s =? 0 then (0, s)
    else if (ch s =? 124) || (ch s =? 40) || (ch s =? 41) || (ch s =? 59) || (ch s =? 38) || (ch s =? 60) then (ch s, S s)
    else if ch s =? 62 then if ch (S s) =? 62 then (43, S (S s)) else (62, S s)
    else (97, skip_tok (es - s) s) in
  (ret, q, s, skip_ws (es - s) s).

(** [peek]: the answer and the new [*ps]. *)
Definition peek (ps es : nat) (toks : list Z) : bool * nat :=
  let s := skip_ws (es - ps) ps in
  ((ch s <>? 0) && match strchr toks (ch s) with Some _ => true | None => false end, s).

(** ** Parsing *)

(** [*ps] and what is left for [malloc]. *)
Record pst := mkPst { p_s : nat; p_room : nat }.

(** [malloc] and [memset] of a new structure. *)
Definition alloc (p : pst) : prog pst :=
  match p_room p with
  | O => Fault
  | S r => Ret (mkPst (p_s p) r)
  end.

(** A redirection that [parseredirs] has read: [file], [efile], [mode], [fd]. *)
Definition redir : Type := nat * nat * Z * Z.
Definition add_redir (c : cmd) (r : redir) : cmd := let '(q, eq, mode, fd) := r in REDIR c q eq mode fd.

(** The loop of [parseredirs] from [*ps] on; [n] bounds its iterations, each of which
    moves on. *)
Fixpoint parseredirs (n es : nat) (rs : list redir) (p : pst) : prog (list redir * pst) :=
  match n with
  | O => Fuel
  | S n' =>
      let '(b, s) := peek (p_s p) es [60; 62] in
      if negb b then Ret (rs, mkPst s (p_room p)) else
      let '(tok, _, _, s) := gettoken s es in
      let '(tok2, q, eq, s) := gettoken s es in
      if tok2 <>? 97 then sh_panic "missing file for redirection" else
      let p := mkPst s (p_room p) in
      if tok =? 60 then p ← alloc p; parseredirs n' es (rs ++ [(q, eq, O_RDONLY, 0)]) p
      else if tok =? 62 then
        p ← alloc p; parseredirs n' es (rs ++ [(q, eq, Z.lor (Z.lor O_WRONLY O_CREATE) O_TRUNC, 1)]) p
      else if tok =? 43 then p ← alloc p; parseredirs n' es (rs ++ [(q, eq, Z.lor O_WRONLY O_CREATE, 1)]) p
      else parseredirs n' es rs p
  end.

(** The loop of [parseexec]: the arguments so far and the redirections around them. *)
Fixpoint parseargs (n es : nat) (argv eargv : list nat) (rs : list redir) (p : pst) : prog (cmd * pst) :=
  match n with
  | O => Fuel
  | S n' =>
      let '(b, s) := peek (p_s p) es (bytes_of "|)&;") in
      if b then Ret (foldl add_redir (EXEC argv eargv) rs, mkPst s (p_room p)) else
      let '(tok, q, eq, s) := gettoken s es in
      if tok =? 0 then Ret (foldl add_redir (EXEC argv eargv) rs, mkPst s (p_room p)) else
      if tok <>? 97 then sh_panic "syntax" else
      let argv := argv ++ [q] in
      let eargv := eargv ++ [eq] in
      if (MAXARGS <=? length argv)%nat then sh_panic "too many args" else
      '(rs, p) ← parseredirs (S es) es rs (mkPst s (p_room p));
      parseargs n' es argv eargv rs p
  end.

(** [while(peek(ps, es, "&")) ...] *)
Fixpoint parseback (n es : nat) (c : cmd) (p : pst) : prog (cmd * pst) :=
  match n with
  | O => Fuel
  | S n' =>
      let '(b, s) := peek (p_s p) es [38] in
      if negb b then Ret (c, mkPst s (p_room p)) else
      let '(_, _, _, s) := gettoken s es in
      p ← alloc (mkPst s (p_room p));
      parseback n' es (BACK c) p
  end.

(** The recursive functions; [n] bounds the depth of the calls. *)
Fixpoint parseline (n es : nat) (p : pst) : prog (cmd * pst) :=
  match n with
  | O => Fuel
  | S n' =>
      '(c, p) ← parsepipe n' es p;
      '(c, p) ← parseback (S es) es c p;
      let '(b, s) := peek (p_s p) es [59] in
      if negb b then Ret (c, mkPst s (p_room p)) else
      let '(_, _, _, s) := gettoken s es in
      '(d, p) ← parseline n' es (mkPst s (p_room p));
      p ← alloc p;
      Ret (LIST c d, p)
  end
with parsepipe (n es : nat) (p : pst) : prog (cmd * pst) :=
  match n with
  | O => Fuel
  | S n' =>
      '(c, p) ← parseexec n' es p;
      let '(b, s) := peek (p_s p) es [124] in
      if negb b then Ret (c, mkPst s (p_room p)) else
      let '(_, _, _, s) := gettoken s es in
      '(d, p) ← parsepipe n' es (mkPst s (p_room p));
      p ← alloc p;
      Ret (PIPE c d, p)
  end
with parseblock (n es : nat) (p : pst) : prog (cmd * pst) :=
  match n with
  | O => Fuel
  | S n' =>
      let '(b, s) := peek (p_s p) es [40] in
      if negb b then sh_panic "parseblock" else
      let '(_, _, _, s) := gettoken s es in
      '(c, p) ← parseline n' es (mkPst s (p_room p));
      let '(b, s) := peek (p_s p) es [41] in
      if negb b then sh_panic "syntax - missing )" else
      let '(_, _, _, s) := gettoken s es in
      '(rs, p) ← parseredirs (S es) es [] (mkPst s (p_room p));
      Ret (foldl add_redir c rs, p)
  end
with parseexec (n es : nat) (p : pst) : prog (cmd * pst) :=
  match n with
  | O => Fuel
  | S n' =>
      let '(b, s) := peek (p_s p) es [40] in
      if b then parseblock n' es (mkPst s (p_room p)) else
      p ← alloc (mkPst s (p_room p));
      '(rs, p) ← parseredirs (S es) es [] p;
      parseargs (S es) es [] [] rs p
  end.
End parser.

(** [nulterminate]: the new contents of the line. *)
Fixpoint nulterminate (c : cmd) (buf : list Z) : list Z :=
  match c with
  | EXEC argv eargv => foldl (λ b e, <[e := 0]> b) buf (take (length argv) eargv)
  | REDIR c file efile mode fd => <[efile := 0]> (nulterminate c buf)
  | PIPE lcmd rcmd => nulterminate rcmd (nulterminate lcmd buf)
  | LIST lcmd rcmd => nulterminate rcmd (nulterminate lcmd buf)
  | BACK c => nulterminate c buf
  end.

(** The command and the line with its NULs; the recursion is never deeper than four
    calls per character. *)
Definition parsecmd (buf : list Z) (room : nat) : prog (cmd * list Z) :=
  let es := Z.to_nat (strlen buf) in
  '(c, p) ← parseline buf (4 * es + 4) es (mkPst 0 room);
  let '(_, s) := peek buf (p_s p) es [] in
  if negb (s =? es)%nat then
    fprintf 2 (bytes_of "leftovers: %s" ++ nl) [VStr (Some (cstr (drop s buf)))];;
    sh_panic "syntax"
  else Ret (c, nulterminate c buf).

(** ** The main loop *)

Definition getcmd (buf : list Z) : prog (Z * list Z) :=
  fprintf 2 (bytes_of "$ ") [];;
  buf ← memset buf 0 0 (length buf);
  buf ← gets buf (Z.of_nat (length buf));
  Ret (if hd 0 buf =? 0 then -1 else 0, buf).

Definition sh_open_body (_ : unit) : prog (unit + unit) :=
  fd ← sys (COpen (bytes_of "console") O_RDWR);
  if fd <? 0 then Ret (inr ()) else
  if 3 <=? fd then _ ← sys (CClose fd); Ret (inr ()) else Ret (inl ()).

(** [room]: what [malloc] can provide in a child. *)
Definition sh_body (room : nat) (buf : list Z) : prog (list Z + unit) :=
  '(r, buf) ← getcmd buf;
  if r <? 0 then Ret (inr ()) else
  if (nth 0 buf 0 =? 99) && (nth 1 buf 0 =? 100) && (nth 2 buf 0 =? 32) then
    buf ← set_byte buf (strlen buf - 1) 0;
    r ← sys (CChdir (cstr (drop 3 buf)));
    pwhen (r <? 0) (fprintf 2 (bytes_of "cannot cd %s" ++ nl) [VStr (Some (cstr (drop 3 buf)))]);;
    Ret (inl buf)
  else
    pid ← fork1;
    if pid =? 0 then
      '(c, b) ← parsecmd buf room;
      runcmd b c;;
      Ret (inr ())
    else
      _ ← sys CWait;
      Ret (inl buf).
Definition sh_main (room : nat) : prog unit :=
  pwhile sh_open_body ();;
  pwhile (sh_body room) (replicate 100 0);;
  exit_ 0.

(** ** Reading back a printed command *)

(** A command with its words. *)
Inductive scmd :=
| SExec (argv : list (list Z))
| SRedir (c : scmd) (file : list Z) (mode fd : Z)
| SPipe (lcmd rcmd : scmd)
| SList (lcmd rcmd : scmd)
| SBack (c : scmd).

(** What a parsed command means, given the line. *)
Fixpoint meaning (buf : list Z) (c : cmd) : scmd :=
  match c with
  | EXEC argv eargv => SExec (str_at buf <$> argv)
  | REDIR c file efile mode fd => SRedir (meaning buf c) (str_at buf file) mode fd
  | PIPE lcmd rcmd => SPipe (meaning buf lcmd) (meaning buf rcmd)
  | LIST lcmd rcmd => SList (meaning buf lcmd) (meaning buf rcmd)
  | BACK c => SBack (meaning buf c)
  end.

Definition regular (c : Z) : Prop := c ≠ 0 ∧ is_ws c = false ∧ is_sym c = false.
Definition word (w : list Z) : Prop := w ≠ [] ∧ Forall regular w.

(** The sign of a redirection. *)
Definition sign (mode fd : Z) : list Z :=
  if fd =? 0 then [60] else if mode =? Z.lor (Z.lor O_WRONLY O_CREATE) O_TRUNC then [62] else [62; 62].

Fixpoint join (ws : list (list Z)) : list Z :=
  match ws with
  | [] => []
  | [w] => w
  | w :: ws' => w ++ 32 :: join ws'
  end.

Definition paren (l : list Z) : list Z := 40 :: l ++ [41].

(** A line for a command: parentheses around every part. *)
Fixpoint show (c : scmd) : list Z :=
  match c with
  | SExec argv => join argv
  | SRedir c file mode fd => paren (show c) ++ sign mode fd ++ file
  | SPipe lcmd rcmd => paren (show lcmd) ++ 124 :: paren (show rcmd)
  | SList lcmd rcmd => paren (show lcmd) ++ 59 :: paren (show rcmd)
  | SBack c => paren (show c) ++ [38]
  end.

(** The commands the shell can represent. *)
Fixpoint wf (c : scmd) : Prop :=
  match c with
  | SExec argv => Forall word argv ∧ (length argv < MAXARGS)%nat
  | SRedir c file mode fd => wf c ∧ word file ∧
      (mode = O_RDONLY ∧ fd = 0 ∨ mode = Z.lor (Z.lor O_WRONLY O_CREATE) O_TRUNC ∧ fd = 1 ∨ mode = Z.lor O_WRONLY O_CREATE ∧ fd = 1)
  | SPipe lcmd rcmd => wf lcmd ∧ wf rcmd
  | SList lcmd rcmd => wf lcmd ∧ wf rcmd
  | SBack c => wf c
  end.

(** The structures a command needs, and the depth of the calls. *)
Fixpoint size (c : scmd) : nat :=
  match c with
  | SExec _ => 1
  | SRedir c _ _ _ => size c + 1
  | SPipe lcmd rcmd => size lcmd + size rcmd + 1
  | SList lcmd rcmd => size lcmd + size rcmd + 1
  | SBack c => size c + 1
  end.
Fixpoint depth (c : scmd) : nat :=
  match c with
  | SExec _ => 3
  | SRedir c _ _ _ => depth c + 4
  | SPipe lcmd rcmd => (depth lcmd `max` depth rcmd) + 5
  | SList lcmd rcmd => (depth lcmd `max` depth rcmd) + 5
  | SBack c => depth c + 4
  end.

(** A word of the line at the positions of a token. *)
Definition token (buf : list Z) (q eq : nat) (w : list Z) : Prop :=
  word w ∧ eq = (q + length w)%nat ∧ slice q (length w) buf = w ∧ ¬ regular (nth eq buf 0).

Fixpoint stands (buf : list Z) (k : cmd) (c : scmd) : Prop :=
  match k, c with
  | EXEC argv eargv, SExec ws => length eargv = length argv ∧ length ws = length argv ∧
      ∀ i q eq w, argv !! i = Some q → eargv !! i = Some eq → ws !! i = Some w → token buf q eq w
  | REDIR k q eq mode fd, SRedir c w mode' fd' => stands buf k c ∧ token buf q eq w ∧ mode = mode' ∧ fd = fd'
  | PIPE k1 k2, SPipe c1 c2 => stands buf k1 c1 ∧ stands buf k2 c2
  | LIST k1 k2, SList c1 c2 => stands buf k1 c1 ∧ stands buf k2 c2
  | BACK k, SBack c => stands buf k c
  | _, _ => False
  end.

(** *** Lexing *)

Lemma ch_at pre l : ch (pre ++ l) (length pre) = hd 0 l.
Proof. unfold ch. rewrite app_nth2, Nat.sub_diag by lia. by destruct l. Qed.

Lemma skip_ws_ok n pre ws l :
  Forall (λ c, is_ws c = true) ws → is_ws (hd 0 l) = false → (length ws ≤ n)%nat →
  skip_ws (pre ++ ws ++ l) n (length pre) = length (pre ++ ws).
Proof.
  intros Hw Hl. revert n pre. induction Hw as [|c ws Hc Hw IH]; intros n pre Hn.
  - cbn [app]. rewrite app_nil_r. destruct n as [|n]; [done|]. cbn [skip_ws]. by rewrite ch_at, Hl.
  - destruct n as [|n]; [simpl in Hn; lia|]. cbn [skip_ws]. rewrite ch_at. cbn [app hd]. rewrite Hc.
    specialize (IH n (pre ++ [c])). rewrite <- !(assoc_L (++)) in IH. cbn [app] in IH.
    rewrite length_app in IH. cbn [length] in IH. rewrite Nat.add_1_r in IH. rewrite IH by (simpl in Hn; lia).
    rewrite !length_app. simpl. lia.
Qed.

Lemma skip_ws_none n pre l : is_ws (hd 0 l) = false → skip_ws (pre ++ l) n (length pre) = length pre.
Proof. intros Hl. rewrite <- (app_nil_r pre) at 3. apply (skip_ws_ok n pre [] l); [constructor|done|simpl; lia]. Qed.

Lemma skip_tok_ok n pre w l :
  Forall regular w → ¬ regular (hd 0 l) → (length w ≤ n)%nat → (hd 0 l = 0 → n = length w) →
  skip_tok (pre ++ w ++ l) n (length pre) = length (pre ++ w).
Proof.
  intros Hw Hl. revert n pre. induction Hw as [|c w Hc Hw IH]; intros n pre Hn H0.
  - cbn [app]. rewrite app_nil_r. destruct n as [|n]; [done|]. cbn [skip_tok]. rewrite ch_at.
    destruct (is_ws (hd 0 l)) eqn:E1; [done|]. destruct (is_sym (hd 0 l)) eqn:E2; [done|]. exfalso.
    apply Hl. split_and!; [|done|done]. intros E. specialize (H0 E). done.
  - destruct n as [|n]; [simpl in Hn; lia|]. destruct Hc as (Hc0 & Hc1 & Hc2). cbn [skip_tok]. rewrite ch_at. cbn [app hd]. rewrite Hc1, Hc2.
    specialize (IH n (pre ++ [c])). rewrite <- !(assoc_L (++)) in IH. cbn [app] in IH.
    rewrite length_app in IH. cbn [length negb andb] in *. rewrite Nat.add_1_r in IH.
    rewrite IH; [rewrite !length_app; simpl; lia|simpl in Hn; lia|intros E; specialize (H0 E); simpl in H0; lia].
Qed.

Section line.
(** The bytes after the line, from its NUL on. *)
Context (tl : list Z).

Definition blank (l : list Z) : Prop := Forall (λ c, is_ws c = true) l.
Definition solid (l : list Z) : Prop := is_ws (hd 0 l) = false.

Lemma solid_nul l : solid l → solid (l ++ 0 :: tl).
Proof. by destruct l. Qed.

Lemma hd_app_nul l : hd 0 (l ++ 0 :: tl) = hd 0 l.
Proof. by destruct l. Qed.

Lemma peek_ok pre ws l toks :
  blank ws → solid l →
  peek ((pre ++ ws ++ l) ++ 0 :: tl) (length pre) (length (pre ++ ws ++ l)) toks =
    ((hd 0 l <>? 0) && match strchr toks (hd 0 l) with Some _ => true | None => false end, length (pre ++ ws)).
Proof.
  intros Hw Hl. unfold peek. rewrite <- !(assoc_L (++)).
  rewrite skip_ws_ok by (done || by rewrite hd_app_nul || (rewrite !length_app; lia)).
  rewrite (assoc_L (++) pre), ch_at, hd_app_nul. done.
Qed.

(** A one-character token. *)
Definition sep (c : Z) : Prop := c = 124 ∨ c = 40 ∨ c = 41 ∨ c = 59 ∨ c = 38 ∨ c = 60.

Lemma gettoken_sep pre c ws l :
  sep c → blank ws → solid l →
  gettoken ((pre ++ c :: ws ++ l) ++ 0 :: tl) (length pre) (length (pre ++ c :: ws ++ l)) =
    (c, length pre, S (length pre), length (pre ++ c :: ws)).
Proof.
  intros Hc Hw Hl. unfold gettoken. rewrite <- !(assoc_L (++)). cbn [app].
  assert (Hcw : is_ws c = false) by (by destruct Hc as [->|[->|[->|[->|[->| ->]]]]]).
  rewrite skip_ws_none by done. rewrite ch_at. cbn [hd].
  replace (c =? 0) with false by (by destruct Hc as [->|[->|[->|[->|[->| ->]]]]]).
  replace ((c =? 124) || (c =? 40) || (c =? 41) || (c =? 59) || (c =? 38) || (c =? 60)) with true
    by (by destruct Hc as [->|[->|[->|[->|[->| ->]]]]]).
  cbv beta iota. rewrite <- (assoc_L (++)). replace (S (length pre)) with (length (pre ++ [c])) by (rewrite length_app; simpl; lia).
  change (c :: ws ++ l ++ 0 :: tl) with ([c] ++ ws ++ l ++ 0 :: tl). rewrite (assoc_L (++) pre).
  rewrite skip_ws_ok; [by rewrite <- (assoc_L (++))|done|by rewrite hd_app_nul|]. rewrite !length_app. simpl. rewrite length_app. lia.
Qed.

Lemma gettoken_out pre l :
  solid l → hd 0 l ≠ 62 →
  gettoken ((pre ++ 62 :: l) ++ 0 :: tl) (length pre) (length (pre ++ 62 :: l)) = (62, length pre, S (length pre), S (length pre)).
Proof.
  intros Hl Hn. unfold gettoken. rewrite <- !(assoc_L (++)). cbn [app]. rewrite skip_ws_none by done. rewrite ch_at. cbn [hd].
  cbn [Z.eqb Pos.eqb orb]. replace (S (length pre)) with (length (pre ++ [62])) by (rewrite length_app; simpl; lia).
  change (62 :: l ++ 0 :: tl) with ([62] ++ l ++ 0 :: tl). rewrite (assoc_L (++) pre), ch_at, hd_app_nul.
  rewrite (proj2 (Z.eqb_neq _ 62) Hn). rewrite skip_ws_none by (by rewrite hd_app_nul). done.
Qed.

Lemma gettoken_append pre l :
  solid l →
  gettoken ((pre ++ 62 :: 62 :: l) ++ 0 :: tl) (length pre) (length (pre ++ 62 :: 62 :: l)) =
    (43, length pre, S (S (length pre)), S (S (length pre))).
Proof.
  intros Hl. unfold gettoken. rewrite <- !(assoc_L (++)). cbn [app]. rewrite skip_ws_none by done. rewrite ch_at. cbn [hd].
  cbn [Z.eqb Pos.eqb orb].
  assert (E : ch (pre ++ 62 :: 62 :: l ++ 0 :: tl) (S (length pre)) = 62).
  { replace (S (length pre)) with (length (pre ++ [62])) by (rewrite length_app; simpl; lia).
    change (62 :: 62 :: l ++ 0 :: tl) with ([62] ++ 62 :: l ++ 0 :: tl). by rewrite (assoc_L (++) pre), ch_at. }
  rewrite E. cbn [Z.eqb Pos.eqb]. replace (S (S (length pre))) with (length (pre ++ [62; 62])) by (rewrite length_app; simpl; lia).
  change (62 :: 62 :: l ++ 0 :: tl) with ([62; 62] ++ l ++ 0 :: tl). rewrite (assoc_L (++) pre).
  rewrite skip_ws_none by (by rewrite hd_app_nul). done.
Qed.

Lemma gettoken_nul pre :
  gettoken (pre ++ 0 :: tl) (length pre) (length pre) = (0, length pre, length pre, length pre).
Proof. unfold gettoken. rewrite Nat.sub_diag. cbn [skip_ws]. rewrite ch_at. cbn [hd Z.eqb]. by rewrite Nat.sub_diag. Qed.

Lemma regular_first w : word w → ∃ c w', w = c :: w' ∧ regular c ∧ Forall regular w'.
Proof. intros [Hne Hw]. destruct Hw as [|c w' Hc Hw]; [done|]. by exists c, w'. Qed.

Lemma regular_not_sep c : regular c → ¬ sep c ∧ c ≠ 62.
Proof.
  intros (_ & _ & Hs). split; [intros [->|[->|[->|[->|[->| ->]]]]]; discriminate Hs|]. intros ->. discriminate Hs.
Qed.

(** A word. *)
Lemma gettoken_word pre w ws l :
  word w → blank ws → solid l → ¬ regular (hd 0 (ws ++ l)) → (hd 0 (ws ++ l) = 0 → ws ++ l = []) →
  gettoken ((pre ++ w ++ ws ++ l) ++ 0 :: tl) (length pre) (length (pre ++ w ++ ws ++ l)) =
    (97, length pre, length (pre ++ w), length (pre ++ w ++ ws)).
Proof.
  intros Hw Hb Hl Hr H0. unfold gettoken. rewrite <- !(assoc_L (++)).
  destruct (regular_first w Hw) as (c & w' & Ew & Hc & _). destruct (regular_not_sep c Hc) as [Hns Hgt]. pose proof Hc as (Hc0 & Hcw & _).
  rewrite skip_ws_none by (by rewrite Ew). rewrite ch_at. assert (Eh : hd 0 (w ++ ws ++ l ++ 0 :: tl) = c) by (by rewrite Ew). rewrite Eh.
  rewrite (proj2 (Z.eqb_neq c 0) Hc0). rewrite (proj2 (Z.eqb_neq c 62) Hgt).
  replace ((c =? 124) || (c =? 40) || (c =? 41) || (c =? 59) || (c =? 38) || (c =? 60)) with false.
  2:{ symmetry. apply not_true_is_false. intros E. apply Hns. unfold sep. rewrite !orb_true_iff, !Z.eqb_eq in E. tauto. }
  cbv beta iota. rewrite (skip_tok_ok _ pre w (ws ++ l ++ 0 :: tl)); [|apply Hw| | |].
  - rewrite (assoc_L (++) pre). rewrite skip_ws_ok; [by rewrite <- (assoc_L (++))|done|by rewrite hd_app_nul|]. rewrite !length_app. lia.
  - rewrite (assoc_L (++) ws), hd_app_nul. done.
  - rewrite !length_app. lia.
  - rewrite (assoc_L (++) ws), hd_app_nul. intros E. specialize (H0 E). apply app_nil in H0 as [-> ->]. rewrite !length_app. simpl. lia.
Qed.

Definition nz (l : list Z) : Prop := Forall (λ c, c ≠ 0) l.
Definition stop (l : list Z) : Prop := l = [] ∨ ∃ l', l = 41 :: l'.
(** Neither white space nor a redirection comes next. *)
Definition calm (l : list Z) : Prop := solid l ∧ hd 0 l ≠ 60 ∧ hd 0 l ≠ 62.

Lemma nz_hd l : nz l → hd 0 l = 0 → l = [].
Proof. intros H E. destruct H as [|c l Hc _]; [done|]. simpl in E. done. Qed.

Lemma stop_calm l : stop l → calm l.
Proof. intros [->|[l' ->]]; by split_and!. Qed.

Lemma irregular_ws c : is_ws c = true → ¬ regular c.
Proof. intros E (_ & H & _). congruence. Qed.
Lemma irregular_gap gap post : blank gap → stop post → ¬ regular (hd 0 (gap ++ post)).
Proof.
  intros Hg Hp. destruct Hg as [|c gap Hc _]; [|by apply irregular_ws].
  destruct Hp as [->|[l ->]]; [by intros (H & _)|]. intros (_ & _ & H). discriminate H.
Qed.

Lemma strchr_neq l c : Forall (λ x, x ≠ c) l → strchr l c = None.
Proof.
  induction 1 as [|x l Hx _ IH]; simpl; [done|]. destruct (x =? 0); [done|]. rewrite (proj2 (Z.eqb_neq x c) Hx), IH. done.
Qed.

(** [peek] for a character that is not next. *)
Lemma peek_no pre l c :
  solid l → hd 0 l ≠ c →
  peek ((pre ++ l) ++ 0 :: tl) (length pre) (length (pre ++ l)) [c] = (false, length pre).
Proof.
  intros Hs Hc. rewrite (peek_ok pre [] l) by (done || constructor).
  rewrite strchr_neq, andb_false_r by (constructor; [congruence|constructor]). by rewrite app_nil_r.
Qed.

Lemma peek_yes pre c l :
  c ≠ 0 → is_ws c = false →
  peek ((pre ++ c :: l) ++ 0 :: tl) (length pre) (length (pre ++ c :: l)) [c] = (true, length pre).
Proof.
  intros Hc Hw. rewrite (peek_ok pre [] (c :: l)) by (done || constructor). cbn [hd strchr].
  rewrite (proj2 (Z.eqb_neq c 0) Hc), Z.eqb_refl. by rewrite app_nil_r.
Qed.

Lemma redirs_none m pre l rs r :
  calm l →
  parseredirs ((pre ++ l) ++ 0 :: tl) (S m) (length (pre ++ l)) rs (mkPst (length pre) r) = Ret (rs, mkPst (length pre) r).
Proof.
  intros (Hs & H1 & H2). cbn [parseredirs p_s p_room]. rewrite (peek_ok pre [] l) by (done || constructor).
  rewrite strchr_neq, andb_false_r by (repeat constructor; congruence). cbn [negb]. by rewrite app_nil_r.
Qed.

(** After a word of a simple command: the gap [g], then the other words. *)
Lemma after_word w ws gap post :
  Forall word ws → blank gap → stop post →
  ∃ g gap', join (w :: ws) ++ gap ++ post = w ++ g ++ join ws ++ gap' ++ post ∧ blank g ∧ blank gap' ∧
    calm (join ws ++ gap' ++ post) ∧ ¬ regular (hd 0 (g ++ join ws ++ gap' ++ post)) ∧
    length (join (w :: ws) ++ gap) = length (w ++ g ++ join ws ++ gap').
Proof.
  intros Hws Hg Hp. destruct Hws as [|w2 ws Hw2 Hws].
  - exists gap, []. cbn [join app]. split_and!; [done|done|constructor| | |by rewrite app_nil_r].
    + by apply stop_calm.
    + by apply irregular_gap.
  - exists [32], gap. destruct (regular_first w2 Hw2) as (c & w' & -> & Hc & _). destruct (regular_not_sep c Hc) as [Hns Hgt].
    assert (E : ∃ x, join ((c :: w') :: ws) = c :: x) by (destruct ws; by eexists). destruct E as [x E].
    split_and!; [|by repeat constructor|done| | |].
    + change (join (w :: (c :: w') :: ws)) with (w ++ 32 :: join ((c :: w') :: ws)). by rewrite <- !(assoc_L (++)).
    + rewrite E. split_and!; [apply Hc| |done]. simpl. intros ->. apply Hns. unfold sep. tauto.
    + cbn [app hd]. by apply irregular_ws.
    + change (join (w :: (c :: w') :: ws)) with (w ++ 32 :: join ((c :: w') :: ws)). by rewrite <- !(assoc_L (++)).
Qed.

Lemma peek_word pre w l :
  word w → peek ((pre ++ w ++ l) ++ 0 :: tl) (length pre) (length (pre ++ w ++ l)) (bytes_of "|)&;") = (false, length pre).
Proof.
  intros Hw. destruct (regular_first w Hw) as (c & w' & -> & Hc & _). destruct (regular_not_sep c Hc) as [Hns _].
  rewrite (peek_ok pre [] ((c :: w') ++ l)) by (constructor || apply Hc). cbn [app hd].
  rewrite strchr_neq, andb_false_r, app_nil_r; [done|]. unfold sep in Hns. repeat constructor; intros <-; apply Hns; tauto.
Qed.

Lemma token_ok pre w l : word w → ¬ regular (hd 0 l) → token (pre ++ w ++ l) (length pre) (length (pre ++ w)) w.
Proof.
  intros Hw Hr. split_and!; [done|by rewrite length_app| |].
  - unfold slice. by rewrite drop_app_length, take_app_length.
  - rewrite (assoc_L (++)), app_nth2, Nat.sub_diag by lia. by destruct l.
Qed.

(** The words of a simple command. *)
Lemma parseargs_ok ws m pre gap post argv eargv r :
  Forall word ws → blank gap → stop post → nz (pre ++ join ws ++ gap ++ post) →
  (length argv + length ws < MAXARGS)%nat → (length ws < m)%nat →
  let body := pre ++ join ws ++ gap ++ post in
  ∃ qs eqs, parseargs (body ++ 0 :: tl) m (length body) argv eargv [] (mkPst (length pre) r) =
      Ret (EXEC (argv ++ qs) (eargv ++ eqs), mkPst (length (pre ++ join ws ++ gap)) r) ∧
    length qs = length ws ∧ length eqs = length ws ∧
    ∀ i q eq w, qs !! i = Some q → eqs !! i = Some eq → ws !! i = Some w → token (body ++ 0 :: tl) q eq w.
Proof.
  intros Hws. revert m pre gap argv eargv. induction Hws as [|w ws Hw Hws IH]; intros m pre gap argv eargv Hg Hp Hz Hn Hm body;
    (destruct m as [|m]; [simpl in Hm; lia|]); cbn [parseargs p_s p_room].
  - exists [], []. rewrite !app_nil_r. split_and!; try done.
    unfold body. cbn [join app]. rewrite (peek_ok pre gap post) by (done || by apply stop_calm).
    destruct Hp as [->|[l ->]]; cbn [hd Z.eqb negb andb]; [|done].
    rewrite app_nil_r. by rewrite gettoken_nul.
  - destruct (after_word w ws gap post Hws Hg Hp) as (g & gap' & E & Hbg & Hbg' & Hcalm & Hirr & El).
    unfold body. rewrite E in *. rewrite peek_word by done. pose proof (proj1 (Forall_app _ _ _) Hz) as [_ Hz2].
    pose proof (proj1 (Forall_app _ _ _) Hz2) as [_ Hz3].
    rewrite gettoken_word; [|done|done|apply Hcalm|done|by apply nz_hd]. cbn [Z.eqb Pos.eqb negb].
    rewrite (proj2 (Nat.leb_gt MAXARGS _)) by (rewrite length_app; simpl in *; lia).
    set (rest := join ws ++ gap' ++ post) in *.
    assert (EB : pre ++ w ++ g ++ rest = (pre ++ w ++ g) ++ rest) by (by rewrite <- !(assoc_L (++))).
    rewrite EB. rewrite redirs_none by done. rewrite pbind_ret.
    destruct (IH m (pre ++ w ++ g) gap' (argv ++ [length pre]) (eargv ++ [length (pre ++ w)])) as (qs & eqs & E2 & L1 & L2 & Ht);
      [done|done|by fold rest; rewrite <- EB|rewrite length_app; simpl in *; lia|simpl in Hm; lia|].
    fold rest in E2, Ht. rewrite E2. exists (length pre :: qs), (length (pre ++ w) :: eqs).
    split_and!; [|simpl; lia|simpl; lia|].
    + rewrite <- !(assoc_L (++)). cbn [app]. do 2 f_equal. f_equal.
      rewrite !length_app in El. rewrite !length_app. lia.
    + intros [|i] q eq x; simpl; [|apply Ht]. intros [= <-] [= <-] [= <-]. rewrite <- EB.
      rewrite <- !(assoc_L (++)). apply token_ok; [done|]. rewrite (assoc_L (++) g), hd_app_nul. done.
Qed.

(** One redirection. *)
Lemma redirs_one m pre file mode fd gap post rs r :
  word file → blank gap → stop post → nz (pre ++ sign mode fd ++ file ++ gap ++ post) →
  (mode = O_RDONLY ∧ fd = 0 ∨ mode = Z.lor (Z.lor O_WRONLY O_CREATE) O_TRUNC ∧ fd = 1 ∨ mode = Z.lor O_WRONLY O_CREATE ∧ fd = 1) →
  let body := pre ++ sign mode fd ++ file ++ gap ++ post in
  ∃ q eq, parseredirs (body ++ 0 :: tl) (S (S m)) (length body) rs (mkPst (length pre) (S r)) =
      Ret (rs ++ [(q, eq, mode, fd)], mkPst (length (pre ++ sign mode fd ++ file ++ gap)) r) ∧
    token (body ++ 0 :: tl) q eq file.
Proof.
  intros Hw Hg Hp Hz Hm body. set (sg := sign mode fd) in *.
  assert (EB : body = (pre ++ sg) ++ file ++ gap ++ post) by (unfold body; by rewrite <- !(assoc_L (++))).
  assert (EC : body = (pre ++ sg ++ file ++ gap) ++ post) by (unfold body; by rewrite <- !(assoc_L (++))).
  destruct (regular_first file Hw) as (c & w' & Ef & Hc & _). destruct (regular_not_sep c Hc) as [Hns Hgt].
  assert (Hs : solid (file ++ gap ++ post)) by (rewrite Ef; apply Hc).
  exists (length (pre ++ sg)), (length ((pre ++ sg) ++ file)). split.
  2:{ rewrite EB, <- (assoc_L (++) (pre ++ sg)), <- (assoc_L (++) file). apply token_ok; [done|].
      rewrite hd_app_nul. by apply irregular_gap. }
  assert (Hz2 : nz (gap ++ post)) by (do 3 (apply Forall_app in Hz as [_ Hz]); done).
  assert (Hsg : sg = [60] ∧ mode = O_RDONLY ∧ fd = 0 ∨ sg = [62] ∧ mode = Z.lor (Z.lor O_WRONLY O_CREATE) O_TRUNC ∧ fd = 1 ∨
    sg = [62; 62] ∧ mode = Z.lor O_WRONLY O_CREATE ∧ fd = 1).
  { unfold sg. destruct Hm as [[-> ->]|[[-> ->]|[-> ->]]]; tauto. }
  assert (Hpk : peek (body ++ 0 :: tl) (length pre) (length body) [60; 62] = (true, length pre)).
  { unfold body. rewrite (peek_ok pre [] (sg ++ file ++ gap ++ post)) by (constructor || by destruct Hsg as [[-> _]|[[-> _]|[-> _]]]).
    rewrite app_nil_r. by destruct Hsg as [[-> _]|[[-> _]|[-> _]]]. }
  assert (Htk : gettoken (body ++ 0 :: tl) (length pre) (length body) =
    (if fd =? 0 then 60 else if mode =? Z.lor (Z.lor O_WRONLY O_CREATE) O_TRUNC then 62 else 43, length pre, length (pre ++ sg), length (pre ++ sg))).
  { unfold body. destruct Hsg as [(-> & -> & ->)|[(-> & -> & ->)|(-> & -> & ->)]]; cbn [app].
    - etrans; [apply (gettoken_sep pre 60 [] (file ++ gap ++ post)); [unfold sep; tauto|constructor|done]|].
      rewrite length_app. cbn [length]. by rewrite Nat.add_1_r.
    - rewrite gettoken_out by (done || by rewrite Ef). rewrite length_app. cbn [length]. by rewrite Nat.add_1_r.
    - rewrite gettoken_append by done. rewrite length_app. cbn [length]. by rewrite Nat.add_comm. }
  remember (S m) as m1 eqn:Em1. cbn [parseredirs p_s p_room]. rewrite Hpk. cbn [negb]. rewrite Htk. cbv beta iota zeta.
  rewrite EB at 1 2. rewrite gettoken_word; [|done|done|apply (stop_calm _ Hp)|by apply irregular_gap|by apply nz_hd].
  change (97 <>? 97) with false. cbv iota. cbn [alloc p_room p_s].
  assert (El : length ((pre ++ sg) ++ file ++ gap) = length (pre ++ sg ++ file ++ gap)) by (by rewrite <- !(assoc_L (++))).
  rewrite El. rewrite EC.
  destruct Hsg as [(_ & -> & ->)|[(_ & -> & ->)|(_ & -> & ->)]]; rewrite ?Z.eqb_refl;
    try change (Z.lor O_WRONLY O_CREATE =? Z.lor (Z.lor O_WRONLY O_CREATE) O_TRUNC) with false;
    cbn [Z.eqb Pos.eqb]; rewrite pbind_ret; subst m1; rewrite redirs_none by (by apply stop_calm); done.
Qed.

(** The parser reads back a command, when it stands before a closing parenthesis or
    the end of the line. *)
Definition parsed (c : scmd) : Prop := ∀ n pre gap post room,
  blank gap → stop post → (depth c ≤ n)%nat → (size c ≤ room)%nat → nz (pre ++ show c ++ gap ++ post) →
  let body := pre ++ show c ++ gap ++ post in
  ∃ k, parseline (body ++ 0 :: tl) n (length body) (mkPst (length pre) room) =
      Ret (k, mkPst (length (pre ++ show c ++ gap)) (room - size c)) ∧ stands (body ++ 0 :: tl) k c.

Lemma show_solid c l : wf c → solid (show c ++ 41 :: l).
Proof.
  destruct c as [ws| | | |]; intros Hw; [|done..]. destruct Hw as [Hw _]. destruct Hw as [|w ws Hw _]; [done|].
  destruct (regular_first w Hw) as (c & w' & -> & Hc & _). destruct ws; apply Hc.
Qed.

Lemma block_ok c n pre gap post room :
  parsed c → wf c → (depth c ≤ n)%nat → (size c ≤ room)%nat → blank gap → solid post →
  nz (pre ++ paren (show c) ++ gap ++ post) →
  let body := pre ++ paren (show c) ++ gap ++ post in
  ∃ k, parseexec (body ++ 0 :: tl) (S (S n)) (length body) (mkPst (length pre) room) =
      ('(rs, p) ← parseredirs (body ++ 0 :: tl) (S (length body)) (length body) []
         (mkPst (length (pre ++ paren (show c) ++ gap)) (room - size c));
       Ret (foldl add_redir k rs, p)) ∧ stands (body ++ 0 :: tl) k c.
Proof.
  intros Hc Hw Hn Hs Hg Hp Hz body.
  assert (E1 : body = pre ++ 40 :: (show c ++ 41 :: gap ++ post))
    by (unfold body, paren; cbn [app]; by rewrite <- !(assoc_L (++))).
  assert (E2 : body = (pre ++ [40]) ++ show c ++ [] ++ 41 :: gap ++ post) by (rewrite E1, <- (assoc_L (++)); done).
  assert (E3 : body = (pre ++ 40 :: show c) ++ 41 :: gap ++ post) by (rewrite E1, <- (assoc_L (++)); done).
  destruct (Hc n (pre ++ [40]) [] (41 :: gap ++ post) room) as (k & Ek & Hk);
    [constructor|right; eauto|done|done|by rewrite <- E2|]. rewrite <- E2 in Ek, Hk. exists k. split; [|done].
  cbn [parseexec parseblock p_s p_room].
  assert (P1 : peek (body ++ 0 :: tl) (length pre) (length body) [40] = (true, length pre)) by (rewrite E1; by apply peek_yes).
  assert (T1 : gettoken (body ++ 0 :: tl) (length pre) (length body) = (40, length pre, S (length pre), length (pre ++ [40]))).
  { rewrite E1. apply (gettoken_sep pre 40 []); [unfold sep; tauto|constructor|by apply show_solid]. }
  rewrite P1. cbn [p_s p_room negb]. rewrite P1. cbn [negb]. rewrite T1. cbv beta iota. rewrite Ek, pbind_ret. cbn [p_s p_room].
  rewrite app_nil_r.
  replace ((pre ++ [40]) ++ show c) with (pre ++ 40 :: show c) by (by rewrite <- (assoc_L (++))).
  assert (P2 : peek (body ++ 0 :: tl) (length (pre ++ 40 :: show c)) (length body) [41] = (true, length (pre ++ 40 :: show c)))
    by (rewrite E3; by apply peek_yes).
  rewrite P2. cbn [negb].
  assert (T2 : gettoken (body ++ 0 :: tl) (length (pre ++ 40 :: show c)) (length body) =
    (41, length (pre ++ 40 :: show c), S (length (pre ++ 40 :: show c)), length ((pre ++ 40 :: show c) ++ 41 :: gap))).
  { rewrite E3. apply gettoken_sep; [unfold sep; tauto|done|done]. }
  rewrite T2. cbv beta iota.
  replace ((pre ++ 40 :: show c) ++ 41 :: gap) with (pre ++ paren (show c) ++ gap); [done|].
  unfold paren. cbn [app]. by rewrite <- !(assoc_L (++)).
Qed.

Lemma parsepipe_end n x l k r p :
  parseexec ((x ++ l) ++ 0 :: tl) n (length (x ++ l)) p = Ret (k, mkPst (length x) r) → solid l → hd 0 l ≠ 124 →
  parsepipe ((x ++ l) ++ 0 :: tl) (S n) (length (x ++ l)) p = Ret (k, mkPst (length x) r).
Proof.
  intros E Hs Hh. cbn [parsepipe]. rewrite E, pbind_ret. cbn [p_s p_room]. rewrite peek_no by done. done.
Qed.

Lemma parseline_end n x post k r p :
  parsepipe ((x ++ post) ++ 0 :: tl) n (length (x ++ post)) p = Ret (k, mkPst (length x) r) → stop post →
  parseline ((x ++ post) ++ 0 :: tl) (S n) (length (x ++ post)) p = Ret (k, mkPst (length x) r).
Proof.
  intros E Hp. assert (Hs : solid post ∧ hd 0 post ≠ 38 ∧ hd 0 post ≠ 59) by (destruct Hp as [->|[l ->]]; done).
  destruct Hs as (Hs & H1 & H2). cbn [parseline]. rewrite E, pbind_ret.
  cbn [parseback p_s p_room]. rewrite peek_no by done. cbn [negb]. rewrite pbind_ret. cbn [p_s p_room]. rewrite peek_no by done. done.
Qed.

Lemma paren_exec c n pre gap post room :
  parsed c → wf c → (depth c + 2 ≤ n)%nat → (size c ≤ room)%nat → blank gap → calm post →
  nz (pre ++ paren (show c) ++ gap ++ post) →
  let body := pre ++ paren (show c) ++ gap ++ post in
  ∃ k, parseexec (body ++ 0 :: tl) n (length body) (mkPst (length pre) room) =
      Ret (k, mkPst (length (pre ++ paren (show c) ++ gap)) (room - size c)) ∧ stands (body ++ 0 :: tl) k c.
Proof.
  intros Hc Hw Hn Hs Hg Hp Hz body. destruct n as [|[|n]]; [lia|lia|].
  destruct (block_ok c n pre gap post room) as (k & E & Hk); try done; [lia|apply Hp|]. exists k. split; [|done].
  etrans; [exact E|]. assert (EB : body = (pre ++ paren (show c) ++ gap) ++ post) by (unfold body; by rewrite <- !(assoc_L (++))).
  fold body. rewrite EB. rewrite redirs_none by done. done.
Qed.

Lemma join_length ws : Forall word ws → (length ws ≤ length (join ws))%nat.
Proof.
  induction 1 as [|w ws Hw Hws IH]; [done|]. destruct (regular_first w Hw) as (c & w' & -> & _).
  destruct ws as [|w2 ws]; [simpl; lia|]. change (join ((c :: w') :: w2 :: ws)) with ((c :: w') ++ 32 :: join (w2 :: ws)).
  rewrite length_app. simpl in *. lia.
Qed.

Lemma parse_exec ws : Forall word ws → (length ws < MAXARGS)%nat → parsed (SExec ws).
Proof.
  intros Hws Hn n pre gap post room Hg Hp Hd Hs Hz body. cbn [show depth size] in *. fold body in Hz.
  assert (H : ∃ pre' gap', body = pre' ++ join ws ++ gap' ++ post ∧ blank gap' ∧ calm (join ws ++ gap' ++ post) ∧
    peek (body ++ 0 :: tl) (length pre) (length body) [40] = (false, length pre') ∧
    length (pre' ++ join ws ++ gap') = length (pre ++ join ws ++ gap)).
  { destruct Hws as [|w ws Hw Hws].
    - exists (pre ++ gap), []. unfold body. cbn [join app]. split_and!; [by rewrite <- (assoc_L (++))|constructor|by apply stop_calm| |by rewrite app_nil_r].
      rewrite peek_ok by (done || by apply stop_calm). f_equal. by destruct Hp as [->|[l ->]].
    - exists pre, gap. destruct (regular_first w Hw) as (c & w' & -> & Hc & _). destruct (regular_not_sep c Hc) as [Hns Hgt].
      assert (E : ∃ x, join ((c :: w') :: ws) = c :: x) by (destruct ws; by eexists). destruct E as [x E].
      unfold body. rewrite E. split_and!; try done; [split_and!; [apply Hc| |done]|].
      + simpl. intros ->. apply Hns. unfold sep. tauto.
      + apply peek_no; [apply Hc|]. simpl. intros ->. apply Hns. unfold sep. tauto. }
  destruct H as (pre' & gap' & EB & Hg' & Hcalm & Hpk & El).
  destruct n as [|[|[|n]]]; [lia..|]. destruct room as [|r]; [lia|].
  destruct (parseargs_ok ws (S (length body)) pre' gap' post [] [] r) as (qs & eqs & E & L1 & L2 & Ht);
    [done|done|done|by rewrite <- EB|done| |].
  { rewrite EB, !length_app. pose proof (join_length ws Hws). lia. }
  rewrite <- EB in E, Ht. exists (EXEC qs eqs). split; [|cbn; split_and!; [congruence|congruence|done]].
  assert (EC : body = (pre' ++ join ws ++ gap') ++ post) by (rewrite EB; by rewrite <- !(assoc_L (++))).
  rewrite <- El. replace (S r - 1)%nat with r by lia. rewrite EC. apply parseline_end; [|done].
  assert (Hc2 : calm post) by (by apply stop_calm). apply parsepipe_end; [|apply Hc2|by destruct Hp as [->|[l ->]]].
  rewrite <- EC. cbn [parseexec p_s p_room]. rewrite Hpk. cbn [alloc p_room p_s]. rewrite pbind_ret.
  assert (Er : parseredirs (body ++ 0 :: tl) (S (length body)) (length body) [] (mkPst (length pre') r) = Ret ([], mkPst (length pre') r))
    by (rewrite EB; by apply redirs_none).
  rewrite Er, pbind_ret. exact E.
Qed.

Lemma parse_redir c file mode fd :
  wf (SRedir c file mode fd) → parsed c → parsed (SRedir c file mode fd).
Proof.
  intros (Hw & Hf & Hm) Hc n pre gap post room Hg Hp Hd Hs Hz body. cbn [show depth size] in *.
  set (x := pre ++ paren (show c)).
  assert (E1 : body = pre ++ paren (show c) ++ [] ++ (sign mode fd ++ file ++ gap ++ post)) by (unfold body; cbn; by rewrite <- !(assoc_L (++))).
  assert (E2 : body = x ++ sign mode fd ++ file ++ gap ++ post) by (unfold body, x; by rewrite <- !(assoc_L (++))).
  assert (E3 : body = (x ++ sign mode fd ++ file ++ gap) ++ post) by (rewrite E2; by rewrite <- !(assoc_L (++))).
  assert (Hsg : solid (sign mode fd ++ file ++ gap ++ post)) by (destruct Hm as [[-> ->]|[[-> ->]|[-> ->]]]; done).
  destruct n as [|[|[|[|n]]]]; [lia..|]. fold body in Hz.
  destruct (block_ok c n pre [] (sign mode fd ++ file ++ gap ++ post) room) as (k & Ek & Hk);
    [done|done|lia|lia|constructor|done|by rewrite <- E1|]. rewrite <- E1 in Ek, Hk.
  destruct (redirs_one (length body - 1) x file mode fd gap post [] (room - size c - 1)) as (q & eq & Er & Ht); [done|done|done|by rewrite <- E2|done|].
  rewrite <- E2 in Er, Ht. exists (REDIR k q eq mode fd). split; [|done].
  assert (Hlen : (1 ≤ length body)%nat) by (unfold body, paren; rewrite !length_app; simpl; lia).
  replace (pre ++ (paren (show c) ++ sign mode fd ++ file) ++ gap) with (x ++ sign mode fd ++ file ++ gap) by (unfold x; by rewrite <- !(assoc_L (++))).
  rewrite E3. apply parseline_end; [|done]. apply parsepipe_end; [|by apply stop_calm|by destruct Hp as [->|[l ->]]]. rewrite <- E3, Ek.
  rewrite app_nil_r. fold x. replace (S (length body)) with (S (S (length body - 1))) by lia.
  replace (room - size c)%nat with (S (room - size c - 1)) by lia. rewrite Er, pbind_ret.
  cbn [app foldl add_redir]. do 3 f_equal. lia.
Qed.

Lemma parse_back c : wf c → parsed c → parsed (SBack c).
Proof.
  intros Hw Hc n pre gap post room Hg Hp Hd Hs Hz body. cbn [show depth size] in *. fold body in Hz.
  set (x := pre ++ paren (show c)).
  assert (E1 : body = pre ++ paren (show c) ++ [] ++ (38 :: gap ++ post)) by (unfold body; by rewrite <- !(assoc_L (++))).
  assert (E2 : body = x ++ 38 :: gap ++ post) by (unfold body, x; by rewrite <- !(assoc_L (++))).
  assert (E3 : body = (x ++ 38 :: gap) ++ post) by (rewrite E2; by rewrite <- !(assoc_L (++))).
  destruct n as [|[|n]]; [lia..|].
  destruct (paren_exec c n pre [] (38 :: gap ++ post) room) as (k & Ek & Hk);
    [done|done|lia|lia|constructor|by split_and!|by rewrite <- E1|]. rewrite <- E1 in Ek, Hk. exists (BACK k). split; [|done].
  assert (Epp : parsepipe (body ++ 0 :: tl) (S n) (length body) (mkPst (length pre) room) = Ret (k, mkPst (length x) (room - size c))).
  { rewrite E2. apply parsepipe_end; [|done|done]. rewrite <- E2. rewrite Ek. by rewrite app_nil_r. }
  assert (P1 : peek (body ++ 0 :: tl) (length x) (length body) [38] = (true, length x)) by (rewrite E2; by apply peek_yes).
  assert (T1 : gettoken (body ++ 0 :: tl) (length x) (length body) = (38, length x, S (length x), length (x ++ 38 :: gap))).
  { rewrite E2. apply gettoken_sep; [unfold sep; tauto|done|apply (stop_calm _ Hp)]. }
  destruct (room - size c)%nat as [|r] eqn:Er; [lia|].
  assert (Hpo : solid post ∧ hd 0 post ≠ 38 ∧ hd 0 post ≠ 59) by (destruct Hp as [->|[l ->]]; done). destruct Hpo as (Hso & H38 & H59).
  assert (Eb : parseback (body ++ 0 :: tl) (length body) (length body) (BACK k) (mkPst (length (x ++ 38 :: gap)) r) =
    Ret (BACK k, mkPst (length (x ++ 38 :: gap)) r)).
  { assert (Hlen : (1 ≤ length body)%nat) by (rewrite E2, length_app; simpl; lia).
    destruct (length body) as [|m] eqn:Em; [lia|]. cbn [parseback p_s p_room]. rewrite <- Em, E3. by rewrite peek_no. }
  cbn [parseline]. rewrite Epp, pbind_ret. cbn [parseback p_s p_room]. rewrite P1. cbn [negb]. rewrite T1. cbv beta iota.
  cbn [alloc p_room p_s]. rewrite pbind_ret, Eb, pbind_ret. cbn [p_s p_room]. rewrite E3. rewrite peek_no by done. cbn [negb].
  do 2 f_equal. f_equal; [|lia]. f_equal. unfold x. by rewrite <- !(assoc_L (++)).
Qed.

(** The second part of a pipe or of a list. *)
Lemma parse_two c1 c2 op n pre gap post room :
  wf c1 → wf c2 → parsed c1 → parsed c2 → op = 124 ∨ op = 59 → blank gap → stop post →
  (depth c1 `max` depth c2 + 3 ≤ n)%nat → (size c1 + size c2 + 1 ≤ room)%nat →
  let body := pre ++ (paren (show c1) ++ op :: paren (show c2)) ++ gap ++ post in
  let x := pre ++ paren (show c1) in
  nz body →
  ∃ k1 k2, stands (body ++ 0 :: tl) k1 c1 ∧ stands (body ++ 0 :: tl) k2 c2 ∧
    parseexec (body ++ 0 :: tl) n (length body) (mkPst (length pre) room) = Ret (k1, mkPst (length x) (room - size c1)) ∧
    peek (body ++ 0 :: tl) (length x) (length body) [op] = (true, length x) ∧
    gettoken (body ++ 0 :: tl) (length x) (length body) = (op, length x, S (length x), length (x ++ [op])) ∧
    parsepipe (body ++ 0 :: tl) n (length body) (mkPst (length (x ++ [op])) (room - size c1)) =
      Ret (k2, mkPst (length (pre ++ (paren (show c1) ++ op :: paren (show c2)) ++ gap)) (room - size c1 - size c2)).
Proof.
  intros Hw1 Hw2 Hc1 Hc2 Hop Hg Hp Hd Hs body x Hz.
  assert (E1 : body = pre ++ paren (show c1) ++ [] ++ (op :: paren (show c2) ++ gap ++ post)) by (unfold body; by rewrite <- !(assoc_L (++))).
  assert (E2 : body = x ++ op :: ([] ++ paren (show c2) ++ gap ++ post)) by (unfold body, x; by rewrite <- !(assoc_L (++))).
  assert (E3 : body = (x ++ [op]) ++ paren (show c2) ++ gap ++ post) by (rewrite E2; by rewrite <- !(assoc_L (++))).
  assert (Hsol : op ≠ 0 ∧ is_ws op = false ∧ op ≠ 60 ∧ op ≠ 62 ∧ sep op) by (destruct Hop as [->| ->]; split_and!; done || (unfold sep; tauto)).
  destruct Hsol as (Ho0 & How & Ho1 & Ho2 & Hos).
  destruct (paren_exec c1 n pre [] (op :: paren (show c2) ++ gap ++ post) room) as (k1 & Ek1 & Hk1);
    [done|done|lia|lia|constructor|by split_and!|by rewrite <- E1|]. rewrite <- E1 in Ek1, Hk1.
  destruct n as [|n]; [lia|].
  destruct (paren_exec c2 n (x ++ [op]) gap post (room - size c1)) as (k2 & Ek2 & Hk2);
    [done|done|lia|lia|done|by apply stop_calm|by rewrite <- E3|]. rewrite <- E3 in Ek2, Hk2.
  exists k1, k2. split_and!; [done|done| | | |].
  - rewrite Ek1. by rewrite app_nil_r.
  - rewrite E2. by apply peek_yes.
  - rewrite E2. apply gettoken_sep; [done|constructor|done].
  - assert (E4 : body = ((x ++ [op]) ++ paren (show c2) ++ gap) ++ post) by (rewrite E3; by rewrite <- !(assoc_L (++))).
    replace (pre ++ (paren (show c1) ++ op :: paren (show c2)) ++ gap) with ((x ++ [op]) ++ paren (show c2) ++ gap)
      by (unfold x; by rewrite <- !(assoc_L (++))).
    rewrite E4. apply parsepipe_end; [by rewrite <- E4|by apply stop_calm|by destruct Hp as [->|[l ->]]].
Qed.

Lemma parse_pipe c1 c2 : wf c1 → wf c2 → parsed c1 → parsed c2 → parsed (SPipe c1 c2).
Proof.
  intros Hw1 Hw2 Hc1 Hc2 n pre gap post room Hg Hp Hd Hs Hz body. cbn [show depth size] in *. fold body in Hz.
  destruct n as [|[|n]]; [lia..|].
  destruct (parse_two c1 c2 124 n pre gap post room) as (k1 & k2 & H1 & H2 & E1 & E2 & E3 & E4);
    [done|done|done|done|by left|done|done|lia|lia|done|]. fold body in H1, H2, E1, E2, E3, E4.
  exists (PIPE k1 k2). split; [|done].
  set (y := pre ++ (paren (show c1) ++ 124 :: paren (show c2)) ++ gap) in *.
  assert (EB : body = y ++ post) by (unfold body, y; by rewrite <- !(assoc_L (++))).
  assert (Epp : parsepipe (body ++ 0 :: tl) (S n) (length body) (mkPst (length pre) room) =
    Ret (PIPE k1 k2, mkPst (length y) (room - (size c1 + size c2 + 1)))).
  { cbn [parsepipe]. rewrite E1, pbind_ret. cbn [p_s p_room]. rewrite E2. cbn [negb]. rewrite E3. cbv beta iota. rewrite E4, pbind_ret.
    destruct (room - size c1 - size c2)%nat as [|r] eqn:Er; [lia|]. cbn [alloc p_room p_s]. rewrite pbind_ret. do 2 f_equal. f_equal. lia. }
  rewrite EB. apply parseline_end; [by rewrite <- EB|done].
Qed.

Lemma parse_list c1 c2 : wf c1 → wf c2 → parsed c1 → parsed c2 → parsed (SList c1 c2).
Proof.
  intros Hw1 Hw2 Hc1 Hc2 n pre gap post room Hg Hp Hd Hs Hz body. cbn [show depth size] in *. fold body in Hz.
  destruct n as [|[|n]]; [lia..|].
  destruct (parse_two c1 c2 59 n pre gap post room) as (k1 & k2 & H1 & H2 & E1 & E2 & E3 & E4);
    [done|done|done|done|by right|done|done|lia|lia|done|]. fold body in H1, H2, E1, E2, E3, E4.
  exists (LIST k1 k2). split; [|done].
  set (y := pre ++ (paren (show c1) ++ 59 :: paren (show c2)) ++ gap) in *. set (x := pre ++ paren (show c1)) in *.
  assert (EB : body = y ++ post) by (unfold body, y; by rewrite <- !(assoc_L (++))).
  assert (EX : body = x ++ 59 :: paren (show c2) ++ gap ++ post) by (unfold body, x; by rewrite <- !(assoc_L (++))).
  assert (Epp : parsepipe (body ++ 0 :: tl) (S n) (length body) (mkPst (length pre) room) = Ret (k1, mkPst (length x) (room - size c1))).
  { rewrite EX. apply parsepipe_end; [by rewrite <- EX|done|done]. }
  assert (Epb : parseback (body ++ 0 :: tl) (S (length body)) (length body) k1 (mkPst (length x) (room - size c1)) =
    Ret (k1, mkPst (length x) (room - size c1))).
  { cbn [parseback p_s p_room]. rewrite EX. rewrite peek_no by done. done. }
  assert (Epl : parseline (body ++ 0 :: tl) (S n) (length body) (mkPst (length (x ++ [59])) (room - size c1)) =
    Ret (k2, mkPst (length y) (room - size c1 - size c2))).
  { rewrite EB. apply parseline_end; [by rewrite <- EB|done]. }
  remember (S n) as n1. cbn [parseline]. rewrite Epp, pbind_ret, Epb, pbind_ret. cbn [p_s p_room]. rewrite E2. cbn [negb]. rewrite E3. cbv beta iota.
  rewrite Epl, pbind_ret. destruct (room - size c1 - size c2)%nat as [|r] eqn:Er; [lia|]. cbn [alloc p_room p_s]. rewrite pbind_ret. do 2 f_equal. f_equal. lia.
Qed.

Lemma parse_ok c : wf c → parsed c.
Proof.
  induction c as [ws|c IH file mode fd|c1 IH1 c2 IH2|c1 IH1 c2 IH2|c IH]; intros Hw.
  - destruct Hw. by apply parse_exec.
  - apply parse_redir; [done|]. apply IH, Hw.
  - destruct Hw. apply parse_pipe; auto.
  - destruct Hw. apply parse_list; auto.
  - apply parse_back; auto.
Qed.
End line.

(** *** The NULs *)

Fixpoint ends (k : cmd) : list nat :=
  match k with
  | EXEC argv eargv => take (length argv) eargv
  | REDIR k file efile mode fd => ends k ++ [efile]
  | PIPE lcmd rcmd => ends lcmd ++ ends rcmd
  | LIST lcmd rcmd => ends lcmd ++ ends rcmd
  | BACK k => ends k
  end.

Definition nuls (es : list nat) (buf : list Z) : list Z := foldl (λ b e, <[e := 0]> b) buf es.

Lemma nulterminate_eq k buf : nulterminate k buf = nuls (ends k) buf.
Proof.
  revert buf. induction k as [argv eargv|k IH q eq mode fd|k1 IH1 k2 IH2|k1 IH1 k2 IH2|k IH]; intros buf; cbn [nulterminate ends]; unfold nuls in *.
  - done.
  - rewrite foldl_app. cbn [foldl]. by rewrite IH.
  - by rewrite foldl_app, IH1, IH2.
  - by rewrite foldl_app, IH1, IH2.
  - apply IH.
Qed.

Lemma nuls_nth es buf i : nth i (nuls es buf) 0 = if decide (i ∈ es) then 0 else nth i buf 0.
Proof.
  revert buf. induction es as [|e es IH]; intros buf; simpl; [done|]. unfold nuls in *. cbn [foldl]. rewrite IH.
  destruct (decide (i ∈ es)) as [H|H]; [by rewrite decide_True by set_solver|].
  destruct (decide (i = e)) as [->|Hne].
  - rewrite decide_True by set_solver. rewrite nth_lookup. destruct (decide (e < length buf)%nat).
    + by rewrite list_lookup_insert_eq.
    + by rewrite lookup_ge_None_2 by (rewrite length_insert; lia).
  - rewrite decide_False by set_solver. by rewrite !nth_lookup, list_lookup_insert_ne.
Qed.

Lemma cstr_nth w q b :
  (∀ i, (i < length w)%nat → nth (q + i) b 0 = nth i w 0) → Forall (λ c, c ≠ 0) w → nth (q + length w) b 0 = 0 → cstr (drop q b) = w.
Proof.
  intros Hi Hw. revert q Hi. induction Hw as [|c w Hc Hw IH]; intros q Hi H0.
  - simpl in H0. rewrite Nat.add_0_r in H0. destruct (drop q b) as [|x l] eqn:E; [done|].
    assert (Ex : x = 0) by (rewrite nth_lookup, <- (Nat.add_0_r q), <- lookup_drop, E in H0; done). by rewrite Ex.
  - assert (H1 : nth q b 0 = c) by (specialize (Hi O ltac:(simpl; lia)); by rewrite Nat.add_0_r in Hi).
    destruct (drop q b) as [|x l] eqn:E.
    { exfalso. apply Hc. rewrite <- H1, nth_lookup, <- (Nat.add_0_r q), <- lookup_drop, E. done. }
    assert (Ex : x = c) by (rewrite nth_lookup, <- (Nat.add_0_r q), <- lookup_drop, E in H1; done). subst x. cbn [cstr].
    rewrite (proj2 (Z.eqb_neq c 0) Hc). f_equal.
    assert (El : l = drop (S q) b) by (rewrite <- Nat.add_1_r, <- drop_drop, E; done). rewrite El. apply IH.
    + intros i H. specialize (Hi (S i) ltac:(simpl; lia)). by rewrite Nat.add_succ_r in Hi.
    + simpl in H0. by rewrite Nat.add_succ_r in H0.
Qed.

Lemma token_str buf es q eq w :
  (∀ e, e ∈ es → ¬ regular (nth e buf 0)) → token buf q eq w → eq ∈ es → str_at (nuls es buf) q = w.
Proof.
  intros He ([Hne Hw] & -> & Hs & Hr) Hin. unfold str_at. apply cstr_nth.
  - intros i Hi. rewrite nuls_nth.
    assert (Ei : nth (q + i) buf 0 = nth i w 0).
    { rewrite <- Hs at 1. unfold slice. rewrite !nth_lookup, lookup_take_lt, lookup_drop by done. done. }
    rewrite decide_False; [done|]. intros Hc. apply (He _ Hc). rewrite Ei.
    rewrite nth_lookup. destruct (lookup_lt_is_Some_2 w i Hi) as [x Hx]. rewrite Hx. by apply (Forall_lookup_1 _ _ _ _ Hw Hx).
  - eapply Forall_impl; [exact Hw|]. intros c Hc. apply Hc.
  - rewrite nuls_nth. by rewrite decide_True.
Qed.

Lemma stands_ends buf k c e : stands buf k c → e ∈ ends k → ¬ regular (nth e buf 0).
Proof.
  revert c. induction k as [argv eargv|k IH q eq mode fd|k1 IH1 k2 IH2|k1 IH1 k2 IH2|k IH]; intros [ws|c f m d|c1 c2|c1 c2|c] H; try done; cbn [stands ends] in *.
  - destruct H as (H1 & H2 & H3). rewrite take_ge by lia. intros [i Hi]%list_elem_of_lookup.
    pose proof (lookup_lt_Some _ _ _ Hi). destruct (lookup_lt_is_Some_2 argv i) as [q Hq]; [lia|].
    destruct (lookup_lt_is_Some_2 ws i) as [w Hw]; [lia|]. by apply (H3 i q e w).
  - destruct H as (H1 & H2 & _). rewrite elem_of_app, list_elem_of_singleton. intros [He| ->]; [by apply (IH c)|apply H2].
  - rewrite elem_of_app. intros [He|He]; [by apply (IH1 c1); [apply H|]|by apply (IH2 c2); [apply H|]].
  - rewrite elem_of_app. intros [He|He]; [by apply (IH1 c1); [apply H|]|by apply (IH2 c2); [apply H|]].
  - by apply (IH c).
Qed.

Lemma stands_meaning buf es k c :
  (∀ e, e ∈ es → ¬ regular (nth e buf 0)) → stands buf k c → (∀ e, e ∈ ends k → e ∈ es) → meaning (nuls es buf) k = c.
Proof.
  intros Hr. revert c. induction k as [argv eargv|k IH q eq mode fd|k1 IH1 k2 IH2|k1 IH1 k2 IH2|k IH]; intros [ws|c f m d|c1 c2|c1 c2|c] H He; try done; cbn [stands ends meaning] in *.
  - destruct H as (H1 & H2 & H3). f_equal. rewrite take_ge in He by lia. apply list_eq. intros i. rewrite list_lookup_fmap.
    destruct (argv !! i) as [q|] eqn:Eq; simpl.
    + pose proof (lookup_lt_Some _ _ _ Eq). destruct (lookup_lt_is_Some_2 eargv i) as [e Ee]; [lia|].
      destruct (lookup_lt_is_Some_2 ws i) as [w Ew]; [lia|]. rewrite Ew. f_equal.
      apply (token_str buf es q e); [done|by apply (H3 i)|]. apply He. by apply list_elem_of_lookup_2 in Ee.
    + symmetry. apply lookup_ge_None_2. apply lookup_ge_None in Eq. lia.
  - destruct H as (H1 & H2 & -> & ->). f_equal; [apply IH; [done|]; set_solver|]. apply (token_str buf es q eq); [done|done|]. set_solver.
  - destruct H as [H1 H2]. f_equal; [apply IH1|apply IH2]; set_solver.
  - destruct H as [H1 H2]. f_equal; [apply IH1|apply IH2]; set_solver.
  - f_equal. apply IH; set_solver.
Qed.

(** *** The whole line *)

Lemma show_nz c : wf c → nz (show c).
Proof.
  assert (Hword : ∀ w, word w → nz w) by (intros w [_ H]; eapply Forall_impl; [exact H|]; intros x Hx; apply Hx).
  assert (Hparen : ∀ l, nz l → nz (paren l)) by (intros l Hl; constructor; [done|]; apply Forall_app; split; [done|by repeat constructor]).
  induction c as [ws|c IH f m d|c1 IH1 c2 IH2|c1 IH1 c2 IH2|c IH]; cbn [wf show]; intros Hw.
  - destruct Hw as [Hw _]. induction Hw as [|w ws Hw Hws IH]; [constructor|]. destruct ws as [|w2 ws]; [by apply Hword|].
    change (join (w :: w2 :: ws)) with (w ++ 32 :: join (w2 :: ws)). apply Forall_app. split; [by apply Hword|by constructor].
  - destruct Hw as (Hw & Hf & Hm). apply Forall_app. split; [by apply Hparen, IH|]. apply Forall_app. split; [|by apply Hword].
    unfold sign. destruct (d =? 0); [by repeat constructor|]. destruct (m =? _); by repeat constructor.
  - destruct Hw. apply Forall_app. split; [by apply Hparen, IH1|]. constructor; [done|]. by apply Hparen, IH2.
  - destruct Hw. apply Forall_app. split; [by apply Hparen, IH1|]. constructor; [done|]. by apply Hparen, IH2.
  - apply Forall_app. split; [by apply Hparen, IH|]. by repeat constructor.
Qed.

Lemma depth_show c : (depth c ≤ 4 * length (show c) + 4)%nat.
Proof.
  induction c as [ws|c IH f m d|c1 IH1 c2 IH2|c1 IH1 c2 IH2|c IH]; cbn [depth show]; unfold paren;
    rewrite ?length_app; cbn [length]; rewrite ?length_app; cbn [length]; lia.
Qed.

Lemma strlen_nz l tl : nz l → strlen (l ++ 0 :: tl) = Z.of_nat (length l).
Proof. induction 1 as [|c l Hc Hl IH]; simpl; [done|]. rewrite (proj2 (Z.eqb_neq c 0) Hc), IH. lia. Qed.

(** C33. The shell's parser reads back every command: of the line printed for a command
    (words, redirections, pipes, lists and background jobs, nested in any way, with
    parentheses around the parts), [parsecmd] makes the structure of that command,
    and after [nulterminate] each of its pointers is to exactly the word that was
    printed there, as long as [malloc] provides the structures. *)
Theorem parsecmd_show c gap tl room :
  wf c → blank gap → (size c ≤ room)%nat →
  ∃ k buf', parsecmd (show c ++ gap ++ 0 :: tl) room = Ret (k, buf') ∧ meaning buf' k = c.
Proof.
  intros Hw Hg Hs. unfold parsecmd. rewrite (assoc_L (++)).
  assert (Hz : nz (show c ++ gap)).
  { apply Forall_app. split; [by apply show_nz|]. eapply Forall_impl; [exact Hg|]. intros x Hx ->. discriminate Hx. }
  rewrite strlen_nz, Nat2Z.id by done. set (body := show c ++ gap) in *.
  destruct (parse_ok tl c Hw (4 * length body + 4)%nat [] gap [] room) as (k & Ek & Hk).
  { done. } { by left. } { pose proof (depth_show c). unfold body. rewrite length_app. lia. } { done. } { by rewrite app_nil_r. }
  rewrite app_nil_r in Ek, Hk. cbn [app] in Ek, Hk. fold body in Ek, Hk. cbn [length] in Ek. rewrite Ek, pbind_ret. cbn [p_s].
  pose proof (peek_ok tl body [] [] [] (Forall_nil_2 _) eq_refl) as Hpk. cbn [app] in Hpk. rewrite app_nil_r in Hpk. rewrite Hpk.
  rewrite Nat.eqb_refl. cbn [negb]. eexists _, _. split; [reflexivity|]. rewrite nulterminate_eq.
  apply stands_meaning; [|done|done]. intros e He. by apply (stands_ends _ k c).
Qed.

Lemma parsecmd_show_witness :
  ∃ k buf', parsecmd (show (SPipe (SExec [bytes_of "ls"; bytes_of "-l"]) (SRedir (SExec [bytes_of "wc"]) (bytes_of "out") 1537 1)) ++ [10] ++ [0]) 8 =
    Ret (k, buf') ∧ meaning buf' k = SPipe (SExec [bytes_of "ls"; bytes_of "-l"]) (SRedir (SExec [bytes_of "wc"]) (bytes_of "out") 1537 1).
Proof.
  apply (parsecmd_show (SPipe (SExec [bytes_of "ls"; bytes_of "-l"]) (SRedir (SExec [bytes_of "wc"]) (bytes_of "out") 1537 1)) [10] [] 8).
  - repeat split; try discriminate; try (repeat constructor; vm_compute; congruence); vm_compute; lia.
  - repeat constructor.
  - vm_compute. lia.
Defined.
