(* ===== verification/TestsFs.v ===== *)
(** * The system call tests, files: the tests of [user/usertests.c] that use the file system

    Each test runs in a process of its own and passes when that process returns from the test or
    exits with 0.  [buf] is a global array of the process, zero at the start of each test. *)

From stdpp Require Import prelude gmap strings list.
From Stdlib Require Import ZArith Lia.
From S2P Require Import Prelude.
From S2P Require Import Riscv.
From S2P Require Import Types.
From S2P Require Import User.
From S2P Require Import Ulib.
From S2P Require Import Utils.

(** ** Common parts *)

Definition BUFSZ : Z := (MAXOPBLOCKS + 2) * BSIZE.
Definition buf0 : list Z := replicate (Z.to_nat BUFSZ) 0.

Definition say (fmt : string) (args : list varg) : prog unit := printf (bytes_of fmt) args.
Definition sayln (fmt : string) (args : list varg) : prog unit := printf (bytes_of fmt ++ nl) args.

(** [printf(...); exit(1);], with and without an end of line *)
Definition die {A} (fmt : string) (args : list varg) : prog A := sayln fmt args;; exit_ 1.
Definition die0 {A} (fmt : string) (args : list varg) : prog A := say fmt args;; exit_ 1.
Definition S_ (s : list Z) : varg := VStr (Some s).

Definition unlink (path : string) : prog Z := sys (CUnlink (bytes_of path)).
Definition open (path : string) (mode : Z) : prog Z := sys (COpen (bytes_of path) mode).
Definition close (fd : Z) : prog Z := sys (CClose fd).
Definition write (fd : Z) (text : string) : prog Z := sys (CWrite fd (bytes_of text)).
Definition mkdir (path : string) : prog Z := sys (CMkdir (bytes_of path)).
Definition chdir (path : string) : prog Z := sys (CChdir (bytes_of path)).
Definition link (old new : string) : prog Z := sys (CLink (bytes_of old) (bytes_of new)).

(** [read(fd, buf, n)]: the result and the new contents of [buf] *)
Definition read (fd : Z) (buf : list Z) (n : Z) : prog (Z * list Z) :=
  '(r, l) ← sys (CRead fd n); buf ← set_bytes buf 0 l; Ret (r, buf).
(** [buf[i]] *)
Definition at_ (buf : list Z) (i : Z) : Z := nth (Z.to_nat i) buf 0.

Definition CREATE_RDWR_ : Z := Z.lor O_CREATE O_RDWR.

(** [for(i = i0; ...; i++)], [k] times *)
Fixpoint times (k : nat) (i : Z) (body : Z → prog unit) : prog unit :=
  match k with O => Ret () | S k' => body i;; times k' (i + 1) body end.

(** The body of an [if] that tests a result, when it fails the test *)
Definition require (ok : bool) (msg : string) (args : list varg) : prog unit :=
  if ok then Ret () else die msg args.

(** [fork]; the child runs [c] and exits when that returns *)
Definition in_child (c : prog unit) : prog Z :=
  pid ← sys CFork;
  if pid =? 0 then c;; exit_ 0 else Ret pid.

(** ** Truncation *)

Definition truncate1 (s : list Z) : prog unit :=
  let b := replicate 32 0 in
  _ ← unlink "truncfile";
  fd1 ← open "truncfile" (Z.lor (Z.lor O_CREATE O_WRONLY) O_TRUNC);
  _ ← write fd1 "abcd"; _ ← close fd1;
  fd2 ← open "truncfile" O_RDONLY;
  '(n, b) ← read fd2 b 32;
  require (n =? 4) "%s: read %d bytes, wanted 4" [S_ s; VNum n];;
  fd1 ← open "truncfile" (Z.lor O_WRONLY O_TRUNC);
  fd3 ← open "truncfile" O_RDONLY;
  '(n, b) ← read fd3 b 32;
  (if n <>? 0 then sayln "aaa fd3=%d" [VNum fd3];; die "%s: read %d bytes, wanted 0" [S_ s; VNum n] else Ret ());;
  '(n, b) ← read fd2 b 32;
  (if n <>? 0 then sayln "bbb fd2=%d" [VNum fd2];; die "%s: read %d bytes, wanted 0" [S_ s; VNum n] else Ret ());;
  _ ← write fd1 "abcdef";
  '(n, b) ← read fd3 b 32;
  require (n =? 6) "%s: read %d bytes, wanted 6" [S_ s; VNum n];;
  '(n, b) ← read fd2 b 32;
  require (n =? 2) "%s: read %d bytes, wanted 2" [S_ s; VNum n];;
  _ ← unlink "truncfile";
  _ ← close fd1; _ ← close fd2; _ ← close fd3; Ret ().

Definition truncate2 (s : list Z) : prog unit :=
  _ ← unlink "truncfile";
  fd1 ← open "truncfile" (Z.lor (Z.lor O_CREATE O_TRUNC) O_WRONLY);
  _ ← write fd1 "abcd";
  fd2 ← open "truncfile" (Z.lor O_TRUNC O_WRONLY);
  n ← write fd1 "x";
  require (n =? -1) "%s: write returned %d, expected -1" [S_ s; VNum n];;
  _ ← unlink "truncfile";
  _ ← close fd1; _ ← close fd2; Ret ().

Definition truncate3_child (s : list Z) (_ : Z) : prog unit :=
  let b := replicate 32 0 in
  fd ← open "truncfile" O_WRONLY;
  require (0 <=? fd) "%s: open failed" [S_ s];;
  n ← write fd "1234567890";
  require (n =? 10) "%s: write got %d, expected 10" [S_ s; VNum n];;
  _ ← close fd;
  fd ← open "truncfile" O_RDONLY;
  _ ← read fd b 32;
  _ ← close fd; Ret ().
Definition truncate3_parent (s : list Z) (_ : Z) : prog unit :=
  fd ← open "truncfile" (Z.lor (Z.lor O_CREATE O_WRONLY) O_TRUNC);
  require (0 <=? fd) "%s: open failed" [S_ s];;
  n ← write fd "xxx";
  require (n =? 3) "%s: write got %d, expected 3" [S_ s; VNum n];;
  _ ← close fd; Ret ().
Definition truncate3 (s : list Z) : prog unit :=
  fd ← open "truncfile" (Z.lor (Z.lor O_CREATE O_TRUNC) O_WRONLY); _ ← close fd;
  pid ← sys CFork;
  if pid <? 0 then die "%s: fork failed" [S_ s] else
  if pid =? 0 then times 100 0 (truncate3_child s);; exit_ 0 else
  times 150 0 (truncate3_parent s);;
  '(_, xstatus) ← sys CWait;
  _ ← unlink "truncfile";
  exit_ xstatus.

(** ** Directories and [iput] *)

Definition iputtest (s : list Z) : prog unit :=
  r ← mkdir "iputdir"; require (0 <=? r) "%s: mkdir failed" [S_ s];;
  r ← chdir "iputdir"; require (0 <=? r) "%s: chdir iputdir failed" [S_ s];;
  r ← unlink "../iputdir"; require (0 <=? r) "%s: unlink ../iputdir failed" [S_ s];;
  r ← chdir "/"; require (0 <=? r) "%s: chdir / failed" [S_ s].

Definition exitiputtest (s : list Z) : prog unit :=
  pid ← sys CFork;
  if pid <? 0 then die "%s: fork failed" [S_ s] else
  if pid =? 0 then
    r ← mkdir "iputdir"; require (0 <=? r) "%s: mkdir failed" [S_ s];;
    r ← chdir "iputdir"; require (0 <=? r) "%s: child chdir failed" [S_ s];;
    r ← unlink "../iputdir"; require (0 <=? r) "%s: unlink ../iputdir failed" [S_ s];;
    exit_ 0
  else
  '(_, xstatus) ← sys CWait;
  exit_ xstatus.

Definition openiputtest (s : list Z) : prog unit :=
  r ← mkdir "oidir"; require (0 <=? r) "%s: mkdir oidir failed" [S_ s];;
  pid ← sys CFork;
  if pid <? 0 then die "%s: fork failed" [S_ s] else
  if pid =? 0 then
    fd ← open "oidir" O_RDWR;
    require (fd <? 0) "%s: open directory for write succeeded" [S_ s];;
    exit_ 0
  else
  _ ← sys (CSleep 1);
  r ← unlink "oidir"; require (r =? 0) "%s: unlink failed" [S_ s];;
  '(_, xstatus) ← sys CWait;
  exit_ xstatus.

Definition dirtest (s : list Z) : prog unit :=
  sayln "mkdir test" [];;
  r ← mkdir "dir0"; require (0 <=? r) "%s: mkdir failed" [S_ s];;
  r ← chdir "dir0"; require (0 <=? r) "%s: chdir dir0 failed" [S_ s];;
  r ← chdir ".."; require (0 <=? r) "%s: chdir .. failed" [S_ s];;
  r ← unlink "dir0"; require (0 <=? r) "%s: unlink dir0 failed" [S_ s];;
  sayln "%s: mkdir test ok" [].

(** ** Simple files *)

Definition opentest (s : list Z) : prog unit :=
  fd ← open "echo" 0;
  require (0 <=? fd) "%s: open echo failed!" [S_ s];;
  _ ← close fd;
  fd ← open "doesnotexist" 0;
  require (fd <? 0) "%s: open doesnotexist succeeded!" [S_ s].

(** The formats of the two messages have a [%s] without an argument. *)
Definition writetest_pair (fd i : Z) : prog unit :=
  r ← write fd "aaaaaaaaaa";
  require (r =? 10) "%s: error: write aa %d new file failed" [VNum i];;
  r ← write fd "bbbbbbbbbb";
  require (r =? 10) "%s: error: write bb %d new file failed" [VNum i].
Definition writetest (s : list Z) : prog unit :=
  fd ← open "small" CREATE_RDWR_;
  require (0 <=? fd) "%s: error: creat small failed!" [S_ s];;
  times 100 0 (writetest_pair fd);;
  _ ← close fd;
  fd ← open "small" O_RDONLY;
  require (0 <=? fd) "%s: error: open small failed!" [S_ s];;
  '(i, _) ← read fd buf0 (100 * 10 * 2);
  require (i =? 100 * 10 * 2) "%s: read failed" [S_ s];;
  _ ← close fd;
  r ← unlink "small";
  require (0 <=? r) "%s: unlink small failed" [S_ s].

(** [((int* )buf)[0] = i] *)
Definition set_int (buf : list Z) (i : Z) : list Z := le_split 4 i ++ drop 4 buf.
Definition get_int (buf : list Z) : Z := i32 (le_join (take 4 buf)).

Definition writebig_block (fd i : Z) : prog unit :=
  r ← sys (CWrite fd (take (Z.to_nat BSIZE) (set_int buf0 i)));
  require (r =? BSIZE) "%s: error: write big file failed" [VNum i].
(** The [for(;;)]: it leaves at the end of the file. *)
Definition writebig_read (fd : Z) (x : list Z * Z) : prog ((list Z * Z) + unit) :=
  let '(b, n) := x in
  '(i, b) ← read fd b BSIZE;
  if i =? 0 then
    if n =? MAXFILE - 1 then die0 "%s: read only %d blocks from big" [VNum n] else Ret (inr ())
  else if i <>? BSIZE then die "%s: read failed %d" [VNum i] else
  if get_int b <>? n then die "%s: read content of block %d is %d" [VNum n; VNum (get_int b)] else
  Ret (inl (b, n + 1)).
Definition writebig (s : list Z) : prog unit :=
  fd ← open "big" CREATE_RDWR_;
  require (0 <=? fd) "%s: error: creat big failed!" [S_ s];;
  times (Z.to_nat MAXFILE) 0 (writebig_block fd);;
  _ ← close fd;
  fd ← open "big" O_RDONLY;
  require (0 <=? fd) "%s: error: open big failed!" [S_ s];;
  pwhile (writebig_read fd) (set_int buf0 (MAXFILE - 1), 0);;
  _ ← close fd;
  r ← unlink "big";
  require (0 <=? r) "%s: unlink big failed" [S_ s].

(** The name of two characters *)
Definition name2 (a b : Z) : list Z := [u8 a; u8 b].

Definition createtest (s : list Z) : prog unit :=
  times 52 0 (λ i, fd ← sys (COpen (name2 97 (48 + i)) CREATE_RDWR_); _ ← close fd; Ret ());;
  times 52 0 (λ i, _ ← sys (CUnlink (name2 97 (48 + i))); Ret ()).

Definition exectest (s : list Z) : prog unit :=
  _ ← unlink "echo-ok";
  pid ← sys CFork;
  if pid <? 0 then die "%s: fork failed" [S_ s] else
  (if pid =? 0 then
     _ ← close 1;
     fd ← open "echo-ok" (Z.lor O_CREATE O_WRONLY);
     require (0 <=? fd) "%s: create failed" [S_ s];;
     require (fd =? 1) "%s: wrong fd" [S_ s];;
     r ← sys (CExec (bytes_of "echo") [bytes_of "echo"; bytes_of "OK"]);
     require (0 <=? r) "%s: exec echo failed" [S_ s]
   else Ret ());;
  '(r, xstatus) ← sys CWait;
  (if r <>? pid then sayln "%s: wait failed!" [S_ s] else Ret ());;
  if xstatus <>? 0 then exit_ xstatus else
  fd ← open "echo-ok" O_RDONLY;
  require (0 <=? fd) "%s: open failed" [S_ s];;
  '(r, b) ← read fd (replicate 3 0) 2;
  require (r =? 2) "%s: read failed" [S_ s];;
  _ ← unlink "echo-ok";
  if (at_ b 0 =? 79) && (at_ b 1 =? 75) then exit_ 0 else die "%s: wrong output" [S_ s].

Definition unlinkread (s : list Z) : prog unit :=
  fd ← open "unlinkread" CREATE_RDWR_;
  require (0 <=? fd) "%s: create unlinkread failed" [S_ s];;
  _ ← write fd "hello"; _ ← close fd;
  fd ← open "unlinkread" O_RDWR;
  require (0 <=? fd) "%s: open unlinkread failed" [S_ s];;
  r ← unlink "unlinkread";
  require (r =? 0) "%s: unlink unlinkread failed" [S_ s];;
  fd1 ← open "unlinkread" CREATE_RDWR_;
  _ ← write fd1 "yyy"; _ ← close fd1;
  '(r, b) ← read fd buf0 BUFSZ;
  (if r <>? 5 then die0 "%s: unlinkread read failed" [S_ s] else Ret ());;
  require (at_ b 0 =? 104) "%s: unlinkread wrong data" [S_ s];;
  r ← sys (CWrite fd (take 10 b));
  require (r =? 10) "%s: unlinkread write failed" [S_ s];;
  _ ← close fd; _ ← unlink "unlinkread"; Ret ().

Definition linktest (s : list Z) : prog unit :=
  _ ← unlink "lf1"; _ ← unlink "lf2";
  fd ← open "lf1" CREATE_RDWR_;
  require (0 <=? fd) "%s: create lf1 failed" [S_ s];;
  r ← write fd "hello";
  require (r =? 5) "%s: write lf1 failed" [S_ s];;
  _ ← close fd;
  r ← link "lf1" "lf2";
  require (0 <=? r) "%s: link lf1 lf2 failed" [S_ s];;
  _ ← unlink "lf1";
  r ← open "lf1" 0;
  require (r <? 0) "%s: unlinked lf1 but it is still there!" [S_ s];;
  fd ← open "lf2" 0;
  require (0 <=? fd) "%s: open lf2 failed" [S_ s];;
  '(r, _) ← read fd buf0 BUFSZ;
  require (r =? 5) "%s: read lf2 failed" [S_ s];;
  _ ← close fd;
  r ← link "lf2" "lf2";
  require (r <? 0) "%s: link lf2 lf2 succeeded! oops" [S_ s];;
  _ ← unlink "lf2";
  r ← link "lf2" "lf1";
  require (r <? 0) "%s: link non-existant succeeded! oops" [S_ s];;
  r ← link "." "lf1";
  require (r <? 0) "%s: link . lf1 succeeded! oops" [S_ s].

(** ** Several processes and one directory *)

(** [pid = fork()] is not checked for failure here. *)
Definition concreate_make (i : Z) : prog unit :=
  let file := name2 67 (48 + i) in
  _ ← sys (CUnlink file);
  pid ← sys CFork;
  (if (pid <>? 0) && (Z.rem i 3 =? 1) then _ ← sys (CLink (bytes_of "C0") file); Ret ()
   else if (pid =? 0) && (Z.rem i 5 =? 1) then _ ← sys (CLink (bytes_of "C0") file); Ret ()
   else
     fd ← sys (COpen file CREATE_RDWR_);
     require (0 <=? fd) "concreate create %s failed" [S_ file];;
     _ ← close fd; Ret ());;
  if pid =? 0 then exit_ 0 else
  '(_, xstatus) ← sys CWait;
  if xstatus <>? 0 then exit_ 1 else Ret ().
(** The listing: the entry, the flags [fa] and the number [n] of the names seen so far *)
Definition concreate_list (s : list Z) (fd : Z) (x : list Z * list Z * Z) : prog (list Z * list Z * Z + Z) :=
  let '(de, fa, n) := x in
  '(r, de) ← read fd de 16;
  if r <=? 0 then Ret (inr n) else
  if le_join (take 2 de) =? 0 then Ret (inl (de, fa, n)) else
  let name := drop 2 de in
  if (at_ name 0 =? 67) && (at_ name 2 =? 0) then
    let i := at_ name 1 - 48 in
    if (i <? 0) || (40 <=? i) then die "%s: concreate weird file %s" [S_ s; S_ (Ulib.cstr name)] else
    if at_ fa i <>? 0 then die "%s: concreate duplicate file %s" [S_ s; S_ (Ulib.cstr name)] else
    fa ← set_byte fa i 1;
    Ret (inl (de, fa, n + 1))
  else Ret (inl (de, fa, n)).
Definition close_open_ (file : list Z) : prog unit := fd ← sys (COpen file 0); _ ← close fd; Ret ().
Definition concreate_remove (s : list Z) (i : Z) : prog unit :=
  let file := name2 67 (48 + i) in
  pid ← sys CFork;
  if pid <? 0 then die "%s: fork failed" [S_ s] else
  (if ((Z.rem i 3 =? 0) && (pid =? 0)) || ((Z.rem i 3 =? 1) && (pid <>? 0))
   then times 6 0 (λ _, close_open_ file)
   else times 6 0 (λ _, _ ← sys (CUnlink file); Ret ()));;
  if pid =? 0 then exit_ 0 else _ ← sys CWait; Ret ().
Definition concreate (s : list Z) : prog unit :=
  times 40 0 concreate_make;;
  fd ← open "." 0;
  n ← pwhile (concreate_list s fd) (replicate 16 0, replicate 40 0, 0);
  _ ← close fd;
  require (n =? 40) "%s: concreate not enough files in directory listing" [S_ s];;
  times 40 0 (concreate_remove s).

(** [x = x * 1103515245 + 12345], unsigned *)
Fixpoint linkunlink_loop (k : nat) (x : Z) : prog unit :=
  match k with
  | O => Ret ()
  | S k' =>
      let x := u32 (x * 1103515245 + 12345) in
      (if x mod 3 =? 0 then fd ← open "x" CREATE_RDWR_; _ ← close fd; Ret ()
       else if x mod 3 =? 1 then _ ← link "cat" "x"; Ret ()
       else _ ← unlink "x"; Ret ());;
      linkunlink_loop k' x
  end.
Definition linkunlink (s : list Z) : prog unit :=
  _ ← unlink "x";
  pid ← sys CFork;
  if pid <? 0 then die "%s: fork failed" [S_ s] else
  linkunlink_loop 100 (if pid <>? 0 then 1 else 97);;
  if pid <>? 0 then _ ← sys CWait; Ret () else exit_ 0.

Definition sharedfd_write (s buf : list Z) (fd : Z) (_ : Z) : prog unit :=
  r ← sys (CWrite fd buf);
  require (r =? 10) "%s: write sharedfd failed" [S_ s].
Definition count_byte (c : Z) (l : list Z) : Z := Z.of_nat (length (filter (λ x, x = c) l)).
Definition sharedfd_read (fd : Z) (x : list Z * Z * Z) : prog (list Z * Z * Z + Z * Z) :=
  let '(b, nc, np) := x in
  '(n, b) ← read fd b 10;
  if n <=? 0 then Ret (inr (nc, np)) else
  Ret (inl (b, nc + count_byte 99 b, np + count_byte 112 b)).
Definition sharedfd (s : list Z) : prog unit :=
  _ ← unlink "sharedfd";
  fd ← open "sharedfd" CREATE_RDWR_;
  (if fd <? 0 then die0 "%s: cannot open sharedfd for writing" [S_ s] else Ret ());;
  pid ← sys CFork;
  let b := replicate 10 (if pid =? 0 then 99 else 112) in
  times 1000 0 (sharedfd_write s b fd);;
  (if pid =? 0 then exit_ 0 else
   '(_, xstatus) ← sys CWait;
   if xstatus <>? 0 then exit_ xstatus else Ret ());;
  _ ← close fd;
  fd ← open "sharedfd" 0;
  require (0 <=? fd) "%s: cannot open sharedfd for reading" [S_ s];;
  '(nc, np) ← pwhile (sharedfd_read fd) (b, 0, 0);
  _ ← close fd; _ ← unlink "sharedfd";
  if (nc =? 1000 * 10) && (np =? 1000 * 10) then exit_ 0 else die "%s: nc/np test fails" [S_ s].

Definition fourfiles_names : list string := ["f0"; "f1"; "f2"; "f3"]%string.
Definition fourfiles_write (fd pi : Z) (_ : Z) : prog unit :=
  n ← sys (CWrite fd (replicate 500 (48 + pi)));
  require (n =? 500) "write failed %d" [VNum n].
Definition fourfiles_child (s : list Z) (pi : Z) : prog unit :=
  let fname := nth (Z.to_nat pi) fourfiles_names ""%string in
  _ ← unlink fname;
  pid ← sys CFork;
  if pid <? 0 then die "fork failed" [S_ s] else
  if pid =? 0 then
    fd ← open fname CREATE_RDWR_;
    require (0 <=? fd) "create failed" [S_ s];;
    times 12 0 (fourfiles_write fd pi);;
    exit_ 0
  else Ret ().
(** [while((n = read(fd, buf, sizeof(buf))) > 0)]: it leaves with [total]. *)
Definition fourfiles_read (s : list Z) (fd i : Z) (x : list Z * Z) : prog (list Z * Z + Z) :=
  let '(b, total) := x in
  '(n, b) ← read fd b BUFSZ;
  if n <=? 0 then Ret (inr total) else
  if forallb (λ c, c =? 48 + i) (take (Z.to_nat n) b) then Ret (inl (b, total + n)) else die "wrong char" [S_ s].
Definition fourfiles_check (s : list Z) (i : Z) : prog unit :=
  let fname := nth (Z.to_nat i) fourfiles_names ""%string in
  fd ← open fname 0;
  total ← pwhile (fourfiles_read s fd i) (buf0, 0);
  _ ← close fd;
  require (total =? 12 * 500) "wrong length %d" [VNum total];;
  _ ← unlink fname; Ret ().
Definition fourfiles (s : list Z) : prog unit :=
  times 4 0 (fourfiles_child s);;
  times 4 0 (λ _, '(_, xstatus) ← sys CWait; if xstatus <>? 0 then exit_ xstatus else Ret ());;
  times 4 0 (fourfiles_check s).

Definition createdelete_file (s : list Z) (pi i : Z) : prog unit :=
  fd ← sys (COpen (name2 (112 + pi) (48 + i)) CREATE_RDWR_);
  require (0 <=? fd) "%s: create failed" [S_ s];;
  _ ← close fd;
  if (0 <? i) && (Z.rem i 2 =? 0) then
    r ← sys (CUnlink (name2 (112 + pi) (48 + Z.quot i 2)));
    require (0 <=? r) "%s: unlink failed" [S_ s]
  else Ret ().
Definition createdelete_child (s : list Z) (pi : Z) : prog unit :=
  pid ← sys CFork;
  if pid <? 0 then die "fork failed" [S_ s] else
  if pid =? 0 then times 20 0 (createdelete_file s pi);; exit_ 0 else Ret ().
Definition createdelete_check (s : list Z) (i pi : Z) : prog unit :=
  let name := name2 (112 + pi) (48 + i) in
  fd ← sys (COpen name 0);
  if ((i =? 0) || (10 <=? i)) && (fd <? 0) then die "%s: oops createdelete %s didn't exist" [S_ s; S_ name] else
  if ((1 <=? i) && (i <? 10)) && (0 <=? fd) then die "%s: oops createdelete %s did exist" [S_ s; S_ name] else
  if 0 <=? fd then _ ← close fd; Ret () else Ret ().
(** [name[0] = 'p' + i], with the number of the file and not of the process *)
Definition createdelete_clean (i : Z) : prog unit :=
  times 4 0 (λ _, _ ← sys (CUnlink (name2 (112 + i) (48 + i))); Ret ()).
Definition createdelete (s : list Z) : prog unit :=
  times 4 0 (createdelete_child s);;
  times 4 0 (λ _, '(_, xstatus) ← sys CWait; if xstatus <>? 0 then exit_ 1 else Ret ());;
  times 20 0 (λ i, times 4 0 (createdelete_check s i));;
  times 20 0 createdelete_clean.

(** ** Large and deep directories *)

Definition bigdir_name (i : Z) : list Z := [120; u8 (48 + Z.quot i 64); u8 (48 + Z.rem i 64)].
Definition bigdir (s : list Z) : prog unit :=
  _ ← unlink "bd";
  fd ← open "bd" O_CREATE;
  require (0 <=? fd) "%s: bigdir create failed" [S_ s];;
  _ ← close fd;
  times 500 0 (λ i,
    r ← sys (CLink (bytes_of "bd") (bigdir_name i));
    require (r =? 0) "%s: bigdir link(bd, %s) failed" [S_ s; S_ (bigdir_name i)]);;
  _ ← unlink "bd";
  times 500 0 (λ i,
    r ← sys (CUnlink (bigdir_name i));
    if r <>? 0 then die0 "%s: bigdir unlink failed" [S_ s] else Ret ()).

Definition subdir_make (s : list Z) : prog unit :=
  _ ← unlink "ff";
  r ← mkdir "dd"; require (r =? 0) "%s: mkdir dd failed" [S_ s];;
  fd ← open "dd/ff" CREATE_RDWR_;
  require (0 <=? fd) "%s: create dd/ff failed" [S_ s];;
  _ ← write fd "ff"; _ ← close fd;
  r ← unlink "dd"; require (r <? 0) "%s: unlink dd (non-empty dir) succeeded!" [S_ s];;
  r ← mkdir "/dd/dd"; require (r =? 0) "subdir mkdir dd/dd failed" [S_ s];;
  fd ← open "dd/dd/ff" CREATE_RDWR_;
  require (0 <=? fd) "%s: create dd/dd/ff failed" [S_ s];;
  _ ← write fd "FF"; _ ← close fd;
  fd ← open "dd/dd/../ff" 0;
  require (0 <=? fd) "%s: open dd/dd/../ff failed" [S_ s];;
  '(cc, b) ← read fd buf0 BUFSZ;
  require ((cc =? 2) && (at_ b 0 =? 102)) "%s: dd/dd/../ff wrong content" [S_ s];;
  _ ← close fd;
  r ← link "dd/dd/ff" "dd/dd/ffff"; require (r =? 0) "link dd/dd/ff dd/dd/ffff failed" [S_ s];;
  r ← unlink "dd/dd/ff"; require (r =? 0) "%s: unlink dd/dd/ff failed" [S_ s];;
  r ← open "dd/dd/ff" O_RDONLY; require (r <? 0) "%s: open (unlinked) dd/dd/ff succeeded" [S_ s].
Definition subdir_chdir (s : list Z) : prog unit :=
  r ← chdir "dd"; require (r =? 0) "%s: chdir dd failed" [S_ s];;
  r ← chdir "dd/../../dd"; require (r =? 0) "%s: chdir dd/../../dd failed" [S_ s];;
  r ← chdir "dd/../../../dd"; require (r =? 0) "chdir dd/../../dd failed" [S_ s];;
  r ← chdir "./.."; require (r =? 0) "%s: chdir ./.. failed" [S_ s];;
  fd ← open "dd/dd/ffff" 0; require (0 <=? fd) "%s: open dd/dd/ffff failed" [S_ s];;
  '(r, _) ← read fd buf0 BUFSZ; require (r =? 2) "%s: read dd/dd/ffff wrong len" [S_ s];;
  _ ← close fd; Ret ().
Definition subdir_errors (s : list Z) : prog unit :=
  r ← open "dd/dd/ff" O_RDONLY; require (r <? 0) "%s: open (unlinked) dd/dd/ff succeeded!" [S_ s];;
  r ← open "dd/ff/ff" CREATE_RDWR_; require (r <? 0) "%s: create dd/ff/ff succeeded!" [S_ s];;
  r ← open "dd/xx/ff" CREATE_RDWR_; require (r <? 0) "%s: create dd/xx/ff succeeded!" [S_ s];;
  r ← open "dd" O_CREATE; require (r <? 0) "%s: create dd succeeded!" [S_ s];;
  r ← open "dd" O_RDWR; require (r <? 0) "%s: open dd rdwr succeeded!" [S_ s];;
  r ← open "dd" O_WRONLY; require (r <? 0) "%s: open dd wronly succeeded!" [S_ s];;
  r ← link "dd/ff/ff" "dd/dd/xx"; require (r <>? 0) "%s: link dd/ff/ff dd/dd/xx succeeded!" [S_ s];;
  r ← link "dd/xx/ff" "dd/dd/xx"; require (r <>? 0) "%s: link dd/xx/ff dd/dd/xx succeeded!" [S_ s];;
  r ← link "dd/ff" "dd/dd/ffff"; require (r <>? 0) "%s: link dd/ff dd/dd/ffff succeeded!" [S_ s];;
  r ← mkdir "dd/ff/ff"; require (r <>? 0) "%s: mkdir dd/ff/ff succeeded!" [S_ s];;
  r ← mkdir "dd/xx/ff"; require (r <>? 0) "%s: mkdir dd/xx/ff succeeded!" [S_ s];;
  r ← mkdir "dd/dd/ffff"; require (r <>? 0) "%s: mkdir dd/dd/ffff succeeded!" [S_ s];;
  r ← unlink "dd/xx/ff"; require (r <>? 0) "%s: unlink dd/xx/ff succeeded!" [S_ s];;
  r ← unlink "dd/ff/ff"; require (r <>? 0) "%s: unlink dd/ff/ff succeeded!" [S_ s];;
  r ← chdir "dd/ff"; require (r <>? 0) "%s: chdir dd/ff succeeded!" [S_ s];;
  r ← chdir "dd/xx"; require (r <>? 0) "%s: chdir dd/xx succeeded!" [S_ s].
Definition subdir (s : list Z) : prog unit :=
  subdir_make s;;
  subdir_chdir s;;
  subdir_errors s;;
  r ← unlink "dd/dd/ffff"; require (r =? 0) "%s: unlink dd/dd/ff failed" [S_ s];;
  r ← unlink "dd/ff"; require (r =? 0) "%s: unlink dd/ff failed" [S_ s];;
  r ← unlink "dd"; require (r <>? 0) "%s: unlink non-empty dd succeeded!" [S_ s];;
  r ← unlink "dd/dd"; require (0 <=? r) "%s: unlink dd/dd failed" [S_ s];;
  r ← unlink "dd"; require (0 <=? r) "%s: unlink dd failed" [S_ s].

(** ** Large files *)

Definition bigwrite_size (s : list Z) (sz : Z) : prog unit :=
  fd ← open "bigwrite" CREATE_RDWR_;
  require (0 <=? fd) "%s: cannot create bigwrite" [S_ s];;
  times 2 0 (λ _,
    cc ← sys (CWrite fd (take (Z.to_nat sz) buf0));
    require (cc =? sz) "%s: write(%d) ret %d" [S_ s; VNum sz; VNum cc]);;
  _ ← close fd; _ ← unlink "bigwrite"; Ret ().
(** [for(sz = 499; sz < (MAXOPBLOCKS+2)*BSIZE; sz += 471)]: 26 sizes *)
Definition bigwrite (s : list Z) : prog unit :=
  _ ← unlink "bigwrite";
  times 26 0 (λ i, bigwrite_size s (499 + 471 * i)).

(** The [for(i = 0; ; i++)] of [bigfile]: it leaves with [total]. *)
Definition bigfile_read (s : list Z) (fd : Z) (x : list Z * Z * Z) : prog (list Z * Z * Z + Z) :=
  let '(b, i, total) := x in
  '(cc, b) ← read fd b 300;
  if cc <? 0 then die "%s: read bigfile failed" [S_ s] else
  if cc =? 0 then Ret (inr total) else
  if cc <>? 300 then die "%s: short read bigfile" [S_ s] else
  if (at_ b 0 <>? Z.quot i 2) || (at_ b 299 <>? Z.quot i 2) then die "%s: read bigfile wrong data" [S_ s] else
  Ret (inl (b, i + 1, total + cc)).
Definition bigfile (s : list Z) : prog unit :=
  _ ← unlink "bigfile.dat";
  fd ← open "bigfile.dat" CREATE_RDWR_;
  (if fd <? 0 then die0 "%s: cannot create bigfile" [S_ s] else Ret ());;
  times 20 0 (λ i,
    r ← sys (CWrite fd (replicate 600 (u8 i)));
    require (r =? 600) "%s: write bigfile failed" [S_ s]);;
  _ ← close fd;
  fd ← open "bigfile.dat" 0;
  require (0 <=? fd) "%s: cannot open bigfile" [S_ s];;
  total ← pwhile (bigfile_read s fd) (replicate 600 19 ++ drop 600 buf0, 0, 0);
  _ ← close fd;
  require (total =? 20 * 600) "%s: read bigfile wrong total" [S_ s];;
  _ ← unlink "bigfile.dat"; Ret ().

(** ** Names *)

Definition fourteen (s : list Z) : prog unit :=
  r ← mkdir "12345678901234"; require (r =? 0) "%s: mkdir 12345678901234 failed" [S_ s];;
  r ← mkdir "12345678901234/123456789012345";
  require (r =? 0) "%s: mkdir 12345678901234/123456789012345 failed" [S_ s];;
  fd ← open "123456789012345/123456789012345/123456789012345" O_CREATE;
  require (0 <=? fd) "%s: create 123456789012345/123456789012345/123456789012345 failed" [S_ s];;
  _ ← close fd;
  fd ← open "12345678901234/12345678901234/12345678901234" 0;
  require (0 <=? fd) "%s: open 12345678901234/12345678901234/12345678901234 failed" [S_ s];;
  _ ← close fd;
  r ← mkdir "12345678901234/12345678901234";
  require (r <>? 0) "%s: mkdir 12345678901234/12345678901234 succeeded!" [S_ s];;
  r ← mkdir "123456789012345/12345678901234";
  require (r <>? 0) "%s: mkdir 12345678901234/123456789012345 succeeded!" [S_ s];;
  _ ← unlink "123456789012345/12345678901234";
  _ ← unlink "12345678901234/12345678901234";
  _ ← unlink "12345678901234/12345678901234/12345678901234";
  _ ← unlink "123456789012345/123456789012345/123456789012345";
  _ ← unlink "12345678901234/123456789012345";
  _ ← unlink "12345678901234"; Ret ().

Definition rmdot (s : list Z) : prog unit :=
  r ← mkdir "dots"; require (r =? 0) "%s: mkdir dots failed" [S_ s];;
  r ← chdir "dots"; require (r =? 0) "%s: chdir dots failed" [S_ s];;
  r ← unlink "."; require (r <>? 0) "%s: rm . worked!" [S_ s];;
  r ← unlink ".."; require (r <>? 0) "%s: rm .. worked!" [S_ s];;
  r ← chdir "/"; require (r =? 0) "%s: chdir / failed" [S_ s];;
  r ← unlink "dots/."; require (r <>? 0) "%s: unlink dots/. worked!" [S_ s];;
  r ← unlink "dots/.."; require (r <>? 0) "%s: unlink dots/.. worked!" [S_ s];;
  r ← unlink "dots"; require (r =? 0) "%s: unlink dots failed!" [S_ s].

Definition dirfile (s : list Z) : prog unit :=
  fd ← open "dirfile" O_CREATE; require (0 <=? fd) "%s: create dirfile failed" [S_ s];;
  _ ← close fd;
  r ← chdir "dirfile"; require (r <>? 0) "%s: chdir dirfile succeeded!" [S_ s];;
  fd ← open "dirfile/xx" 0; require (fd <? 0) "%s: create dirfile/xx succeeded!" [S_ s];;
  fd ← open "dirfile/xx" O_CREATE; require (fd <? 0) "%s: create dirfile/xx succeeded!" [S_ s];;
  r ← mkdir "dirfile/xx"; require (r <>? 0) "%s: mkdir dirfile/xx succeeded!" [S_ s];;
  r ← unlink "dirfile/xx"; require (r <>? 0) "%s: unlink dirfile/xx succeeded!" [S_ s];;
  r ← link "README" "dirfile/xx"; require (r <>? 0) "%s: link to dirfile/xx succeeded!" [S_ s];;
  r ← unlink "dirfile"; require (r =? 0) "%s: unlink dirfile failed!" [S_ s];;
  fd ← open "." O_RDWR; require (fd <? 0) "%s: open . for writing succeeded!" [S_ s];;
  fd ← open "." 0;
  r ← write fd "x"; require (r <=? 0) "%s: write . succeeded!" [S_ s];;
  _ ← close fd; Ret ().

(** [if(fd >= 0) close(fd);] *)
Definition close_if (fd : Z) : prog unit := if 0 <=? fd then _ ← close fd; Ret () else Ret ().

Definition iref (s : list Z) : prog unit :=
  times (NINODE + 1) 0 (λ _,
    r ← mkdir "irefd"; require (r =? 0) "%s: mkdir irefd failed" [S_ s];;
    r ← chdir "irefd"; require (r =? 0) "%s: chdir irefd failed" [S_ s];;
    _ ← mkdir ""; _ ← link "README" "";
    fd ← open "" O_CREATE; close_if fd;;
    fd ← open "xx" O_CREATE; close_if fd;;
    _ ← unlink "xx"; Ret ());;
  times (NINODE + 1) 0 (λ _, _ ← chdir ".."; _ ← unlink "irefd"; Ret ());;
  _ ← chdir "/"; Ret ().

(** ** A full disk *)

Definition fsfull_name (n : Z) : list Z :=
  [102; u8 (48 + Z.quot n 1000); u8 (48 + Z.quot (Z.rem n 1000) 100); u8 (48 + Z.quot (Z.rem n 100) 10); u8 (48 + Z.rem n 10)].
Definition fsfull_write (fd : Z) (total : Z) : prog (Z + Z) :=
  cc ← sys (CWrite fd (take (Z.to_nat BSIZE) buf0));
  if cc <? BSIZE then Ret (inr total) else Ret (inl (total + cc)).
Definition fsfull_file (nfiles : Z) : prog (Z + Z) :=
  sayln "%s: writing %s" [S_ (fsfull_name nfiles)];;
  fd ← sys (COpen (fsfull_name nfiles) CREATE_RDWR_);
  if fd <? 0 then sayln "%s: open %s failed" [S_ (fsfull_name nfiles)];; Ret (inr nfiles) else
  total ← pwhile (fsfull_write fd) 0;
  sayln "%s: wrote %d bytes" [VNum total];;
  _ ← close fd;
  if total =? 0 then Ret (inr nfiles) else Ret (inl (nfiles + 1)).
Definition fsfull : prog unit :=
  sayln "fsfull test" [];;
  nfiles ← pwhile fsfull_file 0;
  pwhile (λ n, if 0 <=? n then _ ← sys (CUnlink (fsfull_name n)); Ret (inl (n - 1)) else Ret (inr ())) nfiles;;
  sayln "fsfull test finished" [].
