(* ===== verification/TestsProc.v ===== *)
(** * The system call tests, processes and memory: the other tests of [user/usertests.c],
      and its [main]

    A pointer that does not point to an object of the program is passed as a word ([CRaw], with the
    number of the call); a load or store through one is an event that the kernel may answer
    by killing the process.  A failed [sbrk] returns -1. *)

From stdpp Require Import prelude gmap strings list.
From Stdlib Require Import ZArith Lia.
From S2P Require Import Prelude.
From S2P Require Import Riscv.
From S2P Require Import Types.
From S2P Require Import User.
From S2P Require Import Ulib.
From S2P Require Import Utils.
From S2P Require Import Umalloc.
From S2P Require Import TestsFs.

(** The numbers of [syscall.h] that are used with words *)
Definition SYS_pipe : Z := 4.
Definition SYS_read : Z := 5.
Definition SYS_exec : Z := 7.
Definition SYS_open : Z := 15.
Definition SYS_write : Z := 16.
Definition SYS_unlink : Z := 18.
Definition SYS_link : Z := 19.

Definition raw (num : Z) (args : list Z) : prog Z := sys (CRaw num args).
Definition fork : prog Z := sys CFork.
Definition wait : prog (Z * Z) := sys CWait.
Definition sbrk (n : Z) : prog Z := sys (CSbrk n).
Definition pipe : prog (Z * (Z * Z)) := sys CPipe.

(** [for(;;) ;] *)
Definition forever {A} : prog A := pwhile (λ _ : unit, Ret (inl ())) ().

(** ** Bad pointers *)

Definition bad_addrs : list Z := [0x80000000; 0xffffffffffffffff].

Definition copyin_addr (addr : Z) : prog unit :=
  fd ← open "copyin1" (Z.lor O_CREATE O_WRONLY);
  require (0 <=? fd) "open(copyin1) failed" [];;
  n ← raw SYS_write [fd; addr; 8192];
  require (n <? 0) "write(fd, %p, 8192) returned %d, not -1" [VNum addr; VNum n];;
  _ ← close fd; _ ← unlink "copyin1";
  n ← raw SYS_write [1; addr; 8192];
  require (n <=? 0) "write(1, %p, 8192) returned %d, not -1 or 0" [VNum addr; VNum n];;
  '(r, fds) ← pipe; require (0 <=? r) "pipe() failed" [];;
  n ← raw SYS_write [fds.2; addr; 8192];
  require (n <=? 0) "write(pipe, %p, 8192) returned %d, not -1 or 0" [VNum addr; VNum n];;
  _ ← close fds.1; _ ← close fds.2; Ret ().
Definition copyin (s : list Z) : prog unit := times 2 0 (λ ai, copyin_addr (nth (Z.to_nat ai) bad_addrs 0)).

Definition copyout_addr (addr : Z) : prog unit :=
  fd ← open "README" 0;
  require (0 <=? fd) "open(README) failed" [];;
  n ← raw SYS_read [fd; addr; 8192];
  require (n <=? 0) "read(fd, %p, 8192) returned %d, not -1 or 0" [VNum addr; VNum n];;
  _ ← close fd;
  '(r, fds) ← pipe; require (0 <=? r) "pipe() failed" [];;
  n ← write fds.2 "x"; require (n =? 1) "pipe write failed" [];;
  n ← raw SYS_read [fds.1; addr; 8192];
  require (n <=? 0) "read(pipe, %p, 8192) returned %d, not -1 or 0" [VNum addr; VNum n];;
  _ ← close fds.1; _ ← close fds.2; Ret ().
Definition copyout (s : list Z) : prog unit := times 2 0 (λ ai, copyout_addr (nth (Z.to_nat ai) bad_addrs 0)).

Definition copyinstr1 (s : list Z) : prog unit :=
  times 2 0 (λ ai,
    let addr := nth (Z.to_nat ai) bad_addrs 0 in
    fd ← raw SYS_open [addr; Z.lor O_CREATE O_WRONLY];
    require (fd <? 0) "open(%p) returned %d, not -1" [VNum addr; VNum fd]).

(** [big] fills a page; with it [exec] must fail. *)
Definition copyinstr2_child (fd : Z) : prog unit :=
  let big := replicate (Z.to_nat PGSIZE) 120 in
  ret ← sys (CExec (bytes_of "echo") [big; big; big]);
  require (ret =? -1) "exec(echo, BIG) returned %d, not -1" [VNum fd];;
  exit_ 747.
Definition copyinstr2 (s : list Z) : prog unit :=
  let b := replicate (Z.to_nat MAXPATH) 120 in
  ret ← sys (CUnlink b); require (ret =? -1) "unlink(%s) returned %d, not -1" [S_ b; VNum ret];;
  fd ← sys (COpen b (Z.lor O_CREATE O_WRONLY)); require (fd =? -1) "open(%s) returned %d, not -1" [S_ b; VNum fd];;
  ret ← sys (CLink b b); require (ret =? -1) "link(%s, %s) returned %d, not -1" [S_ b; S_ b; VNum ret];;
  ret ← sys (CExec b [bytes_of "xx"]); require (ret =? -1) "exec(%s) returned %d, not -1" [S_ b; VNum fd];;
  pid ← fork;
  if pid <? 0 then die "fork failed" [] else
  (if pid =? 0 then copyinstr2_child fd else Ret ());;
  '(_, st) ← wait;
  require (st =? 747) "exec(echo, BIG) succeeded, should have failed" [].

(** The string at [b], the last byte of the memory, has no end; [args] is the address of the vector. *)
Definition copyinstr3 (args : Z) (s : list Z) : prog unit :=
  _ ← sbrk 8192;
  top ← sbrk 0;
  (if top mod PGSIZE <>? 0 then _ ← sbrk (PGSIZE - top mod PGSIZE); Ret () else Ret ());;
  top ← sbrk 0;
  require (top mod PGSIZE =? 0) "oops" [];;
  let b := top - 1 in
  sys (CStore b 120);;
  ret ← raw SYS_unlink [b]; require (ret =? -1) "unlink(%s) returned %d, not -1" [S_ [120]; VNum ret];;
  fd ← raw SYS_open [b; Z.lor O_CREATE O_WRONLY]; require (fd =? -1) "open(%s) returned %d, not -1" [S_ [120]; VNum fd];;
  ret ← raw SYS_link [b; b]; require (ret =? -1) "link(%s, %s) returned %d, not -1" [S_ [120]; S_ [120]; VNum ret];;
  ret ← raw SYS_exec [b; args]; require (ret =? -1) "exec(%s) returned %d, not -1" [S_ [120]; VNum fd].

(** ** Processes *)

(** [for(i = 0; i < SZ; i++) buf[i] = seq++;] *)
Definition seq_bytes (seq : Z) (n : nat) : list Z := (λ i, u8 (seq + Z.of_nat i)) <$> List.seq 0 n.

Definition pipe1_write (s : list Z) (fd n : Z) : prog unit :=
  r ← sys (CWrite fd (seq_bytes (1033 * n) 1033));
  require (r =? 1033) "%s: pipe1 oops 1" [S_ s].
(** The loop of the reader: [None] for the [return] on wrong data, else [total] *)
Definition pipe1_read (s : list Z) (fd : Z) (x : list Z * Z * Z * Z) : prog (list Z * Z * Z * Z + option Z) :=
  let '(b, seq, total, cc) := x in
  '(n, b) ← read fd b cc;
  if n <=? 0 then Ret (inr (Some total)) else
  if bool_decide (take (Z.to_nat n) b = seq_bytes seq (Z.to_nat n)) then
    let cc := if BUFSZ <? cc * 2 then BUFSZ else cc * 2 in
    Ret (inl (b, seq + n, total + n, cc))
  else sayln "%s: pipe1 oops 2" [S_ s];; Ret (inr None).
Definition pipe1 (s : list Z) : prog unit :=
  '(r, fds) ← pipe; require (r =? 0) "%s: pipe() failed" [S_ s];;
  pid ← fork;
  if pid =? 0 then
    _ ← close fds.1;
    times 5 0 (pipe1_write s fds.2);;
    exit_ 0
  else if 0 <? pid then
    _ ← close fds.2;
    r ← pwhile (pipe1_read s fds.1) (buf0, 0, 0, 1);
    match r with
    | None => Ret ()
    | Some total =>
        require (total =? 5 * 1033) "%s: pipe1 oops 3 total %d" [VNum total];;
        _ ← close fds.1;
        '(_, xstatus) ← wait;
        exit_ xstatus
    end
  else die "%s: fork() failed" [S_ s].

Definition preempt (s : list Z) : prog unit :=
  pid1 ← fork;
  if pid1 <? 0 then die0 "%s: fork failed" [] else
  if pid1 =? 0 then forever else
  pid2 ← fork;
  if pid2 <? 0 then die "%s: fork failed" [S_ s] else
  if pid2 =? 0 then forever else
  '(_, pfds) ← pipe;
  pid3 ← fork;
  if pid3 <? 0 then die "%s: fork failed" [S_ s] else
  if pid3 =? 0 then
    _ ← close pfds.1;
    r ← write pfds.2 "x";
    (if r <>? 1 then say "%s: preempt write error" [] else Ret ());;
    _ ← close pfds.2;
    forever
  else
  _ ← close pfds.2;
  '(r, _) ← read pfds.1 buf0 BUFSZ;
  if r <>? 1 then say "%s: preempt read error" [] else
  _ ← close pfds.1;
  say "kill... " [];;
  _ ← sys (CKill pid1); _ ← sys (CKill pid2); _ ← sys (CKill pid3);
  say "wait... " [];;
  _ ← wait; _ ← wait; _ ← wait; Ret ().

Definition exitwait (s : list Z) : prog unit :=
  times 100 0 (λ i,
    pid ← fork;
    if pid <? 0 then die "%s: fork failed" [S_ s] else
    if pid <>? 0 then
      '(r, xstate) ← wait;
      require (r =? pid) "%s: wait wrong pid" [S_ s];;
      require (i =? xstate) "%s: wait wrong exit status" [S_ s]
    else exit_ i).

Definition reparent (s : list Z) : prog unit :=
  master_pid ← sys CGetpid;
  times 200 0 (λ _,
    pid ← fork;
    if pid <? 0 then die "%s: fork failed" [S_ s] else
    if pid <>? 0 then
      '(r, _) ← wait; require (r =? pid) "%s: wait wrong pid" [S_ s]
    else
      pid2 ← fork;
      if pid2 <? 0 then _ ← sys (CKill master_pid); exit_ 1 else exit_ 0);;
  exit_ 0.

Definition twochildren (s : list Z) : prog unit :=
  times 1000 0 (λ _,
    pid1 ← fork;
    if pid1 <? 0 then die "%s: fork failed" [S_ s] else
    if pid1 =? 0 then exit_ 0 else
    pid2 ← fork;
    if pid2 <? 0 then die "%s: fork failed" [S_ s] else
    if pid2 =? 0 then exit_ 0 else
    _ ← wait; _ ← wait; Ret ()).

Definition forkfork_child (_ : Z) : prog unit :=
  pid1 ← fork;
  if pid1 <? 0 then exit_ 1 else
  if pid1 =? 0 then exit_ 0 else
  _ ← wait; Ret ().
Definition forkfork (s : list Z) : prog unit :=
  times 2 0 (λ _,
    pid ← fork;
    if pid <? 0 then die0 "%s: fork failed" [S_ s] else
    if pid =? 0 then times 200 0 forkfork_child;; exit_ 0 else Ret ());;
  times 2 0 (λ _,
    '(_, xstatus) ← wait;
    if xstatus <>? 0 then die0 "%s: fork in child failed" [S_ s] else Ret ()).

Definition forkforkfork_child (_ : unit) : prog (unit + unit) :=
  fd ← open "stopforking" 0;
  if 0 <=? fd then exit_ 0 else
  r ← fork;
  (if r <? 0 then fd ← open "stopforking" CREATE_RDWR_; _ ← close fd; Ret () else Ret ());;
  Ret (inl ()).
Definition forkforkfork (s : list Z) : prog unit :=
  _ ← unlink "stopforking";
  pid ← fork;
  if pid <? 0 then die0 "%s: fork failed" [S_ s] else
  if pid =? 0 then pwhile forkforkfork_child ();; exit_ 0 else
  _ ← sys (CSleep 20);
  fd ← open "stopforking" CREATE_RDWR_; _ ← close fd;
  _ ← wait;
  _ ← sys (CSleep 10); Ret ().

Definition reparent2 (s : list Z) : prog unit :=
  times 800 0 (λ _,
    pid1 ← fork;
    if pid1 <? 0 then die "fork failed" [] else
    if pid1 =? 0 then _ ← fork; _ ← fork; exit_ 0 else
    _ ← wait; Ret ());;
  exit_ 0.

(** ** Memory *)

(** [base] is the address of the allocator's static header.  The blocks are linked through their
    first words, kept in [links]. *)
Definition mem_alloc (base : Z) (x : heap * gmap Z Z * Z) : prog (heap * gmap Z Z * Z + heap * gmap Z Z * Z) :=
  let '(h, links, m1) := x in
  '(m2, h) ← malloc base 10001 h;
  if m2 =? 0 then Ret (inr (h, links, m1)) else Ret (inl (h, <[m2 := m1]> links, m2)).
Definition mem_free (x : heap * gmap Z Z * Z) : prog (heap * gmap Z Z * Z + heap) :=
  let '(h, links, m1) := x in
  if m1 =? 0 then Ret (inr h) else
  let m2 := default 0 (links !! m1) in
  h ← free m1 h;
  Ret (inl (h, links, m2)).
Definition mem (base : Z) (s : list Z) : prog unit :=
  pid ← fork;
  if pid =? 0 then
    '(h, links, m1) ← pwhile (mem_alloc base) (mkHeap ∅ 0, ∅, 0);
    h ← pwhile mem_free (h, links, m1);
    '(m1, h) ← malloc base (1024 * 20) h;
    if m1 =? 0 then die "couldn't allocate mem?!!" [S_ s] else
    _ ← free m1 h;
    exit_ 0
  else
    '(_, xstatus) ← wait;
    if xstatus =? -1 then exit_ 0 else exit_ xstatus.

(** [for(n=0; n<N; n++)]: the value of [n] at the end *)
Fixpoint forktest_forks (k : nat) (n : Z) : prog Z :=
  match k with
  | O => Ret n
  | S k' =>
      pid ← fork;
      if pid <? 0 then Ret n else if pid =? 0 then exit_ 0 else forktest_forks k' (n + 1)
  end.
Definition forktest (s : list Z) : prog unit :=
  n ← forktest_forks 1000 0;
  require (n <>? 0) "%s: no fork at all!" [S_ s];;
  require (n <>? 1000) "%s: fork claimed to work 1000 times!" [S_ s];;
  times (Z.to_nat n) 0 (λ _, '(r, _) ← wait; require (0 <=? r) "%s: wait stopped early" [S_ s]);;
  '(r, _) ← wait;
  require (r =? -1) "%s: wait got too many" [S_ s].

Definition TOOMUCH : Z := 1024 * 1024 * 1024.
Definition sbrkbasic_child : prog unit :=
  a ← sbrk TOOMUCH;
  if a =? -1 then exit_ 0 else
  times (Z.to_nat (TOOMUCH / 4096)) 0 (λ i, sys (CStore (a + 4096 * i) 99));;
  exit_ 1.
(** 5000 times one byte: the break at the end *)
Fixpoint sbrkbasic_bytes (k : nat) (i a : Z) : prog Z :=
  match k with
  | O => Ret a
  | S k' =>
      b ← sbrk 1;
      require (b =? a) "%s: sbrk test failed %d %x %x" [VNum i; VNum a; VNum b];;
      sys (CStore b 1);;
      sbrkbasic_bytes k' (i + 1) (b + 1)
  end.
Definition sbrkbasic (s : list Z) : prog unit :=
  pid ← fork;
  if pid <? 0 then die "fork failed in sbrkbasic" [] else
  (if pid =? 0 then sbrkbasic_child else Ret ());;
  '(_, xstatus) ← wait;
  require (xstatus <>? 1) "%s: too much memory allocated!" [S_ s];;
  a ← sbrk 0;
  a ← sbrkbasic_bytes 5000 0 a;
  pid ← fork;
  if pid <? 0 then die "%s: sbrk test fork failed" [S_ s] else
  _ ← sbrk 1;
  c ← sbrk 1;
  require (c =? a + 1) "%s: sbrk test failed post-fork" [S_ s];;
  if pid =? 0 then exit_ 0 else
  '(_, xstatus) ← wait;
  exit_ xstatus.

Definition BIG : Z := 100 * 1024 * 1024.
(** [for(pp = a; pp < eee; pp += 4096) *pp = 1;] *)
Definition touch (a eee : Z) : prog unit :=
  times (Z.to_nat ((eee - a + 4095) / 4096)) 0 (λ i, sys (CStore (a + 4096 * i) 1)).
(** The argument of [sbrk] is an [int]. *)
Definition sbrkmuch (s : list Z) : prog unit :=
  oldbrk ← sbrk 0;
  a ← sbrk 0;
  let amt := u64 (BIG - a) in
  p ← sbrk (i32 amt);
  require (p =? a) "%s: sbrk test failed to grow big address space; enough phys mem?" [S_ s];;
  eee ← sbrk 0;
  touch a eee;;
  let lastaddr := BIG - 1 in
  sys (CStore lastaddr 99);;
  a ← sbrk 0;
  c ← sbrk (- PGSIZE);
  require (c <>? -1) "%s: sbrk could not deallocate" [S_ s];;
  c ← sbrk 0;
  require (c =? a - PGSIZE) "%s: sbrk deallocation produced wrong address, a %x c %x" [VNum a; VNum c];;
  a ← sbrk 0;
  c ← sbrk PGSIZE;
  (if c <>? a then die "%s: sbrk re-allocation failed, a %x c %x" [VNum a; VNum c] else
   b ← sbrk 0;
   require (b =? a + PGSIZE) "%s: sbrk re-allocation failed, a %x c %x" [VNum a; VNum c]);;
  v ← sys (CLoad lastaddr);
  require (v <>? 99) "%s: sbrk de-allocation didn't really deallocate" [S_ s];;
  a ← sbrk 0;
  b ← sbrk 0;
  c ← sbrk (i32 (- (b - oldbrk)));
  require (c =? a) "%s: sbrk downsize failed, a %x c %x" [VNum a; VNum c].

(** [for(a = KERNBASE; a < KERNBASE+2000000; a += 50000)]: 40 addresses *)
Definition kernmem (s : list Z) : prog unit :=
  times 40 0 (λ i,
    let a := KERNBASE + 50000 * i in
    pid ← fork;
    if pid <? 0 then die "%s: fork failed" [S_ s] else
    (if pid =? 0 then
       v ← sys (CLoad a);
       die "%s: oops could read %x = %x" [VNum a; VNum v]
     else Ret ());;
    '(_, xstatus) ← wait;
    if xstatus <>? -1 then exit_ 1 else Ret ()).

(** The children of [sbrkfail] that take memory: the pids *)
Fixpoint sbrkfail_fork (k : nat) (fds : Z * Z) : prog (list Z) :=
  match k with
  | O => Ret []
  | S k' =>
      pid ← fork;
      (if pid =? 0 then
         b ← sbrk 0;
         _ ← sbrk (i32 (BIG - b));
         _ ← write fds.2 "x";
         pwhile (λ _ : unit, _ ← sys (CSleep 1000); Ret (inl ())) ()
       else Ret ());;
      (if pid <>? -1 then _ ← sys (CRead fds.1 1); Ret () else Ret ());;
      pids ← sbrkfail_fork k' fds;
      Ret (pid :: pids)
  end.
Fixpoint sbrkfail_kill (pids : list Z) : prog unit :=
  match pids with
  | [] => Ret ()
  | pid :: pids' =>
      (if pid =? -1 then Ret () else _ ← sys (CKill pid); _ ← wait; Ret ());;
      sbrkfail_kill pids'
  end.
(** The sum of the bytes at [a], [a + PGSIZE], ... *)
Fixpoint sum_pages (k : nat) (a n : Z) : prog Z :=
  match k with O => Ret n | S k' => v ← sys (CLoad a); sum_pages k' (a + PGSIZE) (i32 (n + v)) end.
Definition sbrkfail (s : list Z) : prog unit :=
  '(r, fds) ← pipe; require (r =? 0) "%s: pipe() failed" [S_ s];;
  pids ← sbrkfail_fork 10 fds;
  c ← sbrk PGSIZE;
  sbrkfail_kill pids;;
  require (c <>? -1) "%s: failed sbrk leaked memory" [S_ s];;
  pid ← fork;
  if pid <? 0 then die "%s: fork failed" [S_ s] else
  (if pid =? 0 then
     a ← sbrk 0;
     _ ← sbrk (10 * BIG);
     n ← sum_pages (Z.to_nat (10 * BIG / PGSIZE)) a 0;
     die "%s: allocate a lot of memory succeeded %d" [VNum n]
   else Ret ());;
  '(_, xstatus) ← wait;
  if (xstatus <>? -1) && (xstatus <>? 2) then exit_ 1 else Ret ().

Definition sbrkarg (s : list Z) : prog unit :=
  a ← sbrk PGSIZE;
  fd ← open "sbrk" (Z.lor O_CREATE O_WRONLY);
  _ ← unlink "sbrk";
  require (0 <=? fd) "%s: open sbrk failed" [S_ s];;
  n ← raw SYS_write [fd; a; PGSIZE];
  require (0 <=? n) "%s: write sbrk failed" [S_ s];;
  _ ← close fd;
  a ← sbrk PGSIZE;
  r ← raw SYS_pipe [a];
  require (r =? 0) "%s: pipe() failed" [S_ s].

(** [for(p = 0; p <= (uint)hi; p += PGSIZE)]: 276 pages; [old] is the address of the string *)
Definition validatetest (old : Z) (s : list Z) : prog unit :=
  times 276 0 (λ i,
    r ← raw SYS_link [old; PGSIZE * i];
    require (r =? -1) "%s: link should not succeed" [S_ s]).

Definition uninit : list Z := replicate 10000 0.
Definition bsstest (s : list Z) : prog unit :=
  times 10000 0 (λ i, require (at_ uninit i =? 0) "%s: bss test failed" [S_ s]).

Definition bigarg : list Z := bytes_of "bigargs test: failed" ++ nl ++ replicate 199 32.
Definition bigargtest (s : list Z) : prog unit :=
  _ ← unlink "bigarg-ok";
  pid ← fork;
  if pid =? 0 then
    _ ← sys (CExec (bytes_of "echo") (replicate (MAXARG - 1) bigarg));
    fd ← open "bigarg-ok" O_CREATE;
    _ ← close fd;
    exit_ 0
  else if pid <? 0 then die "%s: bigargtest: fork failed" [S_ s] else
  '(_, xstatus) ← wait;
  if xstatus <>? 0 then exit_ xstatus else
  fd ← open "bigarg-ok" 0;
  require (0 <=? fd) "%s: bigarg test failed!" [S_ s];;
  _ ← close fd; Ret ().

Definition argptest (s : list Z) : prog unit :=
  fd ← open "init" O_RDONLY;
  require (0 <=? fd) "%s: open failed" [S_ s];;
  b ← sbrk 0;
  _ ← raw SYS_read [fd; b - 1; -1];
  _ ← close fd; Ret ().

(** The result and the new [randstate] *)
Definition rand (randstate : Z) : Z * Z :=
  let r := u64 (randstate * 1664525 + 1013904223) in (u32 r, r).

(** [sp] is the stack pointer, which [r_sp] reads. *)
Definition stacktest (sp : Z) (s : list Z) : prog unit :=
  pid ← fork;
  if pid =? 0 then
    v ← sys (CLoad (sp - PGSIZE));
    die "%s: stacktest: read below stack %p" [VNum v]
  else if pid <? 0 then die "%s: fork failed" [S_ s] else
  '(_, xstatus) ← wait;
  if xstatus =? -1 then exit_ 0 else exit_ xstatus.

Definition pgbug (argv : Z) (s : list Z) : prog unit :=
  _ ← raw SYS_exec [0xeaeb0b5b00002f5e; argv];
  _ ← raw SYS_pipe [0xeaeb0b5b00002f5e];
  exit_ 0.

(** [int sz = (uint64) sbrk(0)] *)
Definition in_child_wait (c : prog unit) : prog unit :=
  pid ← fork;
  if pid <? 0 then die "fork failed" [] else
  if pid =? 0 then c;; exit_ 0 else
  _ ← wait; Ret ().
Definition sbrkbugs (s : list Z) : prog unit :=
  in_child_wait (b ← sbrk 0; _ ← sbrk (i32 (- i32 b)); Ret ());;
  in_child_wait (b ← sbrk 0; _ ← sbrk (i32 (- (i32 b - 3500))); Ret ());;
  in_child_wait (b ← sbrk 0; _ ← sbrk (i32 (10 * 4096 + 2048 - b)); _ ← sbrk (-10); Ret ());;
  exit_ 0.

Definition badwrite (s : list Z) : prog unit :=
  _ ← unlink "junk";
  times 600 0 (λ _,
    fd ← open "junk" (Z.lor O_CREATE O_WRONLY);
    require (0 <=? fd) "open junk failed" [];;
    _ ← raw SYS_write [fd; 0xffffffffff; 1];
    _ ← close fd; _ ← unlink "junk"; Ret ());;
  fd ← open "junk" (Z.lor O_CREATE O_WRONLY);
  require (0 <=? fd) "open junk failed" [];;
  r ← write fd "x"; require (r =? 1) "write failed" [];;
  _ ← close fd; _ ← unlink "junk";
  exit_ 0.

(** [echo] and [argv] are the addresses of the string and of the vector, whose first pointer is bad. *)
Definition badarg (echo argv : Z) (s : list Z) : prog unit :=
  times 50000 0 (λ _, _ ← raw SYS_exec [echo; argv]; Ret ());;
  exit_ 0.

(** Takes a page at a time until [sbrk] fails. *)
Definition execout_take (_ : unit) : prog (unit + unit) :=
  a ← sbrk 4096;
  if a =? -1 then Ret (inr ()) else
  sys (CStore (a + 4096 - 1) 1);;
  Ret (inl ()).
Definition execout (s : list Z) : prog unit :=
  times 15 0 (λ avail,
    pid ← fork;
    if pid <? 0 then die "fork failed" [] else
    if pid =? 0 then
      pwhile execout_take ();;
      times (Z.to_nat avail) 0 (λ _, _ ← sbrk (-4096); Ret ());;
      _ ← close 1;
      _ ← sys (CExec (bytes_of "echo") [bytes_of "echo"; bytes_of "x"]);
      exit_ 0
    else _ ← wait; Ret ());;
  exit_ 0.

(** ** The free pages *)

Definition countfree_child (fd : Z) (_ : unit) : prog (unit + unit) :=
  a ← sbrk 4096;
  if a =? -1 then Ret (inr ()) else
  sys (CStore (a + 4096 - 1) 1);;
  r ← write fd "x";
  require (r =? 1) "write() failed in countfree()" [];;
  Ret (inl ()).
Definition countfree_parent (fd n : Z) : prog (Z + Z) :=
  '(cc, _) ← sys (CRead fd 1);
  if cc <? 0 then die "read() failed in countfree()" [] else
  if cc =? 0 then Ret (inr n) else Ret (inl (n + 1)).
Definition countfree : prog Z :=
  '(r, fds) ← pipe; require (0 <=? r) "pipe() failed in countfree()" [];;
  pid ← fork;
  if pid <? 0 then die "fork failed in countfree()" [] else
  (if pid =? 0 then
     _ ← close fds.1;
     pwhile (countfree_child fds.2) ();;
     exit_ 0
   else Ret ());;
  _ ← close fds.2;
  n ← pwhile (countfree_parent fds.1) 0;
  _ ← close fds.1;
  _ ← wait;
  Ret n.

(** ** The runner *)

(** Each test in a process of its own; the result is whether its exit status is 0. *)
Definition run (f : list Z → prog unit) (s : list Z) : prog bool :=
  say "test %s: " [S_ s];;
  pid ← fork;
  if pid <? 0 then die "runtest: fork error" [] else
  if pid =? 0 then f s;; exit_ 0 else
  '(_, xstatus) ← wait;
  (if xstatus <>? 0 then sayln "FAILED" [] else sayln "OK" []);;
  Ret (xstatus =? 0).

Section main.
(** The addresses that appear in the program: of the allocator's header, of strings and vectors, and the stack pointer *)
Context (base args nosuchfile argv0 echo argv1 sp : Z).

Definition tests : list ((list Z → prog unit) * string) :=
  [ (execout, "execout"); (copyin, "copyin"); (copyout, "copyout"); (copyinstr1, "copyinstr1"); (copyinstr2, "copyinstr2");
    (copyinstr3 args, "copyinstr3"); (truncate1, "truncate1"); (truncate2, "truncate2"); (truncate3, "truncate3");
    (reparent2, "reparent2"); (pgbug argv0, "pgbug"); (sbrkbugs, "sbrkbugs"); (badarg echo argv1, "badarg");
    (reparent, "reparent"); (twochildren, "twochildren"); (forkfork, "forkfork"); (forkforkfork, "forkforkfork");
    (argptest, "argptest"); (createdelete, "createdelete"); (linkunlink, "linkunlink"); (linktest, "linktest");
    (unlinkread, "unlinkread"); (concreate, "concreate"); (subdir, "subdir"); (fourfiles, "fourfiles");
    (sharedfd, "sharedfd"); (exectest, "exectest"); (bigargtest, "bigargtest"); (bigwrite, "bigwrite");
    (bsstest, "bsstest"); (sbrkbasic, "sbrkbasic"); (sbrkmuch, "sbrkmuch"); (kernmem, "kernmem"); (sbrkfail, "sbrkfail");
    (sbrkarg, "sbrkarg"); (validatetest nosuchfile, "validatetest"); (stacktest sp, "stacktest"); (opentest, "opentest");
    (writetest, "writetest"); (writebig, "writebig"); (createtest, "createtest"); (openiputtest, "openiput");
    (exitiputtest, "exitiput"); (iputtest, "iput"); (mem base, "mem"); (pipe1, "pipe1"); (preempt, "preempt");
    (exitwait, "exitwait"); (rmdot, "rmdot"); (fourteen, "fourteen"); (bigfile, "bigfile"); (dirfile, "dirfile");
    (iref, "iref"); (forktest, "forktest"); (bigdir, "bigdir") ]%string.

(** The loop over the tests in one round of the continuous mode: whether one failed *)
Fixpoint until_failure (l : list ((list Z → prog unit) * string)) : prog bool :=
  match l with
  | [] => Ret false
  | (f, s) :: l' => ok ← run f (bytes_of s); match ok with true => until_failure l' | false => Ret true end
  end.
Definition continuous_round (continuous : Z) (_ : unit) : prog (unit + unit) :=
  free0 ← countfree;
  fail ← until_failure tests;
  pwhen fail (sayln "SOME TESTS FAILED" [];; if continuous <>? 2 then exit_ 1 else Ret ());;
  free1 ← countfree;
  (if free1 <? free0 then
     sayln "FAILED -- lost %d free pages" [VNum (free0 - free1)];; if continuous <>? 2 then exit_ 1 else Ret ()
   else Ret ());;
  Ret (inl ()).

(** The loop over all tests, or the one named [justone] *)
Fixpoint run_tests (justone : option (list Z)) (l : list ((list Z → prog unit) * string)) (fail : bool) : prog bool :=
  match l with
  | [] => Ret fail
  | (f, s) :: l' =>
      if match justone with None => true | Some j => strcmp (bytes_of s) j =? 0 end then
        ok ← run f (bytes_of s); run_tests justone l' (match ok with true => fail | false => true end)
      else run_tests justone l' fail
  end.

(** From "usertests starting" on *)
Definition main_once (justone : option (list Z)) : prog unit :=
  sayln "usertests starting" [];;
  free0 ← countfree;
  fail ← run_tests justone tests false;
  match fail with
  | true => sayln "SOME TESTS FAILED" [];; exit_ 1
  | false =>
      free1 ← countfree;
      if free1 <? free0 then sayln "FAILED -- lost some free pages %d (out of %d)" [VNum free1; VNum free0];; exit_ 1
      else sayln "ALL TESTS PASSED" [];; exit_ 0
  end.

(** [argv] is the vector after the name of the program. *)
Definition main (argv : list (list Z)) : prog unit :=
  let go (continuous : Z) : prog unit := sayln "continuous usertests starting" [];; pwhile (continuous_round continuous) tt in
  match argv with
  | [] => main_once None
  | [a] =>
      if strcmp a (bytes_of "-c") =? 0 then go 1
      else if strcmp a (bytes_of "-C") =? 0 then go 2
      else if at_ a 0 <>? 45 then main_once (Some a)
      else sayln "Usage: usertests [-c] [testname]" [];; exit_ 1
  | _ => sayln "Usage: usertests [-c] [testname]" [];; exit_ 1
  end.
End main.
