(* ===== verification/KernelRun.v ===== *)
(** * User programs on the kernel

    A user program is run on the kernel's own code: each of its system calls puts the arguments into
    the memory and the trapframe of a process, and calls [syscall].  The disk is the
    synchronous one that the driver is proved to implement.  The tests of [usertests.c] are run this way. *)

From stdpp Require Import prelude gmap strings list.
From Stdlib Require Import ZArith Lia.
From S2P Require Import Prelude.
From S2P Require Import Monad.
From S2P Require Import Riscv.
From S2P Require Import Types.
From S2P Require Import Mem.
From S2P Require Import Spinlock.
From S2P Require Import Kalloc.
From S2P Require Import Vm.
From S2P Require Import VmSpec.
From S2P Require Import Proc.
From S2P Require Import ProcSpec.
From S2P Require Import Bio.
From S2P Require Import BioSpec.
From S2P Require Import Cache.
From S2P Require Import Log.
From S2P Require Import Fs.
From S2P Require Import FsSpec.
From S2P Require Import PathSpec.
From S2P Require Import ProcLife.
From S2P Require Import Sysfile.
From S2P Require Import User.
From S2P Require Import TestsFs.
From S2P Require Import TestsProc.

#[local] Existing Instance symbols0.
#[local] Existing Instance sv39_pte2pa.
#[local] Existing Instance sync_disk.

(** ** A process *)

(** The pages of the page table, the trapframe and the [i]-th page of the user's memory. *)
Definition pt_page (i : Z) : Z := 0x87000000 + PGSIZE * i.
Definition tf_page : Z := 0x87003000.
Definition user_page (i : Z) : Z := 0x87010000 + PGSIZE * i.
Definition NPAGES : nat := 4.

Definition pte_of (pa flags : Z) : Z := Z.lor (PA2PTE pa) flags.
Definition user_table : gmap Z Z :=
  let m := store64 (store64 ∅ (pt_page 0) (pte_of (pt_page 1) PTE_V)) (pt_page 1) (pte_of (pt_page 2) PTE_V) in
  foldr (λ i m, store64 m (pt_page 2 + 8 * Z.of_nat i)
    (pte_of (user_page (Z.of_nat i)) (Z.lor (Z.lor PTE_V PTE_R) (Z.lor PTE_W PTE_U)))) m (seq 0 NPAGES).

(** A disk of 1000 blocks with the files README, echo and init in the root. *)
Definition root_dir : list Z :=
  dirent_of 1 [46] ++ dirent_of 1 [46; 46] ++ dirent_of 2 (bytes_of "README") ++
  dirent_of 3 (bytes_of "echo") ++ dirent_of 4 (bytes_of "init").
Definition file_inode (addr : Z) : dinode := mkDinode T_FILE 0 0 1 5 (addr :: replicate 12 0).
Definition image : gmap Z (list Z) :=
  {[ 33 := block_of (replicate 64 0 ++ bytes_of_dinode (mkDinode T_DIR 0 0 1 80 (48 :: replicate 12 0)) ++
       bytes_of_dinode (file_inode 49) ++ bytes_of_dinode (file_inode 50) ++ bytes_of_dinode (file_inode 51));
     46 := replicate 6 255 ++ [15] ++ replicate 1017 0;
     48 := block_of root_dir;
     49 := block_of (bytes_of "hello"); 50 := block_of (bytes_of "hello"); 51 := block_of (bytes_of "hello") ]}.

Definition image_sb : superblock := mkSuperblock FSMAGIC 1000 940 200 30 2 33 46.

(** Six free pages, linked through their first words. *)
Definition free_page (i : Z) : Z := 0x87020000 + PGSIZE * i.
Definition free_pages (m : gmap Z Z) : gmap Z Z :=
  foldr (λ i m, store64 m (free_page (Z.of_nat i)) (if (i =? 5)%nat then 0 else free_page (Z.of_nat i + 1))) m (seq 0 6).

(** Process 3 runs, in the root directory, with no open file; the string "nosuchfile" is at address 2048 of its memory. *)
Definition the_user : proc :=
  set_p_cwd (Some 0%nat) (set_p_sz (PGSIZE * Z.of_nat NPAGES) (set_p_pagetable (pt_page 0)
    (set_p_trapframe tf_page (set_p_pid 3 (set_p_state RUNNING proc0))))).
Definition NOSUCH : Z := 2048.
Definition booted : kstate :=
  let root := mkInode ROOTDEV ROOTINO 1 0 0 0 0 0 0 (replicate 13 0) in
  let s := fs_with image (<[0%nat := root]> (replicate NINODE inode0)) in
  let m := store_bytes (free_pages user_table) (user_page 0 + NOSUCH) (bytes_of "nosuchfile" ++ [0]) in
  set_k_log (mkLog 2 30 0 false ROOTDEV 0 (replicate 30 0)) (set_k_sb image_sb (set_k_freelist (free_page 0)
    (set_k_mem m (set_k_procs (<[0%nat := the_user]> (k_procs s)) s)))).

(** ** System calls *)

Definition poke (va : Z) (l : list Z) (s : kstate) : kstate := set_k_mem (store_bytes (k_mem s) (user_page 0 + va) l) s.
Definition peek (va : Z) (n : nat) (s : kstate) : list Z := load_bytes (k_mem s) (user_page 0 + va) n.
Definition reg_set (off v : Z) (s : kstate) : kstate := set_k_mem (store64 (k_mem s) (tf_page + off) (u64 v)) s.

(** The call with number [num], and its result; [None] when the kernel panics or the process would wait. *)
Definition trap (num a0 a1 a2 : Z) (s : kstate) : option (Z * kstate) :=
  match syscall (reg_set TF_a7 num (reg_set TF_a0 a0 (reg_set TF_a1 a1 (reg_set TF_a2 a2 s)))) with
  | Ok _ t => Some (i64 (load64 (k_mem t) (tf_page + TF_a0)), t)
  | _ => None
  end.

(** Strings are at address 0 and 1024 and the buffer of [read] and [write] at 4096. *)
Definition STR2 : Z := 1024.
Definition BUF : Z := 4096.
Definition on_path (num : Z) (path : list Z) (a1 a2 : Z) (s : kstate) : option (Z * kstate) :=
  trap num 0 a1 a2 (poke 0 (path ++ [0]) s).

Definition kcall {R} (c : call R) : kstate → option (R * kstate) :=
  match c in call R return kstate → option (R * kstate) with
  | CPipe => λ s, '(r, t) ← trap SYS_pipe STR2 0 0 s;
      Some ((r, (le_join (peek STR2 4 t), le_join (peek (STR2 + 4) 4 t))), t)
  | CWrite fd l => λ s, trap SYS_write fd BUF (Z.of_nat (length l)) (poke BUF l s)
  | CRead fd n => λ s, '(r, t) ← trap SYS_read fd BUF n s; Some ((r, peek BUF (Z.to_nat r) t), t)
  | CClose fd => trap 21 fd 0 0
  | COpen path mode => on_path SYS_open path mode 0
  | CMknod path major minor => on_path 17 path major minor
  | CUnlink path => on_path SYS_unlink path 0 0
  | CLink old new => λ s, on_path SYS_link old STR2 0 (poke STR2 (new ++ [0]) s)
  | CMkdir path => on_path 20 path 0 0
  | CChdir path => on_path 9 path 0 0
  | CDup fd => trap 10 fd 0 0
  | CGetpid => trap 11 0 0 0
  | CSbrk n => trap 12 n 0 0
  | CStore addr v => λ s,
      match walkaddr (p_pagetable (the_proc 0 s)) (PGROUNDDOWN addr) s with
      | Ok pa t => if pa =? 0 then None else Some ((), set_k_mem (wr (k_mem t) (pa + addr mod PGSIZE) v) t)
      | _ => None
      end
  | CRaw num args => trap num (nth 0 args 0) (nth 1 args 0) (nth 2 args 0)
  | _ => λ _, None
  end.

(** How a run ends: the program returns, exits, or stops in a call. *)
Inductive end_of (A : Type) :=
| Returns (a : A) (s : kstate)
| Exits (status : Z) (s : kstate)
| Stops.
Arguments Returns {A} a s.
Arguments Exits {A} status s.
Arguments Stops {A}.

Fixpoint on_kernel {A} (p : prog A) (s : kstate) : end_of A :=
  match p with
  | Ret a => Returns a s
  | Vis c k =>
      match c with
      | CExit st => Exits st s
      | _ => match kcall c s with Some (r, t) => on_kernel (k r) t | None => Stops end
      end
  | Fault | Fuel => Stops
  end.

(** ** The tests *)

(** Nothing is left over: every entry of the file table is free, only the root has a reference and it is the current directory,
    the log is empty, and the blocks and inodes in use on the disk are those of the image. *)
Definition types (d : gmap Z (list Z)) : list Z :=
  (λ i, di_type (dinode_of_bytes (64 * (Z.of_nat i mod 16)) (default [] (d !! (33 + Z.of_nat i / 16))))) <$> seq 0 200.
Definition clean (s : kstate) : bool :=
  forallb (λ f, f_ref f =? 0) (k_ftable s) &&
  bool_decide (i_ref <$> k_icache s = 1 :: replicate 49 0) &&
  bool_decide (p_cwd (the_proc 0 s) = Some 0%nat) && (i_inum (the_inode 0 s) =? ROOTINO) &&
  (lg_outstanding (k_log s) =? 0) && (lh_n (k_log s) =? 0) &&
  bool_decide (k_disk s !! 46 = image !! 46) && bool_decide (types (k_disk s) = types image).

Definition passes (t : list Z → prog unit) : bool :=
  match on_kernel (t (bytes_of "test")) booted with
  | Returns _ s | Exits 0 s => clean s
  | _ => false
  end.

Lemma passes_spec t : passes t = true →
  ∃ s, (on_kernel (t (bytes_of "test")) booted = Returns () s ∨ on_kernel (t (bytes_of "test")) booted = Exits 0 s) ∧ clean s = true.
Proof.
  unfold passes. destruct (on_kernel _ _) as [[] s|st s|]; [..|done].
  - intros H. exists s. split; [by left|done].
  - destruct st; [|done..]. intros H. exists s. split; [by right|done].
Qed.

(** The tests of one process that are run here. *)
Definition file_tests : list (list Z → prog unit) :=
  [ opentest; truncate1; truncate2; iputtest; dirtest; unlinkread; linktest; rmdot; fourteen; dirfile ].
Definition pointer_tests : list (list Z → prog unit) :=
  [ copyin; copyout; copyinstr1; copyinstr3 0; pgbug 0; argptest; validatetest NOSUCH ].

Lemma passes_all l : Forall (λ t, passes t = true) l → Forall (λ t : list Z → prog unit,
  ∃ s, (on_kernel (t (bytes_of "test")) booted = Returns () s ∨ on_kernel (t (bytes_of "test")) booted = Exits 0 s) ∧ clean s = true) l.
Proof. intros Hl. eapply Forall_impl; [exact Hl|]. exact passes_spec. Qed.

Ltac run_each := repeat (apply Forall_cons_2; [vm_cast_no_check (eq_refl true)|]); apply Forall_nil_2.

Lemma file_tests_run : Forall (λ t, passes t = true) file_tests.
Proof. unfold file_tests. run_each. Qed.
Lemma pointer_tests_run : Forall (λ t, passes t = true) pointer_tests.
Proof. unfold pointer_tests. run_each. Qed.


(** A write of [n] bytes at [addr] to a new file, and then one of a byte that is there: the results, and what
    the first one made of the offset and of the size of the file. *)
Definition write_from (addr n : Z) : option (Z * Z * Z * Z) :=
  '(fd, s1) ← kcall (COpen (bytes_of "copyin1") (Z.lor O_CREATE O_WRONLY)) booted;
  '(r, s2) ← kcall (CRaw SYS_write [fd; addr; n]) s1;
  f ← k_ftable s2 !! 0%nat; ip ← f_ip f;
  '(r2, _) ← kcall (CWrite fd [0]) s2;
  Some (r, f_off f, i_size (the_inode ip s2), r2).

